(* ===== verification/_CoqProject ===== *)
-Q . S2P
Prelude.v
GoStrings.v
GoNet.v
GoMath.v
SmtpState.v
SmtpSyntax.v
Spool.v
SmtpConfig.v
DataReader.v
Access.v
CommandSecurity.v
Srs.v
Pipeline.v
Session.v
AuthSession.v
Commands.v
SmtpProtocol.v
SmtpLiveness.v
Resources.v
Connections.v
QueueStorage.v
QueueManager.v
QueueProcessor.v
QueueLiveness.v
SharedState.v
Shaper.v
Pools.v
Providers.v
SessionCache.v
Outbound.v
MxLookup.v
Delivery.v
Lmtp.v
SplitDelivery.v
Bounce.v
Suppression.v
MtaSts.v
StsDelivery.v
Dane.v
Campaign.v
