(* ===== verification/Prelude.v ===== *)
(** * Elemta: a verification development

    Elemta is a mail transfer agent written in Go.  This library follows a message through
    it: from the network into the queue (internal/smtp, internal/srs, internal/auth),
    through the queue until every recipient is settled (internal/queue), out to other
    servers or to the mailbox server (internal/queue, internal/delivery, internal/dane),
    and back to its sender as a notification (internal/smtp/bounce.go), with the
    suppression list and the bulk sender beside it (internal/suppression,
    internal/campaign).  It proves what makes that path correct: who may send what to
    whom, that the byte stream is read without ambiguity, that an accepted message is
    neither lost nor kept twice when calls fail half way, that it leaves only over the
    channels and at the pace its policies allow, and that what is reported about it is
    what happened.

    ** The program and the files

    A connection is served by a session: a loop that reads a line, screens it, hands it
    to a command handler and writes replies.  Handlers change the session state; after
    DATA or the last BDAT chunk the received message goes through a pipeline of checks
    and ends in the queue.  Workers of the queue processor take messages from it, hand
    them to a delivery handler and act on the outcome it reports for each recipient.

    Shared:
    - Prelude: results, the error-returning state monad [M] that handlers are written in
      with its notation, weakest preconditions ([wp], tactic [wp_step]) and the hint
      database [elemta].
    - GoStrings, GoNet, GoMath: what the code uses of Go's [strings], [strconv],
      [unicode], [net], [int32] and [float64].

    Reception (internal/smtp):
    - SmtpState (session_state.go): the session's protocol state, one definition per
      method.
    - SmtpSyntax (parsers of session_commands.go, dsn.go): paths, ESMTP parameters,
      xtext, mailboxes.
    - Spool (spool.go), SmtpConfig (config.go, message_checks.go).
    - DataReader (line_reader.go, session_data.go): the bounded line reader, DATA, BDAT.
    - Access (access_control.go, network.go): networks, access lists, relaying.
    - CommandSecurity (command_security.go): the screen every command line passes.
    - Srs (internal/srs): sender rewriting.
    - Pipeline (session_data.go, forged_authres.go): from received message to queue.
    - Session (session.go), AuthSession (session_auth.go, internal/auth), Commands
      (session_commands.go, session.go): the session object, AUTH, the handlers,
      ProcessCommand and the loop; [loop_step] is one iteration, [reachable] what any
      number of iterations gives.
    - SmtpProtocol: an abstract SMTP machine and the simulation of the loop by it.
    - SmtpLiveness: the measure that makes every session end.
    - Resources (resource_manager.go, memory_manager.go): connection tracker, rate
      limiters, circuit breakers, memory checks.  Connections (resource_manager.go,
      server.go): the resource manager and the life of a connection, action by action.

    The queue (internal/queue):
    - QueueStorage (storage.go, tombstone.go, content_hash.go, storage_file_claim.go): the
      file backend.
    - QueueManager (manager.go, interfaces.go): the manager over any backend; the class
      [StorageBackend] is the Go interface, [BackendLaws] its contract, failures
      included, and the file backend an instance of both.
    - QueueProcessor (processor.go): one message's turn, from delivery outcomes to
      notification, retry or failure, proved against [BackendLaws].
    - QueueLiveness: the processor over a store that answers ([LiveBackend]), in fair
      executions.

    Delivery (internal/queue unless named):
    - SharedState (shared_state.go): what nodes share through Valkey; the class
      [SharedStore] with its laws, which the Valkey store satisfies.
    - Shaper (shaper.go): the pace of a destination.  Pools (pools.go): source addresses
      and their warm-up.  Providers (providers.go): mailbox providers.
    - SessionCache (session_cache.go), Outbound (delivery_handler.go, dane.go): one
      transaction with another server over a [Network], whose calls are kept in a trace.
    - MxLookup (mx_cache.go, delivery_handler.go), Delivery (delivery_handler.go): the
      servers of a domain, and a message with all its domains.
    - Lmtp (lmtp_handler.go, lmtp_pool.go): the mailbox server.  SplitDelivery
      (split_delivery.go): both routes behind one handler; [DeliveryContract] is what it
      relies on, and Delivery and Lmtp are instances.
    - MtaSts (internal/delivery), StsDelivery: policies, and Outbound under them.
    - Dane (internal/dane): TLSA records and the certificates they stand for.

    Around it:
    - Bounce (internal/smtp/bounce.go): delivery status notifications.
    - Suppression (internal/suppression): addresses not to be mailed again.
    - Campaign (internal/campaign): bulk sending.

    ** How the code is modelled

    Strings are byte strings.  Go errors are their texts, and an error that reaches the
    client starts with its reply code.  Methods under a mutex are functions on the record
    the mutex protects; where an operation takes several locks in turn (connections,
    campaigns) its critical sections are steps of a relation and are interleaved.
    Handlers are computations in [M S A := S -> result A * S]: an error keeps what was
    changed before it.  The clock is an argument.  Integers are [Z]; where the width
    shows, the wrap-around is written out (BDAT sizes, SIZE, counters, token buckets,
    durations).

    What is outside the repository or is a service of its own (the credential store,
    scanners, DNS, HTTPS, sockets, TLS, HMAC, SHA-256, SQL, Unicode tables beyond ASCII)
    is a parameter: a record ([services], [pipeline_env], [round]) whose answers may
    differ at every command, or a class with the laws the proofs use
    ([UnicodeTables]/[UnicodeLaws], [Mac]/[MacLaws], [Digest], [Json]/[JsonLaws],
    [Network], [PolicyNet], [LmtpNet], [Crypto], [RowOrder], [Clock]/[ClockLaws]), each
    with an instance that the examples run on.

    A client connection is the finite script of what the peer will do (bytes, a timeout, a
    failure; the end of the list is end of file).  The disk is a set of maps together
    with the list of the calls that will fail, so one theorem covers every place an
    operation can be interrupted at.

    ** What the theorems show

    - SmtpProtocol: the loop refines the abstract machine; so no message is queued for
      somebody not entitled to send it, and nobody is signed in without a password the
      directory accepts.
    - DataReader: with strict line endings an accepted message is exactly the CRLF lines
      up to the marker, with no second reading of the bytes (no smuggling); stuffing and
      unstuffing round trip; a refused message leaves the reader behind a lone dot or the
      handler knows that it lost its place.
    - SmtpLiveness: no session runs for ever; what was pipelined before STARTTLS is
      dropped.
    - Pipeline: what is queued, and with which annotations; forged
      Authentication-Results lines do not survive.
    - Srs: reversal of what was signed, and of nothing else.
    - SmtpSyntax, Access: the parsers and lists accept what they should.
    - Resources, Connections: how much a limiter grants; counts of connections agree with
      the table of connections at every interleaving.
    - QueueStorage: enqueueing, consuming and moving are safe to interrupt and to
      repeat; leases exclude each other; cleanup takes only what has expired.
    - QueueProcessor: whatever the delivery handler reports and whatever fails, every
      recipient is delivered, still queued, or the bounce engine was asked to report it; a
      notification that was interrupted is completed by the next worker without another
      delivery; what a worker stores for that decodes again.
    - QueueLiveness: with a working store and engine every message comes to an end.
    - SharedState, Shaper, Pools: a pause is kept, sends are spaced, a warm-up cap is kept
      by the nodes together while the store answers and by each of them when not; routers
      are well formed.
    - Outbound, StsDelivery, Delivery: content is sent only over a connection that
      REQUIRETLS, DANE and MTA-STS allow, parked sessions included, from an address of the
      sender's pool; an outcome says delivered only where a server accepted the recipient
      and the content.
    - MxLookup, MtaSts, Dane: which servers are found and when a failure is final; the
      policy cache is bounded; which certificates are accepted.
    - Lmtp, SplitDelivery: what the mailbox server's replies are evidence of; nothing in
      the clear where TLS is configured; outcomes of two routes do not mix.
    - Bounce: a notification is queued once, and its bytes cannot be forged by what it
      quotes.  Suppression: entries stay, and are earned.  Campaign: every recipient once.

    Examples beside the theorems state where the code falls short of its comments.

    ** Bounds and fuel

    Three loops over the connection take fuel: the line reader ([bounded_loop]), the DATA
    loop ([read_loop]) and the drain of a refused message ([drain_loop]).  Each is started
    with more fuel than the unread script has events, and every round consumes at least
    one; [readBoundedSMTPLine_refines] and [read_loop_terminates] show that the fuel is
    enough.  The parser of IPv6 addresses counts its eight groups.  [open_transaction] has
    two rounds, as the code makes a second attempt only after a reused session and none
    of those is offered to it.  [break_word] gets the length of the word, of which each
    round takes 900 bytes.  [lhlo_rest] reads as many continuation lines as its argument
    says, [import_pages] as many pages: theorems about them hold for every such bound, or
    say how large it must be.  All other recursions are structural.  The command loop is
    not given fuel: [session_terminates] proves that its step relation is well founded.

    ** What is not modelled

    Logging and metrics; sockets, TLS and DNS messages below the calls made to them; the
    scanners and mail-authentication checks behind their verdicts; the SQL queue backends
    and the indexed file backend; the tickers and worker pool around the queue processor
    (workers on different messages touch different files); abuse detection, reports and
    plugins; the configuration files and command-line tools; mailboxes, IMAP, Sieve and
    the web interfaces, which do not share code with the path modelled here. *)

From Stdlib Require Export ZArith Lia Ascii String Sorted.
From stdpp Require Export base tactics list gmap strings.

(** ** Scope and shared notation *)

Declare Scope elemta_scope.
Delimit Scope elemta_scope with elemta.
Open Scope string_scope.
Open Scope list_scope.
Open Scope Z_scope.
Open Scope elemta_scope.

(** Go error values are carried by their text: every error the modelled code
    returns to a client is an [fmt.Errorf] string whose first bytes are the SMTP
    reply code. *)
Inductive result (A : Type) : Type :=
| Ok (a : A)
| Err (e : string).
Arguments Ok {A} a.
Arguments Err {A} e.

Definition is_ok {A} (r : result A) : bool :=
  match r with Ok _ => true | Err _ => false end.

#[global] Instance result_ret : MRet result := fun A a => Ok a.
#[global] Instance result_bind : MBind result :=
  fun A B f r => match r with Ok a => f a | Err e => Err e end.

Lemma result_bind_ok {A B} (m : result A) (f : A -> result B) b :
  m ≫= f = Ok b -> exists a, m = Ok a /\ f a = Ok b.
Proof. destruct m; [eauto|done]. Qed.

(** ** Machine integers *)

(** [int64] arithmetic of Go wraps around; values are kept as [Z] in the signed
    64-bit range and [wrap64] is applied where the source adds. *)
Definition two63 : Z := 9223372036854775808.
Definition two64 : Z := 18446744073709551616.
Definition int64_ok (z : Z) : bool := ((- two63 <=? z) && (z <? two63))%bool.
Definition wrap64 (z : Z) : Z := (z + two63) mod two64 - two63.

Lemma wrap64_id z : int64_ok z = true -> wrap64 z = z.
Proof.
  unfold int64_ok, wrap64, two63, two64. intros H.
  rewrite Z.mod_small; lia.
Qed.

Lemma wrap64_range z : int64_ok (wrap64 z) = true.
Proof.
  unfold int64_ok, wrap64, two63, two64.
  pose proof (Z.mod_pos_bound (z + 9223372036854775808) 18446744073709551616). lia.
Qed.

(** ** Record update

    [r <| field := v |>] is the record [r] with one field replaced, as an
    assignment through a Go pointer does. *)
Class Update {R T : Type} (proj : R -> T) := update : (T -> T) -> R -> R.
Arguments update {R T} proj {_} _ _.

(** Builds [fun f r => mk (p1 r) .. (f (pi r)) .. (pn r)] for a record with
    primitive projections. *)
Ltac derive_update :=
  lazymatch goal with
  | |- @Update ?R ?T ?proj =>
      let f := fresh "f" in
      let r := fresh "r" in
      intros f r;
      let e := open_constr:(ltac:(econstructor) : R) in
      unify e r;
      let b := (eval pattern (proj r) in e) in
      lazymatch b with
      | ?F _ => let t := eval cbv beta in (F (f (proj r))) in exact t
      end
  end.
#[global] Hint Extern 0 (Update _) => derive_update : typeclass_instances.

Notation "r <| proj := v |>" := (update proj (fun _ => v) r)
  (at level 1, left associativity, proj at level 9, format "r  <| proj  :=  v |>")
  : elemta_scope.
Notation "r <| proj ::= f |>" := (update proj f r)
  (at level 1, left associativity, proj at level 9, format "r  <| proj  ::=  f |>")
  : elemta_scope.

(** ** A state monad with error results

    Handlers of the program mutate a session and return a Go [error].  The state
    is kept on every path: an error does not undo what was written before it. *)
Definition M (S A : Type) : Type := S -> result A * S.

#[global] Instance M_ret {S} : MRet (M S) := fun A a s => (Ok a, s).
#[global] Instance M_bind {S} : MBind (M S) :=
  fun A B f m s =>
    match m s with
    | (Ok a, s') => f a s'
    | (Err e, s') => (Err e, s')
    end.

Definition fail {S A} (e : string) : M S A := fun s => (Err e, s).
Definition get {S} : M S S := fun s => (Ok s, s).
Definition gets {S A} (f : S -> A) : M S A := fun s => (Ok (f s), s).
Definition modify {S} (f : S -> S) : M S unit := fun s => (Ok tt, f s).

(** [attempt m] runs [m] and hands its error back as a value, as Go does with
    [if err := m(); err != nil]. *)
Definition attempt {S A} (m : M S A) : M S (result A) :=
  fun s => let '(r, s') := m s in (Ok r, s').

(** [liftR] runs a pure computation that may fail. *)
Definition liftR {S A} (r : result A) : M S A := fun s => (r, s).

(** [guard_err b e] is [if b { return e }]. *)
Definition reject_if {S} (b : bool) (e : string) : M S unit :=
  fun s => if b then (Err e, s) else (Ok tt, s).

(** ** Reasoning about the monad: relations kept by a computation

    [kept R m] says that running [m] relates the state before to the state after
    by [R].  With [R] reflexive and transitive it composes along [mbind], so an
    invariant of a handler is proved by looking at its primitive steps only. *)
Definition kept {S A} (R : S -> S -> Prop) (m : M S A) : Prop :=
  forall s, R s (snd (m s)).

Section Kept.
Context {S : Type} (R : S -> S -> Prop) `{!Reflexive R, !Transitive R}.

Lemma kept_ret {A} (a : A) : kept R (mret a).
Proof. intros s. cbn. reflexivity. Qed.

Lemma kept_fail {A} e : kept R (fail e : M S A).
Proof. intros s. cbn. reflexivity. Qed.

Lemma kept_get : kept R get.
Proof. intros s. cbn. reflexivity. Qed.

Lemma kept_gets {A} (f : S -> A) : kept R (gets f).
Proof. intros s. cbn. reflexivity. Qed.

Lemma kept_liftR {A} (r : result A) : kept R (liftR r).
Proof. intros s. cbn. reflexivity. Qed.

Lemma kept_reject_if b e : kept R (reject_if b e).
Proof. intros s. unfold reject_if. destruct b; cbn; reflexivity. Qed.

Lemma kept_attempt {A} (m : M S A) : kept R m -> kept R (attempt m).
Proof. intros H s. specialize (H s). unfold attempt. by destruct (m s). Qed.

Lemma kept_bind {A B} (m : M S A) (f : A -> M S B) :
  kept R m -> (forall a, kept R (f a)) -> kept R (mbind f m).
Proof.
  intros Hm Hf s. unfold mbind, M_bind. specialize (Hm s).
  destruct (m s) as [[a|e] s'] eqn:E; cbn in *; [|done].
  etrans; [exact Hm|apply Hf].
Qed.
End Kept.

Lemma kept_modify {S} (R : S -> S -> Prop) f :
  (forall s, R s (f s)) -> kept R (modify f).
Proof. intros H s. apply H. Qed.

(** ** Weakest preconditions

    [wp m Q s]: running [m] from [s] ends in a result and a state that satisfy [Q].
    The rules below execute a handler symbolically, one primitive at a time. *)
Definition wp {S A} (m : M S A) (Q : result A -> S -> Prop) (s : S) : Prop :=
  Q (fst (m s)) (snd (m s)).

Section Wp.
Context {S : Type}.
Implicit Types s : S.

Lemma wp_mono {A} (m : M S A) (P Q : result A -> S -> Prop) s :
  wp m P s -> (forall r s', P r s' -> Q r s') -> wp m Q s.
Proof. unfold wp. auto. Qed.

Lemma wp_bind {A B} (m : M S A) (f : A -> M S B) Q s :
  wp m (fun r s' => match r with Ok a => wp (f a) Q s' | Err e => Q (Err e) s' end) s ->
  wp (mbind f m) Q s.
Proof. unfold wp, mbind, M_bind. by destruct (m s) as [[a|e] s']. Qed.

Lemma wp_bind_inv {A B} (m : M S A) (f : A -> M S B) Q s :
  wp (mbind f m) Q s ->
  wp m (fun r s' => match r with Ok a => wp (f a) Q s' | Err e => Q (Err e) s' end) s.
Proof. unfold wp, mbind, M_bind. by destruct (m s) as [[a|e] s']. Qed.

Lemma wp_attempt {A} (m : M S A) (Q : result (result A) -> S -> Prop) s :
  wp m (fun r s' => Q (Ok r) s') s -> wp (attempt m) Q s.
Proof. unfold wp, attempt. by destruct (m s). Qed.

Lemma wp_reject_if b e (Q : result unit -> S -> Prop) s :
  (b = true -> Q (Err e) s) -> (b = false -> Q (Ok tt) s) -> wp (reject_if b e) Q s.
Proof. unfold wp, reject_if. destruct b; auto. Qed.

Lemma wp_kept {A} (R : S -> S -> Prop) (m : M S A) (Q : result A -> S -> Prop) s :
  kept R m -> (forall r s', R s s' -> Q r s') -> wp m Q s.
Proof. unfold wp, kept. auto. Qed.

Lemma wp_run {A} (m : M S A) (Q : result A -> S -> Prop) s r s' :
  wp m Q s -> m s = (r, s') -> Q r s'.
Proof. unfold wp. intros H E. by rewrite E in H. Qed.
End Wp.

(** ** A plain state monad

    For code that hands errors around as values next to other results. *)
Definition St (S A : Type) : Type := S -> A * S.

#[global] Instance St_ret {S} : MRet (St S) := fun A a s => (a, s).
#[global] Instance St_bind {S} : MBind (St S) :=
  fun A B f m s => let '(a, s') := m s in f a s'.

Definition st_gets {S A} (f : S -> A) : St S A := fun s => (f s, s).
Definition st_modify {S} (f : S -> S) : St S unit := fun s => (tt, f s).

(** [runs m Q s]: run from [s], [m] ends in a result and a state with [Q]. *)
Definition runs {S A} (m : St S A) (Q : A -> S -> Prop) (s : S) : Prop :=
  Q (fst (m s)) (snd (m s)).

Section Runs.
Context {S : Type}.
Implicit Type s : S.

Lemma runs_ret {A} (a : A) (Q : A -> S -> Prop) s : Q a s -> runs (mret a) Q s.
Proof. done. Qed.

Lemma runs_bind {A B} (m : St S A) (f : A -> St S B) Q s :
  runs m (fun a s' => runs (f a) Q s') s -> runs (mbind f m) Q s.
Proof. unfold runs, mbind, St_bind. by destruct (m s). Qed.

Lemma runs_mono {A} (m : St S A) (Q Q' : A -> S -> Prop) s :
  runs m Q s -> (forall a s', Q a s' -> Q' a s') -> runs m Q' s.
Proof. unfold runs. auto. Qed.

Lemma runs_gets {A} (f : S -> A) (Q : A -> S -> Prop) s : Q (f s) s -> runs (st_gets f) Q s.
Proof. done. Qed.

Lemma runs_modify (f : S -> S) (Q : unit -> S -> Prop) s : Q tt (f s) -> runs (st_modify f) Q s.
Proof. done. Qed.

Lemma runs_result {A} (m : St S A) (Q : A -> S -> Prop) s a s' : runs m Q s -> m s = (a, s') -> Q a s'.
Proof. unfold runs. intros H E. by rewrite E in H. Qed.
End Runs.

(** Run [m] on a part of the state. *)
Definition st_zoom {S T A} (part : S -> T) (put : T -> S -> S) (m : St T A) : St S A := fun s =>
  let '(a, t) := m (part s) in (a, put t s).

Lemma runs_zoom {S T A} (part : S -> T) (put : T -> S -> S) (m : St T A) (Q : A -> S -> Prop) s :
  runs m (fun a t => Q a (put t s)) (part s) -> runs (st_zoom part put m) Q s.
Proof. unfold runs, st_zoom. by destruct (m (part s)). Qed.

(** [st_kept R m]: running [m] relates the state before to the state after by [R]. *)
Definition st_kept {S A} (R : S -> S -> Prop) (m : St S A) : Prop := forall s, R s (snd (m s)).

Section StKept.
Context {S : Type} (R : S -> S -> Prop) `{!PreOrder R}.

Lemma st_kept_ret {A} (a : A) : st_kept R (mret a).
Proof. intros s. cbn. reflexivity. Qed.
Lemma st_kept_gets {A} (f : S -> A) : st_kept R (st_gets f).
Proof. intros s. cbn. reflexivity. Qed.
Lemma st_kept_modify (f : S -> S) : (forall s, R s (f s)) -> st_kept R (st_modify f).
Proof. intros H s. apply H. Qed.
Lemma st_kept_bind {A B} (m : St S A) (f : A -> St S B) :
  st_kept R m -> (forall a, st_kept R (f a)) -> st_kept R (mbind f m).
Proof.
  intros Hm Hf s. unfold mbind, St_bind. specialize (Hm s). destruct (m s) as [a s']. cbn in Hm.
  etrans; [exact Hm|apply Hf].
Qed.
Lemma st_kept_zoom {T A} (R' : T -> T -> Prop) (part : S -> T) (put : T -> S -> S) (m : St T A) :
  (forall s t, R' (part s) t -> R s (put t s)) -> st_kept R' m -> st_kept R (st_zoom part put m).
Proof. intros H Hm s. unfold st_zoom. specialize (Hm (part s)). destruct (m (part s)). by apply H. Qed.
Lemma st_kept_runs {A} (m : St S A) s : st_kept R m -> runs m (fun _ s' => R s s') s.
Proof. intros H. apply H. Qed.
End StKept.

(** ** Stable sorting, [sort.SliceStable] *)

Section SliceStable.
Context {A : Type} (less : A -> A -> bool).

Fixpoint insert_stable (x : A) (l : list A) : list A :=
  match l with
  | [] => [x]
  | y :: l' => if less y x then y :: insert_stable x l' else x :: l
  end.
Definition SliceStable (l : list A) : list A := foldr insert_stable [] l.

Lemma insert_stable_Permutation x l : insert_stable x l ≡ₚ x :: l.
Proof.
  induction l as [|y l IH]; cbn; [done|]. destruct (less y x); [|done]. rewrite IH. apply Permutation_swap.
Qed.
Lemma SliceStable_Permutation l : SliceStable l ≡ₚ l.
Proof. induction l as [|x l IH]; cbn; [done|]. by rewrite insert_stable_Permutation, IH. Qed.

Lemma insert_stable_Sorted x l :
  (forall a b, less a b = true -> less b a = false) ->
  Sorted (fun a b => less b a = false) l -> Sorted (fun a b => less b a = false) (insert_stable x l).
Proof.
  intros Ha. induction 1 as [|y l Hs IH Hy]; cbn; [by repeat constructor|].
  destruct (less y x) eqn:E; [|by repeat constructor].
  constructor; [done|]. destruct Hy as [|z l Hz]; cbn; [by constructor; apply Ha|].
  destruct (less z x); by constructor; auto.
Qed.
Lemma SliceStable_Sorted l :
  (forall a b, less a b = true -> less b a = false) ->
  Sorted (fun a b => less b a = false) (SliceStable l).
Proof. intros Ha. induction l as [|x l IH]; cbn; [constructor|by apply insert_stable_Sorted]. Qed.

(** Elements that none of which is less than another keep their order. *)
Lemma SliceStable_stable (P : A -> Prop) `{!forall x, Decision (P x)} l :
  (forall a b, P a -> P b -> less a b = false) -> filter P (SliceStable l) = filter P l.
Proof.
  intros HP. induction l as [|x l IH]; [done|]. cbn [SliceStable foldr].
  assert (forall l, filter P (insert_stable x l) = filter P (x :: l)) as Hi; [|rewrite Hi, !filter_cons; by rewrite <- IH].
  clear l IH. induction l as [|y l IH]; [done|]. cbn [insert_stable]. destruct (less y x) eqn:E; [|done].
  rewrite (filter_cons P y), IH, !filter_cons. repeat case_decide; try done.
  by rewrite (HP y x) in E.
Qed.
End SliceStable.

(** ** Filters *)

Lemma length_filter_all {A} (P : A -> Prop) `{!forall x, Decision (P x)} (l : list A) :
  (length l <= length (filter P l))%nat -> filter P l = l.
Proof.
  induction l as [|y l IH]; [done|]. rewrite filter_cons. pose proof (length_filter P l).
  case_decide; cbn; intros Hl; [|lia]. f_equal. apply IH. lia.
Qed.

(** ** Step relations *)

(** What every step keeps, every run keeps. *)
Lemma rtc_keeps {A} (R : relation A) (I : A -> Prop) :
  (forall x y, R x y -> I x -> I y) -> forall x y, rtc R x y -> I x -> I y.
Proof. intros H x y Hr. induction Hr; eauto. Qed.

Create HintDb elemta discriminated.
#[export] Hint Resolve kept_ret kept_fail kept_get kept_gets kept_liftR
  kept_reject_if kept_attempt kept_bind : elemta.
#[export] Hint Constants Opaque : elemta.

(** ** Tactics *)

(** Case on the innermost [match] or [if] discriminee of the goal. *)
Ltac split_match :=
  match goal with
  | |- context [match ?x with _ => _ end] =>
      lazymatch x with
      | context [match _ with _ => _ end] => fail
      | _ => destruct x eqn:?
      end
  end.

(** The same for a hypothesis. *)
Ltac split_match_in H :=
  match type of H with
  | context [match ?x with _ => _ end] =>
      lazymatch x with
      | context [match _ with _ => _ end] => fail
      | _ => destruct x eqn:?
      end
  end.

(** One step of symbolic execution; the discriminee of a [match] on the code side is
    cased on. *)
Ltac wp_step :=
  lazymatch goal with
  | |- wp (mbind _ _) _ _ => apply wp_bind
  | |- wp (attempt _) _ _ => apply wp_attempt
  | |- wp (reject_if _ _) _ _ => apply wp_reject_if; intros ?
  | |- wp (mret ?a) ?Q ?s => change (Q (Ok a) s)
  | |- wp (fail ?e) ?Q ?s => change (Q (Err e) s)
  | |- wp (gets ?f) ?Q ?s => change (Q (Ok (f s)) s)
  | |- wp get ?Q ?s => change (Q (Ok s) s)
  | |- wp (modify ?f) ?Q ?s => change (Q (Ok tt) (f s))
  | |- wp (liftR ?r) ?Q ?s => change (Q r s)
  | |- wp (match ?x with _ => _ end) _ _ => destruct x eqn:?
  | |- match ?x with _ => _ end => destruct x eqn:?
  end; cbv beta iota.

(** Turn the boolean tests of the code into the facts they decide. *)
Ltac bool_facts :=
  repeat match goal with
  | H : (_ && _)%bool = true |- _ => apply andb_true_iff in H; destruct H
  | H : (_ || _)%bool = false |- _ => apply orb_false_iff in H; destruct H
  | H : negb _ = true |- _ => apply negb_true_iff in H
  | H : negb _ = false |- _ => apply negb_false_iff in H
  | H : bool_decide _ = true |- _ => apply bool_decide_eq_true in H
  | H : bool_decide _ = false |- _ => apply bool_decide_eq_false in H
  | H : String.eqb _ _ = true |- _ => apply String.eqb_eq in H
  | H : String.eqb _ _ = false |- _ => apply String.eqb_neq in H
  | H : Z.ltb _ _ = true |- _ => apply Z.ltb_lt in H
  | H : Z.ltb _ _ = false |- _ => apply Z.ltb_ge in H
  | H : Z.leb _ _ = true |- _ => apply Z.leb_le in H
  | H : Z.leb _ _ = false |- _ => apply Z.leb_gt in H
  | H : Z.eqb _ _ = true |- _ => apply Z.eqb_eq in H
  | H : Z.eqb _ _ = false |- _ => apply Z.eqb_neq in H
  end.
