(* ===== verification/GoStrings.v ===== *)
(** * The parts of Go's [strings], [strconv] and [unicode] the program uses

    A Go string is a sequence of bytes: [string] (a list of 8-bit [ascii]).
    Case mapping of a string with a byte above 0x7F goes through the Unicode
    tables, which are the class [UnicodeTables]; on ASCII strings, the only ones
    the SMTP grammar lets through, the functions are written out. *)

From S2P Require Import Prelude.
From stdpp Require Import pretty.

Open Scope string_scope.
Open Scope list_scope.
Open Scope Z_scope.

(** ** Bytes *)

Definition b2z (c : ascii) : Z := Z.of_N (N_of_ascii c).
Definition chr (n : N) : ascii := ascii_of_N n.

Definition in_range (lo hi : Z) (c : ascii) : bool := ((lo <=? b2z c) && (b2z c <=? hi))%bool.
Definition is_upper : ascii -> bool := in_range 65 90.
Definition is_lower : ascii -> bool := in_range 97 122.
Definition is_digit : ascii -> bool := in_range 48 57.
Definition is_alpha (c : ascii) : bool := (is_upper c || is_lower c)%bool.
Definition is_alnum (c : ascii) : bool := (is_alpha c || is_digit c)%bool.
Definition is_ascii_byte (c : ascii) : bool := b2z c <? 128.

Definition CR : ascii := chr 13.
Definition LF : ascii := chr 10.
Definition TAB : ascii := chr 9.
Definition SP : ascii := chr 32.
Definition DOT : ascii := chr 46.
Definition DQUOTE : ascii := chr 34.
Definition BACKSLASH : ascii := chr 92.
#[global] Arguments CR : simpl never.
#[global] Arguments LF : simpl never.
#[global] Arguments TAB : simpl never.
#[global] Arguments SP : simpl never.
#[global] Arguments DOT : simpl never.
#[global] Arguments DQUOTE : simpl never.
#[global] Arguments BACKSLASH : simpl never.

Fixpoint forall_bytes (p : ascii -> bool) (s : string) : bool :=
  match s with
  | EmptyString => true
  | String c s' => (p c && forall_bytes p s')%bool
  end.

Fixpoint exists_byte (p : ascii -> bool) (s : string) : bool :=
  match s with
  | EmptyString => false
  | String c s' => (p c || exists_byte p s')%bool
  end.

Definition is_ascii (s : string) : bool := forall_bytes is_ascii_byte s.

(** ** Slicing *)

Fixpoint stake (n : nat) (s : string) : string :=
  match n, s with
  | O, _ => EmptyString
  | S n', String c s' => String c (stake n' s')
  | _, EmptyString => EmptyString
  end.

Fixpoint sdrop (n : nat) (s : string) : string :=
  match n, s with
  | O, _ => s
  | S n', String _ s' => sdrop n' s'
  | _, EmptyString => EmptyString
  end.

(** [slen] is Go's [len] as an integer. *)
Definition slen (s : string) : Z := Z.of_nat (String.length s).

Definition first_byte (s : string) : option ascii :=
  match s with String c _ => Some c | EmptyString => None end.

Fixpoint last_byte (s : string) : option ascii :=
  match s with
  | EmptyString => None
  | String c EmptyString => Some c
  | String _ s' => last_byte s'
  end.

Fixpoint HasPrefix (s p : string) {struct p} : bool :=
  match p, s with
  | EmptyString, _ => true
  | String a p', String b s' => (Ascii.eqb b a && HasPrefix s' p')%bool
  | String _ _, EmptyString => false
  end.
Definition HasSuffix (s p : string) : bool :=
  ((String.length p <=? String.length s)%nat &&
   (sdrop (String.length s - String.length p) s =? p)%string)%bool.
Definition TrimPrefix (s p : string) : string :=
  if HasPrefix s p then sdrop (String.length p) s else s.
Definition TrimSuffix (s p : string) : string :=
  if HasSuffix s p then stake (String.length s - String.length p) s else s.

(** [strings.Contains]. *)
Fixpoint Contains (s sub : string) : bool :=
  (HasPrefix s sub ||
   match s with
   | EmptyString => false
   | String _ s' => Contains s' sub
   end)%bool.

(** [strings.ContainsAny] for an ASCII character set. *)
Definition byte_in (set : string) (c : ascii) : bool := exists_byte (Ascii.eqb c) set.
Definition ContainsAny (s set : string) : bool := exists_byte (byte_in set) s.

(** [strings.IndexByte] as an option, and the last occurrence. *)
Fixpoint IndexByte (s : string) (c : ascii) : option nat :=
  match s with
  | EmptyString => None
  | String b s' => if Ascii.eqb b c then Some O else option_map S (IndexByte s' c)
  end.

Fixpoint LastIndexByte (s : string) (c : ascii) : option nat :=
  match s with
  | EmptyString => None
  | String b s' =>
      match LastIndexByte s' c with
      | Some i => Some (S i)
      | None => if Ascii.eqb b c then Some O else None
      end
  end.

(** [strings.Cut] at a one-byte separator: before, after, found. *)
Fixpoint Cut (s : string) (c : ascii) : string * string * bool :=
  match s with
  | EmptyString => (EmptyString, EmptyString, false)
  | String b s' =>
      if Ascii.eqb b c then (EmptyString, s', true)
      else let '(x, y, f) := Cut s' c in (String b x, y, f)
  end.

(** [strings.Split] at a one-byte separator. *)
Fixpoint Split (s : string) (c : ascii) : list string :=
  match s with
  | EmptyString => [EmptyString]
  | String b s' =>
      if Ascii.eqb b c then EmptyString :: Split s' c
      else match Split s' c with
           | [] => [String b EmptyString]
           | x :: l => String b x :: l
           end
  end.

(** [strings.Join]. *)
Fixpoint Join (l : list string) (sep : string) : string :=
  match l with
  | [] => ""
  | [x] => x
  | x :: l' => x +:+ sep +:+ Join l' sep
  end.

(** The place of a substring, and the parts between the places of a separator. *)
Fixpoint Index (s sub : string) : option nat :=
  if HasPrefix s sub then Some O
  else match s with "" => None | String _ s' => S <$> Index s' sub end.

Fixpoint split_on (sep : string) (skip : nat) (cur s : string) : list string :=
  match s with
  | "" => [cur]
  | String c s' =>
      match skip with
      | S k => split_on sep k cur s'
      | O => if HasPrefix s sep then cur :: split_on sep (String.length sep - 1) "" s'
             else split_on sep O (cur +:+ String c "") s'
      end
  end.
(** For a separator that is not empty. *)
Definition SplitString (s sep : string) : list string := split_on sep O "" s.
Definition ReplaceAll (s old new : string) : string := Join (SplitString s old) new.

(** [strings.Trim] with a cutset of ASCII bytes. *)
Fixpoint trim_left_set (set : string) (s : string) : string :=
  match s with
  | EmptyString => EmptyString
  | String c s' => if byte_in set c then trim_left_set set s' else s
  end.
Fixpoint trim_right_set (set : string) (s : string) : string :=
  match s with
  | EmptyString => EmptyString
  | String c s' => if forall_bytes (byte_in set) s then EmptyString
                   else String c (trim_right_set set s')
  end.
Definition Trim (s set : string) : string := trim_right_set set (trim_left_set set s).

(** ** White space

    [unicode.IsSpace]: tab, LF, VT, FF, CR, space, U+0085, U+00A0, U+1680,
    U+2000..U+200A, U+2028, U+2029, U+202F, U+205F, U+3000, as UTF-8. *)
Definition is_ascii_space (c : ascii) : bool := (in_range 9 13 c || (b2z c =? 32))%bool.

Definition is_space2 (c c1 : ascii) : bool :=
  ((b2z c =? 194) && ((b2z c1 =? 133) || (b2z c1 =? 160)))%bool.

Definition is_space3 (c c1 c2 : ascii) : bool :=
  let b := b2z c in let b1 := b2z c1 in let b2 := b2z c2 in
  (((b =? 225) && (b1 =? 154) && (b2 =? 128))
   || ((b =? 226) && (b1 =? 128) &&
        (((128 <=? b2) && (b2 <=? 138)) || (b2 =? 168) || (b2 =? 169) || (b2 =? 175)))
   || ((b =? 226) && (b1 =? 129) && (b2 =? 159))
   || ((b =? 227) && (b1 =? 128) && (b2 =? 128)))%bool.

(** Length in bytes of the white-space character [s] starts with, 0 if none. *)
Definition space_len (s : string) : nat :=
  match s with
  | EmptyString => 0
  | String c s1 =>
      if is_ascii_space c then 1%nat
      else match s1 with
           | EmptyString => 0%nat
           | String c1 s2 =>
               if is_space2 c c1 then 2%nat
               else match s2 with
                    | EmptyString => 0%nat
                    | String c2 _ => if is_space3 c c1 c2 then 3%nat else 0%nat
                    end
           end
  end.

(** [k] bytes of the current white-space character are still to be dropped. *)
Fixpoint trim_left_aux (k : nat) (s : string) : string :=
  match s with
  | EmptyString => EmptyString
  | String _ s' =>
      match k with
      | S k' => trim_left_aux k' s'
      | O => match space_len s with O => s | S k' => trim_left_aux k' s' end
      end
  end.
Definition trim_left (s : string) : string := trim_left_aux 0 s.
Definition all_space (s : string) : bool := (trim_left s =? "")%string.

Fixpoint trim_right (s : string) : string :=
  match s with
  | EmptyString => EmptyString
  | String c s' => if all_space s then EmptyString else String c (trim_right s')
  end.

(** [strings.TrimSpace]. *)
Definition TrimSpace (s : string) : string := trim_right (trim_left s).

(** [strings.Fields]. *)
Definition emit (cur : string) (l : list string) : list string :=
  if (cur =? "")%string then l else cur :: l.

Fixpoint fields_aux (k : nat) (cur : string) (s : string) : list string :=
  match s with
  | EmptyString => emit cur []
  | String c s' =>
      match k with
      | S k' => fields_aux k' cur s'
      | O => match space_len s with
             | O => fields_aux 0 (cur +:+ String c "") s'
             | S k' => emit cur (fields_aux k' "" s')
             end
      end
  end.
Definition Fields (s : string) : list string := fields_aux 0 "" s.

(** ** Case *)

Class UnicodeTables := {
  unicode_upper : string -> string;
  unicode_lower : string -> string;
  unicode_equal_fold : string -> string -> bool
}.

(** The identity tables: enough to run the model on ASCII input. *)
Definition ascii_tables : UnicodeTables :=
  {| unicode_upper := fun s => s; unicode_lower := fun s => s;
     unicode_equal_fold := fun s t => (s =? t)%string |}.

Definition byte_upper (c : ascii) : ascii :=
  if is_lower c then ascii_of_N (N_of_ascii c - 32) else c.
Definition byte_lower (c : ascii) : ascii :=
  if is_upper c then ascii_of_N (N_of_ascii c + 32) else c.

Fixpoint map_bytes (f : ascii -> ascii) (s : string) : string :=
  match s with
  | EmptyString => EmptyString
  | String c s' => String (f c) (map_bytes f s')
  end.

Section Case.
Context `{U : UnicodeTables}.

Definition ToUpper (s : string) : string :=
  if is_ascii s then map_bytes byte_upper s else unicode_upper s.
Definition ToLower (s : string) : string :=
  if is_ascii s then map_bytes byte_lower s else unicode_lower s.

(** [strings.EqualFold] compares bytes until either side leaves ASCII. *)
Fixpoint EqualFold (s t : string) : bool :=
  match s, t with
  | EmptyString, EmptyString => true
  | String a s', String b t' =>
      if (is_ascii_byte a && is_ascii_byte b)%bool
      then (Ascii.eqb (byte_lower a) (byte_lower b) && EqualFold s' t')%bool
      else unicode_equal_fold s t
  | _, _ => false
  end.
End Case.

(** ** Numbers *)

Definition digit_val (c : ascii) : Z := b2z c - 48.

Fixpoint parse_digits (acc : Z) (s : string) : option Z :=
  match s with
  | EmptyString => Some acc
  | String c s' => if is_digit c then parse_digits (10 * acc + digit_val c) s' else None
  end.

Definition parse_uint (s : string) : option Z :=
  match s with EmptyString => None | _ => parse_digits 0 s end.

(** [strconv.ParseInt(s, 10, 64)]; [None] is a syntax or range error. *)
Definition ParseInt64 (s : string) : option Z :=
  match s with
  | EmptyString => None
  | String c s' =>
      if Ascii.eqb c "+"%char then
        n ← parse_uint s'; if n <? two63 then Some n else None
      else if Ascii.eqb c "-"%char then
        n ← parse_uint s'; if n <=? two63 then Some (- n) else None
      else n ← parse_uint s; if n <? two63 then Some n else None
  end.

(** [strconv.FormatInt(z, 10)] and [%d]. *)
Definition FormatInt (z : Z) : string := pretty z.

(** ** Lemmas *)

Lemma b2z_range c : 0 <= b2z c < 256.
Proof.
  unfold b2z. pose proof (N_ascii_bounded c). lia.
Qed.

Lemma b2z_inj c d : b2z c = b2z d -> c = d.
Proof.
  unfold b2z. intros H. apply N2Z.inj in H.
  rewrite <- (ascii_N_embedding c), <- (ascii_N_embedding d). by rewrite H.
Qed.

Lemma forall_bytes_spec p s :
  forall_bytes p s = true <-> Forall (fun c => p c = true) (list_ascii_of_string s).
Proof.
  induction s as [|c s IH]; cbn; [by split|].
  rewrite andb_true_iff, Forall_cons, IH. done.
Qed.

Lemma exists_byte_spec p s :
  exists_byte p s = true <-> Exists (fun c => p c = true) (list_ascii_of_string s).
Proof.
  induction s as [|c s IH]; cbn; [by rewrite Exists_nil|].
  by rewrite orb_true_iff, Exists_cons, IH.
Qed.

Lemma slen_nonneg s : 0 <= slen s.
Proof. unfold slen. lia. Qed.

Lemma parse_digits_nonneg s : forall acc n, 0 <= acc -> parse_digits acc s = Some n -> 0 <= n.
Proof.
  induction s as [|c s IH]; cbn; intros acc n Hacc H; [by simplify_eq|].
  destruct (is_digit c) eqn:E; [|done].
  apply IH in H; [done|]. unfold is_digit, in_range in E. unfold digit_val. lia.
Qed.

Lemma ParseInt64_range s n : ParseInt64 s = Some n -> int64_ok n = true.
Proof.
  assert (Hu : forall t m, parse_uint t = Some m -> 0 <= m).
  { intros [|c t] m H; [done|]. eapply parse_digits_nonneg, H. done. }
  unfold ParseInt64, int64_ok. destruct s as [|c s]; [done|].
  destruct (Ascii.eqb c "+"%char); [|destruct (Ascii.eqb c "-"%char)];
    match goal with |- context [parse_uint ?t] => destruct (parse_uint t) as [m|] eqn:E end;
    cbn; intros H; try done; apply Hu in E; case_match; simplify_eq;
    bool_facts; unfold two63 in *; lia.
Qed.

Lemma Split_not_nil s c : Split s c <> [].
Proof. destruct s as [|b s]; cbn; [done|]. by repeat case_match. Qed.

(** *** Appending and slicing *)

Lemma app_cons (c : ascii) s t : String c s +:+ t = String c (s +:+ t).
Proof. done. Qed.

Lemma string_app_nil_r (s : string) : s +:+ "" = s.
Proof. induction s as [|c s IH]; [done|]. rewrite app_cons. by rewrite IH. Qed.

Lemma string_app_assoc (a b c : string) : a +:+ (b +:+ c) = (a +:+ b) +:+ c.
Proof. induction a as [|x a IH]; [done|]. rewrite !app_cons. by rewrite IH. Qed.

Lemma string_length_app s t :
  String.length (s +:+ t) = (String.length s + String.length t)%nat.
Proof. induction s as [|c s IH]; [done|]. rewrite app_cons. cbn. by rewrite IH. Qed.

Lemma slen_app s t : slen (s +:+ t) = slen s + slen t.
Proof. unfold slen. rewrite string_length_app. lia. Qed.

Lemma stake_all s n : (String.length s <= n)%nat -> stake n s = s.
Proof.
  revert n. induction s as [|c s IH]; intros [|n]; cbn; intros H; try done; [lia|].
  rewrite IH; [done|lia].
Qed.

Lemma stake_length n s : String.length (stake n s) = Nat.min n (String.length s).
Proof. revert s. induction n as [|n IH]; intros [|c s]; cbn; try done. by rewrite IH. Qed.

Lemma stake_sdrop n s : stake n s +:+ sdrop n s = s.
Proof.
  revert s. induction n as [|n IH]; intros [|c s]; try done.
  cbn [stake sdrop]. rewrite app_cons. by rewrite IH.
Qed.

Lemma stake_app s t : stake (String.length s) (s +:+ t) = s.
Proof. induction s as [|c s IH]; [done|]. rewrite app_cons. cbn. by rewrite IH. Qed.

Lemma sdrop_app s t : sdrop (String.length s) (s +:+ t) = t.
Proof. induction s as [|c s IH]; [done|]. rewrite app_cons. cbn. done. Qed.

(** The pieces of a list of strings, one after the other. *)
Definition concat_strings (ps : list string) : string := foldr String.append "" ps.

Lemma concat_strings_app ps qs :
  concat_strings (ps ++ qs) = concat_strings ps +:+ concat_strings qs.
Proof.
  induction ps as [|p ps IH]; [done|]. cbn. fold (concat_strings (ps ++ qs)).
  rewrite IH. apply string_app_assoc.
Qed.

Lemma forall_bytes_app p s t :
  forall_bytes p (s +:+ t) = (forall_bytes p s && forall_bytes p t)%bool.
Proof. induction s as [|c s IH]; [done|]. rewrite app_cons. cbn. by rewrite IH, andb_assoc. Qed.

Lemma last_byte_app s c : last_byte (s +:+ String c "") = Some c.
Proof.
  induction s as [|d s IH]; [done|]. rewrite app_cons.
  destruct (s +:+ String c "") eqn:E; [by destruct s|]. exact IH.
Qed.

(** ** Upper-casing twice *)

(** Unicode's simple upper-case mapping is idempotent. *)
Class UnicodeLaws `{U : UnicodeTables} : Prop :=
  unicode_upper_idem : forall s, is_ascii s = false -> ToUpper (unicode_upper s) = unicode_upper s.

Lemma ascii_tables_laws : UnicodeLaws (U := ascii_tables).
Proof. intros s H. unfold ToUpper, ascii_tables, unicode_upper. by rewrite H. Qed.

Lemma byte_upper_ascii c : is_ascii_byte c = true -> is_ascii_byte (byte_upper c) = true.
Proof. by destruct c as [[] [] [] [] [] [] [] []]. Qed.

Lemma byte_upper_idem c : byte_upper (byte_upper c) = byte_upper c.
Proof. by destruct c as [[] [] [] [] [] [] [] []]. Qed.

Lemma ToUpper_idem `{UL : UnicodeLaws} s : ToUpper (ToUpper s) = ToUpper s.
Proof.
  unfold ToUpper at 2 3. destruct (is_ascii s) eqn:E; [|by apply unicode_upper_idem].
  unfold ToUpper. assert (is_ascii (map_bytes byte_upper s) = true) as ->.
  { revert E. unfold is_ascii. induction s as [|c s IH]; [done|]. cbn. intros [??]%andb_true_iff.
    rewrite byte_upper_ascii by done. by apply IH. }
  clear E. induction s as [|c s IH]; [done|]. cbn. by rewrite byte_upper_idem, IH.
Qed.

(** ** Decimal numbers *)

Lemma forall_bytes_weaken p q s :
  (forall c, p c = true -> q c = true) -> forall_bytes p s = true -> forall_bytes q s = true.
Proof. intros H. rewrite !forall_bytes_spec. intros Hs. eapply Forall_impl; [exact Hs|]. auto. Qed.

Lemma pretty_N_char_digit n : (n < 10)%N -> is_digit (pretty_N_char n) = true.
Proof.
  intros H. assert (forallb (fun n => is_digit (pretty_N_char (N.of_nat n))) (seq 0 10) = true) as Hall
    by (by vm_compute). rewrite forallb_forall in Hall. specialize (Hall (N.to_nat n)).
  rewrite N2Nat.id in Hall. apply Hall, in_seq. lia.
Qed.

Lemma pretty_N_go_digits n : forall s,
  forall_bytes is_digit s = true -> forall_bytes is_digit (pretty_N_go n s) = true.
Proof.
  induction n as [n IH] using (well_founded_ind N.lt_wf_0). intros s Hs.
  destruct (decide (0 < n)%N) as [Hn|Hn].
  - rewrite pretty_N_go_step by done. apply IH; [apply N.div_lt; lia|].
    cbn. rewrite pretty_N_char_digit by (apply N.mod_lt; lia). done.
  - replace n with 0%N by lia. by rewrite pretty_N_go_0.
Qed.

(** The digits written are the ones read back. *)
Lemma parse_digits_pretty n : forall s,
  parse_digits 0 (pretty_N_go n s) = parse_digits (Z.of_N n) s.
Proof.
  induction n as [n IH] using (well_founded_ind N.lt_wf_0). intros s.
  destruct (decide (0 < n)%N) as [Hn|Hn].
  - rewrite pretty_N_go_step by done. rewrite IH by (apply N.div_lt; lia). cbn [parse_digits].
    rewrite pretty_N_char_digit by (apply N.mod_lt; lia). f_equal.
    assert (digit_val (pretty_N_char (n mod 10)) = Z.of_N (n mod 10)) as ->.
    { pose proof (N.mod_lt n 10 ltac:(lia)) as Hd. revert Hd. generalize (n mod 10)%N. intros d Hd.
      assert (forallb (fun k => digit_val (pretty_N_char (N.of_nat k)) =? Z.of_nat k) (seq 0 10) = true) as Hall
        by (by vm_compute). rewrite forallb_forall in Hall. specialize (Hall (N.to_nat d)).
      rewrite N2Nat.id, N_nat_Z in Hall. apply Z.eqb_eq, Hall, in_seq. lia. }
    rewrite N2Z.inj_div, N2Z.inj_mod. change (Z.of_N 10) with 10. pose proof (Z.div_mod (Z.of_N n) 10). lia.
  - replace n with 0%N by lia. by rewrite pretty_N_go_0.
Qed.

(** A number that is not negative, as it is written: its digits, at least one. *)
Lemma FormatInt_digits z : 0 <= z ->
  forall_bytes is_digit (FormatInt z) = true /\ FormatInt z <> "" /\ parse_digits 0 (FormatInt z) = Some z.
Proof.
  intros Hz. destruct z as [|p|p]; [done| |lia].
  change (FormatInt (Z.pos p)) with (pretty_N_go (N.pos p) "").
  split; [by apply pretty_N_go_digits|]. pose proof (parse_digits_pretty (N.pos p) "") as H. split; [|exact H].
  intros E. rewrite E in H. cbn in H. congruence.
Qed.
