(* ===== verification/GoNet.v ===== *)
(** * The parts of Go's [net] package the program uses

    [net.ParseIP] on top of [netip.ParseAddr]: the dotted-quad and the IPv6
    parsers, statement by statement.  An address is its 16 bytes; an IPv4
    address is held in the IPv4-mapped form, as [As16] returns it. *)

From S2P Require Import Prelude GoStrings.

Open Scope string_scope.
Open Scope list_scope.
Open Scope Z_scope.

Abbreviation IP := (list Z).

Definition v4_in_v6_prefix : list Z := [0; 0; 0; 0; 0; 0; 0; 0; 0; 0; 255; 255].

(** [net.IP.To4] on a 16-byte address. *)
Definition To4 (ip : IP) : option (list Z) :=
  if bool_decide (take 12 ip = v4_in_v6_prefix) then Some (drop 12 ip) else None.

(** [parseIPv4Fields]: [prev_dot] is [i == 0 || s[i-1] == '.'] at a dot. *)
Fixpoint parse_ipv4_fields (s : string) (val : Z) (digLen : nat) (prev_dot : bool)
    (acc : list Z) : option (list Z) :=
  match s with
  | EmptyString => if (length acc <? 3)%nat then None else Some (acc ++ [val])
  | String c s' =>
      if is_digit c then
        if ((digLen =? 1)%nat && (val =? 0))%bool then None
        else let val := val * 10 + digit_val c in
             if 255 <? val then None
             else parse_ipv4_fields s' val (S digLen) false acc
      else if Ascii.eqb c "."%char then
        if (prev_dot || (s' =? "")%string)%bool then None
        else if (length acc =? 3)%nat then None
        else parse_ipv4_fields s' 0 0 true (acc ++ [val])
      else None
  end.

Definition parseIPv4 (s : string) : option IP :=
  q ← parse_ipv4_fields s 0 0 true []; Some (v4_in_v6_prefix ++ q).

Definition hex_val (c : ascii) : option Z :=
  if is_digit c then Some (digit_val c)
  else if in_range 97 102 c then Some (b2z c - 97 + 10)
  else if in_range 65 70 c then Some (b2z c - 65 + 10)
  else None.

(** The hex group at the head of [s]: its value, the digits read and the rest;
    [None] when a fifth digit appears. *)
Fixpoint hex_group (s : string) (acc : Z) (off : nat) : option (Z * nat * string) :=
  match s with
  | EmptyString => Some (acc, off, s)
  | String c s' =>
      match hex_val c with
      | None => Some (acc, off, s)
      | Some d => if (3 <? off)%nat then None
                  else hex_group s' (acc * 16 + d) (S off)
      end
  end.

(** The main loop of [parseIPv6]; [fuel] is the number of 16-bit groups left, so
    the loop test [i < 16] is [fuel <> 0].  The result is the bytes so far, the
    position of the ellipsis and the unread rest. *)
Fixpoint ipv6_groups (fuel : nat) (s : string) (ip : list Z) (ellipsis : option nat)
    : option (list Z * option nat * string) :=
  match fuel with
  | O => Some (ip, ellipsis, s)
  | S fuel' =>
      '(acc, off, rest) ← hex_group s 0 0;
      if (off =? 0)%nat then None
      else match rest with
           | EmptyString => Some (ip ++ [acc / 256; acc mod 256], ellipsis, "")
           | String c rest' =>
               if Ascii.eqb c "."%char then
                 if (negb (bool_decide (is_Some ellipsis)) && negb (length ip =? 12)%nat)%bool
                 then None
                 else if (16 <? length ip + 4)%nat then None
                 else q ← parse_ipv4_fields s 0 0 true [];
                      Some (ip ++ q, ellipsis, "")
               else
                 let ip := ip ++ [acc / 256; acc mod 256] in
                 if negb (Ascii.eqb c ":"%char) then None
                 else match rest' with
                      | EmptyString => None
                      | String d rest'' =>
                          if Ascii.eqb d ":"%char then
                            match ellipsis with
                            | Some _ => None
                            | None =>
                                if (rest'' =? "")%string
                                then Some (ip, Some (length ip), "")
                                else ipv6_groups fuel' rest'' ip (Some (length ip))
                            end
                          else ipv6_groups fuel' rest' ip ellipsis
                      end
           end
  end.

(** [parseIPv6] for a string without a zone; [net.ParseIP] refuses any zone. *)
Definition parseIPv6 (s : string) : option IP :=
  let lead := HasPrefix s "::" in
  let s' := if lead then sdrop 2 s else s in
  if (lead && (s' =? "")%string)%bool then Some (repeat 0 16)
  else
    '(ip, ellipsis, rest) ← ipv6_groups 8 s' [] (if lead then Some O else None);
    if negb (rest =? "")%string then None
    else if (length ip <? 16)%nat then
      match ellipsis with
      | None => None
      | Some e => Some (take e ip ++ repeat 0 (16 - length ip) ++ drop e ip)
      end
    else match ellipsis with Some _ => None | None => Some ip end.

(** [netip.ParseAddr] dispatches on the first '.', ':' or '%'. *)
Fixpoint addr_kind (s : string) : option ascii :=
  match s with
  | EmptyString => None
  | String c s' => if byte_in ".:%" c then Some c else addr_kind s'
  end.

Definition ParseIP (s : string) : option IP :=
  match addr_kind s with
  | Some "."%char => parseIPv4 s
  | Some ":"%char => if exists_byte (Ascii.eqb "%"%char) s then None else parseIPv6 s
  | _ => None
  end.

Example parse_ip_v4 : (ParseIP "192.0.2.1" ≫= To4) = Some [192; 0; 2; 1].
Proof. reflexivity. Qed.
Example parse_ip_v6 :
  ParseIP "2001:db8::1" = Some [32; 1; 13; 184; 0; 0; 0; 0; 0; 0; 0; 0; 0; 0; 0; 1].
Proof. reflexivity. Qed.
Example parse_ip_mixed : (ParseIP "::ffff:10.1.2.3" ≫= To4) = Some [10; 1; 2; 3].
Proof. reflexivity. Qed.
Example parse_ip_bad :
  map ParseIP ["1.2.3"; "01.2.3.4"; "1.2.3.256"; "1::2::3"; "fe80::1%eth0"; ":1"; "12345::"]
  = repeat None 7.
Proof. reflexivity. Qed.

(** ** Networks *)

(** [IP.To4] also accepts the 4-byte form. *)
Definition to4 (ip : IP) : option (list Z) :=
  if (length ip =? 4)%nat then Some ip else To4 ip.

(** [net.CIDRMask(ones, 8*bytes)], for [ones] within range. *)
Fixpoint CIDRMask (ones : nat) (bytes : nat) : list Z :=
  match bytes with
  | O => []
  | S b =>
      if (8 <=? ones)%nat then 255 :: CIDRMask (ones - 8) b
      else (256 - 2 ^ (8 - Z.of_nat ones)) :: CIDRMask 0 b
  end.

Record IPNet := mkIPNet { net_IP : IP; net_Mask : list Z }.

(** [dtoi]: the whole string as a decimal below 0xFFFFFF. *)
Definition dtoi (s : string) : option Z :=
  n ← parse_uint s; if n <? 16777215 then Some n else None.

Definition mask_bytes (ip mask : list Z) : list Z := zip_with Z.land ip mask.

(** [net.ParseCIDR]: a dotted quad takes a prefix of up to 32 bits and gives a
    4-byte network, anything else up to 128 bits and 16 bytes. *)
Definition ParseCIDR (s : string) : option IPNet :=
  let '(addr, mask, found) := Cut s "/"%char in
  if negb found then None
  else
    ip ← ParseIP addr;
    n ← dtoi mask;
    let is4 := bool_decide (addr_kind addr = Some "."%char) in
    if (if is4 then 32 else 128) <? n then None
    else let m := CIDRMask (Z.to_nat n) (if is4 then 4 else 16) in
         Some (mkIPNet (mask_bytes (if is4 then drop 12 ip else ip) m) m).

Definition networkNumberAndMask (n : IPNet) : option (list Z * list Z) :=
  let '(mkIPNet nip m) := n in
  let ip := match to4 nip with Some q => q | None => nip end in
  if (negb (bool_decide (is_Some (to4 nip))) && negb (length nip =? 16)%nat)%bool then None
  else match length m with
       | 4%nat => if (length ip =? 4)%nat then Some (ip, m) else None
       | 16%nat => Some (ip, if (length ip =? 4)%nat then drop 12 m else m)
       | _ => None
       end.

(** The byte loop of [IPNet.Contains]. *)
Fixpoint masked_equal (nn m ip : list Z) : bool :=
  match nn, m, ip with
  | a :: nn', k :: m', b :: ip' =>
      ((Z.land a k =? Z.land b k) && masked_equal nn' m' ip')%bool
  | _, _, _ => true
  end.

Definition net_Contains (n : IPNet) (ip : IP) : bool :=
  match networkNumberAndMask n with
  | None => false
  | Some (nn, m) =>
      let ip := match to4 ip with Some q => q | None => ip end in
      if negb (length ip =? length nn)%nat then false else masked_equal nn m ip
  end.

(** [IP.IsLoopback]. *)
Definition v6_loopback : IP := repeat 0 15 ++ [1].
Definition IsLoopback (ip : IP) : bool :=
  match to4 ip with
  | Some q => bool_decide (head q = Some 127)
  | None => bool_decide (ip = v6_loopback)
  end.

(** [IP.String] of a 4- or 16-byte address. *)
Definition hex_digit (n : Z) : ascii :=
  ascii_of_N (Z.to_N (if n <? 10 then 48 + n else 87 + n)).
Definition append_hex (x : Z) : string :=
  let d k := Z.land (Z.shiftr x k) 15 in
  (if 4096 <=? x then String (hex_digit (d 12)) "" else "")
  +:+ (if 256 <=? x then String (hex_digit (d 8)) "" else "")
  +:+ (if 16 <=? x then String (hex_digit (d 4)) "" else "")
  +:+ String (hex_digit (d 0)) "".

Fixpoint groups (ip : list Z) : list Z :=
  match ip with a :: b :: r => 256 * a + b :: groups r | _ => [] end.

Fixpoint zero_run (l : list Z) : nat :=
  match l with 0 :: l' => S (zero_run l') | _ => O end.

(** The first longest run of at least two zero groups: start and length. *)
Fixpoint longest_run (i : nat) (l : list Z) (best : nat * nat) : nat * nat :=
  match l with
  | [] => best
  | _ :: l' =>
      let r := zero_run l in
      longest_run (S i) l' (if ((2 <=? r) && (snd best <? r))%nat%bool then (i, r) else best)
  end.

Fixpoint join_groups (l : list Z) : string :=
  match l with
  | [] => ""
  | [x] => append_hex x
  | x :: l' => append_hex x +:+ ":" +:+ join_groups l'
  end.

Definition IP_String (ip : IP) : string :=
  match to4 ip with
  | Some q => Join (FormatInt <$> q) "."
  | None =>
      let g := groups ip in
      let '(i, n) := longest_run 0 g (O, O) in
      if (n =? 0)%nat then join_groups g
      else join_groups (take i g) +:+ "::" +:+ join_groups (drop (i + n) g)
  end.

Example ip_string_v6 : IP_String <$> ParseIP "2001:db8:0:0:1:0:0:0" = Some "2001:db8:0:0:1::".
Proof. reflexivity. Qed.
Example ip_string_v4 : IP_String <$> ParseIP "::ffff:10.1.2.3" = Some "10.1.2.3".
Proof. reflexivity. Qed.
Example cidr_contains :
  (fun n => (net_Contains n <$> ParseIP "172.31.0.9", net_Contains n <$> ParseIP "172.32.0.1"))
    <$> ParseCIDR "172.16.0.0/12" = Some (Some true, Some false).
Proof. reflexivity. Qed.

(** [net.SplitHostPort]: the host without its brackets and the port. *)
Definition SplitHostPort (hostport : string) : option (string * string) :=
  match LastIndexByte hostport ":" with
  | None => None
  | Some i =>
      let port := sdrop (S i) hostport in
      match first_byte hostport with
      | Some "["%char =>
          match IndexByte hostport "]" with
          | None => None
          | Some e =>
              if negb (S e =? i)%nat then None
              else if exists_byte (Ascii.eqb "[") (sdrop 1 hostport) then None
              else if exists_byte (Ascii.eqb "]") (sdrop (S e) hostport) then None
              else Some (sdrop 1 (stake e hostport), port)
          end
      | _ =>
          let host := stake i hostport in
          if exists_byte (Ascii.eqb ":") host then None
          else if ContainsAny hostport "[]" then None
          else Some (host, port)
      end
  end.

Example split_v4 : SplitHostPort "192.0.2.7:2525" = Some ("192.0.2.7", "2525").
Proof. reflexivity. Qed.
Example split_v6 : SplitHostPort "[2001:db8::1]:25" = Some ("2001:db8::1", "25").
Proof. reflexivity. Qed.
Example split_bare_v6 : SplitHostPort "2001:db8::1" = None.
Proof. reflexivity. Qed.

(** *** Prefix matching is integer division

    The byte loop with a CIDR mask compares the leading bits of the two addresses
    read as one big-endian number. *)

Definition be_value (l : list Z) : Z := foldl (fun acc b => 256 * acc + b) 0 l.
Definition byte_ok (b : Z) : Prop := 0 <= b < 256.

Lemma be_value_acc l : forall acc,
  foldl (fun acc b => 256 * acc + b) acc l = acc * 256 ^ Z.of_nat (length l) + be_value l.
Proof.
  unfold be_value. induction l as [|b l IH]; intros acc; cbn [foldl length]; [cbn; lia|].
  rewrite IH, (IH (256 * 0 + b)), Nat2Z.inj_succ, Z.pow_succ_r by lia. lia.
Qed.

Lemma be_value_cons b l : be_value (b :: l) = b * 256 ^ Z.of_nat (length l) + be_value l.
Proof. unfold be_value at 1. cbn [foldl]. rewrite be_value_acc. lia. Qed.

Lemma be_value_bound l : Forall byte_ok l -> 0 <= be_value l < 256 ^ Z.of_nat (length l).
Proof.
  induction 1 as [|b l [Hb1 Hb2] _ IH]; [done|].
  rewrite be_value_cons. cbn [length]. rewrite Nat2Z.inj_succ, Z.pow_succ_r by lia. nia.
Qed.

(** Masking a byte with [k] leading ones clears its low [8-k] bits. *)
Lemma land_prefix b k : byte_ok b -> 0 <= k <= 8 -> Z.land b (256 - 2 ^ (8 - k)) = b / 2 ^ (8 - k) * 2 ^ (8 - k).
Proof.
  intros Hb Hk.
  assert (Hall : forall n : nat, (n < 256)%nat -> forall j : nat, (j <= 8)%nat ->
     Z.land (Z.of_nat n) (256 - 2 ^ (8 - Z.of_nat j)) = Z.of_nat n / 2 ^ (8 - Z.of_nat j) * 2 ^ (8 - Z.of_nat j)).
  { intros n Hn j Hj.
    assert (forallb (fun n => forallb (fun j =>
      Z.land (Z.of_nat n) (256 - 2 ^ (8 - Z.of_nat j)) =? Z.of_nat n / 2 ^ (8 - Z.of_nat j) * 2 ^ (8 - Z.of_nat j))
      (seq 0 9)) (seq 0 256) = true) as H by (vm_compute; reflexivity).
    rewrite forallb_forall in H. specialize (H n ltac:(apply in_seq; lia)).
    rewrite forallb_forall in H. specialize (H j ltac:(apply in_seq; lia)). by apply Z.eqb_eq in H. }
  unfold byte_ok in Hb. specialize (Hall (Z.to_nat b) ltac:(lia) (Z.to_nat k) ltac:(lia)).
  by rewrite !Z2Nat.id in Hall by lia.
Qed.

Lemma masked_equal_zero nn : forall ip,
  length nn = length ip -> masked_equal nn (CIDRMask 0 (length nn)) ip = true.
Proof.
  induction nn as [|a nn IH]; intros [|b ip] H; try done. cbn. change (256 - 256) with 0.
  rewrite !Z.land_0_r. cbn. apply IH. by injection H.
Qed.

Lemma div_split_high x y r s p :
  0 <= r < p -> 0 <= s < p -> forall q, 0 < q -> (exists k, p = k * q /\ 0 < k) ->
  (x * p + r) / q = (y * p + s) / q <-> x = y /\ r / q = s / q.
Proof.
  intros Hr Hs q Hq (k & -> & Hk).
  rewrite !Z.mul_assoc. rewrite (Z.add_comm _ r), (Z.add_comm _ s), !Z.div_add by lia.
  assert (0 <= r / q < k) by (split; [apply Z.div_pos; lia|apply Z.div_lt_upper_bound; lia]).
  assert (0 <= s / q < k) by (split; [apply Z.div_pos; lia|apply Z.div_lt_upper_bound; lia]).
  split; [intros H'; assert (x = y) by nia; subst; lia|intros [-> ->]; done].
Qed.

Lemma pow256 n : 256 ^ Z.of_nat n = 2 ^ (8 * Z.of_nat n).
Proof. change 256 with (2 ^ 8). rewrite <- Z.pow_mul_r by lia. done. Qed.

Lemma land_255 b : byte_ok b -> Z.land b 255 = b.
Proof.
  intros H. pose proof (land_prefix b 8 H ltac:(lia)) as E.
  change (256 - 2 ^ (8 - 8)) with 255 in E. change (2 ^ (8 - 8)) with 1 in E.
  rewrite E, Z.div_1_r. lia.
Qed.

Lemma high_byte a r p q : 0 <= r < p -> 0 < q -> (a * p + r) / (q * p) = a / q.
Proof.
  intros Hr Hq. rewrite (Z.mul_comm q p), <- Z.div_div by lia.
  rewrite Z.add_comm, Z.div_add, (Z.div_small r) by lia. done.
Qed.

Lemma masked_equal_prefix nn : forall ip (n : nat),
  length nn = length ip -> (n <= 8 * length nn)%nat -> Forall byte_ok nn -> Forall byte_ok ip ->
  masked_equal nn (CIDRMask n (length nn)) ip = true <->
  be_value nn / 2 ^ (8 * Z.of_nat (length nn) - Z.of_nat n)
  = be_value ip / 2 ^ (8 * Z.of_nat (length nn) - Z.of_nat n).
Proof.
  induction nn as [|a nn IH]; intros [|b ip] n Hlen Hn Ha Hb; try done.
  injection Hlen as Hlen. apply Forall_cons in Ha as [Ha Hnn]. apply Forall_cons in Hb as [Hb Hip].
  rewrite !be_value_cons, <- Hlen. cbn [length] in Hn |- *.
  pose proof (be_value_bound _ Hnn) as Bn. pose proof (be_value_bound _ Hip) as Bi.
  rewrite <- Hlen in Bi. rewrite Nat2Z.inj_succ. cbn [CIDRMask].
  destruct (Nat.leb_spec 8 n) as [H8|H8]; cbn [masked_equal].
  - rewrite !land_255, andb_true_iff, Z.eqb_eq, IH by (done || lia).
    rewrite (div_split_high a b _ _ _ Bn Bi).
    + replace (8 * Z.succ (Z.of_nat (length nn)) - Z.of_nat n)
        with (8 * Z.of_nat (length nn) - Z.of_nat (n - 8)) by lia. done.
    + apply Z.pow_pos_nonneg; lia.
    + exists (2 ^ (Z.of_nat n - 8)). rewrite pow256, <- Z.pow_add_r by lia.
      split; [f_equal; lia|apply Z.pow_pos_nonneg; lia].
  - rewrite masked_equal_zero, andb_true_r, Z.eqb_eq by done.
    rewrite !land_prefix by (done || lia).
    replace (8 * Z.succ (Z.of_nat (length nn)) - Z.of_nat n)
      with ((8 - Z.of_nat n) + 8 * Z.of_nat (length nn)) by lia.
    rewrite Z.pow_add_r, <- pow256 by lia.
    assert (0 < 2 ^ (8 - Z.of_nat n)) by (apply Z.pow_pos_nonneg; lia).
    rewrite !high_byte by done. split; [intros; nia|by intros ->].
Qed.
