(* ===== verification/GoMath.v ===== *)
(** * GoMath: Go's fixed-width numbers, floats and sums

    What the resource, shaping and quota code uses of Go's arithmetic: [int32] with its
    wrap-around, [float64] as IEEE binary64 (the Standard Library's executable
    [SpecFloat], so a comparison rounds exactly as the machine does), whole seconds of
    an instant, and sums over lists and maps with the lemmas counting arguments use.

    Instants are nanoseconds since the Unix epoch and durations nanoseconds, both [Z]. *)

From Stdlib Require Import SpecFloat.
From S2P Require Import Prelude GoStrings.

(** ** int32 *)

Definition MaxInt32 : Z := 2147483647.
Definition MinInt32 : Z := -2147483648.
Definition int32_ok (z : Z) : bool := ((MinInt32 <=? z) && (z <=? MaxInt32))%bool.
Definition wrap32 (z : Z) : Z := (z + 2147483648) mod 4294967296 - 2147483648.

Lemma wrap32_id z : int32_ok z = true -> wrap32 z = z.
Proof.
  unfold int32_ok, wrap32, MaxInt32, MinInt32. intros H. rewrite Z.mod_small; lia.
Qed.

Lemma wrap32_range z : int32_ok (wrap32 z) = true.
Proof.
  unfold int32_ok, wrap32, MaxInt32, MinInt32.
  pose proof (Z.mod_pos_bound (z + 2147483648) 4294967296). lia.
Qed.

(** Additions may be wrapped one by one or at the end. *)
Lemma wrap32_add_l a b : wrap32 (wrap32 a + b) = wrap32 (a + b).
Proof.
  unfold wrap32. f_equal.
  replace ((a + 2147483648) `mod` 4294967296 - 2147483648 + b + 2147483648)
    with ((a + 2147483648) `mod` 4294967296 + b) by lia.
  rewrite Zplus_mod_idemp_l. f_equal. lia.
Qed.

(** Truncating division of Go on [int]. *)
Definition go_div (a b : Z) : Z := Z.quot a b.

(** ** Time *)

Definition Nanosecond : Z := 1.
Definition Microsecond : Z := 1000.
Definition Millisecond : Z := 1000000.
Definition Second : Z := 1000000000.
Definition Minute : Z := 60 * Second.
Definition Hour : Z := 60 * Minute.

(** [t.Unix()] *)
Definition Unix (t : Z) : Z := t / Second.
(** [int64(d.Seconds())] for a duration: the whole seconds of it. *)
Definition whole_seconds (d : Z) : Z := Z.quot d Second.

(** [d.Round(m)] for a duration that is not negative, and [d.String()] for one of whole
    seconds. *)
Definition Round (d m : Z) : Z :=
  let r := d mod m in if r + r <? m then d - r else d + m - r.
Definition duration_string (d : Z) : string :=
  let s := d / Second in
  let sec := FormatInt (s mod 60) +:+ "s" in
  let min := FormatInt (s / 60 mod 60) +:+ "m" in
  if 3600 <=? s then FormatInt (s / 3600) +:+ "h" +:+ min +:+ sec
  else if 60 <=? s then min +:+ sec else sec.


Lemma Unix_mono a b : a <= b -> Unix a <= Unix b.
Proof. unfold Unix, Second. intros. by apply Z.div_le_mono. Qed.

(** ** float64 *)

Definition float64 : Type := spec_float.
Definition f64_of_Z (z : Z) : float64 :=
  binary_normalize 53 1024 z 0 (z <? 0).
Definition f64_div (a b : float64) : float64 := SFdiv 53 1024 a b.
Definition f64_mul (a b : float64) : float64 := SFmul 53 1024 a b.
Definition f64_add (a b : float64) : float64 := SFadd 53 1024 a b.
Definition f64_sub (a b : float64) : float64 := SFsub 53 1024 a b.
(** The comparisons of Go are false on NaN. *)
Definition f64_ge (a b : float64) : bool :=
  match SFcompare a b with Some Gt | Some Eq => true | _ => false end.
Definition f64_gt (a b : float64) : bool :=
  match SFcompare a b with Some Gt => true | _ => false end.
Definition f64_le (a b : float64) : bool := f64_ge b a.
Definition f64_lt (a b : float64) : bool := f64_gt b a.
Definition f64_ratio (n d : Z) : float64 := f64_div (f64_of_Z n) (f64_of_Z d).

(** No operation turns non-negative operands into a negative result. *)
Definition f64_sign (f : float64) : bool :=
  match f with
  | S754_zero s | S754_infinity s | S754_finite s _ _ => s
  | S754_nan => false
  end.
Definition nonneg (f : float64) : Prop := f64_sign f = false.

Lemma round_aux_sign sx m e l :
  f64_sign (binary_round_aux 53 1024 sx m e l) = sx \/ binary_round_aux 53 1024 sx m e l = S754_nan.
Proof.
  unfold binary_round_aux. destruct (shr_fexp 53 1024 m e l) as [r1 e1].
  destruct (shr_fexp 53 1024 _ e1 loc_Exact) as [r2 e2].
  destruct (shr_m r2); [by left| |by right]. by case_match; left.
Qed.

Lemma round_aux_nonneg m e l : nonneg (binary_round_aux 53 1024 false m e l).
Proof. unfold nonneg. destruct (round_aux_sign false m e l) as [H|H]; [done|by rewrite H]. Qed.

Lemma normalize_nonneg m e s : 0 < m \/ (m = 0 /\ s = false) -> nonneg (binary_normalize 53 1024 m e s).
Proof.
  intros H. unfold binary_normalize. destruct m as [|m|m]; [|unfold binary_round|lia].
  - destruct H as [?|[_ ->]]; [lia|done].
  - destruct (shl_align m e _). apply round_aux_nonneg.
Qed.

Lemma f64_of_Z_nonneg z : 0 <= z -> nonneg (f64_of_Z z).
Proof.
  intros H. apply normalize_nonneg. destruct (decide (z = 0)) as [->|]; [by right|left; lia].
Qed.

Lemma f64_mul_nonneg a b : nonneg a -> nonneg b -> nonneg (f64_mul a b).
Proof.
  unfold nonneg, f64_mul. destruct a as [[]|[]| |[]], b as [[]|[]| |[]]; cbn; try done.
  intros _ _. apply round_aux_nonneg.
Qed.

Lemma f64_div_nonneg a b : nonneg a -> nonneg b -> nonneg (f64_div a b).
Proof.
  unfold nonneg, f64_div. destruct a as [[]|[]| |[] ma ea], b as [[]|[]| |[] mb eb];
    cbn -[SFdiv_core_binary]; try done.
  intros _ _. destruct (SFdiv_core_binary _ _ _ _ _ _) as [[m e] l]. apply round_aux_nonneg.
Qed.

Lemma f64_add_nonneg a b : nonneg a -> nonneg b -> nonneg (f64_add a b).
Proof.
  unfold nonneg, f64_add. destruct a as [[]|[]| |[] ma ea], b as [[]|[]| |[] mb eb];
    cbn -[binary_normalize]; try done.
  intros _ _. apply normalize_nonneg. left. lia.
Qed.

(** ** Sums *)

Definition zsum {A} (f : A -> Z) (l : list A) : Z := foldr (fun x acc => f x + acc) 0 l.

Lemma zsum_nil {A} (f : A -> Z) : zsum f [] = 0.
Proof. done. Qed.

Lemma zsum_cons {A} (f : A -> Z) x l : zsum f (x :: l) = f x + zsum f l.
Proof. done. Qed.

Lemma zsum_app {A} (f : A -> Z) l k : zsum f (l ++ k) = zsum f l + zsum f k.
Proof. induction l as [|x l IH]; cbn; [done|]. fold (zsum f (l ++ k)) (zsum f l). lia. Qed.

Lemma zsum_perm {A} (f : A -> Z) l k : l ≡ₚ k -> zsum f l = zsum f k.
Proof. induction 1; cbn in *; unfold zsum in *; lia. Qed.

Lemma zsum_nonneg {A} (f : A -> Z) l : (forall x, 0 <= f x) -> 0 <= zsum f l.
Proof.
  intros H. induction l as [|x l IH]; cbn; [lia|]. specialize (H x). fold (zsum f l). lia.
Qed.

Lemma zsum_le {A} (f g : A -> Z) l : (forall x, f x <= g x) -> zsum f l <= zsum g l.
Proof.
  intros H. induction l as [|x l IH]; cbn; [lia|].
  specialize (H x). fold (zsum f l) (zsum g l). lia.
Qed.

Lemma zsum_zero {A} (f : A -> Z) l : (forall x, x ∈ l -> f x = 0) -> zsum f l = 0.
Proof.
  induction l as [|x l IH]; intros H; cbn; [done|]. fold (zsum f l).
  rewrite IH by set_solver. rewrite (H x) by set_solver. lia.
Qed.

Lemma zsum_bound {A} (f : A -> Z) l c :
  (forall x, f x <= c) -> zsum f l <= c * Z.of_nat (length l).
Proof.
  intros H. induction l as [|x l IH]; cbn [zsum foldr length]; [lia|].
  fold (zsum f l). specialize (H x). lia.
Qed.

Lemma zsum_insert {A} (f : A -> Z) l i x y :
  l !! i = Some x -> zsum f (<[i := y]> l) = zsum f l - f x + f y.
Proof.
  intros H. rewrite <- (take_drop_middle l i x H) at 2.
  rewrite insert_take_drop by (by eapply lookup_lt_Some).
  rewrite !zsum_app, !zsum_cons. lia.
Qed.

Section MapSum.
Context `{Countable K} {A : Type}.
Implicit Types (m : gmap K A) (f : A -> Z).

(** The sum of [f] over the values of a map. *)
Definition msum f m : Z := zsum (fun kv => f kv.2) (map_to_list m).

Lemma msum_empty f : msum f ∅ = 0.
Proof. unfold msum. by rewrite map_to_list_empty. Qed.

Lemma msum_insert f m k x : m !! k = None -> msum f (<[k:=x]> m) = f x + msum f m.
Proof.
  intros E. unfold msum. by rewrite (zsum_perm _ _ _ (map_to_list_insert m k x E)).
Qed.

Lemma msum_delete f m k x : m !! k = Some x -> msum f (delete k m) = msum f m - f x.
Proof.
  intros E. unfold msum. rewrite <- (zsum_perm _ _ _ (map_to_list_delete m k x E)).
  cbn. fold (zsum (fun kv => f kv.2) (map_to_list (delete k m))). lia.
Qed.

Lemma msum_update f m k x y :
  m !! k = Some x -> msum f (<[k:=y]> m) = msum f m - f x + f y.
Proof.
  intros E. rewrite <- (insert_delete_eq m k y).
  rewrite msum_insert, (msum_delete f m k x E) by apply lookup_delete_eq. lia.
Qed.

Lemma msum_nonneg f m : (forall x, 0 <= f x) -> 0 <= msum f m.
Proof. intros Hf. apply zsum_nonneg. intros [k x]. apply Hf. Qed.

Lemma msum_le f g m : (forall x, f x <= g x) -> msum f m <= msum g m.
Proof. intros Hf. apply zsum_le. intros [k x]. apply Hf. Qed.

Lemma msum_ge f m k x : (forall y, 0 <= f y) -> m !! k = Some x -> f x <= msum f m.
Proof.
  intros Hf E. pose proof (msum_nonneg f (delete k m) Hf) as Hn.
  rewrite (msum_delete f m k x E) in Hn. lia.
Qed.

Lemma msum_size m : msum (fun _ => 1) m = Z.of_nat (size m).
Proof.
  induction m as [|k x m E _ IH] using map_first_key_ind; [done|].
  rewrite msum_insert, map_size_insert_None, IH by done. lia.
Qed.
End MapSum.

Create Rewrite HintDb counting.
#[export] Hint Rewrite @zsum_nil @zsum_cons @zsum_app : counting.
#[global] Arguments zsum : simpl never.
#[global] Arguments msum : simpl never.
