(* ===== verification/SmtpState.v ===== *)
(** * SMTP session state (internal/smtp/session_state.go, dsn.go)

    The mutex-protected record every command handler reads and writes, one
    definition per method.  A method that stamps [lastActivityTime] takes the
    clock reading [now] as its first argument; log calls have no counterpart.
    The mutex makes each method atomic, so a method is a function on the record. *)

From S2P Require Import Prelude GoStrings.

Open Scope string_scope.
Open Scope list_scope.
Open Scope Z_scope.

(** ** Data *)

Inductive SMTPPhase :=
| PhaseInit | PhaseMail | PhaseRcpt | PhaseData | PhaseAuth | PhaseTLS | PhaseQuit.

#[global] Instance SMTPPhase_eq_dec : EqDecision SMTPPhase.
Proof. solve_decision. Defined.

Definition SMTPPhase_String (p : SMTPPhase) : string :=
  match p with
  | PhaseInit => "INIT" | PhaseMail => "MAIL" | PhaseRcpt => "RCPT" | PhaseData => "DATA"
  | PhaseAuth => "AUTH" | PhaseTLS => "TLS" | PhaseQuit => "QUIT"
  end.

Inductive DataTransferMode := DataModeNone | DataModeDATA | DataModeBDAT | DataModeBURL.

#[global] Instance DataTransferMode_eq_dec : EqDecision DataTransferMode.
Proof. solve_decision. Defined.

Definition DataTransferMode_String (m : DataTransferMode) : string :=
  match m with
  | DataModeNone => "NONE" | DataModeDATA => "DATA"
  | DataModeBDAT => "BDAT" | DataModeBURL => "BURL"
  end.

(** DSNReturnType and DSNNotifyType are string types with named constants; the
    zero value of the former is the empty string. *)
Inductive DSNReturnType := DSNReturnUnset | DSNReturnFull | DSNReturnHeaders.
Inductive DSNNotifyType :=
  DSNNotifyNever | DSNNotifySuccess | DSNNotifyFailure | DSNNotifyDelay.

#[global] Instance DSNNotifyType_eq_dec : EqDecision DSNNotifyType.
Proof. solve_decision. Defined.

Set Primitive Projections.

Record DSNParams := mkDSNParams { dsnReturn : DSNReturnType; dsnEnvID : string }.

Record DSNRecipientParams := mkDSNRecipientParams {
  dsnNotify : list DSNNotifyType;
  dsnORCPT : string
}.

Record SessionState := mkSessionState {
  phase : SMTPPhase;
  heloName : string;
  greeted : bool;
  authenticated : bool;
  username : string;
  mailFrom : string;
  rcptTo : list string;
  dataSize : Z;
  declaredSize : Z;
  tlsActive : bool;
  smtputf8 : bool;
  authAttempts : Z;
  lastAuthAttempt : Z;
  sessionStartTime : Z;
  lastActivityTime : Z;
  messageCount : Z;
  bytesSent : Z;
  bytesReceived : Z;
  errors : list string;
  dataTransferMode : DataTransferMode;
  dsnParams : option DSNParams;
  dsnRecipientParams : option (gmap string DSNRecipientParams);
  requireTLS : bool
}.

Unset Primitive Projections.

(** ** Operations *)

Section Operations.
Variable now : Z.

Definition NewSessionState : SessionState :=
  {| phase := PhaseInit; heloName := ""; greeted := false; authenticated := false;
     username := ""; mailFrom := ""; rcptTo := []; dataSize := 0; declaredSize := 0;
     tlsActive := false; smtputf8 := false; authAttempts := 0; lastAuthAttempt := 0;
     sessionStartTime := now; lastActivityTime := now; messageCount := 0;
     bytesSent := 0; bytesReceived := 0; errors := [];
     dataTransferMode := DataModeNone; dsnParams := None; dsnRecipientParams := None;
     requireTLS := false |}.

Definition touch (ss : SessionState) : SessionState := ss <| lastActivityTime := now |>.

(** The successor lists of isValidPhaseTransition. *)
Definition validTransitions (from : SMTPPhase) : list SMTPPhase :=
  match from with
  | PhaseInit => [PhaseMail; PhaseAuth; PhaseTLS; PhaseQuit; PhaseInit]
  | PhaseMail => [PhaseRcpt; PhaseMail; PhaseInit; PhaseQuit]
  | PhaseRcpt => [PhaseRcpt; PhaseData; PhaseMail; PhaseInit; PhaseQuit]
  | PhaseData => [PhaseMail; PhaseInit; PhaseQuit]
  | PhaseAuth => [PhaseInit; PhaseMail; PhaseQuit]
  | PhaseTLS => [PhaseInit; PhaseAuth; PhaseMail; PhaseQuit]
  | PhaseQuit => []
  end.

Definition isValidPhaseTransition (from to : SMTPPhase) : bool :=
  bool_decide (to ∈ validTransitions from).

Definition SetPhase (p : SMTPPhase) (ss : SessionState) : result unit * SessionState :=
  if isValidPhaseTransition (phase ss) p
  then (Ok tt, touch (ss <| phase := p |>))
  else (Err ("invalid phase transition from " +:+ SMTPPhase_String (phase ss)
             +:+ " to " +:+ SMTPPhase_String p), ss).

Definition SetAuthenticated (a : bool) (u : string) (ss : SessionState) : SessionState :=
  touch (ss <| authenticated := a |> <| username := u |>).

Definition SetMailFrom (from : string) (ss : SessionState) : result unit * SessionState :=
  if bool_decide (phase ss ∈ [PhaseInit; PhaseMail])
  then (Ok tt, touch (ss <| mailFrom := from |> <| phase := PhaseMail |> <| rcptTo := [] |>))
  else (Err ("cannot set MAIL FROM in phase " +:+ SMTPPhase_String (phase ss)), ss).

Definition AcceptMail (from : string) (size : Z) (utf8 : bool) (dsn : option DSNParams)
    (reqTLS : bool) (ss : SessionState) : result unit * SessionState :=
  if bool_decide (phase ss ∈ [PhaseInit; PhaseMail; PhaseRcpt])
  then (Ok tt,
        touch (ss <| mailFrom := from |> <| phase := PhaseRcpt |> <| rcptTo := [] |>
                  <| declaredSize := size |> <| smtputf8 := utf8 |> <| dsnParams := dsn |>
                  <| dsnRecipientParams := None |> <| requireTLS := reqTLS |>))
  else (Err ("cannot set MAIL FROM in phase " +:+ SMTPPhase_String (phase ss)), ss).

Definition AddRecipient (rcpt : string) (ss : SessionState) : result unit * SessionState :=
  if bool_decide (phase ss ∈ [PhaseMail; PhaseRcpt])
  then (Ok tt, touch (ss <| rcptTo := rcptTo ss ++ [rcpt] |> <| phase := PhaseRcpt |>))
  else (Err ("cannot add recipient in phase " +:+ SMTPPhase_String (phase ss)), ss).

Definition GetRecipientCount (ss : SessionState) : Z := Z.of_nat (length (rcptTo ss)).

Definition SetDataSize (size : Z) (ss : SessionState) : SessionState :=
  touch (ss <| dataSize := size |>).
Definition SetDeclaredSize (size : Z) (ss : SessionState) : SessionState :=
  touch (ss <| declaredSize := size |>).
Definition SetTLSActive (active : bool) (ss : SessionState) : SessionState :=
  touch (ss <| tlsActive := active |>).
Definition SetSMTPUTF8 (enabled : bool) (ss : SessionState) : SessionState :=
  touch (ss <| smtputf8 := enabled |>).

Definition IncrementAuthAttempts (ss : SessionState) : Z * SessionState :=
  let ss' := touch (ss <| authAttempts := wrap64 (authAttempts ss + 1) |>
                       <| lastAuthAttempt := now |>) in
  (authAttempts ss', ss').

Definition UpdateActivity (ss : SessionState) : SessionState := touch ss.
Definition GetSessionDuration (ss : SessionState) : Z := now - sessionStartTime ss.
Definition GetIdleTime (ss : SessionState) : Z := now - lastActivityTime ss.

Definition IncrementMessageCount (ss : SessionState) : SessionState :=
  touch (ss <| messageCount := wrap64 (messageCount ss + 1) |>).
Definition AddBytesSent (n : Z) (ss : SessionState) : SessionState :=
  touch (ss <| bytesSent := wrap64 (bytesSent ss + n) |>).
Definition AddBytesReceived (n : Z) (ss : SessionState) : SessionState :=
  touch (ss <| bytesReceived := wrap64 (bytesReceived ss + n) |>).
Definition AddError (e : string) (ss : SessionState) : SessionState :=
  touch (ss <| errors := errors ss ++ [e] |>).

Definition Reset (ss : SessionState) : SessionState :=
  touch (ss <| phase := if greeted ss then PhaseMail else PhaseInit |>
            <| mailFrom := "" |> <| rcptTo := [] |> <| dataSize := 0 |>
            <| declaredSize := 0 |> <| smtputf8 := false |>
            <| dataTransferMode := DataModeNone |> <| dsnParams := None |>
            <| dsnRecipientParams := None |> <| requireTLS := false |>).

Definition SetHeloName (name : string) (ss : SessionState) : SessionState :=
  ss <| heloName := name |>.
Definition SetGreeted (g : bool) (ss : SessionState) : SessionState :=
  ss <| greeted := g |>.

(** The commands each phase admits (the table of CanAcceptCommand). *)
Definition allowedCommands (p : SMTPPhase) : list string :=
  match p with
  | PhaseInit => ["HELO"; "EHLO"; "QUIT"; "RSET"; "NOOP"; "HELP"; "AUTH"; "STARTTLS";
                  "VRFY"; "EXPN"; "XDEBUG"]
  | PhaseMail => ["HELO"; "EHLO"; "MAIL"; "AUTH"; "STARTTLS"; "QUIT"; "RSET"; "NOOP";
                  "HELP"; "VRFY"; "EXPN"; "XDEBUG"]
  | PhaseRcpt => ["HELO"; "EHLO"; "RCPT"; "QUIT"; "RSET"; "NOOP"; "HELP"; "DATA"; "BDAT";
                  "VRFY"; "EXPN"; "XDEBUG"]
  | PhaseData => ["QUIT"; "RSET"; "NOOP"; "HELP"; "XDEBUG"]
  | PhaseAuth => ["AUTH"; "QUIT"; "RSET"; "NOOP"; "HELP"; "XDEBUG"]
  | PhaseTLS => ["HELO"; "EHLO"; "QUIT"; "RSET"; "NOOP"; "HELP"; "AUTH"; "MAIL";
                 "VRFY"; "EXPN"; "XDEBUG"]
  | PhaseQuit => []
  end.

Context `{U : UnicodeTables}.

Definition CanAcceptCommand (command : string) (ss : SessionState) : bool :=
  let command := ToUpper (TrimSpace command) in
  if bool_decide (dataTransferMode ss = DataModeBDAT)
  then bool_decide (command ∈ ["BDAT"; "RSET"; "QUIT"; "NOOP"])
  else bool_decide (command ∈ allowedCommands (phase ss)).

Definition SetDataTransferMode (mode : DataTransferMode) (ss : SessionState)
    : result unit * SessionState :=
  if (negb (bool_decide (dataTransferMode ss = DataModeNone)) &&
      negb (bool_decide (dataTransferMode ss = mode)))%bool
  then (Err ("cannot switch from " +:+ DataTransferMode_String (dataTransferMode ss)
             +:+ " to " +:+ DataTransferMode_String mode
             +:+ " - data transfer mode conflict"), ss)
  else (Ok tt, touch (ss <| dataTransferMode := mode |>)).

Definition CanAcceptDataCommand (command : string) (ss : SessionState) : bool :=
  let command := ToUpper (TrimSpace command) in
  let modeOK :=
    match dataTransferMode ss with
    | DataModeNone => true
    | DataModeDATA => (command =? "DATA")%string
    | DataModeBDAT => (command =? "BDAT")%string
    | DataModeBURL => (command =? "BURL")%string
    end in
  (modeOK && bool_decide (phase ss = PhaseRcpt))%bool.

Definition ClearDataTransferMode (ss : SessionState) : SessionState :=
  touch (ss <| dataTransferMode := DataModeNone |>).
Definition SetDSNParams (p : DSNParams) (ss : SessionState) : SessionState :=
  touch (ss <| dsnParams := Some p |>).

(** The per-recipient map is allocated on first use. *)
Definition SetDSNRecipientParams (addr : string) (p : DSNRecipientParams)
    (ss : SessionState) : SessionState :=
  touch (ss <| dsnRecipientParams :=
                 Some (<[addr := p]> (default ∅ (dsnRecipientParams ss))) |>).
Definition GetAllDSNRecipientParams (ss : SessionState)
    : option (gmap string DSNRecipientParams) := dsnRecipientParams ss.
Definition SetRequireTLS (r : bool) (ss : SessionState) : SessionState :=
  touch (ss <| requireTLS := r |>).
End Operations.
