(* ===== verification/SmtpSyntax.v ===== *)
(** * SMTP envelope syntax (the parsers of internal/smtp/session_commands.go)

    Command splitting, HELO names and address literals, the MAIL FROM and
    RCPT TO paths with their ESMTP parameters, xtext, ORCPT and mailbox checks,
    and the relay test on local domains.  The index loops of the source become
    recursions over the bytes with the same flags. *)

From S2P Require Import Prelude GoStrings GoNet SmtpState.

Open Scope string_scope.
Open Scope list_scope.
Open Scope Z_scope.

Definition is_byte (n : Z) (c : ascii) : bool := b2z c =? n.

Section Syntax.
Context `{U : UnicodeTables}.

(** ** Commands and hostnames *)

Definition parseCommand (line : string) : string * string :=
  let line := TrimSpace line in
  let '(cmd, rest, found) := Cut line SP in
  (ToUpper cmd, if found then TrimSpace rest else "").

(** The label regexp [^[a-zA-Z0-9]([a-zA-Z0-9\-]{0,61}[a-zA-Z0-9])?$]: one to
    63 letters, digits or hyphens, the first and the last not a hyphen. *)
Definition is_label_byte (c : ascii) : bool := (is_alnum c || is_byte 45 c)%bool.
Definition label_ok (label : string) : bool :=
  match first_byte label, last_byte label with
  | Some f, Some l =>
      (is_alnum f && is_alnum l && forall_bytes is_label_byte label && (slen label <=? 63))%bool
  | _, _ => false
  end.

Definition validateDomainName (domain : string) : result unit :=
  if 255 <? slen domain then Err "invalid domain name: exceeds maximum length"
  else foldr (fun label (k : result unit) =>
         if (label =? "")%string then Err "invalid domain name: empty label"
         else if 63 <? slen label then Err "invalid domain name: label exceeds 63 characters"
         else if negb (label_ok label) then Err "invalid domain name: malformed label"
         else k) (Ok tt) (Split domain "."%char).

Definition validateAddressLiteral (literal : string) : result unit :=
  let content := stake (String.length literal - 2) (sdrop 1 literal) in
  if (content =? "")%string then Err "malformed address literal: empty brackets"
  else if ((5 <=? slen content) && (ToUpper (stake 5 content) =? "IPV6:")%string)%bool then
    let ipv6Addr := sdrop 5 content in
    if (ipv6Addr =? "")%string
    then Err "malformed IPv6 address literal: missing address after IPv6: prefix"
    else match ParseIP ipv6Addr with
         | None => Err "malformed IPv6 address literal: invalid IPv6 address"
         | Some ip =>
             if bool_decide (is_Some (To4 ip))
             then Err "malformed IPv6 address literal: address is IPv4, not IPv6"
             else Ok tt
         end
  else if exists_byte (is_byte 58) content then Ok tt
  else match ParseIP content with
       | None => Err "malformed IPv4 address literal: invalid IP address"
       | Some ip =>
           if bool_decide (is_Some (To4 ip)) then Ok tt
           else Err "malformed IPv4 address literal: address is not IPv4 format"
       end.

Definition validateHostname (hostname : string) : result unit :=
  if (hostname =? "")%string then Err "empty hostname"
  else if 255 <? slen hostname then Err "hostname too long"
  else if ((2 <=? slen hostname) && bool_decide (first_byte hostname = Some "["%char)
           && bool_decide (last_byte hostname = Some "]"%char))%bool
  then validateAddressLiteral hostname
  else validateDomainName hostname.

(** ** Character classes of parameters *)

Definition isASCIIDecimal (s : string) : bool :=
  if (s =? "")%string then false else forall_bytes is_digit s.

Definition containsNonASCII (s : string) : bool := exists_byte (fun c => 128 <=? b2z c) s.

Definition isHex (b : ascii) : bool :=
  (in_range 48 57 b || in_range 65 70 b || in_range 97 102 b)%bool.

(** The loop of validXText: ['+'] must be followed by two hex digits. *)
Fixpoint xtext_bytes (s : string) : bool :=
  match s with
  | EmptyString => true
  | String b s' =>
      if is_byte 43 b then
        match s' with
        | String h1 (String h2 s'') => (isHex h1 && isHex h2 && xtext_bytes s'')%bool
        | _ => false
        end
      else if ((b2z b <? 33) || (126 <? b2z b) || is_byte 61 b)%bool then false
      else xtext_bytes s'
  end.
Definition validXText (s : string) : bool :=
  if (s =? "")%string then false else xtext_bytes s.

Definition validORCPT (s : string) : bool :=
  let '(typ, text, ok) := Cut s ";"%char in
  if (negb ok || (typ =? "")%string || negb (validXText text))%bool then false
  else forall_bytes (fun b => is_alnum b || is_byte 45 b)%bool typ.

(** ** Mailboxes *)

Record mailbox_scan := mkScan { sc_quoted : bool; sc_escaped : bool; sc_at : option nat }.

(** The scanning loop of validSMTPMailbox at index [i]; [None] is an early
    [return false]. *)
Fixpoint scan_mailbox (i : nat) (st : mailbox_scan) (s : string) : option mailbox_scan :=
  match s with
  | EmptyString => Some st
  | String b s' =>
      let '(mkScan quoted escaped at_) := st in
      if escaped then
        if ((b2z b <? 32) || (126 <? b2z b))%bool then None
        else scan_mailbox (S i) (mkScan quoted false at_) s'
      else if (quoted && Ascii.eqb b BACKSLASH)%bool then
        scan_mailbox (S i) (mkScan quoted true at_) s'
      else if Ascii.eqb b DQUOTE then
        if (negb (i =? 0)%nat && negb quoted)%bool then None
        else scan_mailbox (S i) (mkScan (negb quoted) false at_) s'
      else if (negb quoted && is_byte 64 b)%bool then
        match at_ with
        | Some _ => None
        | None => scan_mailbox (S i) (mkScan quoted false (Some i)) s'
        end
      else if (negb quoted && ((b2z b <=? 32) || is_byte 60 b || is_byte 62 b))%bool then None
      else scan_mailbox (S i) (mkScan quoted false at_) s'
  end.

Definition local_ok (local : string) : bool :=
  if bool_decide (first_byte local = Some DQUOTE) then
    ((2 <=? slen local) && bool_decide (last_byte local = Some DQUOTE))%bool
  else
    negb (ContainsAny local (String DQUOTE "(),:;<>@[\] ")
          || HasPrefix local "." || HasSuffix local "." || Contains local "..")%bool.

Definition mailbox_label_byte (b : ascii) : bool :=
  (is_alnum b || is_byte 45 b || (128 <=? b2z b))%bool.
Definition mailbox_label_ok (label : string) : bool :=
  (negb (label =? "")%string
   && negb (bool_decide (first_byte label = Some "-"%char))
   && negb (bool_decide (last_byte label = Some "-"%char))
   && forall_bytes mailbox_label_byte label)%bool.

Definition domain_ok (domain : string) : bool :=
  if bool_decide (first_byte domain = Some "["%char) then
    if bool_decide (last_byte domain = Some "]"%char)
    then bool_decide (is_Some (ParseIP
           (TrimPrefix (stake (String.length domain - 2) (sdrop 1 domain)) "IPv6:")))
    else false
  else if (HasPrefix domain "." || HasSuffix domain ".")%bool then false
  else forallb mailbox_label_ok (Split domain "."%char).

Definition validSMTPMailbox (s : string) : bool :=
  match scan_mailbox 0 (mkScan false false None) s with
  | None => false
  | Some (mkScan quoted escaped at_) =>
      if (quoted || escaped)%bool then false
      else match at_ with
           | None | Some O => false
           | Some at_ =>
               if (at_ =? String.length s - 1)%nat then false
               else (local_ok (stake at_ s) && domain_ok (sdrop (S at_) s))%bool
           end
  end.

(** validateEmailAddress of the command handler: only a shape check. *)
Definition validateEmailAddress (addr : string) : result unit :=
  if (addr =? "")%string then Ok tt
  else if 320 <? slen addr then Err "address too long"
  else match IndexByte addr "@"%char with
       | None | Some O => Err "invalid email address format"
       | Some i => if (i =? String.length addr - 1)%nat
                   then Err "invalid email address format" else Ok tt
       end.

(** ** Paths *)

(** The loop looking for the closing bracket, over the bytes after ['<']: the
    address and what follows ['>']. *)
Fixpoint path_close (quoted escaped : bool) (s : string) : option (string * string) :=
  match s with
  | EmptyString => None
  | String b s' =>
      let keep q e := '(addr, tail) ← path_close q e s'; Some (String b addr, tail) in
      if escaped then keep quoted false
      else if (quoted && Ascii.eqb b BACKSLASH)%bool then keep quoted true
      else if Ascii.eqb b DQUOTE then keep (negb quoted) false
      else if (is_byte 62 b && negb quoted)%bool then Some ("", s')
      else keep quoted false
  end.

Definition is_blank (c : ascii) : bool := (Ascii.eqb c SP || Ascii.eqb c TAB)%bool.

(** Maximal runs of non-blank bytes. *)
Fixpoint blank_fields (cur : string) (s : string) : list string :=
  match s with
  | EmptyString => emit cur []
  | String c s' => if is_blank c then emit cur (blank_fields "" s')
                   else blank_fields (cur +:+ String c "") s'
  end.

Definition parseSMTPPath (args prefix : string) (allowNull : bool)
    : result (string * list string) :=
  let n := String.length prefix in
  if ((slen args <? slen prefix + 2) || negb (EqualFold (stake n args) prefix)
      || negb (bool_decide (first_byte (sdrop n args) = Some "<"%char)))%bool
  then Err "invalid path"
  else match path_close false false (sdrop (S n) args) with
       | None => Err "unterminated path"
       | Some (addr, tail) =>
           if ((addr =? "")%string && negb allowNull)%bool then Err "null forward path"
           else if (negb (addr =? "")%string && negb (validSMTPMailbox addr))%bool
           then Err "invalid mailbox"
           else match first_byte tail with
                | None => Ok (addr, [])
                | Some c => if is_blank c then Ok (addr, blank_fields "" tail)
                            else Err "path trailing junk"
                end
       end.

(** ** MAIL FROM parameters *)

Record mailFromParams := mkMailFrom {
  mf_addr : string; mf_size : Z; mf_dsn : DSNParams;
  mf_hasDSN : bool; mf_smtpUTF8 : bool; mf_requireTLS : bool
}.

(** One iteration of the parameter loop, after the duplicate check. *)
Definition mail_param (maxSize : Z) (key value : string) (hasValue : bool)
    (p : mailFromParams) : result mailFromParams :=
  let '(mkMailFrom addr size dsn hasDSN utf8 rtls) := p in
  if (key =? "SIZE")%string then
    if (negb hasValue || negb (isASCIIDecimal value))%bool
    then Err "501 5.5.4 Invalid SIZE parameter syntax"
    else match ParseInt64 value with
         | None => Err "501 5.5.4 Invalid SIZE parameter syntax"
         | Some n =>
             if ((0 <=? maxSize) && (maxSize <? n))%bool
             then Err "552 5.3.4 Message size exceeds fixed maximum message size"
             else Ok (mkMailFrom addr n dsn hasDSN utf8 rtls)
         end
  else if (key =? "SMTPUTF8")%string then
    if hasValue then Err "501 5.5.4 Invalid SMTPUTF8 parameter"
    else Ok (mkMailFrom addr size dsn hasDSN true rtls)
  else if (key =? "BODY")%string then
    if (negb hasValue || (negb (ToUpper value =? "7BIT") && negb (ToUpper value =? "8BITMIME"))%string)%bool
    then Err "501 5.5.4 Invalid BODY parameter" else Ok p
  else if (key =? "RET")%string then
    if negb hasValue then Err "501 5.5.4 Invalid RET parameter"
    else if (ToUpper value =? "FULL")%string
    then Ok (mkMailFrom addr size (mkDSNParams DSNReturnFull (dsnEnvID dsn)) true utf8 rtls)
    else if (ToUpper value =? "HDRS")%string
    then Ok (mkMailFrom addr size (mkDSNParams DSNReturnHeaders (dsnEnvID dsn)) true utf8 rtls)
    else Err "501 5.5.4 Invalid RET parameter: must be FULL or HDRS"
  else if (key =? "ENVID")%string then
    if (negb hasValue || (100 <? slen value) || negb (validXText value))%bool
    then Err "501 5.5.4 Invalid ENVID parameter"
    else Ok (mkMailFrom addr size (mkDSNParams (dsnReturn dsn) value) true utf8 rtls)
  else if (key =? "REQUIRETLS")%string then
    if hasValue then Err "501 5.5.4 Invalid REQUIRETLS parameter"
    else Ok (mkMailFrom addr size dsn hasDSN utf8 true)
  else Err ("555 5.5.4 Unsupported MAIL FROM parameter: " +:+ key).

Fixpoint mail_params (maxSize : Z) (seen : list string) (fields : list string)
    (p : mailFromParams) : result mailFromParams :=
  match fields with
  | [] => Ok p
  | field :: rest =>
      let '(key, value, hasValue) := Cut field "="%char in
      let key := ToUpper key in
      if bool_decide (key ∈ seen) then Err ("501 5.5.4 Duplicate " +:+ key +:+ " parameter")
      else p' ← mail_param maxSize key value hasValue p;
           mail_params maxSize (key :: seen) rest p'
  end.

Definition parseMailFromParams (maxSize : Z) (tls : bool) (args : string)
    : result mailFromParams :=
  match parseSMTPPath args "FROM:" true with
  | Err _ => Err "501 5.5.4 Syntax: MAIL FROM:<address>"
  | Ok (addr, fields) =>
      p ← mail_params maxSize [] fields
            (mkMailFrom addr 0 (mkDSNParams DSNReturnUnset "") false false false);
      if (mf_requireTLS p && negb tls)%bool
      then Err "530 5.7.4 REQUIRETLS requires an active TLS connection"
      else Ok p
  end.

(** ** RCPT TO parameters *)

Record rcptToParams := mkRcptTo {
  rt_addr : string; rt_dsn : DSNRecipientParams; rt_hasDSN : bool
}.

Definition notify_value (v : string) : option DSNNotifyType :=
  if (v =? "NEVER")%string then Some DSNNotifyNever
  else if (v =? "SUCCESS")%string then Some DSNNotifySuccess
  else if (v =? "FAILURE")%string then Some DSNNotifyFailure
  else if (v =? "DELAY")%string then Some DSNNotifyDelay
  else None.

(** The NOTIFY loop: conditions seen so far and the values collected. *)
Fixpoint notify_values (seen : list string) (vs : list string) (acc : list DSNNotifyType)
    : result (list DSNNotifyType) :=
  match vs with
  | [] => Ok acc
  | v :: rest =>
      if bool_decide (v ∈ seen) then Err ("501 5.5.4 Duplicate NOTIFY condition: " +:+ v)
      else match notify_value v with
           | None => Err ("501 5.5.4 Invalid NOTIFY value: " +:+ v)
           | Some n => notify_values (v :: seen) rest (acc ++ [n])
           end
  end.

Definition rcpt_param (key value : string) (ok : bool) (d : DSNRecipientParams)
    : result DSNRecipientParams :=
  if (key =? "NOTIFY")%string then
    if (negb ok || (value =? "")%string)%bool then Err "501 5.5.4 Invalid NOTIFY value"
    else let values := Split (ToUpper value) ","%char in
         ns ← notify_values [] values (dsnNotify d);
         if (bool_decide ("NEVER" ∈ values) && (1 <? length values)%nat)%bool
         then Err "501 5.5.4 NOTIFY=NEVER must not be combined with other values"
         else Ok (mkDSNRecipientParams ns (dsnORCPT d))
  else if (key =? "ORCPT")%string then
    if (negb ok || negb (validORCPT value))%bool then Err "501 5.5.4 Invalid ORCPT parameter"
    else Ok (mkDSNRecipientParams (dsnNotify d) value)
  else Err ("555 5.5.4 Unsupported RCPT TO parameter: " +:+ key).

Fixpoint rcpt_params (seen : list string) (fields : list string) (d : DSNRecipientParams)
    : result DSNRecipientParams :=
  match fields with
  | [] => Ok d
  | field :: rest =>
      let '(key, value, ok) := Cut field "="%char in
      let key := ToUpper key in
      if bool_decide (key ∈ seen) then Err ("501 5.5.4 Duplicate " +:+ key +:+ " parameter")
      else d' ← rcpt_param key value ok d; rcpt_params (key :: seen) rest d'
  end.

Definition parseRCPTEnvelope (args : string) : result rcptToParams :=
  match parseSMTPPath args "TO:" false with
  | Err _ => Err "501 5.5.4 Syntax: RCPT TO:<address>"
  | Ok (addr, fields) =>
      d ← rcpt_params [] fields (mkDSNRecipientParams [] "");
      Ok (mkRcptTo addr d (0 <? length fields)%nat)
  end.

(** ** Local domains *)

Definition inLocalDomains (domains : list string) (recipient : string) : bool :=
  match Split recipient "@"%char with
  | [_; d] => let domain := ToLower d in
              existsb (fun ld => (ToLower ld =? domain)%string) domains
  | _ => false
  end.

(** ** Sender ownership (sender_binding.go) *)

Definition senderOwnedBy (login addr : string) (localDomains : list string)
    (aliases : option (list (string * list string))) : bool :=
  let addr := ToLower (TrimSpace addr) in
  match LastIndexByte addr "@"%char with
  | None | Some O => false
  | Some at_ =>
      if (at_ =? String.length addr - 1)%nat then false
      else
        let local := stake at_ addr in
        let domain := sdrop (S at_) addr in
        let lowerLogin := ToLower (TrimSpace login) in
        let direct :=
          if exists_byte (is_byte 64) lowerLogin then (lowerLogin =? addr)%string
          else (negb (lowerLogin =? "")%string && (lowerLogin =? local)%string
                && existsb (fun d => EqualFold d domain) localDomains)%bool in
        if direct then true
        else match aliases with
             | None => false
             | Some table =>
                 existsb (fun '(key, al) =>
                   (EqualFold (TrimSpace key) lowerLogin &&
                    existsb (fun a => let a := ToLower (TrimSpace a) in
                      ((a =? addr)%string
                       || (HasPrefix a "@" && (sdrop 1 a =? domain)%string))%bool) al)%bool) table
             end
  end.
End Syntax.

(** ** Paths print and parse back *)

Definition no_blank (f : string) : bool := forall_bytes (fun c => negb (is_blank c)) f.

(** A MAIL or RCPT argument: the path and its space-separated parameters. *)
Definition print_path (prefix addr : string) (fields : list string) : string :=
  prefix +:+ "<" +:+ addr +:+ ">" +:+ concat_strings ((fun f => " " +:+ f) <$> fields).

(** The bracket scanner follows the mailbox scanner: on a mailbox that scans to a
    balanced end it finds the closing bracket right behind it. *)
Lemma path_close_mailbox s : forall i q e at_ at' tail,
  scan_mailbox i (mkScan q e at_) s = Some (mkScan false false at') ->
  path_close q e (s +:+ String ">" tail) = Some (s, tail).
Proof.
  induction s as [|b s IH]; intros i q e at_ at' tail H.
  { cbn in H. by simplify_eq. }
  rewrite app_cons. cbn in H |- *.
  destruct e.
  { case_match; [done|]. by rewrite (IH _ _ _ _ _ _ H). }
  destruct (q && Ascii.eqb b BACKSLASH)%bool.
  { by rewrite (IH _ _ _ _ _ _ H). }
  destruct (Ascii.eqb b DQUOTE).
  { case_match; [done|]. by rewrite (IH _ _ _ _ _ _ H). }
  destruct (negb q && is_byte 64 b)%bool eqn:E64.
  { bool_facts. unfold is_byte in *. destruct at_; [done|].
    replace (b2z b =? 62) with false by (symmetry; apply Z.eqb_neq; bool_facts; lia).
    cbn. by rewrite (IH _ _ _ _ _ _ H). }
  destruct (negb q && _)%bool eqn:Eb in H; [done|].
  replace (is_byte 62 b && negb q)%bool with false; [by rewrite (IH _ _ _ _ _ _ H)|].
  destruct q; [by rewrite andb_false_r|]. cbn in Eb. bool_facts.
  match goal with H : is_byte 62 b = false |- _ => by rewrite H end.
Qed.

Lemma blank_fields_word f : forall cur rest,
  no_blank f = true -> blank_fields cur (f +:+ rest) = blank_fields (cur +:+ f) rest.
Proof.
  induction f as [|c f IH]; intros cur rest H; [by rewrite string_app_nil_r|].
  unfold no_blank in H. cbn in H. bool_facts. rewrite app_cons. cbn.
  destruct (is_blank c); [done|]. rewrite IH by done.
  by rewrite <- string_app_assoc.
Qed.

Lemma blank_fields_print fields : forall cur,
  Forall (fun f => f <> "" /\ no_blank f = true) fields ->
  blank_fields cur (concat_strings ((fun f => " " +:+ f) <$> fields)) = emit cur fields.
Proof.
  induction fields as [|f fields IH]; intros cur H; [done|].
  apply Forall_cons in H as [[Hne Hnb] H].
  cbn [fmap list_fmap concat_strings foldr]. fold (concat_strings ((fun f => " " +:+ f) <$> fields)).
  rewrite <- string_app_assoc. change " " with (String " " "").
  rewrite app_cons. change ("" +:+ ?x) with x. cbn [blank_fields is_blank].
  change (is_blank " ") with true. cbn iota. f_equal.
  rewrite blank_fields_word by done. change ("" +:+ f) with f. rewrite IH by done.
  unfold emit. by apply String.eqb_neq in Hne as ->.
Qed.

Lemma validSMTPMailbox_scan s :
  validSMTPMailbox s = true ->
  exists k, scan_mailbox 0 (mkScan false false None) s = Some (mkScan false false (Some k)) /\
    local_ok (stake k s) = true /\ domain_ok (sdrop (S k) s) = true /\ (0 < k)%nat.
Proof.
  unfold validSMTPMailbox. intros H.
  destruct (scan_mailbox _ _ s) as [[q e at_]|]; [|done].
  destruct q, e; try done. cbn in H. destruct at_ as [[|k]|]; try done.
  destruct (_ =? _)%nat; [done|]. bool_facts. exists (S k). split_and!; try done. lia.
Qed.

Section Properties.
Context `{U : UnicodeTables}.

Lemma parse_closed_path args prefix allowNull addr tail :
  slen prefix + 2 <= slen args ->
  EqualFold (stake (String.length prefix) args) prefix = true ->
  first_byte (sdrop (String.length prefix) args) = Some "<"%char ->
  path_close false false (sdrop (S (String.length prefix)) args) = Some (addr, tail) ->
  validSMTPMailbox addr = true -> addr <> "" ->
  parseSMTPPath args prefix allowNull =
    match first_byte tail with
    | None => Ok (addr, [])
    | Some c => if is_blank c then Ok (addr, blank_fields "" tail) else Err "path trailing junk"
    end.
Proof.
  intros Hl Hp Hf Hc Hv Hne. unfold parseSMTPPath.
  destruct (Z.ltb_spec (slen args) (slen prefix + 2)); [lia|].
  rewrite Hp, Hf, bool_decide_true by done. cbn [negb orb]. rewrite Hc, Hv.
  apply String.eqb_neq in Hne. rewrite Hne. done.
Qed.
End Properties.

(** MAIL and RCPT paths.  Every well-formed mailbox, quoted local parts with
    spaces, angle brackets or at-signs included, written as a path followed by any
    blank-free parameters, is parsed back to exactly that mailbox and parameters. *)
Theorem parseSMTPPath_roundtrip `{U : UnicodeTables} (allowNull : bool) (addr : string)
    (fields : list string) (prefix : string)
    (Hprefix : prefix = "FROM:" \/ prefix = "TO:")
    (Haddr : validSMTPMailbox addr = true)
    (Hfields : Forall (fun f => f <> "" /\ no_blank f = true) fields) :
  parseSMTPPath (print_path prefix addr fields) prefix allowNull = Ok (addr, fields).
Proof.
  destruct (validSMTPMailbox_scan _ Haddr) as (k & Hscan & _).
  set (tail := concat_strings ((fun f => " " +:+ f) <$> fields)).
  pose proof (path_close_mailbox addr _ _ _ _ _ tail Hscan) as Hclose.
  assert (addr <> "") as Hne by (by intros ->).
  rewrite (parse_closed_path _ _ _ addr tail); [|destruct Hprefix as [-> | ->]..|done|done].
  - destruct fields as [|f fields]; [done|]. subst tail.
    change (first_byte _) with (Some " "%char) at 1. change (is_blank " ") with true. cbn iota.
    f_equal. f_equal. by rewrite blank_fields_print.
  - unfold print_path. rewrite !slen_app. pose proof (slen_nonneg addr).
    pose proof (slen_nonneg tail). unfold slen in *. cbn. lia.
  - unfold print_path. rewrite !slen_app. pose proof (slen_nonneg addr).
    pose proof (slen_nonneg tail). unfold slen in *. cbn. lia.
  - done.
  - done.
  - done.
  - done.
  - exact Hclose.
  - exact Hclose.
Qed.

Lemma parseSMTPPath_roundtrip_witness :
  parseSMTPPath (U := ascii_tables)
    (print_path "FROM:" (String DQUOTE ("a b@<c>" +:+ String DQUOTE "@ex.org")) ["SIZE=5"; "BODY=7BIT"])
    "FROM:" true
  = Ok (String DQUOTE ("a b@<c>" +:+ String DQUOTE "@ex.org"), ["SIZE=5"; "BODY=7BIT"]).
Proof.
  apply (parseSMTPPath_roundtrip (U := ascii_tables) true _ ["SIZE=5"; "BODY=7BIT"] "FROM:").
  - by left.
  - by vm_compute.
  - repeat constructor; done.
Defined.

(** ** The mailbox parser and the relay test agree *)

Lemma scan_at_byte s : forall i q e at_ q' e' k,
  scan_mailbox i (mkScan q e at_) s = Some (mkScan q' e' (Some k)) ->
  at_ = Some k \/ ((i <= k)%nat /\ first_byte (sdrop (k - i) s) = Some "@"%char).
Proof.
  induction s as [|b s IH]; intros i q e at_ q' e' k H; cbn in H; [simplify_eq; by left|].
  assert (Hnext : forall q1 e1 at1, scan_mailbox (S i) (mkScan q1 e1 at1) s = Some (mkScan q' e' (Some k)) ->
            at1 = Some k \/ ((i <= k)%nat /\ first_byte (sdrop (k - i) (String b s)) = Some "@"%char)).
  { intros q1 e1 at1 H1. apply IH in H1 as [?|[Hk Hb]]; [by left|right].
    split; [lia|]. by replace (k - i)%nat with (S (k - S i)) by lia. }
  destruct e; [by case_match; [|apply Hnext in H]|].
  destruct (q && _)%bool; [by apply Hnext in H|].
  destruct (Ascii.eqb b DQUOTE); [by case_match; [|apply Hnext in H]|].
  destruct (negb q && is_byte 64 b)%bool eqn:E64; [|by case_match; [|apply Hnext in H]].
  destruct at_; [done|]. apply Hnext in H as [[= <-]|?]; [|by right].
  right. split; [done|]. rewrite Nat.sub_diag. cbn. f_equal. bool_facts.
  unfold is_byte in *. apply b2z_inj. bool_facts. done.
Qed.

Lemma Split_app s c a l :
  Split s c = a :: l -> forall_bytes (fun x => negb (Ascii.eqb x c)) a = true /\
  match l with
  | [] => s = a
  | _ => exists t, s = a +:+ String c t /\ Split t c = l
  end.
Proof.
  revert a l. induction s as [|b s IH]; cbn; intros a l H; [by simplify_eq|].
  destruct (Ascii.eqb b c) eqn:E.
  { simplify_eq. split; [done|]. apply Ascii.eqb_eq in E as ->.
    destruct (Split s c) eqn:Es; [by apply Split_not_nil in Es|]. by exists s. }
  destruct (Split s c) as [|x l'] eqn:Es; [by apply Split_not_nil in Es|].
  simplify_eq. destruct (IH _ _ eq_refl) as [Hx Hl]. split; [cbn; by rewrite E|].
  destruct l; [by rewrite Hl at 1|]. destruct Hl as (t & -> & Ht). by exists t.
Qed.

(** A byte that occurs in [a ++ c ++ t] with no [c] in [a] or [t] is where [a] ends. *)
Lemma unique_byte_index a t c k :
  forall_bytes (fun x => negb (Ascii.eqb x c)) a = true ->
  forall_bytes (fun x => negb (Ascii.eqb x c)) t = true ->
  first_byte (sdrop k (a +:+ String c t)) = Some c -> k = String.length a.
Proof.
  revert k. induction a as [|x a IH]; intros k Ha Ht H.
  - change ("" +:+ ?x) with x in H. destruct k as [|k]; [done|]. exfalso. cbn in H.
    clear Ha. revert t Ht H.
    induction k as [|k IH]; intros [|y t] Ht H; cbn in *; simplify_eq; bool_facts; [|by eapply IH].
    match goal with H : Ascii.eqb _ _ = false |- _ => by apply Ascii.eqb_neq in H end.
  - rewrite app_cons in H. cbn in Ha. bool_facts. destruct k as [|k]; cbn in H.
    + simplify_eq.
      match goal with H : Ascii.eqb _ _ = false |- _ => by apply Ascii.eqb_neq in H end.
    + cbn. f_equal. by apply IH.
Qed.

(** Relay test on the real domain.  When a syntactically valid recipient is
    taken for local, the domain the relay test looked at is the part behind the
    mailbox's own at-sign: a quoted local part cannot smuggle in a local domain. *)
Theorem inLocalDomains_is_mailbox_domain `{U : UnicodeTables} (domains : list string)
    (addr : string) (Haddr : validSMTPMailbox addr = true)
    (Hlocal : inLocalDomains domains addr = true) :
  exists local domain k,
    scan_mailbox 0 (mkScan false false None) addr = Some (mkScan false false (Some k)) /\
    k = String.length local /\ addr = local +:+ String "@" domain /\
    local_ok local = true /\ domain_ok domain = true /\
    exists ld, ld ∈ domains /\ ToLower ld = ToLower domain.
Proof.
  destruct (validSMTPMailbox_scan _ Haddr) as (k & Hscan & Hlo & Hdo & _).
  unfold inLocalDomains in Hlocal. destruct (Split addr "@") as [|l [|d [|]]] eqn:Es; try done.
  apply Split_app in Es as [Hl (t & -> & Es)]. apply Split_app in Es as [Hd ->].
  destruct (scan_at_byte _ _ _ _ _ _ _ _ Hscan) as [?|[_ Hat]]; [done|].
  rewrite Nat.sub_0_r in Hat. pose proof (unique_byte_index _ _ _ _ Hl Hd Hat) as ->.
  rewrite stake_app in Hlo.
  assert (sdrop (S (String.length l)) (l +:+ String "@" d) = d) as Hsd.
  { change (String "@" d) with (String "@" "" +:+ d). rewrite string_app_assoc.
    replace (S (String.length l)) with (String.length (l +:+ String "@" ""));
      [apply sdrop_app|]. rewrite string_length_app. cbn. lia. }
  rewrite Hsd in Hdo. exists l, d, (String.length l). split_and!; try done.
  apply existsb_exists in Hlocal as (ld & Hin & He). bool_facts.
  exists ld. split; [by apply list_elem_of_In|done].
Qed.

Lemma inLocalDomains_is_mailbox_domain_witness :
  exists local domain k,
    scan_mailbox 0 (mkScan false false None) "bob@Ex.org" = Some (mkScan false false (Some k)) /\
    k = String.length local /\ "bob@Ex.org" = local +:+ String "@" domain /\
    local_ok local = true /\ domain_ok domain = true /\
    exists ld, ld ∈ ["a.com"; "ex.ORG"] /\ ToLower (U := ascii_tables) ld = ToLower (U := ascii_tables) domain.
Proof.
  apply (inLocalDomains_is_mailbox_domain (U := ascii_tables) ["a.com"; "ex.ORG"] "bob@Ex.org");
    by vm_compute.
Defined.

(** ** Parameters *)

Definition parameter_key `{U : UnicodeTables} (field : string) : string :=
  ToUpper (fst (fst (Cut field "="%char))).

Lemma decimal_nonneg value n :
  isASCIIDecimal value = true -> ParseInt64 value = Some n -> 0 <= n < two63.
Proof.
  intros Hd H. pose proof (ParseInt64_range _ _ H) as Hr. unfold int64_ok in Hr.
  split; [|lia]. destruct value as [|c v]; [done|]. unfold isASCIIDecimal in Hd. cbn in Hd.
  bool_facts. unfold ParseInt64 in H.
  destruct (Ascii.eqb_spec c "+"%char) as [->|_]; [done|].
  destruct (Ascii.eqb_spec c "-"%char) as [->|_]; [done|].
  destruct (parse_uint (String c v)) as [m|] eqn:E; [|done]. cbn in H.
  case_match; simplify_eq. by eapply parse_digits_nonneg; [|exact E].
Qed.

Section ParamProperties.
Context `{U : UnicodeTables}.

(** What every accepted MAIL parameter list keeps true. *)
Definition mail_params_ok (maxSize : Z) (p : mailFromParams) : Prop :=
  0 <= mf_size p < two63 /\ (0 <= maxSize -> mf_size p <= maxSize) /\
  (mf_hasDSN p = false -> mf_dsn p = mkDSNParams DSNReturnUnset "").

Lemma mail_param_ok maxSize key value hasValue p p' :
  mail_param maxSize key value hasValue p = Ok p' -> mail_params_ok maxSize p ->
  mail_params_ok maxSize p' /\ mf_addr p' = mf_addr p.
Proof.
  destruct p as [addr size dsn hasDSN utf8 rtls]. unfold mail_params_ok. cbn.
  intros H (Hs & Hm & Hd). unfold mail_param in H.
  destruct (key =? "SIZE")%string; [|repeat case_match; by simplify_eq].
  destruct (negb hasValue || negb (isASCIIDecimal value))%bool eqn:E; [done|]. bool_facts.
  destruct (ParseInt64 value) as [n|] eqn:En; [|done].
  pose proof (decimal_nonneg _ _ ltac:(eassumption) En).
  destruct ((0 <=? maxSize) && (maxSize <? n))%bool eqn:Eb; [done|]. simplify_eq. cbn.
  split_and!; try done; try lia.
Qed.

Lemma mail_params_sound maxSize fields : forall seen p p',
  mail_params maxSize seen fields p = Ok p' -> mail_params_ok maxSize p ->
  mail_params_ok maxSize p' /\ mf_addr p' = mf_addr p /\
  NoDup (parameter_key <$> fields) /\ Forall (fun k => k ∉ seen) (parameter_key <$> fields).
Proof.
  induction fields as [|f fields IH]; intros seen p p' H Hok; cbn in H.
  { simplify_eq. split_and!; try done; constructor. }
  unfold parameter_key. destruct (Cut f "=") as [[key value] hasValue] eqn:Ec.
  case_bool_decide as Hseen; [done|].
  destruct (mail_param _ _ _ _ _) as [p1|] eqn:E1; [|done].
  destruct (mail_param_ok _ _ _ _ _ _ E1 Hok) as [Hok1 Ha1].
  destruct (IH _ _ _ H Hok1) as (Hok' & Ha & Hnd & Hns).
  fold parameter_key in *. cbn. unfold parameter_key at 1 3. rewrite Ec. cbn.
  split_and!; [done|congruence| |].
  - constructor; [|done]. intros Hin. rewrite Forall_forall in Hns.
    apply (Hns _ Hin). by left.
  - constructor; [done|]. eapply Forall_impl; [exact Hns|].
    intros k Hk Hin. apply Hk. by right.
Qed.

(** What an accepted path guarantees. *)
Lemma parseSMTPPath_addr args prefix allowNull addr fields :
  parseSMTPPath args prefix allowNull = Ok (addr, fields) ->
  (addr = "" /\ allowNull = true) \/ validSMTPMailbox addr = true.
Proof.
  unfold parseSMTPPath. intros H. case_match; [done|].
  destruct (path_close _ _ _) as [[a tail]|]; [|done].
  destruct (a =? "")%string eqn:Ea, allowNull; cbn in H; bool_facts; subst; try done;
    try (destruct (validSMTPMailbox a) eqn:Ev; cbn in H; try done);
    repeat case_match; simplify_eq; auto.
Qed.

Definition notify_name (n : DSNNotifyType) : string :=
  match n with
  | DSNNotifyNever => "NEVER" | DSNNotifySuccess => "SUCCESS"
  | DSNNotifyFailure => "FAILURE" | DSNNotifyDelay => "DELAY"
  end.

Lemma notify_value_name v n : notify_value v = Some n -> v = notify_name n.
Proof. unfold notify_value. intros. repeat case_match; simplify_eq; by bool_facts. Qed.

Lemma notify_values_sound vs : forall seen acc ns,
  notify_values seen vs acc = Ok ns ->
  exists l, ns = acc ++ l /\ vs = notify_name <$> l /\ NoDup vs /\ Forall (fun v => v ∉ seen) vs.
Proof.
  induction vs as [|v vs IH]; intros seen acc ns H; cbn in H.
  { simplify_eq. exists []. rewrite app_nil_r. split_and!; try done; constructor. }
  case_bool_decide as Hseen; [done|]. destruct (notify_value v) as [n|] eqn:En; [|done].
  apply IH in H as (l & -> & -> & Hnd & Hns). apply notify_value_name in En as ->.
  exists (n :: l). split_and!; try done.
  - by rewrite <- app_assoc.
  - constructor; [|done]. intros Hin. rewrite Forall_forall in Hns.
    apply (Hns _ Hin). by left.
  - constructor; [done|]. eapply Forall_impl; [exact Hns|].
    intros k Hk Hin. apply Hk. by right.
Qed.

Definition rcpt_dsn_ok (d : DSNRecipientParams) : Prop :=
  NoDup (dsnNotify d) /\
  (DSNNotifyNever ∈ dsnNotify d -> dsnNotify d = [DSNNotifyNever]) /\
  (dsnORCPT d = "" \/ validORCPT (dsnORCPT d) = true).

Lemma rcpt_param_ok key value ok d d' :
  rcpt_param key value ok d = Ok d' -> rcpt_dsn_ok d ->
  (key = "NOTIFY" -> dsnNotify d = []) ->
  rcpt_dsn_ok d' /\ (key <> "NOTIFY" -> dsnNotify d' = dsnNotify d).
Proof.
  intros H (Hnd & Hnv & Ho) Hk. unfold rcpt_param in H.
  destruct (String.eqb_spec key "NOTIFY") as [->|Hn].
  - case_match; [done|]. rewrite Hk in * by done.
    destruct (notify_values [] _ []) as [ns|] eqn:En; [|done].
    apply notify_values_sound in En as (l & -> & Evs & Hnd' & _). cbn in H.
    rewrite Evs in *. destruct (_ && _)%bool eqn:Eb; [done|]. simplify_eq.
    split; [|done]. split_and!; cbn; [by eapply NoDup_fmap_1| |done].
    intros Hin. apply andb_false_iff in Eb as [Eb|Eb].
    + apply bool_decide_eq_false in Eb. destruct Eb.
      apply list_elem_of_fmap. by exists DSNNotifyNever.
    + rewrite length_fmap in Eb.
      destruct l as [|n [|]]; cbn in Eb; [by apply not_elem_of_nil in Hin| |done].
      apply list_elem_of_singleton in Hin as <-. done.
  - destruct (key =? "ORCPT")%string; [|done]. case_match; [done|]. bool_facts.
    simplify_eq. split; [|done]. split_and!; cbn; try done. by right.
Qed.

Lemma rcpt_params_sound fields : forall seen d d',
  rcpt_params seen fields d = Ok d' -> rcpt_dsn_ok d ->
  ("NOTIFY" ∉ seen -> dsnNotify d = []) -> rcpt_dsn_ok d'.
Proof.
  induction fields as [|f fields IH]; intros seen d d' H Hok Hn; cbn in H; [by simplify_eq|].
  destruct (Cut f "=") as [[key value] ok]. case_bool_decide as Hs; [done|].
  destruct (rcpt_param _ _ _ _) as [d1|] eqn:E1; [|done].
  destruct (rcpt_param_ok _ _ _ _ _ E1 Hok) as [Hok1 Hk1].
  { intros Ek. apply Hn. by rewrite <- Ek. }
  eapply IH; [exact H|done|]. rewrite not_elem_of_cons. intros [Hne Hns].
  rewrite Hk1; [by apply Hn|done].
Qed.
End ParamProperties.

(** MAIL parameters.  An accepted MAIL argument has the null path or a valid
    mailbox, no parameter twice, a SIZE that is a non-negative 64-bit number within
    a non-negative maximum, and REQUIRETLS only on a TLS connection. *)
Theorem parseMailFromParams_sound `{U : UnicodeTables} (maxSize : Z) (tls : bool)
    (args : string) (p : mailFromParams)
    (Hok : parseMailFromParams maxSize tls args = Ok p) :
  exists fields, parseSMTPPath args "FROM:" true = Ok (mf_addr p, fields) /\
    (mf_addr p = "" \/ validSMTPMailbox (mf_addr p) = true) /\
    NoDup (parameter_key <$> fields) /\
    0 <= mf_size p < two63 /\ (0 <= maxSize -> mf_size p <= maxSize) /\
    (mf_requireTLS p = true -> tls = true) /\
    (mf_hasDSN p = false -> mf_dsn p = mkDSNParams DSNReturnUnset "").
Proof.
  unfold parseMailFromParams in Hok.
  destruct (parseSMTPPath args "FROM:" true) as [[addr fields]|] eqn:E; [|done].
  destruct (mail_params maxSize [] fields _) as [p1|] eqn:E1; [|done]. cbn in Hok.
  apply mail_params_sound in E1 as ((Hs & Hm & Hd) & Ha & Hnd & _); [|by unfold two63].
  cbn in Ha. destruct (_ && _)%bool eqn:Et; [done|]. simplify_eq. exists fields.
  apply parseSMTPPath_addr in E as Hv.
  split; [done|]. split; [by destruct Hv as [[-> _]| ->]; auto|]. split_and!; try done; try lia.
  intros Hr. rewrite Hr in Et. by destruct tls.
Qed.

Lemma parseMailFromParams_sound_witness :
  exists fields, parseSMTPPath (U := ascii_tables) "FROM:<a@b.c> SIZE=10 RET=HDRS" "FROM:" true
      = Ok ("a@b.c", fields) /\
    ("a@b.c" = "" \/ validSMTPMailbox "a@b.c" = true) /\
    NoDup (parameter_key (U := ascii_tables) <$> fields) /\
    0 <= 10 < two63 /\ (0 <= 100 -> 10 <= 100) /\ (false = true -> false = true) /\
    (true = false -> mkDSNParams DSNReturnHeaders "" = mkDSNParams DSNReturnUnset "").
Proof.
  apply (parseMailFromParams_sound (U := ascii_tables) 100 false "FROM:<a@b.c> SIZE=10 RET=HDRS"
    (mkMailFrom "a@b.c" 10 (mkDSNParams DSNReturnHeaders "") true false false)).
  by vm_compute.
Defined.

(** RCPT parameters.  An accepted RCPT argument has a valid mailbox (never the
    null path); its NOTIFY conditions are distinct, NEVER stands alone, and a given
    ORCPT is a well-formed typed xtext address. *)
Theorem parseRCPTEnvelope_sound `{U : UnicodeTables} (args : string) (p : rcptToParams)
    (Hok : parseRCPTEnvelope args = Ok p) :
  validSMTPMailbox (rt_addr p) = true /\ NoDup (dsnNotify (rt_dsn p)) /\
  (DSNNotifyNever ∈ dsnNotify (rt_dsn p) -> dsnNotify (rt_dsn p) = [DSNNotifyNever]) /\
  (dsnORCPT (rt_dsn p) = "" \/ validORCPT (dsnORCPT (rt_dsn p)) = true).
Proof.
  unfold parseRCPTEnvelope in Hok.
  destruct (parseSMTPPath args "TO:" false) as [[addr fields]|] eqn:E; [|done].
  destruct (rcpt_params [] fields _) as [d|] eqn:E1; [|done]. cbn in Hok. simplify_eq. cbn.
  apply parseSMTPPath_addr in E as [[_ ?]|Hv]; [done|]. split; [done|].
  apply rcpt_params_sound in E1; [done| |done].
  split_and!; cbn; [constructor|by intros ?%not_elem_of_nil|by left].
Qed.

Lemma parseRCPTEnvelope_sound_witness :
  validSMTPMailbox "a@b.c" = true /\ NoDup [DSNNotifyDelay; DSNNotifyFailure] /\
  (DSNNotifyNever ∈ [DSNNotifyDelay; DSNNotifyFailure] ->
   [DSNNotifyDelay; DSNNotifyFailure] = [DSNNotifyNever]) /\
  ("rfc822;x@y" = "" \/ validORCPT "rfc822;x@y" = true).
Proof.
  apply (parseRCPTEnvelope_sound (U := ascii_tables)
    "TO:<a@b.c> NOTIFY=delay,FAILURE ORCPT=rfc822;x@y"
    (mkRcptTo "a@b.c" (mkDSNRecipientParams [DSNNotifyDelay; DSNNotifyFailure] "rfc822;x@y") true)).
  by vm_compute.
Defined.
