(* ===== verification/Spool.v ===== *)
(** * The message spool (internal/smtp/spool.go)

    A spool keeps a message in memory up to a threshold and in a file above it.
    The file is a temporary one nobody else writes, so its contents are a field of
    the record ([Some] content while the file is open).  What the file system
    answers to one call is a [spool_io]; the mutex makes every method atomic. *)

From S2P Require Import Prelude GoStrings.

Open Scope string_scope.
Open Scope list_scope.
Open Scope Z_scope.

(** Outcome of the file-system calls one method makes.  [io_write] is [None] when
    the whole slice is written and [Some n] when the write fails after [n] bytes. *)
Record spool_io := mkSpoolIO {
  io_mkdir : bool; io_create : bool; io_chmod : bool; io_flush : bool;
  io_write : option nat; io_sync : bool; io_open : bool
}.

Definition io_fine : spool_io := mkSpoolIO true true true true None true true.

Set Primitive Projections.
Record MessageSpool := mkMessageSpool {
  sp_dir : string;
  sp_threshold : Z;
  sp_mem : string;
  sp_file : option string;
  sp_size : Z;
  sp_closed : bool
}.
Unset Primitive Projections.

Definition DefaultSpoolThreshold : Z := 256 * 1024.
Definition DefaultHeadSize : Z := 256 * 1024.

Definition NewMessageSpool (dir : string) (threshold : Z) : MessageSpool :=
  {| sp_dir := dir; sp_threshold := threshold; sp_mem := ""; sp_file := None;
     sp_size := 0; sp_closed := false |}.

Definition shouldSpill (n : Z) (s : MessageSpool) : bool :=
  if sp_threshold s <? 0 then false else sp_threshold s <? sp_size s + n.

(** spillLocked: a failure leaves the spool as it was. *)
Definition spillLocked (io : spool_io) (s : MessageSpool) : result unit * MessageSpool :=
  if (sp_dir s =? "")%string then (Err "spool: no spool directory configured", s)
  else if negb (io_mkdir io) then (Err "spool: create directory", s)
  else if negb (io_create io) then (Err "spool: create file", s)
  else if negb (io_chmod io) then (Err "spool: set permissions", s)
  else if ((0 <? slen (sp_mem s)) && negb (io_flush io))%bool
  then (Err "spool: flush buffered data", s)
  else (Ok tt, s <| sp_file := Some (sp_mem s) |> <| sp_mem := "" |>).

(** The append of Write, once the backing is chosen. *)
Definition spool_append (io : spool_io) (p : string) (s : MessageSpool)
    : result Z * MessageSpool :=
  match sp_file s with
  | Some content =>
      let n := match io_write io with None => String.length p | Some n => Nat.min n (String.length p) end in
      let s' := s <| sp_file := Some (content +:+ stake n p) |>
                  <| sp_size := sp_size s + Z.of_nat n |> in
      match io_write io with
      | None => (Ok (Z.of_nat n), s')
      | Some _ => (Err "write failed", s')
      end
  | None => (Ok (slen p), s <| sp_mem := sp_mem s +:+ p |> <| sp_size := sp_size s + slen p |>)
  end.

Definition spool_Write (io : spool_io) (p : string) (s : MessageSpool)
    : result Z * MessageSpool :=
  if sp_closed s then (Err "spool: write after close", s)
  else if (bool_decide (sp_file s = None) && shouldSpill (slen p) s)%bool then
    match spillLocked io s with
    | (Err e, s') => (Err e, s')
    | (Ok _, s') => spool_append io p s'
    end
  else spool_append io p s.

Definition SpillToDisk (io : spool_io) (s : MessageSpool) : result unit * MessageSpool :=
  if sp_closed s then (Err "spool: spill after close", s)
  else match sp_file s with
       | Some _ => (Ok tt, s)
       | None => spillLocked io s
       end.

Definition OnDisk (s : MessageSpool) : bool := bool_decide (is_Some (sp_file s)).

(** Reader: the bytes a reader positioned at the start yields. *)
Definition spool_Reader (io : spool_io) (s : MessageSpool) : result string :=
  if sp_closed s then Err "spool: read after close"
  else match sp_file s with
       | None => Ok (sp_mem s)
       | Some content =>
           if negb (io_sync io) then Err "spool: sync before read"
           else if negb (io_open io) then Err "spool: open for read"
           else Ok content
       end.

Definition Head (io : spool_io) (n : Z) (s : MessageSpool) : result string :=
  data ← spool_Reader io s; Ok (stake (Z.to_nat n) data).

Definition spool_Bytes (io : spool_io) (s : MessageSpool) : result string :=
  if (bool_decide (sp_file s = None) && negb (sp_closed s))%bool then Ok (sp_mem s)
  else spool_Reader io s.

Definition spool_Close (s : MessageSpool) : MessageSpool :=
  if sp_closed s then s
  else s <| sp_closed := true |> <| sp_mem := "" |> <| sp_file := None |>.

(** ** Refinement: a spool is a byte buffer

    [content s] is what the client wrote; where it lives is an implementation
    detail that no reader can observe. *)
Definition content (s : MessageSpool) : string :=
  match sp_file s with Some c => c | None => sp_mem s end.

(** The invariant of an open spool: once on disk nothing is left in memory, the
    size is the size of the content, and what is held in memory is bounded by the
    threshold. *)
Definition spool_wf (s : MessageSpool) : Prop :=
  sp_closed s = false /\ sp_size s = slen (content s) /\
  match sp_file s with
  | Some _ => sp_mem s = ""
  | None => 0 <= sp_threshold s -> slen (sp_mem s) <= sp_threshold s
  end.

Lemma spool_new_wf dir t : spool_wf (NewMessageSpool dir t).
Proof. repeat split; cbn; unfold slen; cbn; lia. Qed.

Lemma spillLocked_wf io s r s' :
  spool_wf s -> sp_file s = None -> spillLocked io s = (r, s') ->
  spool_wf s' /\ content s' = content s /\ (is_ok r = true -> sp_file s' <> None).
Proof.
  intros Hwf E H. unfold spillLocked in H.
  repeat case_match; simplify_eq; try by split_and!.
  destruct Hwf as (Hc & Hs & Ht). unfold spool_wf, content in *. cbn in *.
  rewrite E in *. by split_and!.
Qed.

(** What is appended: everything, or on a failing file system a prefix. *)
Lemma spool_append_spec io p s r s' :
  spool_wf s -> (sp_file s = None -> shouldSpill (slen p) s = false) ->
  spool_append io p s = (r, s') ->
  spool_wf s' /\
  match r with
  | Ok _ => content s' = content s +:+ p
  | Err _ => exists n, content s' = content s +:+ stake n p
  end.
Proof.
  intros (Hc & Hs & Ht) Hsp H. unfold spool_append in H.
  destruct (sp_file s) as [c|] eqn:E.
  - destruct (io_write io) as [n|]; simplify_eq; unfold spool_wf, content in *; cbn in *;
      rewrite E in *.
    + split; [|eexists; done]. split_and!; [done| |done].
      rewrite slen_app. unfold slen at 2. rewrite stake_length. lia.
    + rewrite stake_all by lia. split_and!; try done.
      rewrite slen_app. unfold slen in *. lia.
  - simplify_eq. unfold spool_wf, content in *; cbn in *. rewrite E in *.
    split_and!; try done; rewrite slen_app; [lia|].
    intros H0. specialize (Hsp eq_refl). unfold shouldSpill in Hsp.
    case_match; bool_facts; lia.
Qed.

Lemma spool_Write_spec io p s r s' :
  spool_wf s -> spool_Write io p s = (r, s') ->
  spool_wf s' /\
  match r with
  | Ok _ => content s' = content s +:+ p
  | Err _ => exists n, content s' = content s +:+ stake n p
  end.
Proof.
  intros Hwf H. unfold spool_Write in H.
  destruct (sp_closed s) eqn:Ecl; [by destruct Hwf; congruence|].
  destruct (bool_decide (sp_file s = None) && shouldSpill (slen p) s)%bool eqn:E.
  - bool_facts. destruct (spillLocked io s) as [r1 s1] eqn:E1.
    destruct (spillLocked_wf _ _ _ _ Hwf ltac:(done) E1) as (Hwf1 & Hc & Hf).
    destruct r1; simplify_eq.
    + eapply spool_append_spec in H as [Hw2 Hc2]; [|done|intros ?; by destruct Hf].
      split; [done|]. rewrite <- Hc. done.
    + split; [done|]. exists 0%nat. cbn. by rewrite string_app_nil_r.
  - eapply spool_append_spec in H; [done|done|]. intros Hn.
    rewrite bool_decide_true in E by done. done.
Qed.

(** A run of writes on a working file system: [Write] each piece in turn. *)
Fixpoint write_all (ps : list string) (s : MessageSpool) : result unit * MessageSpool :=
  match ps with
  | [] => (Ok tt, s)
  | p :: ps' =>
      match spool_Write io_fine p s with
      | (Ok _, s') => write_all ps' s'
      | (Err e, s') => (Err e, s')
      end
  end.

Lemma spool_Write_fine p s :
  spool_wf s -> sp_dir s <> "" ->
  exists s', spool_Write io_fine p s = (Ok (slen p), s') /\ sp_dir s' = sp_dir s /\
    sp_threshold s' = sp_threshold s.
Proof.
  intros (Hc & Hs & Ht) Hd. unfold spool_Write, spillLocked, spool_append. cbn.
  apply String.eqb_neq in Hd. rewrite Hc, Hd, andb_false_r.
  repeat case_match; simplify_eq; eauto.
Qed.

Lemma write_all_spec ps : forall s,
  spool_wf s -> sp_dir s <> "" ->
  exists s', write_all ps s = (Ok tt, s') /\ spool_wf s' /\
    content s' = content s +:+ concat_strings ps /\ sp_threshold s' = sp_threshold s.
Proof.
  induction ps as [|p ps IH]; intros s Hwf Hd; cbn.
  - exists s. by rewrite string_app_nil_r.
  - destruct (spool_Write_fine p s Hwf Hd) as (s1 & E & Hd1 & Ht1). rewrite E.
    destruct (spool_Write_spec _ _ _ _ _ Hwf E) as [Hwf1 Hc1].
    destruct (IH s1) as (s2 & -> & Hwf2 & Hc2 & Ht2); [done|congruence|].
    exists s2. split_and!; [done..| |congruence]. by rewrite Hc2, Hc1, string_app_assoc.
Qed.

Lemma spool_Bytes_content s : spool_wf s -> spool_Bytes io_fine s = Ok (content s).
Proof.
  intros (Hc & _). unfold spool_Bytes, spool_Reader, content. rewrite Hc. cbn.
  by destruct (sp_file s).
Qed.

(** Spool transparency: whatever the threshold, a message written to a
    fresh spool in any pieces is read back byte for byte, its size is its length,
    and the heap never holds more than a non-negative threshold. *)
Theorem spool_refines_buffer (dir : string) (threshold : Z) (ps : list string)
    (Hdir : dir <> "") :
  exists s, write_all ps (NewMessageSpool dir threshold) = (Ok tt, s) /\
    spool_Bytes io_fine s = Ok (concat_strings ps) /\
    sp_size s = slen (concat_strings ps) /\
    (0 <= threshold -> slen (sp_mem s) <= threshold).
Proof.
  destruct (write_all_spec ps (NewMessageSpool dir threshold) (spool_new_wf _ _) Hdir)
    as (s & E & Hwf & Hc & Ht).
  exists s. rewrite (spool_Bytes_content s Hwf), Hc. destruct Hwf as (_ & Hs & Hm).
  cbn in *. split_and!; try done; [by rewrite Hs, Hc|].
  rewrite <- Ht. intros H0. destruct (sp_file s); [rewrite Hm; done|auto].
Qed.

Lemma spool_refines_buffer_witness :
  exists s, write_all ["ab"; "cdef"; "g"] (NewMessageSpool "/q" 3) = (Ok tt, s) /\
    spool_Bytes io_fine s = Ok "abcdefg" /\ sp_size s = 7 /\
    (0 <= 3 -> slen (sp_mem s) <= 3).
Proof. apply (spool_refines_buffer "/q" 3 ["ab"; "cdef"; "g"]). discriminate. Defined.
