(* ===== verification/SmtpConfig.v ===== *)
(** * Configuration of the SMTP server (internal/smtp/config.go, message_checks.go)

    The fields of [Config] the modelled code reads.  A nil pointer is [None]. *)

From S2P Require Import Prelude GoStrings Spool.

Open Scope string_scope.
Open Scope list_scope.
Open Scope Z_scope.

Record MessageChecksConfig := mkMessageChecks {
  mc_HeaderMode : string;
  mc_BodyMode : string;
  mc_RejectInvalidUTF8 : bool
}.

Record AuthConfig := mkAuthConfig {
  auth_Enabled : bool;
  auth_Required : bool;
  auth_AllowAnySender : bool;
  auth_SenderAliases : list (string * list string)
}.

Record Config := mkConfig {
  cfg_Hostname : string;
  cfg_QueueDir : string;
  cfg_MaxSize : Z;
  cfg_LocalDomains : list string;
  cfg_AllowedRelays : list string;
  cfg_DevMode : bool;
  cfg_Auth : option AuthConfig;
  cfg_StrictLineEndings : option bool;
  cfg_SpoolThresholdBytes : option Z;
  cfg_MessageChecks : option MessageChecksConfig
}.

Definition StrictLineEndingsEnabled (c : Config) : bool :=
  match cfg_StrictLineEndings c with None => true | Some b => b end.

Definition messageChecks (c : Config) : MessageChecksConfig :=
  match cfg_MessageChecks c with
  | None => mkMessageChecks "" "" false
  | Some m => m
  end.

Definition spoolDir (c : Config) : string := cfg_QueueDir c +:+ "/spool".

Definition spoolThreshold (c : Config) : Z :=
  match cfg_SpoolThresholdBytes c with Some t => t | None => DefaultSpoolThreshold end.

Section Modes.
Context `{U : UnicodeTables}.

Definition checkMode (raw : string) : string :=
  let m := ToLower (TrimSpace raw) in
  if (String.eqb m "off" || String.eqb m "warn")%bool then m else "reject".

Definition headerMode (m : MessageChecksConfig) : string := checkMode (mc_HeaderMode m).
Definition bodyMode (m : MessageChecksConfig) : string := checkMode (mc_BodyMode m).
End Modes.

Lemma spoolDir_nonempty c : spoolDir c <> "".
Proof. unfold spoolDir. by destruct (cfg_QueueDir c). Qed.
