(* ===== verification/DataReader.v ===== *)
(** * Receiving message data (internal/smtp/line_reader.go, session_data.go)

    The connection is a finite script of what the peer will do: bytes arriving, a
    read that runs into its deadline, a read that fails; the end of the list is
    end of file.  [bufio.Reader] hands out what has arrived in order, so the
    unread script is the reader's state. *)

From S2P Require Import Prelude GoStrings SmtpState Spool SmtpConfig.

Open Scope string_scope.
Open Scope list_scope.
Open Scope Z_scope.

(** ** The connection *)

Inductive event := EByte (c : ascii) | ETimeout | EReadErr.
Definition stream := list event.

Definition bytes_of (s : string) : stream := EByte <$> list_ascii_of_string s.

Inductive read_err := ErrBufferFull | ErrEOF | ErrTimeout | ErrIO | ErrTooLong.

#[global] Instance read_err_eq_dec : EqDecision read_err.
Proof. solve_decision. Defined.

(** bufio.NewReader allocates 4096 bytes. *)
Definition bufio_size : nat := 4096.
#[global] Arguments bufio_size : simpl never.

Lemma bufio_size_pos : (0 < bufio_size)%nat.
Proof. apply Nat.lt_0_succ. Qed.
#[global] Opaque bufio_size.

(** ReadSlice('\n') with [room] free bytes left in the buffer: the slice up to and
    including LF, or what there is when the buffer is full or the read fails. *)
Fixpoint ReadSlice (room : nat) (s : stream) : string * option read_err * stream :=
  match room with
  | O => ("", Some ErrBufferFull, s)
  | S room' =>
      match s with
      | [] => ("", Some ErrEOF, [])
      | ETimeout :: s' => ("", Some ErrTimeout, s')
      | EReadErr :: s' => ("", Some ErrIO, s')
      | EByte c :: s' =>
          if Ascii.eqb c LF then (String c "", None, s')
          else let '(frag, err, rest) := ReadSlice room' s' in (String c frag, err, rest)
      end
  end.

(** The loop of readBoundedSMTPLine; [line] is what previous fragments gave.  On
    an over-long line the returned slice is nil. *)
Fixpoint bounded_loop (fuel : nat) (limit : Z) (line : string) (s : stream)
    : string * option read_err * stream :=
  match fuel with
  | O => (line, Some ErrIO, s)
  | S fuel' =>
      let '(fragment, err, rest) := ReadSlice bufio_size s in
      if limit - slen line <? slen fragment then ("", Some ErrTooLong, rest)
      else let line' := line +:+ fragment in
           if bool_decide (err = Some ErrBufferFull)
           then bounded_loop fuel' limit line' rest
           else (line', err, rest)
  end.

(** Every iteration that goes round consumes [bufio_size] events, so the length of
    the script bounds the iterations. *)
Definition readBoundedSMTPLine (limit : Z) (s : stream) : string * option read_err * stream :=
  bounded_loop (S (length s)) limit "" s.

(** ** Line checks *)

Set Primitive Projections.
Record DataReaderState := mkDataReaderState {
  InHeaders : bool;
  LineCount : Z;
  BytesRead : Z;
  HeadersComplete : bool;
  LastLineEndedWithCRLF : bool;
  suspiciousPatterns : Z
}.
Unset Primitive Projections.

Definition CRLF : string := String CR (String LF "").
Definition ends_with_LF (line : string) : bool := bool_decide (last_byte line = Some LF).

(** [len(line) >= 2 && line[len(line)-2] == '\r']. *)
Definition second_last_CR (line : string) : bool :=
  ((2 <=? String.length line)%nat
   && bool_decide (first_byte (sdrop (String.length line - 2) line) = Some CR))%bool.

Definition validateLineEndings (strict : bool) (line : string) : result unit :=
  if (line =? "")%string then Ok tt
  else
    let hasCR := second_last_CR line in
    let hasLF := ends_with_LF line in
    if (hasCR && hasLF)%bool then Ok tt
    else if (negb hasCR && hasLF)%bool then
      if strict then Err "500 5.5.2 Syntax error: bare LF not allowed (RFC 5321 violation)"
      else Ok tt
    else if (hasCR && negb hasLF)%bool
    then Err "500 5.5.2 Syntax error: bare CR not allowed (RFC 5321 violation)"
    else Err "500 5.5.2 Syntax error: improper line termination".

Definition dot_crlf : string := String DOT CRLF.
Definition dot_lf : string := String DOT (String LF "").

(** isValidEndOfData: the verdict and the updated count of suspicious lines. *)
Definition isValidEndOfData (strict : bool) (line : string) (rs : DataReaderState)
    : bool * DataReaderState :=
  let suspicious := rs <| suspiciousPatterns := suspiciousPatterns rs + 1 |> in
  if (line =? dot_crlf)%string then
    if (strict && negb (LastLineEndedWithCRLF rs) && (1 <? LineCount rs))%bool
    then (false, suspicious) else (true, rs)
  else if (line =? dot_lf)%string then
    if strict then (false, suspicious) else (true, rs)
  else if (HasPrefix line "." && negb (HasPrefix line ".."))%bool
  then (false, suspicious) else (false, rs).

Definition applyDotStuffing (line : string) : string :=
  match line with
  | String c rest => if Ascii.eqb c DOT then rest else line
  | EmptyString => line
  end.

(** The verdict of EnhancedValidator.ValidateSMTPParameter("DATA_LINE", line). *)
Record ValidationResult := mkValidation {
  vr_Valid : bool; vr_ErrorType : string; vr_ErrorMessage : string
}.

Section Content.
Context `{U : UnicodeTables}.

Definition validateContentTypeHeader (value : string) : result unit :=
  if (TrimSpace value =? "")%string then Err "empty content type"
  else if exists_byte (Ascii.eqb ";"%char) value then
    match Split value ";"%char with
    | p :: _ => if (TrimSpace p =? "")%string then Err "empty content type" else Ok tt
    | [] => Ok tt
    end
  else Ok tt.

Definition validateSpecificHeader (name value : string) : result unit :=
  let name := ToLower name in
  if (name =? "content-type")%string then validateContentTypeHeader value
  else if bool_decide (name ∈ ["from"; "to"; "cc"; "bcc"; "reply-to"])
  then if 1000 <? slen value then Err "email header too long" else Ok tt
  else if (name =? "date")%string
  then if 100 <? slen value then Err "date header too long" else Ok tt
  else if (name =? "message-id")%string
  then if 1000 <? slen value then Err "message-id too long" else Ok tt
  else Ok tt.

Definition validateHeaderLine (line : string) : result unit :=
  if (HasPrefix line " " || HasPrefix line (String TAB ""))%bool then Ok tt
  else
    let line := TrimSpace line in
    if (line =? "")%string then Ok tt
    else let '(name, value, found) := Cut line ":"%char in
         if negb found then Err "invalid header format"
         else
           let headerName := TrimSpace name in
           if (headerName =? "")%string then Err "empty header name"
           else if exists_byte (fun c => (b2z c <? 33) || (126 <? b2z c))%bool headerName
           then Ok tt
           else validateSpecificHeader headerName (TrimSpace value).

(** validateLineContent; [internal] is whether the peer is in a trusted network
    and [validator] the enhanced validator's check of one line. *)
Definition validateLineContent (cfg : Config) (internal : bool)
    (validator : string -> ValidationResult) (line : string) (inHeaders : bool)
    : result unit :=
  if 64 * 1024 <? slen line then
    Err ("552 5.3.4 Line too long (" +:+ FormatInt (slen line) +:+ " octets, maximum 65536)")
  else if internal then Ok tt
  else
    let mode := if inHeaders then headerMode (messageChecks cfg)
                else bodyMode (messageChecks cfg) in
    if (mode =? "off")%string then Ok tt
    else
      let v := validator line in
      let short := slen line <=? 1000 in
      if (short && negb (vr_Valid v) && (vr_ErrorType v =? "invalid_utf8")%string
          && negb (mc_RejectInvalidUTF8 (messageChecks cfg)))%bool then Ok tt
      else if (short && negb (vr_Valid v) && negb (Contains (vr_ErrorMessage v) "Line exceeds")
               && negb (mode =? "warn")%string)%bool
      then Err ("500 5.5.2 Security violation: " +:+ vr_ErrorMessage v)
      else if (inHeaders && short)%bool then
        match validateHeaderLine line with
        | Err e => if (mode =? "warn")%string then Ok tt else Err e
        | Ok _ => Ok tt
        end
      else Ok tt.
End Content.

(** ** The data handler *)

(** What the outside world answers while one message is received. *)
Record data_env := mkDataEnv {
  de_now : Z;
  de_internal : bool;                       (** PeerIsWithin the trusted networks *)
  de_validator : string -> ValidationResult;
  de_deadline_ok : bool;                    (** SetReadDeadline before reading *)
  de_drain_deadline_ok : bool;              (** SetReadDeadline before draining *)
  de_memory_ok : Z -> bool;                 (** CheckMemoryLimit at a byte count *)
  de_spill : spool_io;                      (** the spool file, on the declared size *)
  de_spool : Z -> spool_io                  (** the spool file, at a line number *)
}.

Set Primitive Projections.
(** DataHandler shares the session's state and buffered reader; they live here. *)
Record DataHandler := mkDataHandler {
  dh_state : SessionState;
  dh_reader : stream;
  dh_bdatSpool : option MessageSpool;
  dh_bdatBytesReceived : Z;
  dh_bdatChunkCount : Z;
  dh_dataSyncLost : bool;
  dh_panicked : bool                        (** a Go run-time panic unwound the session *)
}.
Unset Primitive Projections.

Definition maxDrainBytes : Z := 32 * 1024 * 1024.
Definition data_line_limit : Z := 64 * 1024.
Definition memoryCheckInterval : Z := 1024 * 1024.

(** [bytes.TrimRight(line, "\r\n")] is a lone dot. *)
Definition is_dot_line (line : string) : bool := (trim_right_set CRLF line =? ".")%string.

(** The loop of drainToEndOfData. *)
Fixpoint drain_loop (fuel : nat) (drained : Z) (atLineStart : bool) (s : stream)
    : bool * stream :=
  match fuel with
  | O => (true, s)
  | S fuel' =>
      let '(line, err, rest) := readBoundedSMTPLine data_line_limit s in
      let drained := drained + slen line in
      if bool_decide (err = Some ErrTooLong) then (true, rest)
      else if (atLineStart && is_dot_line line)%bool then (false, rest)
      else if bool_decide (err <> None) then (true, rest)
      else if maxDrainBytes <? drained then (true, rest)
      else drain_loop fuel' drained (ends_with_LF line) rest
  end.

Section Handler.
Context `{U : UnicodeTables}.
Variable cfg : Config.
Variable env : data_env.

Definition drainToEndOfData (dh : DataHandler) : DataHandler :=
  if negb (de_drain_deadline_ok env) then dh <| dh_dataSyncLost := true |>
  else let '(lost, rest) := drain_loop (S (length (dh_reader dh))) 0 true (dh_reader dh) in
       dh <| dh_reader := rest |>
          <| dh_dataSyncLost := (dh_dataSyncLost dh || lost)%bool |>.

Definition clearMode (dh : DataHandler) : DataHandler :=
  dh <| dh_state ::= ClearDataTransferMode (de_now env) |>.

(** One pass over a complete line: [inl] ends the loop with the outcome, [inr]
    goes on with the next line. *)
Definition data_line (line : string) (rs : DataReaderState) (lastMemoryCheck : Z)
    (spool : MessageSpool) (dh : DataHandler)
    : (result MessageSpool * DataHandler)
      + (DataReaderState * Z * MessageSpool) :=
  let strict := StrictLineEndingsEnabled cfg in
  let rs := rs <| LineCount ::= Z.add 1 |> <| BytesRead ::= Z.add (slen line) |> in
  match validateLineEndings strict line with
  | Err e => inl (Err e, clearMode (dh <| dh_dataSyncLost := true |>))
  | Ok _ =>
      let rs := rs <| LastLineEndedWithCRLF := (second_last_CR line && ends_with_LF line)%bool |> in
      if cfg_MaxSize cfg <? BytesRead rs
      then inl (Err "552 5.3.4 Message size exceeds maximum allowed", clearMode dh)
      else
        let check := memoryCheckInterval <=? BytesRead rs - lastMemoryCheck in
        let lastMemoryCheck := if check then BytesRead rs else lastMemoryCheck in
        if (check && negb (de_memory_ok env (BytesRead rs)))%bool
        then inl (Err "552 5.3.4 Server memory limit exceeded", clearMode dh)
        else match isValidEndOfData strict line rs with
             | (true, rs) =>
                 inl (Ok spool, dh <| dh_state ::= SetDataSize (de_now env) (sp_size spool) |>)
             | (false, rs) =>
                 match validateLineContent cfg (de_internal env) (de_validator env) line
                         (InHeaders rs) with
                 | Err e => inl (Err ("554 5.7.1 Message rejected: " +:+ e), dh)
                 | Ok _ =>
                     let rs := if (InHeaders rs && (TrimSpace line =? "")%string)%bool
                               then rs <| InHeaders := false |> <| HeadersComplete := true |>
                               else rs in
                     match spool_Write (de_spool env (LineCount rs)) (applyDotStuffing line) spool with
                     | (Err _, _) => inl (Err "451 4.3.0 Unable to buffer message data", clearMode dh)
                     | (Ok _, spool) => inr (rs, lastMemoryCheck, spool)
                     end
                 end
             end
  end.

Fixpoint read_loop (fuel : nat) (rs : DataReaderState) (lastMemoryCheck : Z)
    (spool : MessageSpool) (dh : DataHandler) : result MessageSpool * DataHandler :=
  match fuel with
  | O => (Err "out of fuel", dh)
  | S fuel' =>
      let '(line, err, rest) := readBoundedSMTPLine data_line_limit (dh_reader dh) in
      let dh := dh <| dh_reader := rest |> in
      match err with
      | Some ErrTooLong =>
          (Err "552 5.3.4 Line too long (maximum 65536 octets)",
           clearMode (dh <| dh_dataSyncLost := true |>))
      | Some ErrEOF => (Err "unexpected end of data", dh)
      | Some _ => (Err "error reading data", dh)
      | None =>
          match data_line line rs lastMemoryCheck spool dh with
          | inl out => out
          | inr (rs, lastMemoryCheck, spool) => read_loop fuel' rs lastMemoryCheck spool dh
          end
      end
  end.

Definition initial_reader_state : DataReaderState :=
  mkDataReaderState true 0 0 false false 0.

(** readData before the loop: the spool, moved to disk at once when the declared
    size will spill anyway. *)
Definition readData (dh : DataHandler) : result MessageSpool * DataHandler :=
  let spool := NewMessageSpool (spoolDir cfg) (spoolThreshold cfg) in
  let '(r, spool) := if spoolThreshold cfg <? declaredSize (dh_state dh)
                     then SpillToDisk (de_spill env) spool else (Ok tt, spool) in
  match r with
  | Err _ => (Err "451 4.3.0 Unable to prepare message spool", dh)
  | Ok _ =>
      if negb (de_deadline_ok env)
      then (Err "connection compromised: unable to set read deadline", dh)
      else read_loop (S (length (dh_reader dh))) initial_reader_state 0 spool dh
  end.

Definition ReadData (dh : DataHandler) : result MessageSpool * DataHandler :=
  let '(r, dh) := readData dh in
  match r with
  | Err e => (Err e, if dh_dataSyncLost dh then dh else drainToEndOfData dh)
  | Ok spool => (Ok spool, dh)
  end.

(** ** BDAT chunks *)

(** io.CopyN and io.ReadFull: the first [n] bytes, if all of them arrive.  A
    failing read has consumed what came before it. *)
Fixpoint read_full (n : nat) (s : stream) : option string * stream :=
  match n with
  | O => (Some "", s)
  | S n' =>
      match s with
      | EByte c :: s' =>
          let '(o, rest) := read_full n' s' in (String c <$> o, rest)
      | _ :: s' => (None, s')
      | [] => (None, [])
      end
  end.

(** The same without building the byte count in unary: [None] as soon as the
    script is shorter than [n]. *)
Definition read_exactly (n : Z) (s : stream) : option string * stream :=
  if Z.of_nat (length s) <? n then (None, snd (read_full (length s) s))
  else read_full (Z.to_nat n) s.

Definition DiscardBDATChunk (size : Z) (dh : DataHandler) : DataHandler :=
  if size <=? 0 then dh
  else if maxDrainBytes <? size then dh <| dh_dataSyncLost := true |>
  else if negb (de_drain_deadline_ok env) then dh <| dh_dataSyncLost := true |>
  else match read_exactly size (dh_reader dh) with
       | (Some _, rest) => dh <| dh_reader := rest |>
       | (None, rest) => dh <| dh_reader := rest |> <| dh_dataSyncLost := true |>
       end.

(** [make] of a negative or absurdly large length panics. *)
Definition max_alloc : Z := 2 ^ 48.

Definition ReadBDATChunk (size : Z) (dh : DataHandler) : result unit * DataHandler :=
  if cfg_MaxSize cfg <? wrap64 (dh_bdatBytesReceived dh + size) then
    (Err ("552 5.3.4 Message size exceeds maximum allowed ("
          +:+ FormatInt (cfg_MaxSize cfg) +:+ " bytes)"), DiscardBDATChunk size dh)
  else
    let spool := match dh_bdatSpool dh with
                 | Some s => s
                 | None => NewMessageSpool (spoolDir cfg) (spoolThreshold cfg)
                 end in
    let dh := dh <| dh_bdatSpool := Some spool |> in
    if ((size <? 0) || (max_alloc <? size))%bool
    then (Err "panic: makeslice: len out of range", dh <| dh_panicked := true |>)
    else match read_exactly size (dh_reader dh) with
         | (None, rest) => (Err "451 4.3.0 Error reading chunk data", dh <| dh_reader := rest |>)
         | (Some chunk, rest) =>
             let dh := dh <| dh_reader := rest |> in
             match spool_Write (de_spill env) chunk spool with
             | (Err _, spool) =>
                 (Err "451 4.3.0 Unable to buffer message data",
                  dh <| dh_bdatSpool := Some spool |>)
             | (Ok _, spool) =>
                 (Ok tt, dh <| dh_bdatSpool := Some spool |>
                            <| dh_bdatBytesReceived ::= fun n => wrap64 (n + size) |>
                            <| dh_bdatChunkCount ::= fun n => wrap64 (n + 1) |>)
             end
         end.

Definition ResetBDAT (dh : DataHandler) : DataHandler :=
  dh <| dh_bdatSpool := None |> <| dh_bdatBytesReceived := 0 |> <| dh_bdatChunkCount := 0 |>.

Definition MarkDataSyncLost (dh : DataHandler) : DataHandler := dh <| dh_dataSyncLost := true |>.
End Handler.

(** ** The reference reader

    What reading one line means, without buffer or limit: everything up to and
    including the first LF, or up to the read that fails. *)
Fixpoint line_of (s : stream) : string * option read_err * stream :=
  match s with
  | [] => ("", Some ErrEOF, [])
  | ETimeout :: s' => ("", Some ErrTimeout, s')
  | EReadErr :: s' => ("", Some ErrIO, s')
  | EByte c :: s' =>
      if Ascii.eqb c LF then (String c "", None, s')
      else let '(l, err, rest) := line_of s' in (String c l, err, rest)
  end.

Lemma bytes_of_app s t : bytes_of (s +:+ t) = bytes_of s ++ bytes_of t.
Proof. induction s as [|c s IH]; [done|]. apply (f_equal (cons (EByte c))), IH. Qed.

Lemma bytes_of_length s : length (bytes_of s) = String.length s.
Proof. induction s as [|c s IH]; [done|]. apply (f_equal S), IH. Qed.

Lemma line_of_no_full s l e r :
  line_of s = (l, e, r) -> e <> Some ErrBufferFull /\ e <> Some ErrTooLong.
Proof.
  revert l e r. induction s as [|[c| |] s IH]; cbn; intros l e r H;
    try (split; congruence).
  destruct (Ascii.eqb c LF).
  { simplify_eq. split; congruence. }
  destruct (line_of s) as [[l' e'] r'] eqn:E. simplify_eq. by eapply IH.
Qed.

(** The buffer either holds the rest of the line, or exactly [room] bytes of it. *)
Lemma ReadSlice_spec room : forall s f e r,
  ReadSlice room s = (f, e, r) ->
  (e <> Some ErrBufferFull /\ line_of s = (f, e, r)) \/
  (e = Some ErrBufferFull /\ String.length f = room /\ s = bytes_of f ++ r /\
   forall l e' r', line_of r = (l, e', r') -> line_of s = (f +:+ l, e', r')).
Proof.
  induction room as [|room IH]; cbn; intros s f e r H.
  { simplify_eq. right. done. }
  destruct s as [|[c| |] s]; simplify_eq; try (left; split; [congruence|done]).
  cbn. destruct (Ascii.eqb c LF) eqn:Ec; [simplify_eq; left; split; [congruence|done]|].
  destruct (ReadSlice room s) as [[f' e'] r'] eqn:E. simplify_eq.
  destruct (IH _ _ _ _ E) as [[He Hl]|(-> & Hlen & Hs & Hl)].
  - left. rewrite Hl. done.
  - right. split_and!; [done|cbn; by rewrite Hlen|cbn; by rewrite Hs at 1|].
    intros l e' r'' H'. rewrite (Hl _ _ _ H'). done.
Qed.

Lemma ReadSlice_consumed room : forall s f e r,
  ReadSlice room s = (f, e, r) -> (String.length f <= room)%nat /\
  (length s <= length r + String.length f + 1)%nat.
Proof.
  induction room as [|room IH]; cbn; intros s f e r H; [simplify_eq; cbn; lia|].
  destruct s as [|[c| |] s]; simplify_eq; cbn; try lia.
  destruct (Ascii.eqb c LF); [simplify_eq; cbn; lia|].
  destruct (ReadSlice room s) as [[f' e'] r'] eqn:E. simplify_eq.
  apply IH in E. cbn. lia.
Qed.

(** What the loop consumes of an over-long line is bounded by the limit and one
    buffer, however long the line is. *)
Definition consumed_at_most (n : Z) (s r : stream) : Prop :=
  Z.of_nat (length s) - Z.of_nat (length r) <= n.

Lemma bounded_loop_spec limit fuel : forall line s l e r,
  (length s < fuel)%nat -> line_of s = (l, e, r) -> slen line <= limit ->
  (slen line + slen l <= limit -> bounded_loop fuel limit line s = (line +:+ l, e, r)) /\
  (limit < slen line + slen l -> exists r',
     bounded_loop fuel limit line s = ("", Some ErrTooLong, r') /\
     consumed_at_most (limit - slen line + Z.of_nat bufio_size + 1) s r').
Proof.
  induction fuel as [|fuel IH]; intros line s l e r Hf Hl Hll; [lia|].
  cbn [bounded_loop]. destruct (ReadSlice bufio_size s) as [[f e1] r1] eqn:E.
  pose proof (slen_nonneg l). destruct (ReadSlice_consumed _ _ _ _ _ E) as [Hfl Hcons].
  destruct (ReadSlice_spec _ _ _ _ _ E) as [[He Hl1]|(-> & Hlen & Hs & Hl1)].
  - rewrite Hl in Hl1. simplify_eq. rewrite (bool_decide_false (e1 = _)) by done.
    split; intros Hb; case_match; bool_facts; try lia; [done|].
    eexists; split; [done|]. unfold consumed_at_most. lia.
  - destruct (line_of r1) as [[l2 e2] r2] eqn:E2. specialize (Hl1 _ _ _ eq_refl).
    rewrite Hl in Hl1. simplify_eq. rewrite bool_decide_true by done.
    assert (length (bytes_of f ++ r1) = bufio_size + length r1)%nat as Hlt.
    { by rewrite length_app, bytes_of_length, Hlen. }
    pose proof bufio_size_pos. rewrite slen_app in *. pose proof (slen_nonneg l2).
    case_match; bool_facts.
    + split; [lia|]. eexists; split; [done|]. unfold consumed_at_most. lia.
    + destruct (IH (line +:+ f) r1 l2 _ _ ltac:(lia) E2) as [IH1 IH2];
        rewrite slen_app in *; [lia|].
      rewrite string_app_assoc. split; intros Hb; [apply IH1; lia|].
      destruct IH2 as (r' & ? & Hc); [lia|]. exists r'. split; [done|].
      unfold consumed_at_most, slen in *. lia.
Qed.

(** The reader agrees with the reference whenever the line fits. *)
Lemma readBounded_fits limit s l e r :
  line_of s = (l, e, r) -> slen l <= limit -> readBoundedSMTPLine limit s = (l, e, r).
Proof.
  intros H Hl. unfold readBoundedSMTPLine. pose proof (slen_nonneg l).
  destruct (bounded_loop_spec limit (S (length s)) "" s l e r) as [H1 _];
    [lia|done|change (slen "") with 0; lia|]. by apply H1.
Qed.

Lemma readBounded_too_long limit s l e r :
  0 <= limit -> line_of s = (l, e, r) -> limit < slen l -> exists r',
  readBoundedSMTPLine limit s = ("", Some ErrTooLong, r') /\
  consumed_at_most (limit + Z.of_nat bufio_size + 1) s r'.
Proof.
  intros H0 H Hl. unfold readBoundedSMTPLine.
  destruct (bounded_loop_spec limit (S (length s)) "" s l e r) as [_ H2];
    [lia|done|change (slen "") with 0; lia|].
  change (slen "") with 0 in H2. destruct H2 as (r' & ? & Hc); [lia|].
  exists r'. split; [done|]. unfold consumed_at_most in *. lia.
Qed.

Lemma readBounded_inv limit s l e r :
  0 <= limit -> readBoundedSMTPLine limit s = (l, e, r) ->
  (e = Some ErrTooLong /\ l = "") \/
  (e <> Some ErrTooLong /\ line_of s = (l, e, r) /\ slen l <= limit).
Proof.
  intros H0 H. destruct (line_of s) as [[l' e'] r'] eqn:E.
  destruct (Z_le_gt_dec (slen l') limit) as [Hle|Hgt].
  - rewrite (readBounded_fits _ _ _ _ _ E Hle) in H. simplify_eq.
    apply line_of_no_full in E as [_ Hn]. right. by split_and!.
  - destruct (readBounded_too_long _ _ _ _ _ H0 E ltac:(lia)) as (r1 & E1 & _).
    left. rewrite E1 in H. by simplify_eq.
Qed.

(** ** Lines *)

Definition no_LF (s : string) : bool := forall_bytes (fun c => negb (Ascii.eqb c LF)) s.
Definition lf_line (l : string) : Prop := exists b, l = b +:+ String LF "" /\ no_LF b = true.
Definition crlf_line (l : string) : Prop := exists b, l = b +:+ CRLF /\ no_LF b = true.

Lemma line_of_lf s l r : line_of s = (l, None, r) -> lf_line l /\ s = bytes_of l ++ r.
Proof.
  revert l r. induction s as [|[c| |] s IH]; cbn; intros l r H; try done.
  destruct (Ascii.eqb c LF) eqn:Ec.
  { simplify_eq. apply Ascii.eqb_eq in Ec as ->. split; [by exists ""|done]. }
  destruct (line_of s) as [[l' e'] r'] eqn:E. simplify_eq.
  destruct (IH _ _ eq_refl) as [(b & -> & Hb) ->]. split; [|done].
  exists (String c b). split; [done|]. unfold no_LF in *. cbn. by rewrite Ec.
Qed.

Lemma line_of_app b r :
  no_LF b = true -> line_of (bytes_of (b +:+ String LF "") ++ r) = (b +:+ String LF "", None, r).
Proof.
  induction b as [|c b IH]; intros H; [done|].
  unfold no_LF in *. cbn in H. bool_facts. specialize (IH ltac:(done)).
  rewrite app_cons. cbn. destruct (Ascii.eqb c LF); [done|].
  unfold bytes_of in IH. rewrite IH. done.
Qed.

Lemma string_snoc s : s = "" \/ exists s' c, s = s' +:+ String c "".
Proof.
  induction s as [|c s [->|(s' & d & ->)]]; [by left|right..].
  - by exists "", c.
  - by exists (String c s'), d.
Qed.

Lemma second_last_CR_spec b :
  second_last_CR (b +:+ String LF "") = true <-> exists b', b = b' +:+ String CR "".
Proof.
  destruct (string_snoc b) as [->|(b' & c & ->)].
  { split; [done|]. intros [[|] ?]; done. }
  unfold second_last_CR. rewrite <- string_app_assoc, !string_length_app. cbn [String.length].
  replace (_ - 2)%nat with (String.length b') by (cbn; lia).
  rewrite sdrop_app. replace (2 <=? _)%nat with true by (symmetry; apply Nat.leb_le; cbn; lia).
  cbn. rewrite bool_decide_eq_true. split.
  - intros [= ->]. by exists b'.
  - intros (b2 & E). apply (f_equal last_byte) in E. by rewrite !last_byte_app in E.
Qed.

Lemma ends_with_LF_lf l : lf_line l -> ends_with_LF l = true.
Proof.
  intros (b & -> & _). unfold ends_with_LF. rewrite last_byte_app. by apply bool_decide_true.
Qed.

Lemma crlf_is_lf l : crlf_line l -> lf_line l.
Proof.
  intros (b & -> & H). exists (b +:+ String CR ""). rewrite <- string_app_assoc.
  split; [done|]. unfold no_LF in *. rewrite forall_bytes_app, H. done.
Qed.

Lemma crlf_line_checks l :
  crlf_line l -> second_last_CR l = true /\ ends_with_LF l = true.
Proof.
  intros H. split; [|by apply ends_with_LF_lf, crlf_is_lf].
  destruct H as (b & -> & _). change CRLF with (String CR "" +:+ String LF "").
  rewrite string_app_assoc. apply second_last_CR_spec. by exists b.
Qed.

Lemma validateLineEndings_crlf strict l : crlf_line l -> validateLineEndings strict l = Ok tt.
Proof.
  intros H. unfold validateLineEndings. destruct (crlf_line_checks _ H) as [-> ->].
  by destruct (l =? "")%string.
Qed.

(** Strict mode lets nothing but CRLF lines through. *)
Lemma validateLineEndings_strict l :
  lf_line l -> validateLineEndings true l = Ok tt -> crlf_line l.
Proof.
  intros Hl H. pose proof (ends_with_LF_lf _ Hl) as He. destruct Hl as (b & -> & Hb).
  unfold validateLineEndings in H. rewrite He in H.
  destruct (second_last_CR _) eqn:E; [|by destruct b].
  apply second_last_CR_spec in E as (b' & ->). exists b'.
  unfold no_LF in *. rewrite forall_bytes_app in Hb. bool_facts.
  split; [by rewrite <- string_app_assoc|done].
Qed.

(** ** Dot-stuffing (RFC 5321 4.5.2), the sender's side *)

Definition dot_stuff (l : string) : string :=
  if bool_decide (first_byte l = Some DOT) then String DOT l else l.

(** What a sender puts on the wire for a message of the given lines. *)
Definition wire (m : list string) : string := concat_strings (dot_stuff <$> m) +:+ dot_crlf.

Lemma applyDotStuffing_stuff l : applyDotStuffing (dot_stuff l) = l.
Proof.
  unfold dot_stuff. case_bool_decide as H; [done|].
  destruct l as [|c l]; [done|]. cbn. destruct (Ascii.eqb c DOT) eqn:E; [|done].
  apply Ascii.eqb_eq in E as ->. by destruct H.
Qed.

Lemma dot_stuff_crlf l : crlf_line l -> crlf_line (dot_stuff l).
Proof.
  intros (b & -> & H). unfold dot_stuff. case_bool_decide; [|by exists b].
  exists (String DOT b). done.
Qed.

Lemma isValidEndOfData_stuffed strict l rs :
  crlf_line l -> isValidEndOfData strict (dot_stuff l) rs = (false, rs).
Proof.
  intros Hl. unfold isValidEndOfData, dot_stuff. case_bool_decide as H.
  - destruct l as [|c l]; [done|]. injection H as ->. reflexivity.
  - destruct l as [|c l].
    { by destruct Hl as ([|] & ? & _). }
    assert (Ascii.eqb c DOT = false) as Hc.
    { apply Ascii.eqb_neq. intros ->. by destruct H. }
    cbn. change "."%char with DOT. by rewrite Hc.
Qed.

(** A peer of a trusted network on a healthy server: nothing but the protocol can
    refuse its message. *)
Definition healthy (env : data_env) : Prop :=
  de_internal env = true /\ de_deadline_ok env = true /\ (forall n, de_memory_ok env n = true)
  /\ de_spill env = io_fine /\ (forall n, de_spool env n = io_fine).

Section Receive.
Context `{U : UnicodeTables}.
Variable cfg : Config.
Variable env : data_env.

Lemma data_line_stuffed l rs lm spool dh :
  healthy env -> crlf_line l -> slen (dot_stuff l) <= data_line_limit ->
  BytesRead rs + slen (dot_stuff l) <= cfg_MaxSize cfg ->
  spool_wf spool -> sp_dir spool <> "" ->
  exists rs' lm' spool',
    data_line cfg env (dot_stuff l) rs lm spool dh = inr (rs', lm', spool') /\
    BytesRead rs' = BytesRead rs + slen (dot_stuff l) /\
    spool_wf spool' /\ sp_dir spool' <> "" /\ content spool' = content spool +:+ l.
Proof.
  intros (Hint & _ & Hmem & _ & Hsp) Hl Hlim Hmax Hwf Hdir.
  unfold data_line.
  rewrite (validateLineEndings_crlf _ _ (dot_stuff_crlf _ Hl)).
  rewrite isValidEndOfData_stuffed by done. cbn.
  rewrite Hmem, andb_false_r, Hint, Hsp, applyDotStuffing_stuff.
  unfold validateLineContent.
  change (64 * 1024) with data_line_limit.
  destruct (Z.ltb_spec data_line_limit (slen (dot_stuff l))); [lia|].
  destruct (Z.ltb_spec (cfg_MaxSize cfg) (slen (dot_stuff l) + BytesRead rs)); [lia|].
  destruct (spool_Write_fine l spool Hwf Hdir) as (s' & E & Hd' & _). rewrite E.
  destruct (spool_Write_spec _ _ _ _ _ Hwf E) as [Hwf' Hc'].
  eexists _, _, s'. split; [reflexivity|].
  split_and!; try done; [by case_match; cbn; lia|congruence].
Qed.

Lemma data_line_end rs lm spool dh :
  healthy env -> BytesRead rs + 3 <= cfg_MaxSize cfg ->
  data_line cfg env dot_crlf rs lm spool dh =
    inl (Ok spool, dh <| dh_state ::= SetDataSize (de_now env) (sp_size spool) |>).
Proof.
  intros (_ & _ & Hmem & _) Hmax. unfold data_line.
  assert (crlf_line dot_crlf) as Hc by (by exists ".").
  rewrite (validateLineEndings_crlf _ _ Hc). destruct (crlf_line_checks _ Hc) as [-> ->].
  cbn -[isValidEndOfData slen]. rewrite Hmem, andb_false_r. change (slen dot_crlf) with 3.
  destruct (Z.ltb_spec (cfg_MaxSize cfg) (3 + BytesRead rs)); [lia|].
  unfold isValidEndOfData. rewrite String.eqb_refl. cbn. by rewrite andb_false_r.
Qed.

Lemma read_loop_wire m : forall fuel rs lm spool dh rest,
  healthy env -> Forall crlf_line m ->
  Forall (fun l => slen (dot_stuff l) <= data_line_limit) m ->
  BytesRead rs + slen (wire m) <= cfg_MaxSize cfg ->
  spool_wf spool -> sp_dir spool <> "" -> (length m < fuel)%nat ->
  dh_reader dh = bytes_of (wire m) ++ rest ->
  exists spool' dh',
    read_loop cfg env fuel rs lm spool dh = (Ok spool', dh') /\
    content spool' = content spool +:+ concat_strings m /\ spool_wf spool' /\
    dh' = dh <| dh_reader := rest |>
             <| dh_state ::= SetDataSize (de_now env) (sp_size spool') |>.
Proof.
  induction m as [|l m IH]; intros fuel rs lm spool dh rest Hh Hcr Hlim Hmax Hwf Hdir Hf Hr;
    (destruct fuel as [|fuel]; [lia|]); cbn [read_loop].
  - assert (readBoundedSMTPLine data_line_limit (dh_reader dh) = (dot_crlf, None, rest)) as ->.
    { rewrite Hr. apply readBounded_fits; [|done]. by apply (line_of_app (String DOT (String CR ""))). }
    rewrite data_line_end by done. eexists _, _. split; [reflexivity|].
    by rewrite string_app_nil_r.
  - cbn in Hf. apply Forall_cons in Hcr as [Hl Hcr]. apply Forall_cons in Hlim as [Hll Hlim].
    unfold wire in Hmax, Hr. cbn [fmap list_fmap concat_strings foldr] in Hmax, Hr.
    rewrite <- string_app_assoc in Hmax, Hr. rewrite slen_app in Hmax.
    fold (concat_strings (dot_stuff <$> m)) in Hmax, Hr. fold (wire m) in Hmax, Hr.
    pose proof (slen_nonneg (wire m)).
    assert (readBoundedSMTPLine data_line_limit (dh_reader dh)
            = (dot_stuff l, None, bytes_of (wire m) ++ rest)) as ->.
    { rewrite Hr, bytes_of_app, <- app_assoc. apply readBounded_fits; [|done].
      destruct (crlf_is_lf _ (dot_stuff_crlf _ Hl)) as (b & -> & Hb). by apply line_of_app. }
    destruct (data_line_stuffed l rs lm spool (dh <| dh_reader := bytes_of (wire m) ++ rest |>))
      as (rs' & lm' & s' & -> & HB & Hwf' & Hd' & Hc'); [done..|lia|done|done|].
    destruct (IH fuel rs' lm' s' (dh <| dh_reader := bytes_of (wire m) ++ rest |>) rest)
      as (s2 & dh2 & -> & Hc2 & Hwf2 & ->); try done; [lia|lia|].
    eexists _, _. split; [reflexivity|]. split_and!; try done.
    by rewrite Hc2, Hc', <- string_app_assoc.
Qed.

(** ** What an accepted message looks like *)

Definition is_terminator (strict : bool) (l : string) : Prop :=
  l = dot_crlf \/ (strict = false /\ l = dot_lf).

Lemma data_line_inv line rs lm spool dh :
  lf_line line ->
  match data_line cfg env line rs lm spool dh with
  | inl (Ok sp, dh') =>
      sp = spool /\ is_terminator (StrictLineEndingsEnabled cfg) line /\
      BytesRead rs + slen line <= cfg_MaxSize cfg /\ dh_reader dh' = dh_reader dh
  | inl (Err _, dh') => dh_reader dh' = dh_reader dh
  | inr (rs', _, sp') =>
      validateLineEndings (StrictLineEndingsEnabled cfg) line = Ok tt /\
      ~ is_terminator (StrictLineEndingsEnabled cfg) line /\
      BytesRead rs' = BytesRead rs + slen line /\
      BytesRead rs' <= cfg_MaxSize cfg /\
      exists io n, spool_Write io (applyDotStuffing line) spool = (Ok n, sp')
  end.
Proof.
  intros Hlf. unfold data_line.
  destruct (validateLineEndings _ line) as [[]|e] eqn:Ev; [|done].
  set (strict := StrictLineEndingsEnabled cfg) in *. cbn -[isValidEndOfData validateLineContent].
  destruct (Z.ltb_spec (cfg_MaxSize cfg) (slen line + BytesRead rs)) as [|Hmax]; [done|].
  destruct (_ && negb (de_memory_ok _ _))%bool; [done|].
  match goal with |- context [isValidEndOfData strict line ?r] => set (rs1 := r) end.
  assert (Hend : forall b rs2, isValidEndOfData strict line rs1 = (b, rs2) ->
            BytesRead rs2 = slen line + BytesRead rs /\
            if b then is_terminator strict line else ~ is_terminator strict line).
  { unfold isValidEndOfData, is_terminator. intros b rs2.
    destruct (String.eqb_spec line dot_crlf) as [->|Hn].
    - replace (LastLineEndedWithCRLF rs1) with true by done. cbn.
      rewrite andb_false_r. cbn. intros [= <- <-]. cbn. auto.
    - destruct (String.eqb_spec line dot_lf) as [->|Hn2].
      + destruct strict; intros [= <- <-]; cbn; [|by auto]. split; [done|]. by intros [?|[? ?]].
      + intros E. repeat case_match; simplify_eq; cbn; (split; [done|]); by intros [?|[? ?]]. }
  destruct (isValidEndOfData strict line rs1) as [[] rs2] eqn:E;
    destruct (Hend _ _ eq_refl) as [HB Ht].
  { split_and!; try done. lia. }
  destruct (validateLineContent _ _ _ _ _); [|done].
  destruct (spool_Write _ _ _) as [[n|e] sp'] eqn:Ew; [|done].
  split_and!; try done; [case_match; cbn; lia..|eauto].
Qed.

Lemma read_loop_sound fuel : forall rs lm spool dh sp dh',
  spool_wf spool -> read_loop cfg env fuel rs lm spool dh = (Ok sp, dh') ->
  exists lines term,
    dh_reader dh = bytes_of (concat_strings lines +:+ term) ++ dh_reader dh' /\
    is_terminator (StrictLineEndingsEnabled cfg) term /\
    Forall (fun l => lf_line l /\ ~ is_terminator (StrictLineEndingsEnabled cfg) l /\
                     slen l <= data_line_limit /\
                     validateLineEndings (StrictLineEndingsEnabled cfg) l = Ok tt) lines /\
    content sp = content spool +:+ concat_strings (applyDotStuffing <$> lines) /\
    spool_wf sp /\
    BytesRead rs + slen (concat_strings lines) + slen term <= cfg_MaxSize cfg.
Proof.
  induction fuel as [|fuel IH]; intros rs lm spool dh sp dh' Hwf H; [done|].
  cbn [read_loop] in H.
  destruct (readBoundedSMTPLine _ _) as [[line err] rest] eqn:E.
  destruct err as [[]|]; try done.
  apply readBounded_inv in E as [[? _]|(_ & E & Hlim)]; [done| |done].
  apply line_of_lf in E as [Hlf Hs].
  pose proof (data_line_inv line rs lm spool (dh <| dh_reader := rest |>) Hlf) as Hd.
  destruct (data_line _ _ _ _ _ _ _) as [[[sp1|] dh1]|[[rs' lm'] sp1]].
  - destruct Hd as (-> & Ht & HB & Hr). simplify_eq. exists [], line. cbn in *.
    rewrite Hs, Hr, string_app_nil_r. split_and!; try done. change (slen "") with 0. lia.
  - done.
  - destruct Hd as (Hv & Hnt & HB & Hmax & io & n & Hw).
    destruct (spool_Write_spec _ _ _ _ _ Hwf Hw) as [Hwf1 Hc1].
    destruct (IH _ _ _ _ _ _ Hwf1 H) as (lines & term & Hr & Ht & Hall & Hc & Hwfs & HB2).
    exists (line :: lines), term. cbn in Hr. rewrite Hs, Hr.
    cbn [concat_strings foldr fmap list_fmap].
    fold (concat_strings lines). fold (concat_strings (applyDotStuffing <$> lines)).
    rewrite <- string_app_assoc, (bytes_of_app line), <- app_assoc.
    split_and!; try done.
    + constructor; done.
    + by rewrite Hc, Hc1, <- string_app_assoc.
    + rewrite slen_app. lia.
Qed.
End Receive.

(** ** Staying in step with the peer *)

Definition only_bytes (s : stream) : Prop := exists t, s = bytes_of t.

(** [p] ends where a line begins. *)
Definition line_start (p : string) : Prop := p = "" \/ last_byte p = Some LF.

Lemma line_start_app p q : line_start p -> line_start q -> line_start (p +:+ q).
Proof.
  intros Hp [->|Hq]; [by rewrite string_app_nil_r|right].
  destruct (string_snoc q) as [->|(q' & c & ->)]; [done|].
  rewrite string_app_assoc, last_byte_app. by rewrite last_byte_app in Hq.
Qed.

Lemma lf_line_start l : lf_line l -> line_start l.
Proof. intros (b & -> & _). right. apply last_byte_app. Qed.

Lemma only_bytes_drop t l r : bytes_of t = bytes_of l ++ r -> only_bytes r.
Proof.
  revert t. induction l as [|c l IH]; intros t H; [by exists t|].
  destruct t as [|d t]; [done|]. cbn in H. injection H as -> H. by eapply IH.
Qed.

Lemma line_of_bytes t l e r :
  line_of (bytes_of t) = (l, e, r) ->
  bytes_of t = bytes_of l ++ r /\ ((e = None /\ lf_line l) \/ (e = Some ErrEOF /\ r = [])).
Proof.
  revert l e r. induction t as [|c t IH]; cbn; intros l e r H.
  { simplify_eq. split; [done|by right]. }
  destruct (Ascii.eqb c LF) eqn:Ec.
  { simplify_eq. split; [done|left]. split; [done|]. exists "".
    by apply Ascii.eqb_eq in Ec as ->. }
  destruct (line_of (EByte <$> list_ascii_of_string t)) as [[l' e'] r'] eqn:E. simplify_eq.
  destruct (IH _ _ _ E) as [Hs Hcase]. split; [cbn; by f_equal|].
  destruct Hcase as [[-> (b & -> & Hb)]|[-> ->]]; [left|by right].
  split; [done|]. exists (String c b). split; [done|]. unfold no_LF in *. cbn. by rewrite Ec.
Qed.

Lemma data_line_limit_nonneg : 0 <= data_line_limit.
Proof. done. Qed.

(** Draining stops in step only just after a lone dot at the start of a line. *)
Lemma drain_loop_sync fuel : forall d als s rest,
  only_bytes s -> drain_loop fuel d als s = (false, rest) ->
  exists pre line, s = bytes_of (pre +:+ line) ++ rest /\ is_dot_line line = true /\
    line_start pre /\ (als = false -> pre <> "").
Proof.
  induction fuel as [|fuel IH]; intros d als s rest [t ->] H; [done|].
  cbn [drain_loop] in H.
  destruct (readBoundedSMTPLine _ _) as [[line err] r1] eqn:E.
  apply readBounded_inv in E as [[-> _]|(Hne & E & _)]; [| |apply data_line_limit_nonneg].
  { by rewrite bool_decide_true in H. }
  rewrite (bool_decide_false (err = _)) in H by done.
  destruct (line_of_bytes _ _ _ _ E) as [Hs Hcase].
  destruct (als && is_dot_line line)%bool eqn:Hd.
  { simplify_eq. bool_facts. exists "", line. split_and!; [done..|by left|]. by destruct als. }
  case_bool_decide as Herr; [done|].
  destruct (maxDrainBytes <? _); [done|].
  subst err.
  destruct Hcase as [[_ Hlf]|[? _]]; [|congruence].
  rewrite (ends_with_LF_lf _ Hlf) in H.
  apply IH in H as (pre & l2 & Hs2 & Hdot & Hst & _); [|by eapply only_bytes_drop].
  exists (line +:+ pre), l2. rewrite Hs, Hs2. split_and!; try done.
  - by rewrite <- string_app_assoc, (bytes_of_app line), app_assoc.
  - by apply line_start_app; [apply lf_line_start|].
  - intros _. destruct Hlf as (b & -> & _). by destruct b.
Qed.

Section Sync.
Context `{U : UnicodeTables}.
Variable cfg : Config.
Variable env : data_env.

Lemma read_loop_err fuel : forall rs lm spool dh e dh',
  only_bytes (dh_reader dh) -> read_loop cfg env fuel rs lm spool dh = (Err e, dh') ->
  dh_dataSyncLost dh' = true \/ dh_reader dh' = [] \/
  exists p, dh_reader dh = bytes_of p ++ dh_reader dh' /\ line_start p.
Proof.
  induction fuel as [|fuel IH]; intros rs lm spool dh e dh' Hb H.
  { cbn in H. simplify_eq. right. right. exists "". split; [done|by left]. }
  cbn [read_loop] in H. destruct Hb as [t Ht].
  destruct (readBoundedSMTPLine _ _) as [[line err] rest] eqn:E.
  apply readBounded_inv in E as [[-> _]|(Hne & E & _)]; [| |apply data_line_limit_nonneg].
  { simplify_eq. by left. }
  rewrite Ht in E. destruct (line_of_bytes _ _ _ _ E) as [Hs [[-> Hlf]|[-> ->]]].
  2: { simplify_eq. right. by left. }
  pose proof (data_line_inv cfg env line rs lm spool (dh <| dh_reader := rest |>) Hlf) as Hd.
  destruct (data_line _ _ _ _ _ _ _) as [[[sp1|] dh1]|[[rs' lm'] sp1]]; [done| |].
  - simplify_eq. right. right. exists line. rewrite Ht, Hs, Hd.
    split; [done|by apply lf_line_start].
  - apply IH in H; [|cbn; by eapply only_bytes_drop].
    destruct H as [?|[?|(p & Hp & Hst)]]; [by left|by right; left|].
    right; right. exists (line +:+ p). cbn in Hp. rewrite Ht, Hs, Hp, bytes_of_app, app_assoc.
    split; [done|]. by apply line_start_app; [apply lf_line_start|].
Qed.

(** More fuel than unread events never changes the outcome: the loop terminates. *)
Lemma line_of_shorter s l e r :
  line_of s = (l, e, r) -> e = None -> (length r < length s)%nat.
Proof.
  intros H ->. apply line_of_lf in H as [(b & -> & _) ->].
  rewrite length_app, bytes_of_length, string_length_app. cbn. lia.
Qed.

Lemma read_loop_fuel f1 : forall f2 rs lm spool dh,
  (length (dh_reader dh) < f1)%nat -> (length (dh_reader dh) < f2)%nat ->
  read_loop cfg env f1 rs lm spool dh = read_loop cfg env f2 rs lm spool dh.
Proof.
  induction f1 as [|f1 IH]; intros [|f2] rs lm spool dh H1 H2; try lia.
  cbn [read_loop]. destruct (readBoundedSMTPLine _ _) as [[line err] rest] eqn:E.
  destruct err as [err|]; [done|].
  apply readBounded_inv in E as [[? _]|(_ & E & _)]; [done| |apply data_line_limit_nonneg].
  apply line_of_shorter in E; [|done].
  destruct (data_line _ _ _ _ _ _ _) as [?|[[rs' lm'] sp1]]; [done|].
  apply IH; cbn; lia.
Qed.
End Sync.

(** ** Properties of message reception *)

(** The spool readData starts with. *)
Lemma initial_spool_wf (b : bool) dir t io r sp :
  (if b then SpillToDisk io (NewMessageSpool dir t) else (Ok tt, NewMessageSpool dir t)) = (r, sp) ->
  spool_wf sp /\ content sp = "" /\ (io = io_fine -> dir <> "" -> r = Ok tt /\ sp_dir sp = dir).
Proof.
  intros H. destruct b; [|injection H as <- <-; split_and!; [apply spool_new_wf|done|by intros]].
  unfold SpillToDisk in H. cbn in H.
  destruct (spillLocked_wf _ _ _ _ (spool_new_wf dir t) eq_refl H) as (Hwf & Hc & _).
  split_and!; [done..|]. intros -> Hd. unfold spillLocked in H. cbn in H.
  apply String.eqb_neq in Hd. rewrite Hd, andb_false_r in H. by simplify_eq.
Qed.

Lemma readData_unfold `{U : UnicodeTables} cfg env dh sp dh' :
  readData cfg env dh = (Ok sp, dh') ->
  exists sp0, spool_wf sp0 /\ content sp0 = "" /\
    read_loop cfg env (S (length (dh_reader dh))) initial_reader_state 0 sp0 dh = (Ok sp, dh').
Proof.
  unfold readData.
  destruct (if spoolThreshold cfg <? declaredSize (dh_state dh) then _ else _) as [r sp0] eqn:E.
  apply initial_spool_wf in E as (Hwf & Hc & _).
  destruct r as [[]|]; [|done]. destruct (negb _); [done|]. eauto.
Qed.

Lemma wire_length m : Forall crlf_line m -> (length m <= length (bytes_of (wire m)))%nat.
Proof.
  rewrite bytes_of_length. unfold wire. rewrite string_length_app.
  induction 1 as [|l m Hl _ IH]; [cbn; lia|]. cbn in IH |- *.
  fold (concat_strings (dot_stuff <$> m)). rewrite string_length_app.
  enough (1 <= String.length (dot_stuff l))%nat by lia.
  destruct (dot_stuff_crlf _ Hl) as (b & -> & _). rewrite string_length_app. cbn. lia.
Qed.

(** C7 (reception round trip).  A message whose lines end in CRLF, sent with the
    dot-stuffing of RFC 5321 4.5.2 and the end-of-data marker by a trusted peer to a
    server whose checks and spool work, no stuffed line longer than the line limit and
    all of it, marker included, within MaxSize, comes out of ReadData byte for byte as it was before stuffing, and whatever the
    client pipelined behind the marker is left unread for the command loop. *)
Theorem ReadData_roundtrip `{U : UnicodeTables} (cfg : Config) (env : data_env)
    (dh : DataHandler) (m : list string) (rest : stream)
    (Henv : healthy env) (Hcrlf : Forall crlf_line m)
    (Hlen : Forall (fun l => slen (dot_stuff l) <= data_line_limit) m)
    (Hmax : slen (wire m) <= cfg_MaxSize cfg)
    (Hread : dh_reader dh = bytes_of (wire m) ++ rest) :
  exists spool dh', ReadData cfg env dh = (Ok spool, dh') /\
    spool_Bytes io_fine spool = Ok (concat_strings m) /\
    dh_reader dh' = rest /\ dh_dataSyncLost dh' = dh_dataSyncLost dh /\
    dataSize (dh_state dh') = slen (concat_strings m).
Proof.
  unfold ReadData, readData.
  destruct (if spoolThreshold cfg <? declaredSize (dh_state dh) then _ else _) as [r sp0] eqn:E.
  apply initial_spool_wf in E as (Hwf & Hc & Hr).
  destruct Henv as (Hi & Hd & Hm & Hs & Hw) eqn:EH. clear EH.
  destruct (Hr Hs (spoolDir_nonempty cfg)) as [-> Hdir]. rewrite Hd. cbn [negb].
  destruct (read_loop_wire cfg env m (S (length (dh_reader dh))) initial_reader_state 0 sp0 dh rest)
    as (sp & dh' & -> & Hct & Hwf' & ->); try done.
  - rewrite Hdir. apply spoolDir_nonempty.
  - rewrite Hread, length_app. pose proof (wire_length m Hcrlf). lia.
  - eexists _, _. split; [reflexivity|]. rewrite spool_Bytes_content by done.
    rewrite Hc in Hct. cbn in Hct. rewrite Hct. split_and!; try done.
    destruct Hwf' as (_ & Hsz & _). cbn. by rewrite Hsz, Hct.
Qed.

Definition example_config : Config :=
  mkConfig "mx" "/q" 1000 ["ex.org"] [] false None None None None.
Definition example_env : data_env :=
  mkDataEnv 7 true (fun _ => mkValidation true "" "") true true (fun _ => true) io_fine
    (fun _ => io_fine).
Definition example_handler (s : stream) : DataHandler :=
  mkDataHandler (NewSessionState 0) s None 0 0 false false.

Lemma example_healthy : healthy example_env.
Proof. by repeat split. Qed.

Lemma ReadData_roundtrip_witness :
  exists spool dh',
    ReadData (U := ascii_tables) example_config example_env
      (example_handler (bytes_of (wire ["A: b" +:+ CRLF; CRLF; ".x" +:+ CRLF]) ++ bytes_of "QUIT"))
      = (Ok spool, dh') /\
    spool_Bytes io_fine spool = Ok ("A: b" +:+ CRLF +:+ CRLF +:+ ".x" +:+ CRLF) /\
    dh_reader dh' = bytes_of "QUIT" /\ dh_dataSyncLost dh' = false /\
    dataSize (dh_state dh') = 12.
Proof.
  apply (ReadData_roundtrip (U := ascii_tables) example_config example_env
    (example_handler (bytes_of (wire ["A: b" +:+ CRLF; CRLF; ".x" +:+ CRLF]) ++ bytes_of "QUIT"))
    ["A: b" +:+ CRLF; CRLF; ".x" +:+ CRLF] (bytes_of "QUIT") example_healthy).
  - repeat constructor; [by exists "A: b"|by exists ""|by exists ".x"].
  - repeat constructor; by vm_compute.
  - by vm_compute.
  - reflexivity.
Defined.

(** C4 (no smuggling).  With strict line endings (the default), the bytes of an
    accepted message are CRLF-terminated lines of at most 64 KiB with no LF inside,
    followed by the first line that is exactly ".CRLF"; the message is those lines
    with one leading dot removed from each, its size with the marker is within
    MaxSize, and nothing behind the marker has been read. *)
Theorem ReadData_no_smuggling `{U : UnicodeTables} (cfg : Config) (env : data_env)
    (dh dh' : DataHandler) (spool : MessageSpool)
    (Hstrict : StrictLineEndingsEnabled cfg = true)
    (Hok : ReadData cfg env dh = (Ok spool, dh')) :
  exists lines,
    dh_reader dh = bytes_of (concat_strings lines +:+ dot_crlf) ++ dh_reader dh' /\
    Forall (fun l => crlf_line l /\ l <> dot_crlf /\ slen l <= data_line_limit) lines /\
    content spool = concat_strings (applyDotStuffing <$> lines) /\
    sp_size spool = slen (content spool) /\
    slen (concat_strings lines) + 3 <= cfg_MaxSize cfg.
Proof.
  unfold ReadData in Hok. destruct (readData cfg env dh) as [[sp|e] dh1] eqn:E; simplify_eq.
  apply readData_unfold in E as (sp0 & Hwf & Hc0 & E).
  apply read_loop_sound in E as (lines & term & Hr & Ht & Hall & Hc & Hwf' & HB); [|done].
  rewrite Hstrict in *. destruct Ht as [->|[? _]]; [|done].
  exists lines. rewrite Hc0 in Hc. split_and!; try done; [|by destruct Hwf' as (_ & ? & _)].
  eapply Forall_impl; [exact Hall|]. intros l (Hlf & Hnt & Hl & Hv). split_and!; [|..|done].
  - by apply validateLineEndings_strict.
  - intros ->. apply Hnt. by left.
Qed.

Lemma ReadData_no_smuggling_witness :
  exists lines,
    bytes_of ("a" +:+ CRLF +:+ "..b" +:+ CRLF +:+ "." +:+ CRLF +:+ "NOOP" +:+ CRLF)
      = bytes_of (concat_strings lines +:+ dot_crlf) ++ bytes_of ("NOOP" +:+ CRLF) /\
    Forall (fun l => crlf_line l /\ l <> dot_crlf /\ slen l <= data_line_limit) lines /\
    "a" +:+ CRLF +:+ ".b" +:+ CRLF = concat_strings (applyDotStuffing <$> lines) /\
    7 = 7 /\ slen (concat_strings lines) + 3 <= 1000.
Proof.
  apply (ReadData_no_smuggling (U := ascii_tables) example_config example_env
    (example_handler (bytes_of ("a" +:+ CRLF +:+ "..b" +:+ CRLF +:+ "." +:+ CRLF +:+ "NOOP" +:+ CRLF)))
    (mkDataHandler (SetDataSize 7 7 (NewSessionState 0)) (bytes_of ("NOOP" +:+ CRLF)) None 0 0 false false)
    (mkMessageSpool "/q/spool" DefaultSpoolThreshold ("a" +:+ CRLF +:+ ".b" +:+ CRLF) None 7 false)).
  - reflexivity.
  - vm_compute. reflexivity.
Defined.

(** C36 (staying in step).  When reception fails on a connection that delivers
    bytes, either the handler knows it lost its place in the stream (and the
    session closes), or the next byte it will read is the one behind a lone dot at the
    start of a line, which a client that stuffs its dots sends only as an end-of-data
    marker.  It need not be the marker of the refused message: one that reaches MaxSize
    with its marker is drained to the next ([marker_counts_and_is_drained_past]).  On a
    connection whose reads also time out nothing of the kind holds
    ([drain_resumes_mid_line]). *)
Theorem ReadData_failure_in_sync `{U : UnicodeTables} (cfg : Config) (env : data_env)
    (dh dh' : DataHandler) (e : string)
    (Hbytes : only_bytes (dh_reader dh))
    (Herr : ReadData cfg env dh = (Err e, dh'))
    (Hsync : dh_dataSyncLost dh' = false) :
  exists pre line, dh_reader dh = bytes_of (pre +:+ line) ++ dh_reader dh' /\
    line_start pre /\ is_dot_line line = true.
Proof.
  unfold ReadData in Herr. destruct (readData cfg env dh) as [[sp|e1] dh1] eqn:E; [done|].
  destruct (dh_dataSyncLost dh1) eqn:Hl; [simplify_eq; congruence|].
  assert (dh_reader dh1 = [] \/ exists p, dh_reader dh = bytes_of p ++ dh_reader dh1 /\ line_start p)
    as Hpos.
  { unfold readData in E.
    destruct (if spoolThreshold cfg <? declaredSize (dh_state dh) then _ else _) as [r sp0].
    assert (line_start "") by by left.
    destruct r as [[]|]; [|simplify_eq; right; by exists ""].
    destruct (negb _); [simplify_eq; right; by exists ""|].
    apply read_loop_err in E as [?|?]; [congruence|done|done]. }
  simplify_eq. unfold drainToEndOfData in Hsync |- *.
  destruct (negb _); [done|].
  destruct (drain_loop _ _ _ _) as [lost rest] eqn:Ed. cbn in Hsync |- *.
  apply orb_false_iff in Hsync as [_ ->].
  assert (only_bytes (dh_reader dh1)) as Hb1.
  { destruct Hpos as [->|(p & Hp & _)]; [by exists ""|].
    destruct Hbytes as [t Ht]. rewrite Ht in Hp. by eapply only_bytes_drop. }
  apply drain_loop_sync in Ed as (pre & line & Hs & Hdot & Hst & _); [|done].
  destruct Hpos as [Hnil|(p & Hp & Hps)].
  { rewrite Hnil in Hs. destruct pre, line; done. }
  exists (p +:+ pre), line. rewrite Hp, Hs, app_assoc, <- bytes_of_app, string_app_assoc.
  split_and!; try done. by apply line_start_app.
Qed.

Lemma ReadData_failure_in_sync_witness :
  exists pre line,
    bytes_of ("0123456789" +:+ CRLF +:+ "RSET" +:+ CRLF +:+ "." +:+ CRLF +:+ "NOOP")
      = bytes_of (pre +:+ line) ++ bytes_of "NOOP" /\
    line_start pre /\ is_dot_line line = true.
Proof.
  apply (ReadData_failure_in_sync (U := ascii_tables)
    (mkConfig "mx" "/q" 10 [] [] false None None None None) example_env
    (example_handler (bytes_of ("0123456789" +:+ CRLF +:+ "RSET" +:+ CRLF +:+ "." +:+ CRLF +:+ "NOOP")))
    (mkDataHandler (ClearDataTransferMode 7 (NewSessionState 0)) (bytes_of "NOOP") None 0 0 false false)
    "552 5.3.4 Message size exceeds maximum allowed").
  - by eexists.
  - vm_compute. reflexivity.
  - reflexivity.
Defined.

(** Bounded line reader: reading through the 4096-byte buffer with a limit
    is reading up to the first LF: a line within the limit is returned whole, with
    the error the connection reported, and a longer one is refused after at most
    the limit, one buffer and one failing read have been consumed. *)
Theorem readBoundedSMTPLine_refines (limit : Z) (s : stream) (Hlimit : 0 <= limit) :
  let '(l, e, r) := line_of s in
  if slen l <=? limit then readBoundedSMTPLine limit s = (l, e, r)
  else exists r', readBoundedSMTPLine limit s = ("", Some ErrTooLong, r') /\
                  consumed_at_most (limit + Z.of_nat bufio_size + 1) s r'.
Proof.
  destruct (line_of s) as [[l e] r] eqn:E. case_match; bool_facts.
  - by apply readBounded_fits.
  - by eapply readBounded_too_long.
Qed.

Lemma readBoundedSMTPLine_refines_witness :
  let s := bytes_of ("EHLO x" +:+ CRLF +:+ "NOOP") in
  if slen ("EHLO x" +:+ CRLF) <=? 512
  then readBoundedSMTPLine 512 s = ("EHLO x" +:+ CRLF, None, bytes_of "NOOP")
  else exists r', readBoundedSMTPLine 512 s = ("", Some ErrTooLong, r') /\
                  consumed_at_most (512 + Z.of_nat bufio_size + 1) s r'.
Proof.
  apply (readBoundedSMTPLine_refines 512 (bytes_of ("EHLO x" +:+ CRLF +:+ "NOOP"))). lia.
Defined.

(** The data loop terminates.  Any number of iterations beyond the number of
    unread events gives the same outcome: the loop bound of the model is never the
    reason readData returns. *)
Theorem read_loop_terminates `{U : UnicodeTables} (cfg : Config) (env : data_env)
    (dh : DataHandler) (rs : DataReaderState) (lm : Z) (spool : MessageSpool) (fuel : nat)
    (Hfuel : (length (dh_reader dh) < fuel)%nat) :
  read_loop cfg env fuel rs lm spool dh
  = read_loop cfg env (S (length (dh_reader dh))) rs lm spool dh.
Proof. apply read_loop_fuel; lia. Qed.

Lemma read_loop_terminates_witness :
  let dh := example_handler (bytes_of dot_crlf) in
  read_loop (U := ascii_tables) example_config example_env 50 initial_reader_state 0
    (NewMessageSpool "/q" 5) dh
  = read_loop (U := ascii_tables) example_config example_env 4 initial_reader_state 0
    (NewMessageSpool "/q" 5) dh.
Proof.
  apply (read_loop_terminates (U := ascii_tables) example_config example_env
    (example_handler (bytes_of dot_crlf)) initial_reader_state 0 (NewMessageSpool "/q" 5) 50).
  cbn. lia.
Defined.

(** ** BDAT accounting *)

Lemma read_full_some n : forall s c r,
  read_full n s = (Some c, r) -> s = bytes_of c ++ r /\ String.length c = n.
Proof.
  induction n as [|n IH]; cbn; intros s c r H; [by simplify_eq|].
  destruct s as [|[d| |] s]; try done.
  destruct (read_full n s) as [[o|] r'] eqn:E; cbn in H; simplify_eq.
  apply IH in E as [-> <-]. done.
Qed.

Lemma read_exactly_some n s c r :
  0 <= n -> read_exactly n s = (Some c, r) -> s = bytes_of c ++ r /\ slen c = n.
Proof.
  unfold read_exactly. intros Hn H. case_match; [done|].
  apply read_full_some in H as [? Hl]. split; [done|]. unfold slen. lia.
Qed.

Definition bdat_content (dh : DataHandler) : string :=
  match dh_bdatSpool dh with Some sp => content sp | None => "" end.

(** The running total is the number of octets spooled. *)
Definition bdat_wf (dh : DataHandler) : Prop :=
  dh_bdatBytesReceived dh = slen (bdat_content dh) /\
  match dh_bdatSpool dh with Some sp => spool_wf sp | None => True end.

(** Just the chunk has been consumed. *)
Definition chunk_consumed (size : Z) (s r : stream) (chunk : string) : Prop :=
  s = bytes_of chunk ++ r /\ slen chunk = size.

Lemma DiscardBDATChunk_sync env size dh :
  dh_dataSyncLost (DiscardBDATChunk env size dh) = true \/
  (size <= 0 /\ DiscardBDATChunk env size dh = dh) \/
  exists chunk, chunk_consumed size (dh_reader dh) (dh_reader (DiscardBDATChunk env size dh)) chunk.
Proof.
  unfold DiscardBDATChunk. destruct (Z.leb_spec size 0); [by right; left|].
  destruct (maxDrainBytes <? size); [by left|]. destruct (negb _); [by left|].
  destruct (read_exactly _ _) as [[c|] r] eqn:E; [|by left].
  right; right. exists c. apply read_exactly_some in E; [done|lia].
Qed.

(** BDAT accounting: unless the octet count overflows, a chunk is either
    spooled whole, the total staying within MaxSize and equal to the number of
    octets spooled so far, or refused; a chunk refused for its size has been
    consumed exactly, or the handler knows it lost its place. *)
Theorem ReadBDATChunk_accounting (cfg : Config) (env : data_env) (dh : DataHandler) (size : Z)
    (Hwf : bdat_wf dh) (Hsize : 0 <= size) (Hmax : cfg_MaxSize cfg < max_alloc)
    (Hover : dh_bdatBytesReceived dh + size < two63) :
  match ReadBDATChunk cfg env size dh with
  | (Ok _, dh') =>
      exists chunk, chunk_consumed size (dh_reader dh) (dh_reader dh') chunk /\
        bdat_content dh' = bdat_content dh +:+ chunk /\ bdat_wf dh' /\
        dh_bdatBytesReceived dh' <= cfg_MaxSize cfg
  | (Err _, dh') =>
      dh_panicked dh' = dh_panicked dh /\
      (cfg_MaxSize cfg < dh_bdatBytesReceived dh + size ->
       dh_dataSyncLost dh' = true \/
       exists chunk, chunk_consumed size (dh_reader dh) (dh_reader dh') chunk)
  end.
Proof.
  destruct Hwf as [Hrec Hsp]. pose proof (slen_nonneg (bdat_content dh)) as Hpos.
  unfold ReadBDATChunk. rewrite wrap64_id by (unfold int64_ok, two63 in *; lia).
  destruct (Z.ltb_spec (cfg_MaxSize cfg) (dh_bdatBytesReceived dh + size)) as [Hbig|Hfit].
  { split; [unfold DiscardBDATChunk; by repeat case_match|intros _].
    destruct (DiscardBDATChunk_sync env size dh) as [?|[[? ->]|?]]; [by left| |by right].
    right. exists "". split; [done|]. change (slen "") with 0. lia. }
  destruct (Z.ltb_spec size 0); [lia|]. destruct (Z.ltb_spec max_alloc size); [lia|]. cbn [orb].
  match goal with |- context [read_exactly size ?x] => change x with (dh_reader dh) end.
  destruct (read_exactly size (dh_reader dh)) as [[c|] r] eqn:E; [|cbn; split; [done|lia]].
  apply read_exactly_some in E as [Hs Hl]; [|done].
  set (sp0 := match dh_bdatSpool dh with Some s => s | None => _ end).
  assert (spool_wf sp0 /\ content sp0 = bdat_content dh) as [Hwf0 Hc0].
  { subst sp0. unfold bdat_content. destruct (dh_bdatSpool dh); [done|].
    split; [apply spool_new_wf|done]. }
  destruct (spool_Write (de_spill env) c sp0) as [[n|e] sp] eqn:Ew; [|cbn; split; [done|lia]].
  destruct (spool_Write_spec _ _ _ _ _ Hwf0 Ew) as [Hwf1 Hc1]. cbn.
  rewrite wrap64_id by (unfold int64_ok, two63 in *; lia).
  exists c. split_and!; try done.
  - unfold bdat_content at 1. cbn. by rewrite Hc1, Hc0.
  - split; [|done]. unfold bdat_content at 1. cbn.
    rewrite wrap64_id by (unfold int64_ok, two63 in *; lia). rewrite Hc1, Hc0, slen_app. lia.
Qed.

Lemma ReadBDATChunk_accounting_witness :
  exists chunk,
    chunk_consumed 3 (bytes_of "abcNOOP") (bytes_of "NOOP") chunk /\
    "abc" = "" +:+ chunk /\
    bdat_wf (mkDataHandler (NewSessionState 0) (bytes_of "NOOP")
      (Some (mkMessageSpool "/q/spool" DefaultSpoolThreshold "abc" None 3 false)) 3 1 false false) /\
    3 <= 1000.
Proof.
  apply (ReadBDATChunk_accounting example_config example_env (example_handler (bytes_of "abcNOOP")) 3).
  - by split.
  - lia.
  - by vm_compute.
  - by vm_compute.
Defined.

(** ** Where the code departs from its comments *)

(** The overflow guard of ReadBDATChunk: [bdatBytesReceived + size] wraps to a
    negative number, passes the MaxSize test and [make] panics. *)
Lemma bdat_size_overflow_panics :
  let dh1 := snd (ReadBDATChunk example_config example_env 1 (example_handler (bytes_of "a"))) in
  dh_panicked (snd (ReadBDATChunk example_config example_env 9223372036854775807 dh1)) = true.
Proof. by vm_compute. Qed.

(** A chunk cut short by a deadline is refused without marking the connection out
    of sync: its remaining octets are next in the command reader. *)
Lemma bdat_short_read_not_marked :
  let dh := example_handler (bytes_of "ab" ++ [ETimeout] ++ bytes_of ("RSET" +:+ CRLF)) in
  let dh' := snd (ReadBDATChunk example_config example_env 8 dh) in
  dh_dataSyncLost dh' = false /\ dh_reader dh' = bytes_of ("RSET" +:+ CRLF).
Proof. by vm_compute. Qed.

(** The end-of-data marker counts towards MaxSize and is tested before it is
    recognised: a message that fits is refused and the drain goes on past its
    marker, swallowing the pipelined commands that follow. *)
Lemma marker_counts_and_is_drained_past :
  let cfg := mkConfig "mx" "/q" 4 [] [] false None None None None in
  let dh := example_handler (bytes_of ("ab" +:+ CRLF +:+ "." +:+ CRLF +:+ "NOOP" +:+ CRLF)) in
  let '(r, dh') := ReadData (U := ascii_tables) cfg example_env dh in
  r = Err "552 5.3.4 Message size exceeds maximum allowed" /\
  dh_reader dh' = [] /\ dh_dataSyncLost dh' = true.
Proof. by vm_compute. Qed.

(** After a read deadline inside a line the drain takes the rest of that line for
    the start of one: the tail "." of a content line ends the drain in sync. *)
Lemma drain_resumes_mid_line :
  let dh := example_handler (bytes_of "text" ++ [ETimeout] ++ bytes_of ("." +:+ CRLF +:+ "RSET" +:+ CRLF)) in
  let '(r, dh') := ReadData (U := ascii_tables) example_config example_env dh in
  is_ok r = false /\ dh_dataSyncLost dh' = false /\
  dh_reader dh' = bytes_of ("RSET" +:+ CRLF).
Proof. by vm_compute. Qed.

(** LastLineEndedWithCRLF describes the line just read, not the one before it, so
    the "not preceded by CRLF" refusal cannot happen on the line it looks at. *)
Lemma preceded_by_CRLF_guard_is_dead strict rs :
  LastLineEndedWithCRLF rs = (second_last_CR dot_crlf && ends_with_LF dot_crlf)%bool ->
  isValidEndOfData strict dot_crlf rs = (true, rs).
Proof.
  intros H. unfold isValidEndOfData. rewrite String.eqb_refl, H.
  change (second_last_CR dot_crlf && ends_with_LF dot_crlf)%bool with true. cbn.
  by rewrite andb_false_r.
Qed.
