(* ===== verification/Access.v ===== *)
(** * Who may connect, send and relay (internal/smtp/network.go, access_control.go)

    The relay list, the named network sets and the allow/deny lists.  The peer is
    the IP address of its connection ([None] when it has none). *)

From S2P Require Import Prelude GoStrings GoNet.

Open Scope string_scope.
Open Scope list_scope.
Open Scope Z_scope.

Section Access.
Context `{U : UnicodeTables}.

(** mustParseNetworks: the sets are compile-time constants that parse. *)
Definition mustParseNetworks (cidrs : list string) : list IPNet := omap ParseCIDR cidrs.

Definition private_set : list IPNet := mustParseNetworks
  ["10.0.0.0/8"; "172.16.0.0/12"; "192.168.0.0/16"; "100.64.0.0/10";
   "169.254.0.0/16"; "fc00::/7"; "fe80::/10"].
Definition loopback_set : list IPNet := mustParseNetworks ["127.0.0.0/8"; "::1/128"].

Definition relayNetworkSets (name : string) : option (list IPNet) :=
  if (name =? "private")%string then Some private_set
  else if (name =? "loopback")%string then Some loopback_set else None.

(** One entry of allowed_relays: a named set, a CIDR (a malformed one is
    skipped) or an address compared as text. *)
Definition relay_entry_allows (ip : IP) (relay : string) : bool :=
  match relayNetworkSets (ToLower (TrimSpace relay)) with
  | Some networks => existsb (fun n => net_Contains n ip) networks
  | None =>
      if exists_byte (Ascii.eqb "/"%char) relay then
        match ParseCIDR relay with
        | None => false
        | Some n => net_Contains n ip
        end
      else (relay =? IP_String ip)%string
  end.

Definition IsAllowedRelay (ip : option IP) (allowedRelays : list string) : bool :=
  match ip with
  | None => false
  | Some ip => (existsb (relay_entry_allows ip) allowedRelays || IsLoopback ip)%bool
  end.

(** PeerIsWithin, for a peer whose address parses. *)
Definition PeerIsWithin (ip : option IP) (networks : list IPNet) : bool :=
  match ip with
  | None => false
  | Some ip => existsb (fun n => net_Contains n ip) networks
  end.

Definition defaultTrustedNetworks : list IPNet :=
  mustParseNetworks ["127.0.0.0/8"; "::1/128"; "10.0.0.0/8"; "172.16.0.0/12"].

(** ParseTrustedNetworks: nil means the defaults, a bad entry is an error. *)
Definition ParseTrustedNetworks (cidrs : option (list string)) : result (list IPNet) :=
  match cidrs with
  | None => Ok defaultTrustedNetworks
  | Some l =>
      foldr (fun c (k : result (list IPNet)) =>
        match ParseCIDR (TrimSpace c) with
        | None => Err ("invalid CIDR notation " +:+ TrimSpace c)
        | Some n => r ← k; Ok (n :: r)
        end) (Ok []) l
  end.

(** ** Allow and deny lists *)

Record AccessDecision := mkDecision { Denied : bool; Reason : string; Rule : string }.
Definition no_decision : AccessDecision := mkDecision false "" "".

Record AccessControl := mkAccessControl {
  ac_enabled : bool;
  ac_allowNets : list IPNet;
  ac_denyNets : list IPNet;
  ac_allowDomains : gset string;
  ac_denyDomains : gset string
}.

Record AccessControlConfig := mkAccessControlConfig {
  acc_Enabled : bool;
  acc_AllowIPs : list string; acc_DenyIPs : list string;
  acc_AllowDomains : list string; acc_DenyDomains : list string
}.

Definition normalizeAccessDomain (d : string) : string := ToLower (Trim (TrimSpace d) ".").

Definition full_mask (ip : IP) : IPNet :=
  if bool_decide (is_Some (To4 ip))
  then mkIPNet ip (CIDRMask 32 4) else mkIPNet ip (CIDRMask 128 16).

Fixpoint parseAccessNetworks (entries : list string) : result (list IPNet) :=
  match entries with
  | [] => Ok []
  | raw :: rest =>
      let entry := TrimSpace raw in
      if ((entry =? "")%string || HasPrefix entry "#")%bool then parseAccessNetworks rest
      else match ParseCIDR entry with
           | Some n => r ← parseAccessNetworks rest; Ok (n :: r)
           | None =>
               match ParseIP entry with
               | None => Err (entry +:+ " is not an IP address or CIDR range")
               | Some ip => r ← parseAccessNetworks rest; Ok (full_mask ip :: r)
               end
           end
  end.

Definition normalized_domains (l : list string) : gset string :=
  list_to_set (filter (fun d => d <> "") (normalizeAccessDomain <$> l)).

Definition NewAccessControl (cfg : option AccessControlConfig) : result AccessControl :=
  match cfg with
  | None => Ok (mkAccessControl false [] [] ∅ ∅)
  | Some c =>
      if negb (acc_Enabled c) then Ok (mkAccessControl false [] [] ∅ ∅)
      else
        allow ← parseAccessNetworks (acc_AllowIPs c);
        deny ← parseAccessNetworks (acc_DenyIPs c);
        Ok (mkAccessControl true allow deny
              (normalized_domains (acc_AllowDomains c)) (normalized_domains (acc_DenyDomains c)))
  end.

Definition IPNet_String (n : IPNet) : string :=
  match networkNumberAndMask n with
  | None => "<nil>"
  | Some (nn, m) =>
      IP_String nn +:+ "/" +:+
      FormatInt (foldr (fun b acc => acc + 8 - Z.log2 (256 - b)) 0 m)
  end.

Definition matchNetwork (ip : IP) (networks : list IPNet) : string :=
  match filter (fun n => net_Contains n ip = true) networks with
  | [] => ""
  | n :: _ => IPNet_String n
  end.

Definition CheckPeer (ac : AccessControl) (peer : option IP) : AccessDecision :=
  if negb (ac_enabled ac) then no_decision
  else match peer with
       | None => no_decision
       | Some ip =>
           if negb (matchNetwork ip (ac_allowNets ac) =? "")%string
           then mkDecision false "" ("allow_ips " +:+ matchNetwork ip (ac_allowNets ac))
           else if negb (matchNetwork ip (ac_denyNets ac) =? "")%string
           then mkDecision true "connection refused by policy"
                  ("deny_ips " +:+ matchNetwork ip (ac_denyNets ac))
           else no_decision
       end.

Definition senderDomain (sender : string) : string :=
  let s := TrimSuffix (TrimPrefix (TrimSpace sender) "<") ">" in
  match LastIndexByte s "@"%char with
  | None => ""
  | Some at_ => if (at_ =? String.length s - 1)%nat then ""
                else normalizeAccessDomain (sdrop (S at_) s)
  end.

(** The loop of domainAndParents over what follows each dot. *)
Fixpoint parent_domains (s : string) : list string :=
  match s with
  | EmptyString => []
  | String c s' =>
      if Ascii.eqb c "."%char then
        if exists_byte (Ascii.eqb "."%char) s' then s' :: parent_domains s' else []
      else parent_domains s'
  end.
Definition domainAndParents (domain : string) : list string := domain :: parent_domains domain.

Definition first_listed (domains : gset string) (candidates : list string) : option string :=
  head (filter (fun c => c ∈ domains) candidates).

Definition CheckSender (ac : AccessControl) (sender : string) : AccessDecision :=
  if negb (ac_enabled ac) then no_decision
  else
    let domain := senderDomain sender in
    if (domain =? "")%string then no_decision
    else match first_listed (ac_allowDomains ac) (domainAndParents domain) with
         | Some c => mkDecision false "" ("allow_domains " +:+ c)
         | None =>
             match first_listed (ac_denyDomains ac) (domainAndParents domain) with
             | Some c => mkDecision true "sender domain refused by policy" ("deny_domains " +:+ c)
             | None => no_decision
             end
         end.

(** ** Lemmas *)

(** The candidates are the domain and its parents of at least two labels. *)
Lemma parent_domains_spec d x :
  x ∈ parent_domains d <->
  exists_byte (Ascii.eqb "."%char) x = true /\ exists p, d = p +:+ String "." x.
Proof.
  induction d as [|c d IH]; cbn.
  { split; [by intros ?%not_elem_of_nil|]. by intros (_ & [|] & ?). }
  destruct (Ascii.eqb_spec c "."%char) as [->|Hc].
  - destruct (exists_byte _ d) eqn:Ed.
    + rewrite elem_of_cons, IH. split.
      * intros [->|(Hx & p & ->)]; [split; [done|by exists ""]|].
        split; [done|]. by exists (String "." p).
      * intros (Hx & p & E). destruct p as [|a p]; [left; by injection E|].
        right. split; [done|]. exists p. by injection E.
    + split; [by intros ?%not_elem_of_nil|]. intros (Hx & p & E). exfalso.
      destruct p as [|a p]; [injection E as ->; congruence|].
      rewrite app_cons in E. injection E as _ ->.
      assert (Hd : exists_byte (Ascii.eqb "."%char) (p +:+ String "." x) = true); [|congruence].
      clear. induction p as [|b p IHp]; [done|]. rewrite app_cons. cbn.
      by rewrite IHp, orb_true_r.
  - rewrite IH. split; intros (Hx & p & E); (split; [done|]).
    + exists (String c p). by rewrite E.
    + destruct p as [|a p]; [by injection E as -> _|]. exists p. by injection E.
Qed.

Lemma first_listed_none D l : first_listed D l = None <-> Forall (fun c => c ∉ D) l.
Proof.
  unfold first_listed. induction l as [|c l IH]; [by split; [constructor|]|].
  rewrite filter_cons, Forall_cons. destruct (decide (c ∈ D)); [|rewrite <- IH; tauto].
  split; [done|tauto].
Qed.
End Access.

(** Denied domains cover their subdomains, allowed ones win.  A sender is
    refused exactly when its domain or a parent of at least two labels is on the
    deny list and none of them is on the allow list; the null sender never is. *)
Theorem CheckSender_denied `{U : UnicodeTables} (ac : AccessControl) (sender : string)
    (Henabled : ac_enabled ac = true) :
  let covers D := exists x, x ∈ D /\
    (x = senderDomain sender \/
     (exists_byte (Ascii.eqb "."%char) x = true /\
      exists p, senderDomain sender = p +:+ String "." x)) in
  Denied (CheckSender ac sender) = true <->
  senderDomain sender <> "" /\ covers (ac_denyDomains ac) /\ ~ covers (ac_allowDomains ac).
Proof.
  intros covers. unfold CheckSender. rewrite Henabled. cbn [negb].
  destruct (String.eqb_spec (senderDomain sender) "") as [Hs|Hs]; [by split; [|intros [? _]]|].
  assert (Hcov : forall D, covers D <-> first_listed D (domainAndParents (senderDomain sender)) <> None).
  { intros D. rewrite first_listed_none, Forall_forall. unfold domainAndParents. split.
    - intros (x & HD & Hx) Hall. apply (Hall x); [|done]. rewrite elem_of_cons, parent_domains_spec. done.
    - intros Hn. rewrite <- Forall_forall in Hn. apply not_Forall_Exists, Exists_exists in Hn as (x & Hx & HD);
        [|intros ?; apply _]. exists x. rewrite elem_of_cons, parent_domains_spec in Hx.
      split; [by destruct (decide (x ∈ D))|done]. }
  rewrite !Hcov.
  destruct (first_listed (ac_allowDomains ac) _); cbn; [split; [done|intros (_ & _ & H); by destruct H]|].
  destruct (first_listed (ac_denyDomains ac) _); cbn.
  - split; [intros _; split_and!; [done|congruence|tauto]|done].
  - split; [done|intros (_ & H & _); by destruct H].
Qed.

Lemma CheckSender_denied_witness :
  let ac := mkAccessControl true [] [] {["good.spam.example"]} {["spam.example"]} in
  Denied (CheckSender (U := ascii_tables) ac "x@mail.spam.example") = true /\
  Denied (CheckSender (U := ascii_tables) ac "x@a.good.spam.example") = false.
Proof.
  split; [|reflexivity].
  apply (CheckSender_denied (U := ascii_tables)
    (mkAccessControl true [] [] {["good.spam.example"]} {["spam.example"]}) "x@mail.spam.example");
    [reflexivity|].
  change (senderDomain (U := ascii_tables) "x@mail.spam.example") with "mail.spam.example".
  split_and!; [done| |].
  - exists "spam.example". split; [set_solver|right]. split; [done|by exists "mail"].
  - intros (x & Hx & [->|[_ (p & E)]]); cbn in Hx; apply elem_of_singleton in Hx; [done|subst].
    apply (f_equal String.length) in E. rewrite string_length_app in E. cbn in E. lia.
Defined.

(** ** CIDR entries *)

Lemma mask_bytes_masked nn : forall m ip,
  length nn = length m -> masked_equal (mask_bytes nn m) m ip = masked_equal nn m ip.
Proof.
  induction nn as [|a nn IH]; intros [|k m] [|b ip] H; try done. cbn. f_equal.
  - by rewrite <- Z.land_assoc, Z.land_diag.
  - apply IH. by injection H.
Qed.

Lemma CIDRMask_length n b : length (CIDRMask n b) = b.
Proof. revert n. induction b as [|b IH]; intros n; cbn; [done|]. case_match; cbn; by rewrite IH. Qed.

Lemma mask_bytes_length nn m : length nn = length m -> length (mask_bytes nn m) = length nn.
Proof. intros. unfold mask_bytes. rewrite length_zip_with. lia. Qed.

(** Relay networks.  An allowed_relays entry that parses as an IPv4 network
    of [n] bits admits an IPv4 client exactly when the leading [n] bits of the two
    addresses agree; otherwise only the remaining entries and loopback decide. *)
Theorem IsAllowedRelay_cidr `{U : UnicodeTables} (relay : string) (relays : list string)
    (q b : list Z) (n : nat)
    (Hset : relayNetworkSets (ToLower (TrimSpace relay)) = None)
    (Hslash : exists_byte (Ascii.eqb "/"%char) relay = true)
    (Hparse : ParseCIDR relay = Some (mkIPNet (mask_bytes q (CIDRMask n 4)) (CIDRMask n 4)))
    (Hn : (n <= 32)%nat) (Hq : length q = 4%nat) (Hb : length b = 4%nat)
    (Hqb : Forall byte_ok q) (Hbb : Forall byte_ok b) :
  IsAllowedRelay (Some (v4_in_v6_prefix ++ b)) (relay :: relays) = true <->
  be_value q / 2 ^ (32 - Z.of_nat n) = be_value b / 2 ^ (32 - Z.of_nat n) \/
  IsAllowedRelay (Some (v4_in_v6_prefix ++ b)) relays = true.
Proof.
  assert (relay_entry_allows (v4_in_v6_prefix ++ b) relay = masked_equal q (CIDRMask n 4) b) as E.
  { unfold relay_entry_allows. rewrite Hset, Hslash, Hparse.
    unfold net_Contains, networkNumberAndMask, to4.
    rewrite mask_bytes_length, CIDRMask_length, Hq by (by rewrite CIDRMask_length).
    change ((4 =? 4)%nat) with true. rewrite bool_decide_true by eauto. cbn [negb andb].
    rewrite mask_bytes_length, Hq by (by rewrite CIDRMask_length).
    change ((4 =? 4)%nat) with true. cbn iota.
    rewrite mask_bytes_length, Hq by (by rewrite CIDRMask_length).
    change (length (v4_in_v6_prefix ++ b)) with (12 + length b)%nat. rewrite Hb.
    change ((12 + 4 =? 4)%nat) with false. cbn iota. unfold To4.
    rewrite take_app_length' by done. rewrite bool_decide_true by done.
    rewrite drop_app_length' by done. rewrite Hb. change ((4 =? 4)%nat) with true. cbn [negb].
    apply mask_bytes_masked. by rewrite CIDRMask_length. }
  cbn [IsAllowedRelay existsb]. rewrite E, <- orb_assoc, orb_true_iff.
  pose proof (masked_equal_prefix q b n ltac:(congruence) ltac:(lia) Hqb Hbb) as Hm.
  rewrite Hq in Hm. change (8 * Z.of_nat 4) with 32 in Hm. rewrite Hm. done.
Qed.

Lemma IsAllowedRelay_cidr_witness :
  IsAllowedRelay (U := ascii_tables) (Some (v4_in_v6_prefix ++ [198; 51; 100; 77]))
    ["198.51.100.64/26"; "private"] = true <->
  be_value [198; 51; 100; 64] / 2 ^ (32 - Z.of_nat 26)
    = be_value [198; 51; 100; 77] / 2 ^ (32 - Z.of_nat 26) \/
  IsAllowedRelay (U := ascii_tables) (Some (v4_in_v6_prefix ++ [198; 51; 100; 77])) ["private"] = true.
Proof.
  apply (IsAllowedRelay_cidr (U := ascii_tables) "198.51.100.64/26" ["private"]
           [198; 51; 100; 64] [198; 51; 100; 77] 26); try reflexivity; [lia|..];
    repeat constructor; lia.
Defined.
