(* ===== verification/CommandSecurity.v ===== *)
(** * Command screening (internal/smtp/command_security.go)

    The checks every command line passes before it is parsed again and handled.
    The regular expressions of the source are written out as matchers; they only
    ever see text whose bytes the earlier steps have restricted to ASCII, so case
    folding is ASCII folding.  The memory check is a boolean of the environment. *)

From S2P Require Import Prelude GoStrings GoNet SmtpState SmtpSyntax.

Open Scope string_scope.
Open Scope list_scope.
Open Scope Z_scope.

(** ** [utf8.ValidString] *)

Definition cont_byte (c : ascii) : bool := in_range 128 191 c.

(** Bytes of the encoded character [s] starts with, 0 when it is not valid. *)
Definition utf8_len (s : string) : nat :=
  match s with
  | EmptyString => 0
  | String c s1 =>
      if b2z c <? 128 then 1%nat
      else match s1 with
           | EmptyString => 0%nat
           | String c1 s2 =>
               if in_range 194 223 c then (if cont_byte c1 then 2%nat else 0%nat)
               else match s2 with
                    | EmptyString => 0%nat
                    | String c2 s3 =>
                        if in_range 224 239 c then
                          let lo := if b2z c =? 224 then 160 else 128 in
                          let hi := if b2z c =? 237 then 159 else 191 in
                          if (in_range lo hi c1 && cont_byte c2)%bool then 3%nat else 0%nat
                        else match s3 with
                             | EmptyString => 0%nat
                             | String c3 _ =>
                                 if in_range 240 244 c then
                                   let lo := if b2z c =? 240 then 144 else 128 in
                                   let hi := if b2z c =? 244 then 143 else 191 in
                                   if (in_range lo hi c1 && cont_byte c2 && cont_byte c3)%bool
                                   then 4%nat else 0%nat
                                 else 0%nat
                             end
                    end
           end
  end.

(** [k] bytes of the current character are still to be skipped. *)
Fixpoint valid_utf8_aux (k : nat) (s : string) : bool :=
  match s with
  | EmptyString => true
  | String _ s' =>
      match k with
      | S k' => valid_utf8_aux k' s'
      | O => match utf8_len s with O => false | S k' => valid_utf8_aux k' s' end
      end
  end.
Definition ValidString (s : string) : bool := valid_utf8_aux 0 s.

(** ** Character classes *)

(** [\s] of RE2. *)
Definition re_space (c : ascii) : bool :=
  (Ascii.eqb c TAB || Ascii.eqb c LF || is_byte 12 c || Ascii.eqb c CR || Ascii.eqb c SP)%bool.

Definition allowed_command_byte (c : ascii) : bool :=
  (is_alnum c || byte_in "-_" c)%bool.

Definition allowed_parameter_byte (c : ascii) : bool :=
  (is_alnum c || byte_in "-_@.:<>=[]!#$%&'*+/?^`{|}~" c || re_space c)%bool.

Definition bad_control (c : ascii) : bool :=
  ((b2z c <? 32) && negb (Ascii.eqb c TAB) && negb (Ascii.eqb c LF) && negb (Ascii.eqb c CR))%bool.

(** ReplaceAllString(`\s+`, " "). *)
Fixpoint collapse (in_space : bool) (s : string) : string :=
  match s with
  | EmptyString => EmptyString
  | String c s' =>
      if re_space c then if in_space then collapse true s' else String SP (collapse true s')
      else String c (collapse false s')
  end.

(** [(?i)word] anywhere, for a lower-case ASCII word. *)
Definition contains_word (s word : string) : bool := Contains (map_bytes byte_lower s) word.

Definition sql_words : list string :=
  ["union"; "select"; "insert"; "update"; "delete"; "drop"; "create"; "alter"; "exec"; "execute"].
Definition script_words : list string := ["script"; "javascript"; "vbscript"; "onload"; "onerror"].

Definition blocked_command (s : string) : bool :=
  (existsb (contains_word s) sql_words
   || ContainsAny s ";&|`$"
   || existsb (contains_word s) script_words
   || Contains s "../" || Contains s "..\"
   || exists_byte (fun c => bad_control c || is_byte 127 c)%bool s)%bool.

Definition blocked_parameter (s : string) : bool :=
  (blocked_command s || exists_byte (fun c => Ascii.eqb c CR || Ascii.eqb c LF)%bool s)%bool.

(** ** Checks *)

Definition email_local_byte (c : ascii) : bool :=
  (is_alnum c || byte_in "._%+=/'!#*?^{}~-" c)%bool.

Definition tld_ok (l : string) : bool := ((2 <=? slen l) && forall_bytes is_alpha l)%bool.

Definition email_domain_ok (domain : string) : bool :=
  ((domain =? "localhost")%string
   || let labels := Split domain "."%char in
      ((2 <=? length labels)%nat
       && forallb label_ok (removelast labels)
       && match last labels with Some l => tld_ok l | None => false end))%bool.

(** The address regexp: a non-empty local part, the first at-sign, a domain with a
    top-level label, or localhost. *)
Definition email_regex (addr : string) : bool :=
  let '(local, domain, found) := Cut addr "@"%char in
  (found && negb (local =? "")%string && forall_bytes email_local_byte local
   && email_domain_ok domain)%bool.

Definition csm_validateEmailAddress (addr : string) : result unit :=
  if (addr =? "")%string then Ok tt
  else if 320 <? slen addr then Err "501 5.1.3 Address too long"
  else if (negb (exists_byte (Ascii.eqb "@"%char) addr) || (slen addr <? 3))%bool
  then Err "501 5.1.3 Invalid email address format"
  else if Contains addr "../" then Err "501 5.1.3 Invalid email address format"
  else if negb (email_regex addr) then Err "501 5.1.3 Invalid email address format"
  else Ok tt.

Definition validateHostnameParameter (hostname : string) : result unit :=
  if (hostname =? "")%string then Err "501 5.0.0 Hostname required"
  else if 255 <? slen hostname then Err "501 5.0.0 Hostname too long"
  else if ((2 <? slen hostname) && bool_decide (first_byte hostname = Some "["%char)
           && bool_decide (last_byte hostname = Some "]"%char))%bool then Ok tt
  else if negb (forallb label_ok (Split hostname "."%char))
  then Err "501 5.0.0 Invalid hostname format" else Ok tt.

Definition validateBounds (s : string) : result unit :=
  if 1024 * 1024 <? slen s then Err "500 5.5.2 String too large" else Ok tt.

Section Checks.
Context `{U : UnicodeTables}.

Definition canonicalizeCommand (line : string) : result string :=
  let canonical := TrimSpace (collapse false (TrimSpace line)) in
  if (canonical =? "")%string then Err "500 5.5.2 Empty command" else Ok canonical.

Definition csm_parseCommand (line : string) : string * string :=
  let '(cmd, rest, found) := Cut line SP in
  if found then (ToUpper cmd, TrimSpace rest) else (ToUpper line, "").

Definition validateCommandStructure (cmd args : string) : result unit :=
  if (cmd =? "")%string then Err "500 5.5.2 Invalid command structure"
  else if negb (forall_bytes allowed_command_byte cmd) then Err "500 5.5.2 Invalid command name"
  else if 320 <? slen args then Err "500 5.5.2 Parameters too long"
  else Ok tt.

Definition validCommands : list string :=
  ["HELO"; "EHLO"; "MAIL"; "RCPT"; "DATA"; "BDAT"; "RSET"; "NOOP"; "QUIT"; "AUTH"; "STARTTLS";
   "HELP"; "VRFY"; "EXPN"; "XDEBUG"].

Definition validateCommandName (cmd : string) : result unit :=
  if bool_decide (cmd ∈ validCommands) then Ok tt else Err "502 5.5.1 Command not recognized".

Definition validateMailFromParameter (args : string) : result unit :=
  _ ← validateBounds args;
  if negb (HasPrefix (ToUpper args) "FROM:") then Err "501 5.5.4 Syntax: MAIL FROM:<address>"
  else
    let addr := TrimSpace (sdrop 5 args) in
    if (addr =? "")%string then Err "501 5.5.4 Syntax: MAIL FROM:<address>"
    else
      let addrPart := match IndexByte addr ">"%char with
                      | Some (S i) => stake (S (S i)) addr
                      | _ => addr
                      end in
      csm_validateEmailAddress (TrimSpace (Trim addrPart "<>")).

Definition validateRcptToParameter (args : string) : result unit :=
  _ ← validateBounds args;
  if negb (HasPrefix (ToUpper args) "TO:") then Err "501 5.5.4 Syntax: RCPT TO:<address>"
  else
    let addr := TrimSpace (sdrop 3 args) in
    if (addr =? "")%string then Err "501 5.5.4 Syntax: RCPT TO:<address>"
    else
      let addr := if ((2 <=? slen addr) && HasPrefix addr "<" && HasSuffix addr ">")%bool
                  then stake (String.length addr - 2) (sdrop 1 addr) else addr in
      csm_validateEmailAddress addr.

Definition validateAuthParameter (args : string) : result unit :=
  match Fields args with
  | [] => Err "501 5.5.4 Syntax: AUTH <mechanism>"
  | m :: _ => if bool_decide (ToUpper m ∈ ["PLAIN"; "LOGIN"]) then Ok tt
              else Err "504 5.7.4 Unrecognized authentication type"
  end.

Definition validateCommandParameters (cmd args : string) : result unit :=
  if (args =? "")%string then Ok tt
  else if negb (forall_bytes allowed_parameter_byte args)
  then Err "500 5.5.2 Invalid parameter characters"
  else if bool_decide (cmd ∈ ["HELO"; "EHLO"]) then validateHostnameParameter args
  else if (cmd =? "MAIL")%string then validateMailFromParameter args
  else if (cmd =? "RCPT")%string then validateRcptToParameter args
  else if (cmd =? "AUTH")%string then validateAuthParameter args
  else if bool_decide (cmd ∈ ["VRFY"; "EXPN"]) then csm_validateEmailAddress args
  else Ok tt.

Definition checkBlockedPatterns (cmd args : string) : result unit :=
  if blocked_command cmd then Err "554 5.7.1 Command rejected: security violation"
  else if (negb (args =? "")%string && blocked_parameter args)%bool
  then Err "554 5.7.1 Parameters rejected: security violation"
  else Ok tt.

Definition ValidateCommand (memory_ok : bool) (line : string) : result unit :=
  if 512 <? slen line then Err "500 5.5.2 Line too long"
  else if negb (ValidString line) then Err "500 5.5.2 Invalid character encoding"
  else if exists_byte (fun c => bad_control c || is_byte 127 c)%bool line
  then Err "500 5.5.2 Invalid control character"
  else
    canonicalLine ← canonicalizeCommand line;
    let '(cmd, args) := csm_parseCommand canonicalLine in
    _ ← validateCommandStructure cmd args;
    _ ← validateCommandName cmd;
    args ← (if (cmd =? "RCPT")%string
            then parsed ← parseRCPTEnvelope args; Ok ("TO:<" +:+ rt_addr parsed +:+ ">")
            else Ok args);
    _ ← validateCommandParameters cmd args;
    _ ← (if (negb (cmd =? "MAIL") && negb (cmd =? "RCPT"))%string%bool
         then checkBlockedPatterns cmd args else Ok tt);
    if negb memory_ok then Err "452 4.3.1 Insufficient system storage, try again later"
    else Ok tt.

Definition redactCommand (line : string) : string :=
  match Fields line with
  | f0 :: f1 :: _ :: _ =>
      if EqualFold f0 "AUTH" then f0 +:+ " " +:+ f1 +:+ " [redacted]" else line
  | _ => line
  end.
End Checks.

Example validate_mail :
  ValidateCommand (U := ascii_tables) true ("MAIL FROM:<updates@example.com> SIZE=10" +:+ String CR (String LF "")) = Ok tt.
Proof. vm_compute. reflexivity. Qed.
Example validate_bad_address :
  is_ok (ValidateCommand (U := ascii_tables) true "MAIL FROM:<a$b@example.com>") = false.
Proof. vm_compute. reflexivity. Qed.
