(* ===== verification/Srs.v ===== *)
(** * Sender rewriting (internal/srs/srs.go)

    Forward and Reverse of the SRS scheme.  HMAC-SHA256 and base32 are library
    code: the class [Mac] is their composition, keyed by a secret, applied to the
    exact bytes the source writes to the hash, and [MacLaws] what the alphabet and
    the truncation to six characters guarantee about the result. *)

From S2P Require Import Prelude GoStrings.

Open Scope string_scope.
Open Scope list_scope.
Open Scope Z_scope.

Class Mac := mac : string -> string -> string.

Definition alphabet : string := "abcdefghijklmnopqrstuvwxyz234567".
Definition in_alphabet (c : ascii) : bool := byte_in alphabet c.

Class MacLaws `{M : Mac} := {
  mac_alphabet : forall k m, forall_bytes in_alphabet (mac k m) = true;
  mac_length : forall k m, String.length (mac k m) = 6%nat
}.

(** A concrete instance, to run the model: the first six letters of the key,
    padded.  It satisfies the laws (and is of course no message authentication). *)
Definition toy_mac : Mac := fun k m =>
  stake 6 (map_bytes (fun c => if in_alphabet c then c else "x"%char) k +:+ "aaaaaa").

(** [strings.SplitN(s, c, n)]: at most [n] pieces, the last one unsplit. *)
Fixpoint SplitN (n : nat) (s : string) (c : ascii) : list string :=
  match n with
  | O => []
  | S O => [s]
  | S n' => let '(x, y, found) := Cut s c in if found then x :: SplitN n' y c else [s]
  end.

Section Srs.
Context `{U : UnicodeTables} `{M : Mac}.

Definition maxLocal : Z := 64.
Definition timestampRange : Z := 1024.
Definition MaxAge_days : Z := 21.
Definition NUL : string := String (chr 0) "".

(** cut: at the last at-sign, both sides non-empty. *)
Definition cut (address : string) : option (string * string) :=
  match LastIndexByte address "@"%char with
  | None | Some O => None
  | Some at_ => if (at_ =? String.length address - 1)%nat then None
                else Some (stake at_ address, sdrop (S at_) address)
  end.

Definition srs_prefix (local : string) : string := ToUpper (stake 5 local).

Definition Is (address : string) : bool :=
  match cut address with
  | None => false
  | Some (local, _) =>
      if slen local <? 5 then false
      else (String.eqb (srs_prefix local) "SRS0=" || String.eqb (srs_prefix local) "SRS1=")%bool
  end.

(** sign: every part, lower-cased, followed by a zero byte. *)
Definition sign (secret : string) (parts : list string) : string :=
  mac secret (concat_strings ((fun p => ToLower p +:+ NUL) <$> parts)).

Record Rewriter := mkRewriter { secrets : list string }.

(** New: blank secrets are dropped; none left turns SRS off. *)
Definition New (l : list string) : option Rewriter :=
  match filter (fun s => s <> "") (TrimSpace <$> l) with
  | [] => None
  | l' => Some (mkRewriter l')
  end.

Definition hash (r : Rewriter) (parts : list string) : string :=
  sign (default "" (head (secrets r))) parts.

Definition check (r : Rewriter) (got : string) (parts : list string) : bool :=
  existsb (fun secret => (ToLower got =? sign secret parts)%string) (secrets r).

Definition days (now : Z) : Z := now / 86400 mod timestampRange.

Definition alphabet_at (i : Z) : ascii :=
  default "a"%char (String.get (Z.to_nat i) alphabet).

Definition timestamp (now : Z) : string :=
  String (alphabet_at (Z.shiftr (days now) 5))
    (String (alphabet_at (Z.land (days now) 31)) "").

Definition current (stamp : string) (now : Z) : bool :=
  match ToLower stamp with
  | String h (String l EmptyString) =>
      if (negb (String.length stamp =? 2)%nat) then false
      else match IndexByte alphabet h, IndexByte alphabet l with
      | Some high, Some low =>
          let age := (days now - Z.lor (Z.shiftl (Z.of_nat high) 5) (Z.of_nat low)
                      + timestampRange) mod timestampRange in
          age <=? MaxAge_days
      | _, _ => false
      end
  | _ => false
  end.

Definition Forward (now : Z) (r : Rewriter) (sender domain : string) : result string :=
  match cut sender with
  | None => Err "srs: address has no domain"
  | Some (local, senderDomain) =>
      if (domain =? "")%string then Err "srs: address has no domain"
      else if EqualFold senderDomain domain then Ok sender
      else
        rewritten ←
          (if (srs_prefix local =? "SRS0=")%string then
             let rest := sdrop 4 local in
             Ok ("SRS1=" +:+ hash r [senderDomain; rest] +:+ "=" +:+ senderDomain +:+ "=" +:+ rest)
           else if (srs_prefix local =? "SRS1=")%string then
             match SplitN 4 local "="%char with
             | [_; _; f2; f3] => Ok ("SRS1=" +:+ hash r [f2; f3] +:+ "=" +:+ f2 +:+ "=" +:+ f3)
             | _ => Err "srs: not an SRS address"
             end
           else
             let stamp := timestamp now in
             Ok ("SRS0=" +:+ hash r [stamp; senderDomain; local] +:+ "=" +:+ stamp +:+ "="
                 +:+ senderDomain +:+ "=" +:+ local));
        if maxLocal <? slen rewritten then Err "srs: rewritten address would be too long"
        else Ok (rewritten +:+ "@" +:+ domain)
  end.

Definition Reverse (now : Z) (r : Rewriter) (address : string) : result string :=
  match cut address with
  | None => Err "srs: not an SRS address"
  | Some (local, _) =>
      if negb (Is address) then Err "srs: not an SRS address"
      else if EqualFold (stake 5 local) "SRS1=" then
        match SplitN 4 local "="%char with
        | [_; f1; f2; f3] =>
            if negb (check r f1 [f2; f3]) then Err "srs: invalid hash"
            else Ok ("SRS0" +:+ f3 +:+ "@" +:+ f2)
        | _ => Err "srs: invalid hash"
        end
      else
        match SplitN 5 local "="%char with
        | [_; f1; f2; f3; f4] =>
            if ((f4 =? "")%string || (f3 =? "")%string)%bool then Err "srs: not an SRS address"
            else if negb (check r f1 [f2; f3; f4]) then Err "srs: invalid hash"
            else if negb (current f2 now) then Err "srs: expired"
            else Ok (f4 +:+ "@" +:+ f3)
        | _ => Err "srs: not an SRS address"
        end
  end.
End Srs.

Example srs_roundtrip_example :
  (a ← Forward (U := ascii_tables) (M := toy_mac) 1700000000 (mkRewriter ["k"]) "alice@example.org" "fwd.example";
   Reverse (U := ascii_tables) (M := toy_mac) 1700900000 (mkRewriter ["j"; "k"]) a) = Ok "alice@example.org".
Proof. vm_compute. reflexivity. Qed.

(** ** Lemmas *)

Definition lacks (c : ascii) (s : string) : bool := forall_bytes (fun x => negb (Ascii.eqb x c)) s.

Lemma Cut_app x c y : lacks c x = true -> Cut (x +:+ String c y) c = (x, y, true).
Proof.
  induction x as [|b x IH]; intros H.
  - change ("" +:+ String c y) with (String c y). cbn. by rewrite Ascii.eqb_refl.
  - unfold lacks in H. cbn in H. bool_facts. rewrite app_cons. cbn.
    match goal with H : Ascii.eqb _ _ = false |- _ => rewrite H end. by rewrite IH.
Qed.

Lemma LastIndexByte_app x c d :
  lacks c d = true -> LastIndexByte (x +:+ String c d) c = Some (String.length x).
Proof.
  intros Hd. induction x as [|b x IH].
  - change ("" +:+ String c d) with (String c d). cbn.
    replace (LastIndexByte d c) with (@None nat); [by rewrite Ascii.eqb_refl|].
    induction d as [|b d IH]; [done|]. unfold lacks in Hd. cbn in Hd |- *. bool_facts.
    rewrite <- IH by done. by match goal with H : Ascii.eqb _ _ = false |- _ => rewrite H end.
  - rewrite app_cons. cbn. by rewrite IH.
Qed.

Lemma sdrop_succ_app x c y : sdrop (S (String.length x)) (x +:+ String c y) = y.
Proof.
  induction x as [|b x IH]; [done|]. rewrite app_cons. exact IH.
Qed.

Lemma cut_app x d : x <> "" -> d <> "" -> lacks "@" d = true -> cut (x +:+ String "@" d) = Some (x, d).
Proof.
  intros Hx Hd H. unfold cut. rewrite LastIndexByte_app by done.
  destruct x as [|b x]; [done|]. cbn [String.length].
  rewrite string_length_app. cbn [String.length].
  destruct d as [|e d]; [done|]. cbn [String.length].
  destruct (Nat.eqb_spec (S (String.length x)) (S (String.length x) + S (S (String.length d)) - 1)); [lia|].
  change (S (String.length x)) with (String.length (String b x)).
  by rewrite stake_app, sdrop_succ_app.
Qed.

(** What Cut found at the last at-sign puts the address back together. *)
Lemma LastIndexByte_spec s c k :
  LastIndexByte s c = Some k -> s = stake k s +:+ String c (sdrop (S k) s) /\ lacks c (sdrop (S k) s) = true.
Proof.
  revert k. induction s as [|b s IH]; cbn; intros k H; [done|].
  destruct (LastIndexByte s c) as [i|] eqn:E.
  - injection H as <-. destruct (IH i eq_refl) as [Hs Hl]. split; [|done].
    cbn [stake]. rewrite app_cons. by rewrite Hs at 1.
  - destruct (Ascii.eqb_spec b c) as [->|Hb]; [|done]. injection H as <-. split; [done|].
    clear IH. cbn. induction s as [|d s IH]; [done|]. cbn in E |- *.
    destruct (LastIndexByte s c); [done|]. destruct (Ascii.eqb d c) eqn:Ed; [done|].
    by apply IH.
Qed.

Lemma cut_spec a x d :
  cut a = Some (x, d) -> a = x +:+ String "@" d /\ x <> "" /\ d <> "" /\ lacks "@" d = true.
Proof.
  unfold cut. destruct (LastIndexByte a "@") as [j|] eqn:E; [|done].
  destruct (LastIndexByte_spec _ _ _ E) as [Ha Hl].
  destruct j as [|k]; [done|]. destruct (_ =? _)%nat eqn:Ek; [done|]. apply Nat.eqb_neq in Ek.
  intros H. assert (x = stake (S k) a /\ d = sdrop (S (S k)) a) as [-> ->] by (split; congruence).
  split_and!; try done; [by destruct a|].
  intros Hd. rewrite Hd in Ha. apply (f_equal String.length) in Ha.
  rewrite string_length_app, stake_length in Ha. cbn [String.length] in Ha. lia.
Qed.

Lemma lower_alphabet c : in_alphabet c = true -> is_ascii_byte c = true /\ byte_lower c = c /\ Ascii.eqb c "=" = false.
Proof.
  assert (forallb (fun n => let c := ascii_of_nat n in
    implb (in_alphabet c) (is_ascii_byte c && Ascii.eqb (byte_lower c) c && negb (Ascii.eqb c "=")))%bool
    (seq 0 256) = true) as Hall by (vm_compute; reflexivity).
  rewrite forallb_forall in Hall. specialize (Hall (nat_of_ascii c)).
  rewrite ascii_nat_embedding in Hall. cbv zeta in Hall. intros Hc. rewrite Hc in Hall.
  cbn [implb] in Hall.
  assert (In (nat_of_ascii c) (seq 0 256)) as Hin by (apply in_seq; pose proof (nat_ascii_bounded c); lia).
  specialize (Hall Hin). bool_facts. split_and!; try done. by apply Ascii.eqb_eq.
Qed.

Lemma alphabet_string s :
  forall_bytes in_alphabet s = true -> is_ascii s = true /\ map_bytes byte_lower s = s /\ lacks "=" s = true.
Proof.
  unfold is_ascii, lacks. induction s as [|c s IH]; [done|]. cbn. intros Hs. bool_facts.
  destruct (lower_alphabet c) as (-> & -> & ->); [done|]. destruct IH as (-> & -> & ->); done.
Qed.

Section Laws.
Context `{U : UnicodeTables} `{M : Mac} {ML : MacLaws (M := M)}.

Lemma ToLower_alphabet s : forall_bytes in_alphabet s = true -> ToLower s = s.
Proof. intros H. unfold ToLower. by destruct (alphabet_string s H) as (-> & -> & _). Qed.

Lemma days_range now : 0 <= days now < 1024.
Proof. unfold days, timestampRange. apply Z.mod_pos_bound. lia. Qed.

(** Decoding a timestamp gives the day number back. *)
Definition stamp_of (d : Z) : string :=
  String (alphabet_at (Z.shiftr d 5)) (String (alphabet_at (Z.land d 31)) "").

Lemma stamp_decodes d : 0 <= d < 1024 ->
  forall_bytes in_alphabet (stamp_of d) = true /\
  IndexByte alphabet (alphabet_at (Z.shiftr d 5)) = Some (Z.to_nat (Z.shiftr d 5)) /\
  IndexByte alphabet (alphabet_at (Z.land d 31)) = Some (Z.to_nat (Z.land d 31)) /\
  Z.lor (Z.shiftl (Z.of_nat (Z.to_nat (Z.shiftr d 5))) 5) (Z.of_nat (Z.to_nat (Z.land d 31))) = d.
Proof.
  intros Hd.
  assert (forallb (fun n => let d := Z.of_nat n in
    forall_bytes in_alphabet (stamp_of d)
    && bool_decide (IndexByte alphabet (alphabet_at (Z.shiftr d 5)) = Some (Z.to_nat (Z.shiftr d 5)))
    && bool_decide (IndexByte alphabet (alphabet_at (Z.land d 31)) = Some (Z.to_nat (Z.land d 31)))
    && (Z.lor (Z.shiftl (Z.of_nat (Z.to_nat (Z.shiftr d 5))) 5) (Z.of_nat (Z.to_nat (Z.land d 31))) =? d))%bool
    (seq 0 1024) = true) as H by (vm_compute; reflexivity).
  rewrite forallb_forall in H. specialize (H (Z.to_nat d) ltac:(apply in_seq; lia)).
  cbv zeta in H. rewrite Z2Nat.id in H by lia. bool_facts. done.
Qed.

Lemma current_timestamp now1 now2 :
  current (timestamp now1) now2 = ((days now2 - days now1 + 1024) mod 1024 <=? 21).
Proof.
  destruct (stamp_decodes (days now1) (days_range now1)) as (Ha & Hh & Hl & Hd).
  unfold current. change (timestamp now1) with (stamp_of (days now1)).
  rewrite ToLower_alphabet by done. unfold stamp_of at 1. cbn [negb String.length stamp_of Nat.eqb].
  by rewrite Hh, Hl, Hd.
Qed.

Lemma sign_alphabet k parts : forall_bytes in_alphabet (sign k parts) = true.
Proof. apply mac_alphabet. Qed.

Lemma SplitN_srs0 h t d l :
  lacks "=" h = true -> lacks "=" t = true -> lacks "=" d = true ->
  SplitN 5 ("SRS0=" +:+ h +:+ "=" +:+ t +:+ "=" +:+ d +:+ "=" +:+ l) "=" = ["SRS0"; h; t; d; l].
Proof.
  intros Hh Ht Hd. cbn [SplitN].
  change ("SRS0=" +:+ ?x) with ("SRS0" +:+ String "=" x). rewrite Cut_app by done.
  repeat change ("=" +:+ ?x) with (String "=" x). by rewrite !Cut_app by done.
Qed.

(** A rewritten address is an SRS0 address with the local part it was built from. *)
Lemma srs0_shape rest domain :
  domain <> "" -> lacks "@" domain = true ->
  let a := ("SRS0=" +:+ rest) +:+ String "@" domain in
  cut a = Some ("SRS0=" +:+ rest, domain) /\ Is a = true /\
  EqualFold (stake 5 ("SRS0=" +:+ rest)) "SRS1=" = false.
Proof.
  intros Hd Hl a. assert (cut a = Some ("SRS0=" +:+ rest, domain)) as Hc by (by apply cut_app).
  split; [done|]. split; [|done]. unfold Is. rewrite Hc.
  rewrite slen_app. change (slen "SRS0=") with 5. pose proof (slen_nonneg rest).
  destruct (Z.ltb_spec (5 + slen rest) 5); [lia|]. done.
Qed.
End Laws.

(** C37 (SRS round trip).  The address a first forwarder rewrites a sender to leads
    its bounces back to exactly that sender for 21 days, also after the secret it
    was signed with has been superseded but is still listed. *)
Theorem srs_roundtrip `{U : UnicodeTables} `{M : Mac} {ML : MacLaws (M := M)}
    (now1 now2 : Z) (key : string) (older : list string) (r2 : Rewriter)
    (local senderDomain domain address : string)
    (Hcut : cut (local +:+ String "@" senderDomain) = Some (local, senderDomain))
    (Hfirst : srs_prefix local <> "SRS0=" /\ srs_prefix local <> "SRS1=")
    (Hdom : lacks "=" senderDomain = true)
    (Hfwd : domain <> "" /\ lacks "@" domain = true /\ EqualFold senderDomain domain = false)
    (Hfor : Forward now1 (mkRewriter (key :: older)) (local +:+ String "@" senderDomain) domain
            = Ok address)
    (Hkey : key ∈ secrets r2)
    (Hage : (days now2 - days now1 + 1024) mod 1024 <= 21) :
  Reverse now2 r2 address = Ok (local +:+ String "@" senderDomain).
Proof.
  destruct Hfirst as [H0 H1], Hfwd as (Hd & Hat & Hne).
  destruct (cut_spec _ _ _ Hcut) as (_ & Hlne & Hsne & _).
  unfold Forward in Hfor. rewrite Hcut, Hne in Hfor.
  apply String.eqb_neq in Hd as Ed, H0, H1. rewrite Ed, H0, H1 in Hfor.
  set (stamp := timestamp now1) in *. set (h := hash _ _) in Hfor. cbn in Hfor.
  destruct (maxLocal <? _); [done|]. injection Hfor as <-.
  assert (forall_bytes in_alphabet h = true) as Hh by apply sign_alphabet.
  assert (forall_bytes in_alphabet stamp = true) as Hst by apply (stamp_decodes _ (days_range now1)).
  destruct (alphabet_string _ Hh) as (_ & _ & Hh3). destruct (alphabet_string _ Hst) as (_ & _ & Hst3).
  change ("@" +:+ domain) with (String "@" domain).
  destruct (srs0_shape (h +:+ "=" +:+ stamp +:+ "=" +:+ senderDomain +:+ "=" +:+ local) domain)
    as (Hc & His & He); [done..|].
  unfold Reverse. rewrite Hc, His, He. cbn [negb]. rewrite SplitN_srs0 by done.
  apply String.eqb_neq in Hlne, Hsne. rewrite Hlne, Hsne. cbn [orb].
  assert (check r2 h [stamp; senderDomain; local] = true) as ->.
  { unfold check. apply existsb_exists. exists key. split; [by apply list_elem_of_In|].
    rewrite ToLower_alphabet by done. by apply String.eqb_eq. }
  cbn [negb]. subst stamp. rewrite current_timestamp.
  destruct (Z.leb_spec ((days now2 - days now1 + 1024) mod 1024) 21); [done|lia].
Qed.

Lemma toy_mac_laws : MacLaws (M := toy_mac).
Proof.
  split; intros k m; unfold mac, toy_mac.
  - enough (H : forall n, forall_bytes in_alphabet (stake n
      (map_bytes (fun c => if in_alphabet c then c else "x"%char) k +:+ "aaaaaa")) = true) by apply H.
    induction k as [|c k IH]; intros n.
    + do 7 (destruct n as [|n]; [done|]). by destruct n.
    + cbn [map_bytes]. rewrite app_cons. destruct n as [|n]; [done|]. cbn [stake forall_bytes].
      rewrite IH. by destruct (in_alphabet c) eqn:E; rewrite ?E.
  - rewrite stake_length, string_length_app. change (String.length "aaaaaa") with 6%nat. lia.
Qed.

Lemma srs_roundtrip_witness :
  Reverse (U := ascii_tables) (M := toy_mac) 1700900000 (mkRewriter ["new"; "k"])
    "SRS0=kaaaaa=g3=example.org=alice@fwd.example" = Ok ("alice" +:+ String "@" "example.org").
Proof.
  apply (srs_roundtrip (U := ascii_tables) (M := toy_mac) (ML := toy_mac_laws) 1700000000 1700900000 "k" []
    (mkRewriter ["new"; "k"]) "alice" "example.org" "fwd.example").
  - reflexivity.
  - by split.
  - reflexivity.
  - by split_and!.
  - vm_compute. reflexivity.
  - set_solver.
  - by vm_compute.
Defined.

(** SRS is not an open relay.  Whatever the address, Reverse only yields a
    destination the holder of one of the secrets has signed: the six characters in
    the address are the keyed hash of exactly the text the destination is made of. *)
Theorem srs_reverse_signed `{U : UnicodeTables} `{M : Mac} (now : Z) (r : Rewriter)
    (address dest : string) (Hok : Reverse now r address = Ok dest) :
  exists secret got,
    secret ∈ secrets r /\
    ((exists domain rest, dest = "SRS0" +:+ rest +:+ "@" +:+ domain /\
        ToLower got = sign secret [domain; rest]) \/
     (exists stamp domain local, dest = local +:+ "@" +:+ domain /\ local <> "" /\ domain <> "" /\
        current stamp now = true /\ ToLower got = sign secret [stamp; domain; local])).
Proof.
  unfold Reverse in Hok. destruct (cut address) as [[l d]|]; [|done].
  destruct (negb (Is address)); [done|].
  assert (Hcheck : forall got parts, negb (check r got parts) = false ->
    exists secret, secret ∈ secrets r /\ ToLower got = sign secret parts).
  { intros got parts H. bool_facts. apply existsb_exists in H as (k & Hin & Hk). bool_facts.
    exists k. split; [by apply list_elem_of_In|done]. }
  destruct (EqualFold _ _).
  - destruct (SplitN 4 l "=") as [|? [|f1 [|f2 [|f3 [|]]]]]; try done.
    destruct (negb _) eqn:E; [done|]. injection Hok as <-.
    destruct (Hcheck _ _ E) as (k & Hk & Hs). exists k, f1. split; [done|]. left. by exists f2, f3.
  - destruct (SplitN 5 l "=") as [|? [|f1 [|f2 [|f3 [|f4 [|]]]]]]; try done.
    destruct (_ || _)%bool eqn:En; [done|]. destruct (negb (check _ _ _)) eqn:E; [done|].
    destruct (negb (current _ _)) eqn:Ec; [done|]. injection Hok as <-. bool_facts.
    destruct (Hcheck _ _ ltac:(by apply negb_false_iff)) as (k & Hk & Hs).
    exists k, f1. split; [done|]. right. by exists f2, f3, f4.
Qed.

Lemma srs_reverse_signed_witness :
  exists secret got,
    secret ∈ ["k"] /\
    ((exists domain rest, "alice@example.org" = "SRS0" +:+ rest +:+ "@" +:+ domain /\
        ToLower (U := ascii_tables) got = sign (U := ascii_tables) (M := toy_mac) secret [domain; rest]) \/
     (exists stamp domain local, "alice@example.org" = local +:+ "@" +:+ domain /\ local <> "" /\ domain <> "" /\
        current (U := ascii_tables) stamp 1700900000 = true /\
        ToLower (U := ascii_tables) got = sign (U := ascii_tables) (M := toy_mac) secret [stamp; domain; local])).
Proof.
  apply (srs_reverse_signed (U := ascii_tables) (M := toy_mac) 1700900000 (mkRewriter ["k"])
    "SRS0=kaaaaa=g3=example.org=alice@fwd.example").
  vm_compute. reflexivity.
Defined.
