(* ===== verification/Pipeline.v ===== *)
(** * Accepting a received message (session_data.go, forged_authres.go)

    processMessage: the checks between the end of DATA (or the last BDAT chunk) and
    the queue.  The scan engines, the message authentication checks, the enhanced
    validator's pattern checks, DKIM signing and the queue are services; what they
    answer for one message is a [pipeline_env].  Server headers contain the clock
    and are taken as given. *)

From S2P Require Import Prelude GoStrings SmtpState SmtpSyntax Spool SmtpConfig DataReader.

Open Scope string_scope.
Open Scope list_scope.
Open Scope Z_scope.

(** ** Scan results *)

(** SpamScore and SpamThreshold are only reported, never compared for the verdict;
    they are kept in tenths of a point. *)
Set Primitive Projections.
Record SecurityScanResult := mkScanResult {
  Passed : bool;
  SpamDetected : bool;
  Threats : list string;
  SpamScore : Z;
  SpamThreshold : Z;
  SpamDefer : bool;
  SpamHeld : bool;
  VirusFound : bool;
  Quarantined : bool
}.
Unset Primitive Projections.

Definition scan_passed : SecurityScanResult := mkScanResult true false [] 0 0 false false false false.

Record AvResult := mkAvResult { av_Clean : bool; av_Infections : list string; av_Engine : string }.

Inductive Disposition := DispositionClean | DispositionTag | DispositionDefer | DispositionReject.
Definition disposition_rank (d : Disposition) : Z :=
  match d with
  | DispositionClean => 0 | DispositionTag => 1 | DispositionDefer => 2 | DispositionReject => 3
  end.

Record SpamResult := mkSpamResult {
  sr_Clean : bool; sr_Disposition : Disposition; sr_Score : Z; sr_Threshold : Z
}.

(** [antispam] settings the accept path reads. *)
Record AntispamConfig := mkAntispam { as_RejectOnSpam : bool; as_Quarantine : bool }.

Definition av_threats (r : AvResult) : list string :=
  match av_Infections r with
  | [] => ["Virus detected by " +:+ av_Engine r]
  | l => (fun i => "Virus detected: " +:+ i) <$> l
  end.

(** performAntivirusScan; [None] is no scanner, or a scanner that failed. *)
Definition performAntivirusScan (results : option (list AvResult)) (result : SecurityScanResult)
    : SecurityScanResult :=
  foldl (fun res r =>
      if av_Clean r then res
      else res <| Passed := false |> <| VirusFound := true |> <| Threats := Threats res ++ av_threats r |>)
    result (default [] results).

Definition canQuarantine `{U : UnicodeTables} (antispam : option AntispamConfig) (cfg : Config)
    (ss : SessionState) : bool :=
  match antispam with
  | None => false
  | Some a =>
      if (negb (as_Quarantine a) || authenticated ss)%bool then false
      else if negb (forallb (inLocalDomains (cfg_LocalDomains cfg)) (rcptTo ss)) then false
      else (0 <? length (rcptTo ss))%nat
  end.

(** winningScore: the highest score and the threshold that goes with it. *)
Definition winningScore (results : list SpamResult) : Z * Z :=
  snd (foldl (fun '(seen, best) r =>
      if (negb seen || (fst best <? sr_Score r))%bool then (true, (sr_Score r, sr_Threshold r))
      else (seen, best)) (false, (0, 0)) results).

Definition strongest (results : list SpamResult) : Disposition :=
  foldl (fun d r => if disposition_rank d <? disposition_rank (sr_Disposition r)
                    then sr_Disposition r else d) DispositionClean results.

Definition performSpamScan `{U : UnicodeTables} (antispam : option AntispamConfig) (cfg : Config)
    (ss : SessionState) (results : option (list SpamResult)) (result : SecurityScanResult)
    : SecurityScanResult :=
  match results with
  | None => result
  | Some rs =>
      let '(highest, threshold) := winningScore rs in
      let result := result <| SpamScore := highest |> <| SpamThreshold := threshold |> in
      if existsb (fun r => negb (sr_Clean r)) rs then
        let result := result <| SpamDetected := true |>
              <| Threats := Threats result ++ ["Message identified as spam"] |> in
        match strongest rs with
        | DispositionDefer => result <| SpamDefer := true |> <| Passed := false |>
        | DispositionReject =>
            match antispam with
            | Some a => if as_RejectOnSpam a then
                          if canQuarantine antispam cfg ss then result <| SpamHeld := true |>
                          else result <| Passed := false |>
                        else result
            | None => result
            end
        | _ => result
        end
      else result
  end.

Definition mergeScanResult (dst src : SecurityScanResult) : SecurityScanResult :=
  {| Passed := (Passed dst && Passed src)%bool;
     SpamDetected := (SpamDetected dst || SpamDetected src)%bool;
     Threats := Threats dst ++ Threats src;
     SpamScore := if SpamScore dst <? SpamScore src then SpamScore src else SpamScore dst;
     SpamThreshold := if ((0 <? SpamThreshold src) && (SpamThreshold dst =? 0))%bool
                      then SpamThreshold src else SpamThreshold dst;
     SpamDefer := (SpamDefer dst || SpamDefer src)%bool;
     SpamHeld := (SpamHeld dst || SpamHeld src)%bool;
     VirusFound := (VirusFound dst || VirusFound src)%bool;
     Quarantined := Quarantined dst |}.

(** ** Content analysis *)

(** The text before the first occurrence of a separator. *)
Fixpoint before (sep s : string) : option string :=
  if HasPrefix s sep then Some ""
  else match s with
       | EmptyString => None
       | String c s' => String c <$> before sep s'
       end.

Definition crlf2 : string := CRLF +:+ CRLF.
Definition lf2 : string := String LF (String LF "").

(** separateHeadersAndBody, the headers. *)
Definition message_headers (content : string) : string :=
  match before crlf2 content with
  | Some h => h
  | None => match before lf2 content with Some h => h | None => content end
  end.

Definition dangerousTypes : list string :=
  ["application/x-msdownload"; "application/x-executable"; "application/x-sh"; "application/x-bat";
   "application/x-cmd"; "application/x-msdos-program"; "application/x-winexe";
   "application/octet-stream"].
Definition maliciousPatterns : list string :=
  ["<script"; "javascript:"; "vbscript:"; "data:text/html"; "eval("; "expression("].
Definition suspiciousExtensions : list string :=
  [".exe"; ".bat"; ".cmd"; ".pif"; ".scr"; ".vbs"; ".js"; ".jar"; ".app"; ".deb"; ".rpm";
   ".dmg"; ".pkg"; ".msi"].

Definition add_threat (t : string) (r : SecurityScanResult) : SecurityScanResult :=
  r <| Threats := Threats r ++ [t] |>.

(** The services consulted for one message. *)
Record pipeline_env := mkPipelineEnv {
  pe_now : Z;
  pe_uuid : string;
  pe_internal : bool;
  pe_spool_io : spool_io;
  pe_memory_ok : bool;                         (** CheckMemoryLimit *)
  pe_conn_memory_ok : Z -> bool;               (** CheckConnectionMemoryLimit *)
  pe_policies : option (string -> Z -> result unit);  (** senderPolicies.checkContent *)
  pe_header_block : string -> ValidationResult; (** ValidateSMTPParameter("HEADER", ..) *)
  pe_header_fields : gmap string string -> ValidationResult;
                                               (** ValidateEmailHeaders *)
  pe_address_headers : gmap string string -> result unit;
                                               (** validateEmailAddressesInHeaders, if strict *)
  pe_content_type : string -> ValidationResult; (** validateHeaderSecurityPatterns *)
  pe_av : result (option (list AvResult));     (** an error is a scan that panicked *)
  pe_spam : result (option (list SpamResult));
  pe_authentication : string -> result unit;   (** verifyAuthenticationContent *)
  pe_server_headers : string -> SecurityScanResult -> string; (** buildServerHeaders *)
  pe_sign : string -> result (string * string); (** signSubmission *)
  pe_enqueue : result string;                  (** EnqueueMessageStream: the queue id *)
  pe_annotate : string -> bool                 (** whether SetAnnotation of a key succeeds *)
}.

Section Analysis.
Context `{U : UnicodeTables}.
Variable cfg : Config.
Variable antispam : option AntispamConfig.
Variable env : pipeline_env.

Definition performContentAnalysis (head : string) (result : SecurityScanResult)
    : SecurityScanResult :=
  if pe_internal env then result
  else
    let checks := messageChecks cfg in
    let headers := message_headers head in
    let lower := ToLower head in
    let v := pe_header_block env headers in
    let result :=
      if (negb (headers =? "")%string && negb (headerMode checks =? "off")%string
          && negb (vr_Valid v))%bool
      then add_threat ("Header validation failed: " +:+ vr_ErrorMessage v)
             (if (headerMode checks =? "reject")%string then result <| Passed := false |> else result)
      else result in
    if (bodyMode checks =? "off")%string then result
    else
      let result :=
        if Contains head "Content-Type: application/" then
          foldl (fun r t => if Contains lower t then
              add_threat ("Dangerous attachment type: " +:+ t)
                (if (bodyMode checks =? "reject")%string then r <| Passed := false |> else r)
            else r) result dangerousTypes
        else result in
      let result := foldl (fun r t => if Contains lower t
          then add_threat ("Malicious content pattern: " +:+ t) r else r) result maliciousPatterns in
      foldl (fun r t => if Contains lower t
          then add_threat ("Suspicious file extension: " +:+ t) r else r) result suspiciousExtensions.

Definition performSecurityScan (head : string) (ss : SessionState) : result SecurityScanResult :=
  match pe_av env, pe_spam env with
  | Err e, _ => Err e
  | _, Err e => Err e
  | Ok av, Ok spam =>
      let virusScan := performAntivirusScan av scan_passed in
      let spamScan := performSpamScan antispam cfg ss spam scan_passed in
      Ok (performContentAnalysis head
            (mergeScanResult (mergeScanResult scan_passed virusScan) spamScan))
  end.

Definition handleSecurityThreat (r : SecurityScanResult) : result unit :=
  if VirusFound r then Err "554 5.7.1 Message rejected: virus detected"
  else if SpamDetected r then
    if SpamDefer r then Err "451 4.7.1 Message deferred: try again later"
    else Err "554 5.7.1 Message rejected: identified as spam"
  else Ok tt.

(** ** Headers *)

(** extractHeaders: fold over the lines; the state is the headers so far and the
    header being continued. *)
Fixpoint header_lines (lines : list string) (current : option (string * string))
    (acc : gmap string string) : gmap string string :=
  let save := match current with
              | Some (n, v) => if (n =? "")%string then acc else <[n := v]> acc
              | None => acc
              end in
  match lines with
  | [] => acc
  | line :: rest =>
      let line := trim_right_set (String CR "") line in
      if (line =? "")%string then save
      else if (HasPrefix line " " || HasPrefix line (String TAB ""))%bool then
        header_lines rest
          (match current with
           | Some (n, v) => if (n =? "")%string then current
                            else Some (n, v +:+ " " +:+ TrimSpace line)
           | None => None
           end) acc
      else match IndexByte line ":"%char with
           | Some (S i) => header_lines rest
                             (Some (TrimSpace (stake (S i) line), TrimSpace (sdrop (S (S i)) line))) save
           | _ => header_lines rest None save
           end
  end.
Definition extractHeaders (data : string) : gmap string string :=
  header_lines (Split data LF) None ∅.

Record MessageMetadata := mkMetadata {
  md_MessageID : string; md_From : string; md_To : list string; md_Subject : string;
  md_Size : Z; md_Headers : gmap string string
}.

(** Go iterates the map in an unspecified order; two names that differ only in
    case leave either value behind.  The model takes the order of [map_to_list]. *)
Definition lower_names (h : gmap string string) : gmap string string :=
  foldl (fun acc '(n, v) => <[ToLower n := v]> acc) ∅ (map_to_list h).

Definition extractMessageMetadata (head : string) (size : Z) (ss : SessionState)
    : MessageMetadata :=
  let headers := lower_names (extractHeaders head) in
  {| md_MessageID := default (pe_uuid env) (headers !! "message-id");
     md_From := mailFrom ss; md_To := rcptTo ss;
     md_Subject := default "" (headers !! "subject");
     md_Size := size; md_Headers := headers |}.

Definition dangerousContentTypes : list string :=
  ["application/x-msdownload"; "application/x-executable"; "application/x-sh";
   "application/x-bat"; "application/x-cmd"; "application/x-msdos-program";
   "application/x-winexe"].

Definition validateContentTypeRestrictions (headers : gmap string string) : result unit :=
  match headers !! "content-type" with
  | None => Ok tt
  | Some ct =>
      if existsb (Contains (ToLower ct)) dangerousContentTypes
      then Err ("dangerous content type not allowed: " +:+ ct)
      else let v := pe_content_type env ct in
           if vr_Valid v then Ok tt else Err ("invalid content-type header: " +:+ vr_ErrorMessage v)
  end.

(** [warn] mode reports and goes on. *)
Definition unless_warn (mode : string) (r : result unit) : result unit :=
  match r with
  | Err e => if (mode =? "warn")%string then Ok tt else Err e
  | Ok _ => Ok tt
  end.

Definition validateMessageHeaders (md : MessageMetadata) : result unit :=
  let mode := headerMode (messageChecks cfg) in
  if (mode =? "off")%string then Ok tt
  else
    let internal := pe_internal env in
    let authNotRequired := match cfg_Auth cfg with
                           | Some a => (auth_Enabled a && negb (auth_Required a))%bool
                           | None => false
                           end in
    let required :=
      match filter (fun h => md_Headers md !! h = None) ["from"; "date"] with
      | h :: _ => if (negb internal && negb authNotRequired)%bool
                  then unless_warn mode (Err ("missing required header: " +:+ h)) else Ok tt
      | [] => Ok tt
      end in
    _ ← required;
    _ ← (if internal then Ok tt
         else let v := pe_header_fields env (md_Headers md) in
              if vr_Valid v then Ok tt
              else unless_warn mode (Err ("header validation failed: " +:+ vr_ErrorMessage v)));
    if internal then Ok tt
    else _ ← unless_warn mode (pe_address_headers env (md_Headers md));
         unless_warn mode (validateContentTypeRestrictions (md_Headers md)).

(** ** Forged Authentication-Results *)

Definition authResultsName : string := "Authentication-Results".
Definition renamedAuthNames : string := "X-Untrusted-AuthResult".

Definition isForgedAuthResults (hostname line : string) : bool :=
  let '(name, value, ok) := Cut line ":"%char in
  if (negb ok || negb (EqualFold (trim_right_set (String SP (String TAB "")) name) authResultsName))%bool
  then false
  else match Fields (fst (fst (Cut value ";"%char))) with
       | [] => false
       | f :: _ => EqualFold (TrimSuffix f ".") hostname
       end.

(** The line loop over the header block: [line] is the part of the current line
    read so far, [k] the rest.  Renaming overwrites the name in place. *)
Definition patch_line (hostname line : string) : string :=
  if isForgedAuthResults hostname line
  then renamedAuthNames +:+ sdrop (String.length renamedAuthNames) line else line.

Fixpoint patch_lines (hostname cur s : string) : string :=
  match s with
  | EmptyString => patch_line hostname cur
  | String c s' =>
      match s' with
      | String d s'' =>
          if (Ascii.eqb c CR && Ascii.eqb d LF)%bool
          then patch_line hostname cur +:+ CRLF +:+ patch_lines hostname "" s''
          else patch_lines hostname (cur +:+ String c "") s'
      | EmptyString => patch_lines hostname (cur +:+ String c "") s'
      end
  end.

Definition neutralizeForgedAuthResults (head hostname : string) : string :=
  let hostname := ToLower (TrimSuffix (TrimSpace hostname) ".") in
  if (hostname =? "")%string then head
  else match before crlf2 head with
       | Some block => patch_lines hostname "" block +:+ sdrop (String.length block) head
       | None => patch_lines hostname "" head
       end.

(** ** Saving *)

Record queued_message := mkQueued {
  q_from : string; q_to : list string; q_subject : string; q_content : string; q_size : Z;
  q_annotations : gmap string string
}.

Definition notify_text (n : DSNNotifyType) : string := notify_name n.

(** SetAnnotation, whose error is only logged: the message is queued all the same. *)
Definition set_annotation (key value : string) (a : gmap string string) : gmap string string :=
  if pe_annotate env key then <[key := value]> a else a.

Definition saveDSNAnnotations (ss : SessionState) (a : gmap string string) : gmap string string :=
  let a := match dsnParams ss with
           | None => a
           | Some p =>
               let a := match dsnReturn p with
                        | DSNReturnUnset => a
                        | DSNReturnFull => set_annotation "dsn_return" "FULL" a
                        | DSNReturnHeaders => set_annotation "dsn_return" "HDRS" a
                        end in
               if (dsnEnvID p =? "")%string then a else set_annotation "dsn_envid" (dsnEnvID p) a
           end in
  let a := match dsnRecipientParams ss with
           | None => a
           | Some m =>
               foldl (fun a '(addr, p) =>
                 let a := match dsnNotify p with
                          | [] => a
                          | l => set_annotation ("dsn_notify:" +:+ addr) (Join (notify_text <$> l) ",") a
                          end in
                 if (dsnORCPT p =? "")%string then a
                 else set_annotation ("dsn_orcpt:" +:+ addr) (dsnORCPT p) a) a (map_to_list m)
           end in
  if requireTLS ss then set_annotation "require_tls" "true" a else a.

Definition saveMessage (headerPrefix body : string) (md : MessageMetadata) (ss : SessionState)
    : result queued_message :=
  match pe_sign env headerPrefix with
  | Err _ => Err "451 4.3.0 Message could not be signed; try again"
  | Ok (headerPrefix, signedFor) =>
      match pe_enqueue env with
      | Err e => Err ("failed to save message: " +:+ e)
      | Ok _ =>
          let a := saveDSNAnnotations ss ∅ in
          Ok {| q_from := md_From md; q_to := md_To md; q_subject := md_Subject md;
                q_content := headerPrefix +:+ body;
                q_size := slen headerPrefix + dataSize ss;
                q_annotations := if (signedFor =? "")%string then a
                                 else set_annotation "dkim_signed" signedFor a |}
      end
  end.

(** processMessage: what is put in the queue, and the state it leaves. *)
Definition processMessage (head body : string) (size : Z) (ss : SessionState)
    : result unit * SessionState * option queued_message :=
  if negb (pe_memory_ok env) then (Err "552 5.3.4 Server memory limit exceeded", ss, None)
  else if negb (pe_conn_memory_ok env (slen head))
  then (Err "552 5.3.4 Session memory limit exceeded", ss, None)
  else
    let md := extractMessageMetadata head size ss in
    let policy := match pe_policies env with
                  | Some checkContent =>
                      if (authenticated ss && negb (username ss =? "")%string)%bool
                      then checkContent (username ss) size else Ok tt
                  | None => Ok tt
                  end in
    match policy with
    | Err e => (Err e, ss, None)
    | Ok _ =>
        match validateMessageHeaders md with
        | Err e => (Err ("554 5.7.1 Message rejected: " +:+ e), ss, None)
        | Ok _ =>
            match performSecurityScan head ss with
            | Err _ => (Err "451 4.3.0 Security scan failed", ss, None)
            | Ok scan =>
                if negb (Passed scan) then (handleSecurityThreat scan, ss, None)
                else match pe_authentication env (md_From md) with
                     | Err e => (Err e, ss, None)
                     | Ok _ =>
                         let prefix := pe_server_headers env head scan in
                         let body := neutralizeForgedAuthResults head (cfg_Hostname cfg)
                                       +:+ sdrop (String.length head) body in
                         match saveMessage prefix body md ss with
                         | Err _ => (Err "451 4.3.0 Message processing failed", ss, None)
                         | Ok q =>
                             (Ok tt, IncrementMessageCount (pe_now env) (Reset (pe_now env) ss), Some q)
                         end
                     end
            end
        end
    end.

Definition ProcessMessage (spool : MessageSpool) (ss : SessionState)
    : result unit * SessionState * option queued_message :=
  match Head (pe_spool_io env) DefaultHeadSize spool with
  | Err _ => (Err "451 4.3.0 Unable to read message data", ss, None)
  | Ok head => processMessage head (content spool) (sp_size spool) ss
  end.
End Analysis.

(** ** Properties *)

(** What a message leaves behind: either nothing at all, or one queued message with
    the session's envelope and a session reset for the next. *)
Lemma ProcessMessage_cases `{U : UnicodeTables} cfg antispam env spool ss r ss' q :
  ProcessMessage cfg antispam env spool ss = (r, ss', q) ->
  (ss' = ss /\ q = None) \/
  (exists m, r = Ok tt /\ q = Some m /\
     ss' = IncrementMessageCount (pe_now env) (Reset (pe_now env) ss) /\
     q_from m = mailFrom ss /\ q_to m = rcptTo ss).
Proof.
  unfold ProcessMessage, processMessage. destruct (Head _ _ _); [|intros; left; by simplify_eq].
  unfold saveMessage. intros H.
  repeat (split_match_in H; try (left; by simplify_eq)); simplify_eq;
    try (right; eexists; by split_and!).
Qed.

(** Nothing is queued on refusal; what is queued is the envelope.  When
    processMessage refuses a message the queue is untouched and the session keeps
    its transaction.  When it accepts, the queued message carries exactly the
    session's sender and recipients, its server headers followed by the received
    bytes (with forged results renamed), is marked for REQUIRETLS where that mark could be
    stored, and the transaction is reset; the one other
    way to accept is a message whose content scan failed with neither a virus nor
    spam, of which nothing is queued. *)
Theorem processMessage_outcome `{U : UnicodeTables} (cfg : Config) (antispam : option AntispamConfig)
    (env : pipeline_env) (head body : string) (size : Z) (ss : SessionState) :
  match processMessage cfg antispam env head body size ss with
  | (Err _, ss', q) => ss' = ss /\ q = None
  | (Ok _, ss', Some q) =>
      q_from q = mailFrom ss /\ q_to q = rcptTo ss /\
      (exists prefix, q_content q = prefix +:+ neutralizeForgedAuthResults head (cfg_Hostname cfg)
                                     +:+ sdrop (String.length head) body) /\
      (requireTLS ss = true -> pe_annotate env "require_tls" = true ->
       q_annotations q !! "require_tls" = Some "true") /\
      ss' = IncrementMessageCount (pe_now env) (Reset (pe_now env) ss)
  | (Ok _, ss', None) =>
      ss' = ss /\ exists scan, performSecurityScan cfg antispam env head ss = Ok scan /\
        Passed scan = false /\ VirusFound scan = false /\ SpamDetected scan = false
  end.
Proof.
  unfold processMessage. destruct (negb (pe_memory_ok env)); [done|].
  destruct (negb (pe_conn_memory_ok _ _)); [done|].
  destruct (match pe_policies env with Some _ => _ | None => _ end); [|done].
  destruct (validateMessageHeaders _ _ _); [|done].
  destruct (performSecurityScan _ _ _ _ _) as [scan|] eqn:Es; [|done].
  destruct (Passed scan) eqn:Ep; cbn [negb].
  - destruct (pe_authentication _ _); [|done].
    unfold saveMessage. destruct (pe_sign _ _) as [[prefix signed]|]; [|done].
    destruct (pe_enqueue env); [|done]. cbn.
    split; [done|]. split; [done|]. split; [by eexists|]. split; [|done].
    intros Ht Ha. unfold saveDSNAnnotations. rewrite Ht. cbv zeta.
    assert (forall a, set_annotation env "require_tls" "true" a !! "require_tls" = Some "true") as Hs.
    { intros b. unfold set_annotation. rewrite Ha. by simplify_map_eq. }
    case_match; [apply Hs|]. unfold set_annotation at 1.
    case_match; [rewrite lookup_insert_ne by done|]; apply Hs.
  - unfold handleSecurityThreat. destruct (VirusFound scan) eqn:Ev; [done|].
    destruct (SpamDetected scan) eqn:Esp; [by destruct (SpamDefer scan)|]. eauto 10.
Qed.

(** A healthy set of services that finds nothing wrong, but for the annotations it may
    fail to store. *)
Definition pipeline_storing (annotate : string -> bool) : pipeline_env :=
  let fine := mkValidation true "" "" in
  {| pe_now := 9; pe_uuid := "id"; pe_internal := false; pe_spool_io := io_fine;
     pe_memory_ok := true; pe_conn_memory_ok := fun _ => true; pe_policies := None;
     pe_header_block := fun _ => fine; pe_header_fields := fun _ => fine;
     pe_address_headers := fun _ => Ok tt; pe_content_type := fun _ => fine;
     pe_av := Ok None; pe_spam := Ok None; pe_authentication := fun _ => Ok tt;
     pe_server_headers := fun _ _ => "Received: x" +:+ CRLF;
     pe_sign := fun p => Ok (p, ""); pe_enqueue := Ok "q1"; pe_annotate := annotate |}.
Definition example_pipeline : pipeline_env := pipeline_storing (fun _ => true).

(** With the default checks, an external message carrying an ordinary
    application/octet-stream attachment is answered as accepted and is queued
    nowhere: the branch that logs "quarantined" stores nothing. *)
Lemma quarantined_message_is_lost :
  let head := "From: a@b.c" +:+ CRLF +:+ "Date: x" +:+ CRLF
              +:+ "Content-Type: application/octet-stream" +:+ crlf2 +:+ "data" in
  processMessage (U := ascii_tables) example_config None example_pipeline head head 80
    (NewSessionState 0) = (Ok tt, NewSessionState 0, None).
Proof. vm_compute. reflexivity. Qed.

(** A message sent with REQUIRETLS is accepted and queued without the mark when the mark
    cannot be stored: nothing later knows that the sender asked for it. *)
Example require_tls_forgotten :
  let env := pipeline_storing (fun key => negb (key =? "require_tls")%string) in
  let head := "From: a@b.c" +:+ CRLF +:+ "Date: x" +:+ crlf2 +:+ "data" in
  let '(r, _, q) := processMessage (U := ascii_tables) example_config None env head head 40
                      ((NewSessionState 0) <| requireTLS := true |>) in
  r = Ok tt /\ q_annotations <$> q = Some ∅.
Proof. by vm_compute. Qed.

(** *** Forged headers *)

(** The lines of a header block, split at CRLF. *)
Fixpoint crlf_lines (cur s : string) : list string :=
  match s with
  | EmptyString => [cur]
  | String c s' =>
      match s' with
      | String d s'' =>
          if (Ascii.eqb c CR && Ascii.eqb d LF)%bool then cur :: crlf_lines "" s''
          else crlf_lines (cur +:+ String c "") s'
      | EmptyString => crlf_lines (cur +:+ String c "") s'
      end
  end.

Lemma Join_cons x l sep : l <> [] -> Join (x :: l) sep = x +:+ sep +:+ Join l sep.
Proof. by destruct l. Qed.

(** Two-step induction on strings, for the CRLF scanners. *)
Lemma string_ind2 (P : string -> Prop) :
  P "" -> (forall c, P (String c "")) ->
  (forall c d s, P s -> P (String d s) -> P (String c (String d s))) -> forall s, P s.
Proof.
  intros H0 H1 H2 s. enough (P s /\ forall c, P (String c s)) by tauto.
  induction s as [|c s [IH1 IH2]]; [auto|]. split; [apply IH2|]. intros d. by apply H2.
Qed.

Lemma crlf_lines_not_nil s : forall cur, crlf_lines cur s <> [].
Proof.
  induction s as [| |c d s _ IHd] using string_ind2; intros cur; [discriminate..|].
  cbn [crlf_lines]. case_match; [discriminate|apply IHd].
Qed.

Section Forged.
Context `{U : UnicodeTables}.

Lemma patch_lines_join hostname s : forall cur,
  patch_lines hostname cur s = Join (patch_line hostname <$> crlf_lines cur s) CRLF.
Proof.
  induction s as [| |c d s IH IHd] using string_ind2; intros cur; [done..|].
  cbn [patch_lines crlf_lines]. destruct (Ascii.eqb c CR && Ascii.eqb d LF)%bool.
  - rewrite fmap_cons, Join_cons by (intros ?%fmap_nil_inv; by eapply crlf_lines_not_nil).
    by rewrite IH.
  - apply IHd.
Qed.

Lemma crlf_lines_join s : forall cur, Join (crlf_lines cur s) CRLF = cur +:+ s.
Proof.
  induction s as [| |c d s IH IHd] using string_ind2; intros cur.
  - cbn. by rewrite string_app_nil_r.
  - done.
  - cbn [crlf_lines]. destruct (Ascii.eqb c CR && Ascii.eqb d LF)%bool eqn:E.
    + bool_facts. rewrite Join_cons by apply crlf_lines_not_nil. rewrite IH.
      repeat match goal with H : Ascii.eqb _ _ = true |- _ => apply Ascii.eqb_eq in H as -> end.
      done.
    + etrans; [apply (IHd (cur +:+ String c ""))|]. by rewrite <- string_app_assoc.
Qed.

Lemma patch_line_clean hostname line : isForgedAuthResults hostname (patch_line hostname line) = false.
Proof.
  unfold patch_line. destruct (isForgedAuthResults hostname line) eqn:E; [|done].
  unfold isForgedAuthResults. set (rest := sdrop _ line).
  change renamedAuthNames with (String "X" "-Untrusted-AuthResult"). rewrite app_cons.
  cbn [Cut]. destruct (Cut _ ":") as [[x y] f]. change (Ascii.eqb "X" ":") with false. cbn iota.
  destruct f; [|done]. cbn [negb orb].
  cbn [trim_right_set]. change (forall_bytes _ (String "X" x))
    with (false && forall_bytes (byte_in (String SP (String TAB ""))) x)%bool. cbn [andb].
  done.
Qed.
End Forged.

(** No forged Authentication-Results survive: the stored header block is the
    received one with every line replaced by its patched form, no line of it claims
    this server's name, and everything from the blank line on is untouched. *)
Theorem neutralize_removes_forged `{U : UnicodeTables} (head host : string)
    (Hhost : ToLower (TrimSuffix (TrimSpace host) ".") <> "") :
  let hostname := ToLower (TrimSuffix (TrimSpace host) ".") in
  exists block lines rest,
    head = block +:+ rest /\ block = Join lines CRLF /\
    (before crlf2 head = Some block \/ (before crlf2 head = None /\ rest = "")) /\
    neutralizeForgedAuthResults head host = Join (patch_line hostname <$> lines) CRLF +:+ rest /\
    Forall (fun l => isForgedAuthResults hostname l = false) (patch_line hostname <$> lines).
Proof.
  intros hostname. unfold neutralizeForgedAuthResults. fold hostname.
  apply String.eqb_neq in Hhost. fold hostname in Hhost. rewrite Hhost.
  assert (Hclean : forall l, Forall (fun l => isForgedAuthResults hostname l = false)
                     (patch_line hostname <$> l)).
  { intros l. apply Forall_fmap, Forall_forall. intros x _. apply patch_line_clean. }
  destruct (before crlf2 head) as [block|] eqn:Eb.
  - exists block, (crlf_lines "" block), (sdrop (String.length block) head).
    rewrite patch_lines_join, crlf_lines_join.
    assert (head = block +:+ sdrop (String.length block) head) as Hh;
      [|split; [done|]; split; [done|]; split; [by left|]; by split].
    { rewrite <- (stake_sdrop (String.length block) head) at 1. f_equal.
      clear -Eb. revert block Eb. induction head as [|c h IH]; intros block E; cbn [before] in E.
      - case_match; [|done]. by injection E as <-.
      - case_match; [by injection E as <-|].
        destruct (before crlf2 h) as [b|]; [|done]. cbn in E. injection E as <-. cbn. f_equal.
        by apply IH. }
  - exists head, (crlf_lines "" head), "". rewrite patch_lines_join, crlf_lines_join.
    rewrite !string_app_nil_r. split_and!; try done. by right.
Qed.

Lemma neutralize_removes_forged_witness :
  let head := "Authentication-Results: mx.ex.org; dkim=pass" +:+ crlf2 +:+ "hi" in
  exists block lines rest,
    head = block +:+ rest /\ block = Join lines CRLF /\
    (before crlf2 head = Some block \/ (before crlf2 head = None /\ rest = "")) /\
    neutralizeForgedAuthResults (U := ascii_tables) head "MX.ex.org."
      = Join (patch_line (U := ascii_tables) "mx.ex.org" <$> lines) CRLF +:+ rest /\
    Forall (fun l => isForgedAuthResults (U := ascii_tables) "mx.ex.org" l = false)
      (patch_line (U := ascii_tables) "mx.ex.org" <$> lines).
Proof.
  apply (neutralize_removes_forged (U := ascii_tables)
    ("Authentication-Results: mx.ex.org; dkim=pass" +:+ crlf2 +:+ "hi") "MX.ex.org.").
  by vm_compute.
Defined.
