(* ===== verification/Session.v ===== *)
(** * The SMTP session object (internal/smtp/session.go) and its services

    The mutable session: its data handler (with the protocol state and the reader),
    the replies written so far, the authentication state and the messages it has
    queued.  [services] holds what everything outside the session answers while one
    command is handled; a fresh value for every command lets them answer anything. *)

From S2P Require Import Prelude GoStrings GoNet SmtpState SmtpSyntax Spool SmtpConfig.
From S2P Require Import DataReader Access Srs Pipeline.

Open Scope string_scope.
Open Scope list_scope.
Open Scope Z_scope.

(** ** Authentication state (internal/auth/session_state_machine.go) *)

Inductive SsmState :=
| SessionStateInitial | SessionStateAuthenticating | SessionStateAuthenticated
| SessionStateFailed | SessionStateLocked | SessionStateExpired | SessionStateInvalidated.

#[global] Instance SsmState_eq_dec : EqDecision SsmState.
Proof. solve_decision. Defined.

Set Primitive Projections.
Record SessionStateMachine := mkSsm {
  ssm_currentState : SsmState;
  ssm_previousState : SsmState;
  ssm_stateHistory : list (SsmState * SsmState);
  ssm_expiresAt : Z;
  ssm_failureCount : Z;
  ssm_maxFailures : Z;
  ssm_lockoutDuration : Z;
  ssm_lockoutUntil : option Z;
  ssm_username : string
}.

(** Failures per address, and lockouts per user and address. *)
Record AuthenticationSecurityManager := mkAsm {
  asm_ipFailures : gmap string (Z * Z);
  asm_accountLockouts : gmap string Z
}.

(** ** The session *)

Record Session := mkSession {
  s_dh : DataHandler;
  s_out : list string;               (** replies, oldest first, without CRLF *)
  s_writes_left : option nat;        (** writes before the connection fails; None: never *)
  s_ssm : option SessionStateMachine;
  s_asm : AuthenticationSecurityManager;
  s_rblListed : bool;
  s_queued : list queued_message     (** what this session put in the queue *)
}.
Unset Primitive Projections.

(** What does not change during a session. *)
Record SessionEnv := mkSessionEnv {
  se_cfg : Config;
  se_antispam : option AntispamConfig;
  se_access : AccessControl;
  se_srs : option Rewriter;
  se_peer : option IP;               (** GetClientIP(conn) *)
  se_host : option string;           (** the host part of the remote address *)
  se_submission : bool;
  se_webmailSubmission : bool;
  se_requireTLSForPlain : bool
}.

(** senderPolicies, when the deployment has them. *)
Record sender_policies := mkPolicies {
  sp_shareAccess : string -> string -> result bool;   (** ErrNotFound is Ok false *)
  sp_checkMail : string -> Z -> result unit;
  sp_checkRcpt : string -> Z -> result unit;
  sp_checkRecipientSize : string -> Z -> result unit
}.

Record services := mkServices {
  sv_now : Z;
  sv_shutdown : bool;                      (** ctx.Done() or shutdownCh is ready at the top of the loop *)
  sv_memory_ok : bool;                     (** checkMemoryUsage of the command screen *)
  sv_denySender : string -> bool;          (** abuse.DenySender *)
  sv_inboundMessage : bool;                (** abuse.InboundMessage *)
  sv_inboundDomain : string -> bool;       (** abuse.InboundDomain *)
  sv_denyRecipient : string -> bool;       (** abuse.DenyRecipient *)
  sv_outboundRecipient : string -> bool;   (** abuse.OutboundRecipient *)
  sv_blocked : bool;                       (** abuse.Blocked *)
  sv_shielded : string -> bool;            (** abuse.Shielded *)
  sv_rbl : option (bool * bool * string);  (** enabled: listed, reject, message *)
  sv_rcptVerifier : option (string -> bool); (** recipient verifier: rejected? *)
  sv_policies : option sender_policies;
  sv_tls : option (option stream);         (** tlsManager; the stream behind a handshake *)
  sv_authenticate : string -> string -> result (bool * bool);
                                           (** accepted, with an app password *)
  sv_xdebug : string -> list string;       (** the report lines of an XDEBUG topic *)
  sv_buffered : bool;                      (** reader.Buffered() > 0 after the command *)
  sv_data : data_env;
  sv_pipeline : pipeline_env
}.

(** ** Primitive operations *)

Definition get_state (s : Session) : SessionState := dh_state (s_dh s).

Definition set_state (f : SessionState -> SessionState) : M Session unit :=
  modify (fun s => s <| s_dh ::= fun dh => dh <| dh_state ::= f |> |>).

(** A state method that can refuse. *)
Definition try_state (f : SessionState -> result unit * SessionState) : M Session unit :=
  fun s => let '(r, ss) := f (get_state s) in
           (r, s <| s_dh ::= fun dh => dh <| dh_state := ss |> |>).

Definition on_data {A} (f : DataHandler -> result A * DataHandler) : M Session A :=
  fun s => let '(r, dh) := f (s_dh s) in (r, s <| s_dh := dh |>).

(** write buffers a reply; once the connection has failed every write does. *)
Definition write (now : Z) (msg : string) : M Session unit :=
  fun s => match s_writes_left s with
           | Some O => (Err "failed to write message", s)
           | w => (Ok tt, s <| s_out := s_out s ++ [msg] |>
                            <| s_writes_left := pred <$> w |>
                            <| s_dh ::= fun dh =>
                                 dh <| dh_state ::= AddBytesSent now (slen msg + 2) |> |>)
           end.

Definition flush : M Session unit :=
  fun s => match s_writes_left s with
           | Some O => (Err "failed to flush", s)
           | w => (Ok tt, s <| s_writes_left := pred <$> w |>)
           end.

Fixpoint write_lines (now : Z) (wrap : string) (l : list string) : M Session unit :=
  match l with
  | [] => mret tt
  | x :: l' => r ← attempt (write now x);
               match r with
               | Err e => fail (wrap +:+ e)
               | Ok _ => write_lines now wrap l'
               end
  end.

(** bufio.Reader.ReadLine: the line without its ending; one longer than the buffer
    is returned in pieces. *)
Definition ReadLine (s : stream) : result string * stream :=
  let '(frag, err, rest) := ReadSlice bufio_size s in
  match err with
  | Some ErrBufferFull =>
      if bool_decide (last_byte frag = Some CR)
      then (Ok (stake (String.length frag - 1) frag), EByte CR :: rest)
      else (Ok frag, rest)
  | _ =>
      if (frag =? "")%string then (Err "EOF", rest)
      else (Ok (TrimSuffix (TrimSuffix frag (String LF "")) (if ends_with_LF frag then String CR "" else "")), rest)
  end.

Definition read_line : M Session string :=
  on_data (fun dh => let '(r, rest) := ReadLine (dh_reader dh) in (r, dh <| dh_reader := rest |>)).

(** writeError answers with the error's own code, or a generic one. *)
Definition writeError (now : Z) (e : string) : M Session unit :=
  let coded := match first_byte e with
               | Some c => ((3 <=? slen e) && in_range 52 53 c)%bool
               | None => false
               end in
  _ ← attempt (write now (if coded then e else "451 4.3.0 Internal server error"));
  set_state (AddError now e).
