(* ===== verification/AuthSession.v ===== *)
(** * SMTP authentication (internal/smtp/session_auth.go,
      internal/auth/session_state_machine.go)

    The AUTH command: the session's authentication state machine, the failure
    counters and lockouts, the PLAIN and LOGIN exchanges, base64.  Whether a
    password is right is the authenticator's answer, a service. *)

From S2P Require Import Prelude GoStrings GoNet SmtpState Spool SmtpConfig DataReader Pipeline.
From S2P Require Import Session.

Open Scope string_scope.
Open Scope list_scope.
Open Scope Z_scope.

(** ** The state machine *)

Definition IsValidTransition (from to : SsmState) : bool :=
  bool_decide (to ∈ match from with
    | SessionStateInitial =>
        [SessionStateAuthenticating; SessionStateExpired; SessionStateInvalidated]
    | SessionStateAuthenticating =>
        [SessionStateAuthenticated; SessionStateFailed; SessionStateLocked;
         SessionStateExpired; SessionStateInvalidated]
    | SessionStateAuthenticated => [SessionStateExpired; SessionStateInvalidated]
    | SessionStateFailed =>
        [SessionStateAuthenticating; SessionStateLocked; SessionStateExpired;
         SessionStateInvalidated]
    | SessionStateLocked => [SessionStateExpired; SessionStateInvalidated]
    | SessionStateExpired | SessionStateInvalidated => []
    end).

Definition minutes (n : Z) : Z := n * 60.

Definition NewSessionStateMachine (now : Z) : SessionStateMachine :=
  {| ssm_currentState := SessionStateInitial; ssm_previousState := SessionStateInitial;
     ssm_stateHistory := [(SessionStateInitial, SessionStateInitial)];
     ssm_expiresAt := now + minutes 30; ssm_failureCount := 0; ssm_maxFailures := 5;
     ssm_lockoutDuration := minutes 30; ssm_lockoutUntil := None; ssm_username := "" |}.

Definition isExpired (now : Z) (m : SessionStateMachine) : bool := ssm_expiresAt m <? now.
Definition isLockedOut (now : Z) (m : SessionStateMachine) : bool :=
  match ssm_lockoutUntil m with Some t => now <? t | None => false end.

Definition recordTransition (to : SsmState) (m : SessionStateMachine) : SessionStateMachine :=
  let h := ssm_stateHistory m ++ [(ssm_currentState m, to)] in
  m <| ssm_stateHistory := if ssm_maxFailures m * 2 <? Z.of_nat (length h) then tail h else h |>.

Definition validateStateTransition (to : SsmState) (m : SessionStateMachine) : bool :=
  match to with
  | SessionStateAuthenticated => negb (ssm_username m =? "")%string
  | SessionStateLocked => ssm_maxFailures m <=? ssm_failureCount m
  | _ => true
  end.

Definition handleStateTransition (now : Z) (to : SsmState) (m : SessionStateMachine)
    : SessionStateMachine :=
  match to with
  | SessionStateFailed =>
      let m := m <| ssm_failureCount := ssm_failureCount m + 1 |> in
      if ssm_maxFailures m <=? ssm_failureCount m
      then m <| ssm_lockoutUntil := Some (now + ssm_lockoutDuration m) |> else m
  | SessionStateAuthenticated => m <| ssm_failureCount := 0 |> <| ssm_lockoutUntil := None |>
  | _ => m
  end.

Definition TransitionTo (now : Z) (to : SsmState) (m : SessionStateMachine)
    : result unit * SessionStateMachine :=
  if isExpired now m then (Err "session expired", m)
  else if bool_decide (ssm_currentState m ∈ [SessionStateExpired; SessionStateInvalidated])
  then (Err "session in terminal state", m)
  else if negb (IsValidTransition (ssm_currentState m) to)
  then (Err "invalid state transition", m)
  else if (isLockedOut now m && negb (bool_decide (to ∈ [SessionStateExpired; SessionStateInvalidated])))%bool
  then (Err "session locked", m)
  else if negb (validateStateTransition to m)
  then (Err "state transition validation failed", m)
  else (Ok tt, handleStateTransition now to
                 ((recordTransition to m) <| ssm_previousState := ssm_currentState m |>
                                          <| ssm_currentState := to |>)).

Definition ssm_IsAuthenticated (now : Z) (m : SessionStateMachine) : bool :=
  (bool_decide (ssm_currentState m = SessionStateAuthenticated)
   && negb (isExpired now m) && negb (isLockedOut now m))%bool.

Definition SetUsername (u : string) (m : SessionStateMachine) : result unit * SessionStateMachine :=
  if bool_decide (ssm_currentState m ∈ [SessionStateAuthenticating; SessionStateAuthenticated])
  then (Ok tt, m <| ssm_username := u |>) else (Err "cannot set username", m).

(** ** Failure counters and lockouts *)

Definition MaxAuthAttempts : Z := 5.
Definition MaxAuthAttemptsPerIP : Z := 10.
Definition AuthRateInterval : Z := minutes 15.
Definition AccountLockoutDuration : Z := minutes 30.

(** lockKey: the user name, a zero byte and the client's host. *)
Definition lockKey (env : SessionEnv) (username : string) : string :=
  username +:+ String (chr 0) (default "" (se_host env)).

Definition pruneLocked (now : Z) (m : AuthenticationSecurityManager)
    : AuthenticationSecurityManager :=
  {| asm_ipFailures := filter (fun '(_, (_, last)) => now - last <= AuthRateInterval) (asm_ipFailures m);
     asm_accountLockouts := filter (fun '(_, t) => now <= t) (asm_accountLockouts m) |}.

Definition isIPRateLimited (now : Z) (ip : string) (m : AuthenticationSecurityManager) : bool :=
  match asm_ipFailures m !! ip with
  | None => false
  | Some (count, last) =>
      if AuthRateInterval <? now - last then false else MaxAuthAttemptsPerIP <=? count
  end.

Definition isAccountLocked (now : Z) (env : SessionEnv) (username : string)
    (m : AuthenticationSecurityManager) : bool :=
  match asm_accountLockouts m !! lockKey env username with
  | None => false
  | Some t => now <? t
  end.

Definition recordAuthFailure (now : Z) (env : SessionEnv) (username : string) (attempts : Z)
    (m : AuthenticationSecurityManager) : AuthenticationSecurityManager :=
  let m := if 10000 <? Z.of_nat (size (asm_ipFailures m)) then pruneLocked now m else m in
  let m := match se_host env with
           | None => m
           | Some host =>
               m <| asm_ipFailures ::= fun f =>
                      <[host := (match f !! host with Some (c, _) => c + 1 | None => 1 end, now)]> f |>
           end in
  if MaxAuthAttempts <=? attempts
  then m <| asm_accountLockouts ::= fun l =>
             <[lockKey env username := now + AccountLockoutDuration]> l |>
  else m.

(** recordAuthSuccess deletes the lockout under the bare user name. *)
Definition recordAuthSuccess (env : SessionEnv) (username : string)
    (m : AuthenticationSecurityManager) : AuthenticationSecurityManager :=
  let m := match se_host env with
           | None => m
           | Some host => m <| asm_ipFailures ::= fun f => delete host f |>
           end in
  m <| asm_accountLockouts ::= fun l => delete username l |>.

(** ** Base64 (encoding/base64, StdEncoding) *)

Definition b64_val (c : ascii) : option Z :=
  if is_upper c then Some (b2z c - 65)
  else if is_lower c then Some (b2z c - 71)
  else if is_digit c then Some (b2z c + 4)
  else if b2z c =? 43 then Some 62
  else if b2z c =? 47 then Some 63
  else None.

Definition byte_of (z : Z) : ascii := ascii_of_N (Z.to_N (Z.land z 255)).

Definition b64_pad : ascii := "="%char.

Fixpoint DecodeString (s : string) : option string :=
  match s with
  | EmptyString => Some ""
  | String a (String b (String c (String d rest))) =>
      x ← b64_val a;
      y ← b64_val b;
      let v := Z.shiftl x 18 + Z.shiftl y 12 in
      if (Ascii.eqb c b64_pad && Ascii.eqb d b64_pad && (rest =? "")%string)%bool
      then Some (String (byte_of (Z.shiftr v 16)) "")
      else z ← b64_val c;
           let v := v + Z.shiftl z 6 in
           if (Ascii.eqb d b64_pad && (rest =? "")%string)%bool
           then Some (String (byte_of (Z.shiftr v 16)) (String (byte_of (Z.shiftr v 8)) ""))
           else w ← b64_val d;
                let v := v + w in
                tail ← DecodeString rest;
                Some (String (byte_of (Z.shiftr v 16))
                       (String (byte_of (Z.shiftr v 8)) (String (byte_of v) tail)))
  | _ => None
  end.

Definition b64_byte (c : ascii) : bool :=
  (is_alnum c || (b2z c =? 43) || (b2z c =? 47) || (b2z c =? 61))%bool.

Definition validateBase64Input (input : string) : bool :=
  (negb (input =? "")%string && (slen input <=? 1000) && forall_bytes b64_byte input)%bool.

(** Validation and decoding, as both exchanges use them. *)
Definition decode_credential (input : string) : option string :=
  if validateBase64Input input then DecodeString input else None.

(** ** The AUTH command *)

Section Auth.
Context `{U : UnicodeTables}.
Variable env : SessionEnv.
Variable sv : services.

Definition now_ : Z := sv_now sv.

Definition plaintextAuthAllowed (ss : SessionState) : bool :=
  if (negb (se_requireTLSForPlain env) || tlsActive ss)%bool then true
  else match se_peer env with Some ip => IsLoopback ip | None => false end.

Definition suspiciousUserPatterns : list string :=
  ["'"; String DQUOTE ""; ";"; "--"; "/*"; "*/"; "XP_"; "SP_"; "UNION"; "SELECT"; "INSERT";
   "DELETE"; "UPDATE"; "DROP"; String (chr 0) ""; String CR ""; String LF ""].

Definition validateAuthenticationData (username password : string) : bool :=
  (negb (username =? "")%string && (slen username <=? 255)
   && negb (existsb (Contains (ToUpper username)) suspiciousUserPatterns)
   && negb (password =? "")%string && (slen password <=? 1000))%bool.

(** Transitions whose failure is only logged. *)
Definition ssm_try (f : SessionStateMachine -> result unit * SessionStateMachine) : M Session unit :=
  modify (fun s => s <| s_ssm ::= fmap (fun m => snd (f m)) |>).

Definition record_failure (username : string) : M Session unit :=
  modify (fun s => s <| s_asm ::= recordAuthFailure now_ env username (authAttempts (get_state s)) |>).

Definition bad_credentials : string := "535 5.7.8 Authentication credentials invalid".

Definition performAuthentication (username password : string) : M Session unit :=
  if negb (validateAuthenticationData username password)
  then record_failure username ≫= fun _ => fail bad_credentials
  else
    locked ← gets (fun s => isAccountLocked now_ env username (s_asm s));
    if (locked : bool)
    then record_failure username ≫= fun _ => fail "535 5.7.8 Account temporarily locked"
    else
      let accepted := match sv_authenticate sv username password with
                      | Ok (true, app) =>
                          negb (negb app && negb (se_webmailSubmission env)
                                && sv_shielded sv username)%bool
                      | _ => false
                      end in
      if negb accepted then
        record_failure username ≫= fun _ =>
        ssm_try (TransitionTo now_ SessionStateFailed) ≫= fun _ =>
        fail bad_credentials
      else
        set_state (SetAuthenticated now_ true username) ≫= fun _ =>
        modify (fun s => s <| s_asm ::= recordAuthSuccess env username |>) ≫= fun _ =>
        ssm_try (SetUsername username) ≫= fun _ =>
        ssm_try (TransitionTo now_ SessionStateAuthenticated) ≫= fun _ =>
        r ← attempt (write now_ "235 2.7.0 Authentication successful" ≫= fun _ => flush);
        match r with
        | Err _ => fail "451 4.3.0 Internal server error"
        | Ok _ => mret tt
        end.

(** A prompt, flushed, and the line that answers it. *)
Definition prompt (p : string) : M Session string :=
  write now_ p ≫= fun _ => flush ≫= fun _ => read_line.

Definition handleAuthPlain (cmd : string) : M Session unit :=
  ss ← gets get_state;
  if negb (plaintextAuthAllowed ss)
  then fail "538 5.7.11 Encryption required for requested authentication mechanism"
  else
    authData ← (match Fields cmd with
                | [_; _; d] => mret d
                | [_; _] => prompt "334 "
                | _ => fail "501 5.5.4 Syntax: AUTH PLAIN [<base64-data>]"
                end);
    match decode_credential authData with
    | None => fail bad_credentials
    | Some decoded =>
        match Split decoded (chr 0) with
        | [_; username; password] => performAuthentication username password
        | _ => fail bad_credentials
        end
    end.

Definition handleAuthLogin (cmd : string) : M Session unit :=
  userLine ← (match Fields cmd with
              | _ :: _ :: f :: _ => if (f =? "=")%string then prompt "334 VXNlcm5hbWU6" else mret f
              | _ => prompt "334 VXNlcm5hbWU6"
              end);
  match decode_credential userLine with
  | None => fail bad_credentials
  | Some username =>
      passLine ← prompt "334 UGFzc3dvcmQ6";
      match decode_credential passLine with
      | None => fail bad_credentials
      | Some password => performAuthentication username password
      end
  end.

Definition checkSecurityConstraints (s : Session) : result unit :=
  if negb (plaintextAuthAllowed (get_state s))
  then Err "538 5.7.11 Encryption required for requested authentication mechanism"
  else if (negb (se_webmailSubmission env) && sv_blocked sv)%bool
  then Err "421 4.7.1 Too many failed sign-ins from this address; try again later"
  else match se_host env with
       | Some host => if isIPRateLimited now_ host (s_asm s)
                      then Err "421 4.7.0 Too many authentication attempts from this IP" else Ok tt
       | None => Ok tt
       end.

(** The state machine part of HandleAuth: refuse a second sign-in, enter
    Authenticating. *)
Definition begin_auth : M Session unit :=
  fun s => match s_ssm s with
           | Some m =>
               if ssm_IsAuthenticated now_ m then (Err "503 5.5.1 Already authenticated", s)
               else let '(r, m') := TransitionTo now_ SessionStateAuthenticating m in
                    match r with
                    | Err _ => (Err "421 4.7.0 Authentication system error", s)
                    | Ok _ => (Ok tt, s <| s_ssm := Some m' |>)
                    end
           | None => if authenticated (get_state s)
                     then (Err "503 5.5.1 Already authenticated", s) else (Ok tt, s)
           end.

Definition HandleAuth (cmd : string) : M Session unit :=
  begin_auth ≫= fun _ =>
  match Fields cmd with
  | _ :: m :: _ =>
      let method := ToUpper m in
      if negb (bool_decide (method ∈ ["PLAIN"; "LOGIN"]))
      then fail "504 5.7.4 Authentication mechanism not supported"
      else
        c ← gets checkSecurityConstraints;
        match (c : result unit) with
        | Err e => ssm_try (TransitionTo now_ SessionStateFailed) ≫= fun _ => fail e
        | Ok _ =>
            set_state (fun ss => snd (IncrementAuthAttempts now_ ss)) ≫= fun _ =>
            n ← gets (fun s => authAttempts (get_state s));
            if MaxAuthAttempts <? n then fail "421 4.7.0 Too many authentication attempts"
            else if (method =? "PLAIN")%string then handleAuthPlain cmd
            else handleAuthLogin cmd
        end
  | _ => fail "501 5.5.4 Syntax: AUTH mechanism"
  end.
End Auth.
