(* ===== verification/Commands.v ===== *)
(** * SMTP commands and the session loop (session_commands.go, session.go,
      sender_binding.go)

    One definition per handler, in the error-returning state monad; ProcessCommand
    dispatches, [loop_step] is one iteration of processCommands.  Log calls and the
    100 ms pause after QUIT have no counterpart. *)

From S2P Require Import Prelude GoStrings GoNet SmtpState SmtpSyntax Spool SmtpConfig.
From S2P Require Import DataReader Access CommandSecurity Srs Pipeline Session AuthSession.

Open Scope string_scope.
Open Scope list_scope.
Open Scope Z_scope.

Section Commands.
Context `{U : UnicodeTables} `{HM : Mac}.
Variable env : SessionEnv.
Variable sv : services.

Definition cfg : Config := se_cfg env.
Definition now : Z := sv_now sv.

Definition reply (msg : string) : M Session unit := write now msg.

(** ** Policy helpers *)

Definition isLocalDomain (recipient : string) : bool :=
  inLocalDomains (cfg_LocalDomains cfg) recipient.

Definition isRelayAllowed : bool := IsAllowedRelay (se_peer env) (cfg_AllowedRelays cfg).

Definition checkSubmissionSender (ss : SessionState) : result unit :=
  if (negb (se_submission env) || authenticated ss)%bool then Ok tt
  else if isRelayAllowed then Ok tt
  else Err "530 5.7.0 Authentication required".

Definition senderPolicies (ss : SessionState) : option sender_policies :=
  if (negb (authenticated ss) || (username ss =? "")%string)%bool then None else sv_policies sv.

Definition checkSenderBinding (ss : SessionState) (mailFrom : string) : result unit :=
  if (negb (authenticated ss) || (mailFrom =? "")%string)%bool then Ok tt
  else if match cfg_Auth cfg with Some a => auth_AllowAnySender a | None => false end then Ok tt
  else if senderOwnedBy (username ss) mailFrom (cfg_LocalDomains cfg)
            (auth_SenderAliases <$> cfg_Auth cfg) then Ok tt
  else
    let refused := Err ("553 5.7.1 Sender address rejected: not owned by authenticated user "
                        +:+ username ss) in
    match senderPolicies ss with
    | None => refused
    | Some p => match sp_shareAccess p mailFrom (username ss) with
                | Ok true => Ok tt
                | Ok false => refused
                | Err _ => Err "451 4.3.0 Shared sender authorization unavailable"
                end
    end.

Definition checkRBL : M Session unit :=
  ss ← gets get_state;
  match sv_rbl sv with
  | None => mret tt
  | Some (listed, rejects, message) =>
      if (authenticated ss || bool_decide (se_peer env = None) || negb listed)%bool then mret tt
      else modify (fun s => s <| s_rblListed := true |>) ≫= fun _ =>
           if (rejects : bool) then fail ("554 5.7.1 " +:+ message) else mret tt
  end.

Definition checkRelayPermissions (ss : SessionState) (recipient : string) : result unit :=
  if authenticated ss then Ok tt
  else if isLocalDomain recipient then Ok tt
  else if isRelayAllowed then Ok tt
  else Err "554 5.7.1 Relay access denied".

Definition sanitizeEmailForHeader (email : string) : string :=
  string_of_list_ascii
    (filter (fun c => c <> CR /\ c <> LF) (list_ascii_of_string email)).

Definition user_unknown (rcpt : string) : string :=
  "550 5.1.1 <" +:+ sanitizeEmailForHeader rcpt +:+ ">: Recipient address rejected: User unknown".

(** reverseSRS: the sender behind one of our SRS addresses, "" for any other. *)
Definition reverseSRS (ss : SessionState) (recipient : string) : result string :=
  match se_srs env with
  | None => Ok ""
  | Some r =>
      if (negb (Is recipient) || negb (isLocalDomain recipient))%bool then Ok ""
      else if negb (mailFrom ss =? "")%string
      then Err "550 5.7.1 This address accepts delivery notifications only"
      else match Reverse now r recipient with
           | Err _ => Err (user_unknown recipient)
           | Ok sender => Ok sender
           end
  end.

(** ** Handlers *)

Definition HandleHELO (args : string) : M Session unit :=
  if (args =? "")%string then fail "501 5.0.0 HELO requires domain address"
  else if negb (is_ok (validateHostname args)) then fail ("501 5.0.0 Invalid hostname: " +:+ args)
  else
    set_state (SetHeloName args) ≫= fun _ =>
    set_state (SetGreeted true) ≫= fun _ =>
    set_state (Reset now) ≫= fun _ =>
    reply ("250 " +:+ cfg_Hostname cfg +:+ " Hello " +:+ args).

Definition ehlo_lines (args : string) (ss : SessionState) : list string :=
  ["250-" +:+ cfg_Hostname cfg +:+ " Hello " +:+ args;
   "250-SIZE " +:+ FormatInt (cfg_MaxSize cfg);
   "250-8BITMIME"; "250-SMTPUTF8"; "250-ENHANCEDSTATUSCODES"; "250-CHUNKING"; "250-DSN";
   "250-PIPELINING"]
  ++ (if (bool_decide (is_Some (sv_tls sv)) && negb (tlsActive ss))%bool then ["250-STARTTLS"] else [])
  ++ (if tlsActive ss then ["250-REQUIRETLS"] else [])
  ++ (match cfg_Auth cfg with
      | Some a => if (auth_Enabled a && plaintextAuthAllowed env ss)%bool
                  then ["250-AUTH PLAIN LOGIN"] else []
      | None => []
      end)
  ++ (if cfg_DevMode cfg then ["250-XDEBUG"] else [])
  ++ ["250 HELP"].

Definition HandleEHLO (args : string) : M Session unit :=
  if (args =? "")%string then fail "501 5.0.0 EHLO requires domain address"
  else if negb (is_ok (validateHostname args)) then fail ("501 5.0.0 Invalid hostname: " +:+ args)
  else
    set_state (SetHeloName args) ≫= fun _ =>
    set_state (SetGreeted true) ≫= fun _ =>
    set_state (Reset now) ≫= fun _ =>
    ss ← gets get_state;
    write_lines now "failed to write EHLO response: " (ehlo_lines args ss).

(** The checks of HandleMAIL that only apply to unauthenticated senders. *)
Definition inbound_checks (ss : SessionState) (mailFrom : string) : result unit :=
  if authenticated ss then Ok tt
  else if sv_denySender sv mailFrom then Err "550 5.7.1 Sender refused by policy"
  else if (negb isRelayAllowed && negb (sv_inboundMessage sv))%bool
  then Err "451 4.7.1 Too much mail from this address; try again later"
  else if (negb isRelayAllowed && negb (sv_inboundDomain sv mailFrom))%bool
  then Err "451 4.7.1 Too much mail from this sender's domain; try again later"
  else Ok tt.

Definition HandleMAIL (args : string) : M Session unit :=
  ss ← gets get_state;
  reject_if (match cfg_Auth cfg with
             | Some a => (auth_Enabled a && auth_Required a && negb (authenticated ss))%bool
             | None => false
             end) "530 5.7.0 Authentication required" ≫= fun _ =>
  liftR (checkSubmissionSender ss) ≫= fun _ =>
  parsed ← liftR (parseMailFromParams (cfg_MaxSize cfg) (tlsActive ss) args);
  let mailFrom := mf_addr parsed in
  let declaredSize := mf_size parsed in
  liftR (checkSenderBinding ss mailFrom) ≫= fun _ =>
  let decision := CheckSender (se_access env) mailFrom in
  reject_if (Denied decision) ("550 5.7.1 " +:+ Reason decision) ≫= fun _ =>
  liftR (inbound_checks ss mailFrom) ≫= fun _ =>
  checkRBL ≫= fun _ =>
  reject_if (negb (is_ok (validateEmailAddress mailFrom)))
    ("553 5.1.3 Invalid sender address: " +:+ mailFrom) ≫= fun _ =>
  reject_if (containsNonASCII mailFrom && negb (mf_smtpUTF8 parsed))
    "553 5.6.7 SMTPUTF8 is required for non-ASCII sender address" ≫= fun _ =>
  reject_if ((0 <? declaredSize) && (cfg_MaxSize cfg <? declaredSize))
    ("552 5.3.4 Message size exceeds fixed maximum message size (" +:+ FormatInt declaredSize
     +:+ " bytes declared, " +:+ FormatInt (cfg_MaxSize cfg) +:+ " bytes maximum)") ≫= fun _ =>
  liftR (match senderPolicies ss with
         | Some p => sp_checkMail p (username ss) declaredSize
         | None => Ok tt
         end) ≫= fun _ =>
  r ← attempt (try_state (AcceptMail now mailFrom declaredSize (mf_smtpUTF8 parsed)
                 (if mf_hasDSN parsed then Some (mf_dsn parsed) else None) (mf_requireTLS parsed)));
  match r with
  | Err _ => fail "503 5.5.1 Bad sequence of commands"
  | Ok _ => reply "250 2.1.0 Sender OK"
  end.

(** Mail leaving the server: outbound rules and holds. *)
Definition outbound_checks (ss : SessionState) (bounceFor rcpt : string) : result unit :=
  if (negb (bounceFor =? "")%string || isLocalDomain rcpt)%bool then Ok tt
  else if sv_denyRecipient sv rcpt
  then Err ("550 5.7.1 <" +:+ sanitizeEmailForHeader rcpt +:+ ">: Recipient refused by policy")
  else if (authenticated ss && negb (username ss =? "")%string
           && negb (sv_outboundRecipient sv (username ss)))%bool
  then Err "451 4.7.1 Sending outside the server from this account is on hold; contact your administrator"
  else Ok tt.

(** The recipient HandleRCPT adds, after every check but the last. *)
Definition rcpt_checks (ss : SessionState) (args : string) : result (rcptToParams * string) :=
  parsed ← parseRCPTEnvelope args;
  let addr := rt_addr parsed in
  _ ← (if is_ok (validateEmailAddress addr) then Ok tt
       else Err ("553 5.1.3 Invalid recipient address: " +:+ addr));
  _ ← (if (containsNonASCII addr && negb (smtputf8 ss))%bool
       then Err "553 5.6.7 SMTPUTF8 is required for non-ASCII recipient address" else Ok tt);
  bounceFor ← reverseSRS ss addr;
  let rcpt := if (bounceFor =? "")%string then addr else bounceFor in
  _ ← (if (bounceFor =? "")%string then checkRelayPermissions ss addr else Ok tt);
  _ ← outbound_checks ss bounceFor rcpt;
  _ ← (match sv_rcptVerifier sv with
       | Some rejected => if (isLocalDomain rcpt && rejected rcpt)%bool
                          then Err (user_unknown rcpt) else Ok tt
       | None => Ok tt
       end);
  _ ← (match senderPolicies ss with
       | Some p => sp_checkRcpt p (username ss) (GetRecipientCount ss)
       | None => Ok tt
       end);
  _ ← (match sv_policies sv with
       | Some p => if isLocalDomain rcpt then sp_checkRecipientSize p rcpt (declaredSize ss) else Ok tt
       | None => Ok tt
       end);
  Ok (parsed, rcpt).

Definition HandleRCPT (args : string) : M Session unit :=
  ss ← gets get_state;
  '(parsed, rcpt) ← liftR (rcpt_checks ss args);
  r ← attempt (try_state (AddRecipient now rcpt));
  match r with
  | Err _ => fail "503 5.5.1 Bad sequence of commands"
  | Ok _ =>
      (if rt_hasDSN parsed then set_state (SetDSNRecipientParams now rcpt (rt_dsn parsed))
       else mret tt) ≫= fun _ =>
      reply "250 2.1.5 Recipient OK"
  end.

Definition bad_sequence : string := "503 5.5.1 Bad sequence of commands".

Definition HandleDATA : M Session unit :=
  ss ← gets get_state;
  reject_if (GetRecipientCount ss =? 0) "503 5.5.1 RCPT first" ≫= fun _ =>
  reject_if (negb (CanAcceptDataCommand "DATA" ss)) bad_sequence ≫= fun _ =>
  r ← attempt (try_state (SetDataTransferMode now DataModeDATA));
  match r with
  | Err _ => fail bad_sequence
  | Ok _ =>
      r ← attempt (try_state (SetPhase now PhaseData));
      match r with
      | Err _ => fail bad_sequence
      | Ok _ => reply "354 Start mail input; end with <CRLF>.<CRLF>" ≫= fun _ => flush
      end
  end.

Definition discard (size : Z) : M Session unit :=
  modify (fun s => s <| s_dh ::= DiscardBDATChunk (sv_data sv) size |>).

Definition discardRefusedBDAT (args : string) : M Session unit :=
  match Fields args with
  | [p] | [p; _] => match ParseInt64 p with
                    | Some size => if 0 <? size then discard size else mret tt
                    | None => mret tt
                    end
  | _ => mret tt
  end.

(** ProcessBDATMessage, with its deferred ResetBDAT. *)
Definition ProcessBDATMessage : M Session unit :=
  fun s =>
    let '(r, ss, q) :=
      match dh_bdatSpool (s_dh s) with
      | None => (Err "503 5.5.1 No message data received", get_state s, None)
      | Some spool =>
          ProcessMessage cfg (se_antispam env) (sv_pipeline sv) spool
            (SetDataSize now (sp_size spool) (get_state s))
      end in
    (r, s <| s_dh ::= fun dh => ResetBDAT (dh <| dh_state := ss |>) |>
          <| s_queued ::= fun l => l ++ option_list q |>).

(** A chunk is read and, when it is the last one, the message processed. *)
Definition bdat_transfer (size : Z) (isLast : bool) : M Session unit :=
  r ← attempt (on_data (ReadBDATChunk cfg (sv_data sv) size));
  match r with
  | Err e =>
      modify (fun s => s <| s_dh ::= ResetBDAT |>) ≫= fun _ =>
      set_state (ClearDataTransferMode now) ≫= fun _ => fail e
  | Ok _ =>
      if isLast then
        r ← attempt ProcessBDATMessage;
        match r with
        | Err e => set_state (ClearDataTransferMode now) ≫= fun _ => fail e
        | Ok _ =>
            reply "250 2.0.0 Message accepted for delivery" ≫= fun _ =>
            set_state (Reset now)
        end
      else reply ("250 2.0.0 " +:+ FormatInt size +:+ " bytes received")
  end.

(** rejectChunk: the chunk is on its way and must not be read as commands. *)
Definition rejectChunk (size : Z) (e : string) : M Session unit :=
  discard size ≫= fun _ => fail e.

Definition bdat_chunk (size : Z) (isLast : bool) : M Session unit :=
  ss ← gets get_state;
  if GetRecipientCount ss =? 0 then rejectChunk size "503 5.5.1 RCPT first"
  else if negb (CanAcceptDataCommand "BDAT" ss) then rejectChunk size bad_sequence
  else
    r ← (if bool_decide (dataTransferMode ss = DataModeNone)
         then attempt (try_state (SetDataTransferMode now DataModeBDAT))
         else mret (Ok tt));
    match r with
    | Err _ => rejectChunk size bad_sequence
    | Ok _ => bdat_transfer size isLast
    end.

Definition HandleBDAT (args : string) : M Session unit :=
  match Fields args with
  | [] | _ :: _ :: _ :: _ => fail "501 5.5.4 Syntax: BDAT <chunk-size> [LAST]"
  | p :: more =>
      match ParseInt64 p with
      | None => fail "501 5.5.4 Invalid chunk size"
      | Some size =>
          if size <? 0 then fail "501 5.5.4 Invalid chunk size"
          else
            let isLast := match more with [l] => EqualFold l "LAST" | _ => false end in
            if ((0 <? length more)%nat && negb isLast)%bool
            then fail "501 5.5.4 Syntax: BDAT <chunk-size> [LAST]"
            else bdat_chunk size isLast
      end
  end.

Definition HandleRSET : M Session unit :=
  set_state (Reset now) ≫= fun _ =>
  modify (fun s => s <| s_dh ::= ResetBDAT |>) ≫= fun _ =>
  reply "250 2.0.0 Reset OK".

Definition HandleNOOP : M Session unit := reply "250 2.0.0 OK".

Definition HandleQUIT : M Session unit :=
  attempt (try_state (SetPhase now PhaseQuit)) ≫= fun _ =>
  reply ("221 2.0.0 " +:+ cfg_Hostname cfg +:+ " closing connection") ≫= fun _ =>
  flush.

Definition HandleSTARTTLS : M Session unit :=
  ss ← gets get_state;
  reject_if (tlsActive ss) "454 4.7.0 TLS already active" ≫= fun _ =>
  match sv_tls sv with
  | None => fail "454 4.7.0 TLS not available"
  | Some handshake =>
      reply "220 2.0.0 Ready to start TLS" ≫= fun _ =>
      flush ≫= fun _ =>
      match handshake with
      | None =>
          modify (fun s => s <| s_dh ::= MarkDataSyncLost |>) ≫= fun _ =>
          fail "454 4.7.0 TLS handshake failed"
      | Some encrypted =>
          modify (fun s => s <| s_dh ::= fun dh => dh <| dh_reader := encrypted |> |>) ≫= fun _ =>
          set_state (SetTLSActive now true) ≫= fun _ =>
          set_state (SetGreeted false) ≫= fun _ =>
          set_state (Reset now)
      end
  end.

Definition HandleHELP : M Session unit :=
  write_lines now "failed to write help text: "
    ["214-Commands supported:"; "214-HELO EHLO MAIL RCPT DATA RSET NOOP QUIT";
     "214-AUTH STARTTLS HELP VRFY EXPN";
     "214 For more info use " +:+ String DQUOTE ("HELP <topic>" +:+ String DQUOTE "")].

Definition HandleVRFY : M Session unit := reply "252 2.5.2 Cannot VRFY user, but will accept message".
Definition HandleEXPN : M Session unit := reply "502 5.5.1 EXPN not supported".

Definition HandleXDEBUG (cmd : string) : M Session unit :=
  if negb (cfg_DevMode cfg) then fail "502 5.5.1 Command not recognized"
  else match Fields cmd with
       | _ :: topic :: _ =>
           if bool_decide (ToUpper topic ∈ ["CONTEXT"; "STATE"; "CONNECTION"])
           then write_lines now "" (sv_xdebug sv (ToUpper topic))
           else reply "214 Unknown XDEBUG command"
       | _ => write_lines now ""
                ["214-XDEBUG commands:"; "214-  CONTEXT    - Show complete connection context";
                 "214-  STATE      - Show session state information";
                 "214-  CONNECTION - Show connection details";
                 "214 For more info use " +:+ String DQUOTE ("XDEBUG <command>" +:+ String DQUOTE "")]
       end.

Definition HandleUnknown : M Session unit := fail "502 5.5.1 Command not recognized".

(** ** Dispatch *)

Definition dispatch (cmd args line : string) : M Session unit :=
  let c := ToUpper cmd in
  if (c =? "HELO")%string then HandleHELO args
  else if (c =? "EHLO")%string then HandleEHLO args
  else if (c =? "MAIL")%string then HandleMAIL args
  else if (c =? "RCPT")%string then HandleRCPT args
  else if (c =? "DATA")%string then HandleDATA
  else if (c =? "BDAT")%string then HandleBDAT args
  else if (c =? "RSET")%string then HandleRSET
  else if (c =? "NOOP")%string then HandleNOOP
  else if (c =? "QUIT")%string then HandleQUIT
  else if (c =? "AUTH")%string then HandleAuth env sv line
  else if (c =? "STARTTLS")%string then HandleSTARTTLS
  else if (c =? "HELP")%string then HandleHELP
  else if (c =? "VRFY")%string then HandleVRFY
  else if (c =? "EXPN")%string then HandleEXPN
  else if (c =? "XDEBUG")%string then HandleXDEBUG line
  else HandleUnknown.

Definition ProcessCommand (line : string) : M Session unit :=
  set_state (UpdateActivity now) ≫= fun _ =>
  liftR (ValidateCommand (sv_memory_ok sv) line) ≫= fun _ =>
  let '(cmd, args) := parseCommand line in
  ss ← gets get_state;
  if negb (CanAcceptCommand cmd ss) then
    (if EqualFold cmd "BDAT" then discardRefusedBDAT args else mret tt) ≫= fun _ =>
    fail bad_sequence
  else dispatch cmd args line.

(** ** The loop *)

(** handleDataPhase: receive and process one DATA message. *)
Definition process_spool (spool : MessageSpool) : M Session unit :=
  fun s =>
    let '(r, ss, q) := ProcessMessage cfg (se_antispam env) (sv_pipeline sv) spool (get_state s) in
    (r, s <| s_dh ::= fun dh => dh <| dh_state := ss |> |>
          <| s_queued ::= fun l => l ++ option_list q |>).

Definition handleDataPhase : M Session unit :=
  spool ← on_data (ReadData cfg (sv_data sv)); process_spool spool.

(** One iteration of processCommands: [true] goes round again, [false] ends the
    session (returning from Handle closes the connection). *)
Definition data_iteration : M Session bool :=
  f ← attempt flush;
  match f with
  | Err _ => mret false
  | Ok _ =>
      r ← attempt handleDataPhase;
      match r with
      | Err e =>
          writeError now e ≫= fun _ =>
          attempt flush ≫= fun _ =>
          lost ← gets (fun s => dh_dataSyncLost (s_dh s));
          if (lost : bool) then mret false
          else set_state (Reset now) ≫= fun _ => mret true
      | Ok _ =>
          attempt (reply "250 2.0.0 Message accepted for delivery") ≫= fun _ =>
          attempt flush ≫= fun _ =>
          set_state (Reset now) ≫= fun _ => mret true
      end
  end.

Definition command_iteration : M Session bool :=
  fun s =>
    let '(line, err, rest) := readBoundedSMTPLine 512 (dh_reader (s_dh s)) in
    let s := s <| s_dh ::= fun dh => dh <| dh_reader := rest |> |> in
    match err with
    | Some ErrTooLong =>
        (Ok false, snd ((attempt (reply "500 5.5.2 Command line too long") ≫= fun _ => attempt flush) s))
    | Some ErrTimeout =>
        (Ok false, snd ((attempt (reply "421 4.4.2 Timeout") ≫= fun _ => attempt flush) s))
    | Some _ => (Ok false, s)
    | None =>
        (set_state (UpdateActivity now) ≫= fun _ =>
         r ← attempt (ProcessCommand line);
         panicked ← gets (fun s => dh_panicked (s_dh s));
         if (panicked : bool) then mret false
         else
           (match r with
            | Err e => writeError now e
            | Ok _ => mret tt
            end) ≫= fun _ =>
           s ← get;
           if (negb (is_ok r) && dh_dataSyncLost (s_dh s))%bool then attempt flush ≫= fun _ => mret false
           else if bool_decide (phase (get_state s) = PhaseQuit) then mret false
           else if sv_buffered sv then mret true
           else f ← attempt flush; mret (is_ok f)) s
    end.

Definition loop_step : M Session bool :=
  if sv_shutdown sv then mret false
  else
    ss ← gets get_state;
    if bool_decide (phase ss = PhaseData) then data_iteration else command_iteration.
End Commands.

(** ** Sessions *)

Definition NewSession (now : Z) (input : stream) (writes : option nat)
    (asm : AuthenticationSecurityManager) : Session :=
  {| s_dh := mkDataHandler (NewSessionState now) input None 0 0 false false;
     s_out := []; s_writes_left := writes; s_ssm := Some (NewSessionStateMachine now);
     s_asm := asm; s_rblListed := false; s_queued := [] |}.

(** What the deployment's directory says, whoever asks and when: which passwords are
    right and which shared senders a user may use. *)
Record directory := mkDirectory {
  dir_accepts : string -> string -> Prop;
  dir_shares : string -> string -> Prop     (** sender, login *)
}.

Definition honours (dir : directory) (sv : services) : Prop :=
  (forall user password app,
     sv_authenticate sv user password = Ok (true, app) -> dir_accepts dir user password) /\
  (forall p sender login,
     sv_policies sv = Some p -> sp_shareAccess p sender login = Ok true -> dir_shares dir sender login).

(** A session after some iterations of the loop, each with its own answers from the
    outside; [live] says whether it goes round again. *)
Inductive reachable `{U : UnicodeTables} `{HM : Mac} (env : SessionEnv) (dir : directory)
    : bool -> Session -> Prop :=
| reach_new now input writes asm :
    reachable env dir true (NewSession now input writes asm)
| reach_step sv s live s' :
    reachable env dir true s -> honours dir sv -> loop_step env sv s = (Ok live, s') ->
    reachable env dir live s'.

(** ** A session that runs

    A client on the local network greets, sends a message with DATA and quits. *)
Definition run_steps `{U : UnicodeTables} `{HM : Mac} (env : SessionEnv) (sv : services) (n : nat)
    (s : Session) : bool * Session :=
  Nat.iter n (fun '(go, s) =>
    if (go : bool) then match loop_step env sv s with (Ok b, s') => (b, s') | (Err _, s') => (false, s') end
    else (go, s)) (true, s).

Definition example_services : services :=
  {| sv_now := 5; sv_shutdown := false; sv_memory_ok := true; sv_denySender := fun _ => false;
     sv_inboundMessage := true;
     sv_inboundDomain := fun _ => true; sv_denyRecipient := fun _ => false;
     sv_outboundRecipient := fun _ => true; sv_blocked := false; sv_shielded := fun _ => false;
     sv_rbl := None; sv_rcptVerifier := None; sv_policies := None; sv_tls := None;
     sv_authenticate := fun _ _ => Ok (false, false); sv_xdebug := fun _ => []; sv_buffered := false;
     sv_data := example_env; sv_pipeline := example_pipeline |}.

Definition example_session_env : SessionEnv :=
  {| se_cfg := example_config; se_antispam := None; se_access := mkAccessControl false [] [] ∅ ∅;
     se_srs := None; se_peer := ParseIP "203.0.113.9"; se_host := Some "203.0.113.9";
     se_submission := false; se_webmailSubmission := false; se_requireTLSForPlain := true |}.

Definition example_input : string :=
  "EHLO client.example" +:+ CRLF +:+ "MAIL FROM:<a@client.example>" +:+ CRLF
  +:+ "RCPT TO:<b@ex.org>" +:+ CRLF +:+ "RCPT TO:<c@other.example>" +:+ CRLF +:+ "DATA" +:+ CRLF
  +:+ "From: a@client.example" +:+ CRLF +:+ "Date: today" +:+ crlf2 +:+ "..hello" +:+ CRLF
  +:+ "." +:+ CRLF +:+ "QUIT" +:+ CRLF.

Definition example_asm : AuthenticationSecurityManager := mkAsm ∅ ∅.

Example session_runs :
  let '(go, s) := run_steps (U := ascii_tables) (HM := toy_mac) example_session_env example_services 20
                    (NewSession 0 (bytes_of example_input) None example_asm) in
  go = false /\ tail (tail (tail (tail (tail (tail (tail (tail (tail (s_out s))))))))) =
    ["250 2.1.0 Sender OK"; "250 2.1.5 Recipient OK"; "554 5.7.1 Relay access denied";
     "354 Start mail input; end with <CRLF>.<CRLF>"; "250 2.0.0 Message accepted for delivery";
     "221 2.0.0 mx closing connection"] /\
  (q_to <$> s_queued s) = [["b@ex.org"]].
Proof. vm_compute. done. Qed.
