(* ===== verification/SmtpProtocol.v ===== *)
(** * The SMTP protocol machine and its refinement

    An abstract specification of a session: the stages a transaction goes through,
    who the client is, what has been queued, and the rules under which they change.
    Every iteration of the modelled command loop is a sequence of these rules (a
    simulation over the handlers of Commands.v); what may be queued, by whom and for
    whom, then follows by rule induction on the abstract machine. *)

From S2P Require Import Prelude GoStrings GoNet SmtpState SmtpSyntax Spool SmtpConfig.
From S2P Require Import DataReader Access CommandSecurity Srs Pipeline Session AuthSession.
From S2P Require Import Commands.

Open Scope string_scope.
Open Scope list_scope.
Open Scope Z_scope.

(** ** The abstract machine *)

Inductive stage :=
| Connected                                            (** before HELO or EHLO *)
| Greeted                                              (** between transactions *)
| Envelope (from : string) (rcpts : list string)       (** MAIL accepted *)
| Receiving (from : string) (rcpts : list string)      (** DATA answered with 354 *)
| Chunking (from : string) (rcpts : list string).      (** a BDAT chunk accepted *)

Record proto := mkProto {
  p_stage : stage;
  p_user : option string;
  p_tls : bool;
  p_queue : list queued_message
}.

(** Commands other than the transfer's own may come here. *)
Definition between_chunks (st : stage) : bool :=
  match st with Receiving _ _ | Chunking _ _ => false | _ => true end.

Definition no_transaction (st : stage) : bool :=
  match st with Connected | Greeted => true | _ => false end.

Section Machine.
Context `{U : UnicodeTables} `{HM : Mac}.
Variable env : SessionEnv.
Variable dir : directory.

(** Who may open a transaction with sender [from]. *)
Definition may_send_as (user : option string) (from : string) : Prop :=
  (match cfg_Auth (se_cfg env) with
   | Some a => auth_Enabled a = true -> auth_Required a = true -> user <> None
   | None => True
   end) /\
  (se_submission env = true -> user <> None \/ isRelayAllowed env = true) /\
  Denied (CheckSender (se_access env) from) = false /\
  (forall u, user = Some u ->
     from = "" \/
     (exists a, cfg_Auth (se_cfg env) = Some a /\ auth_AllowAnySender a = true) \/
     senderOwnedBy u from (cfg_LocalDomains (se_cfg env))
       (auth_SenderAliases <$> cfg_Auth (se_cfg env)) = true \/
     dir_shares dir from u).

(** [rcpt] is the sender behind a local SRS address this server signed. *)
Definition srs_bounce (rcpt : string) : Prop :=
  exists r addr t, se_srs env = Some r /\ Is addr = true /\ isLocalDomain env addr = true /\
                   Reverse t r addr = Ok rcpt.

(** Who may name [rcpt] as a recipient. *)
Definition may_send_to (user : option string) (from rcpt : string) : Prop :=
  user <> None \/ isLocalDomain env rcpt = true \/ isRelayAllowed env = true \/
  (from = "" /\ srs_bounce rcpt).

(** Where a password may be sent in the clear. *)
Definition may_sign_in (tls : bool) : Prop :=
  se_requireTLSForPlain env = false \/ tls = true \/
  exists ip, se_peer env = Some ip /\ IsLoopback ip = true.

Inductive pstep : proto -> proto -> Prop :=
| ps_greet st u t q :
    between_chunks st = true ->
    pstep (mkProto st u t q) (mkProto Greeted u t q)
| ps_abort st u t q :
    st <> Connected -> pstep (mkProto st u t q) (mkProto Greeted u t q)
| ps_auth st u pw t q :
    no_transaction st = true -> may_sign_in t -> dir_accepts dir u pw ->
    pstep (mkProto st None t q) (mkProto st (Some u) t q)
| ps_starttls st u q :
    no_transaction st = true ->
    pstep (mkProto st u false q) (mkProto Connected u true q)
| ps_mail u t q from :
    may_send_as u from ->
    pstep (mkProto Greeted u t q) (mkProto (Envelope from []) u t q)
| ps_rcpt from l u t q rcpt :
    may_send_to u from rcpt ->
    pstep (mkProto (Envelope from l) u t q) (mkProto (Envelope from (l ++ [rcpt])) u t q)
| ps_data from l u t q :
    l <> [] -> pstep (mkProto (Envelope from l) u t q) (mkProto (Receiving from l) u t q)
| ps_chunk from l u t q :
    l <> [] -> pstep (mkProto (Envelope from l) u t q) (mkProto (Chunking from l) u t q)
| ps_drop_chunks from l u t q :
    pstep (mkProto (Chunking from l) u t q) (mkProto (Envelope from l) u t q)
| ps_deliver from l st u t q m :
    st = Receiving from l \/ st = Chunking from l -> q_from m = from -> q_to m = l ->
    pstep (mkProto st u t q) (mkProto Greeted u t (q ++ [m])).
End Machine.

(** ** The session as the machine sees it *)

Set Primitive Projections.
Record core_state := mkCore {
  c_phase : SMTPPhase; c_greeted : bool; c_auth : bool; c_user : string; c_from : string;
  c_rcpts : list string; c_mode : DataTransferMode; c_tls : bool; c_spool : option MessageSpool;
  c_lost : bool; c_panicked : bool; c_ssm : option SessionStateMachine;
  c_queued : list queued_message
}.
Unset Primitive Projections.

Definition core (s : Session) : core_state :=
  let ss := get_state s in
  mkCore (phase ss) (greeted ss) (authenticated ss) (username ss) (mailFrom ss) (rcptTo ss)
    (dataTransferMode ss) (tlsActive ss) (dh_bdatSpool (s_dh s)) (dh_dataSyncLost (s_dh s))
    (dh_panicked (s_dh s)) (s_ssm s) (s_queued s).

Definition stage_of (c : core_state) : stage :=
  match c_phase c with
  | PhaseMail => Greeted
  | PhaseRcpt => match c_mode c with
                 | DataModeBDAT => Chunking (c_from c) (c_rcpts c)
                 | _ => Envelope (c_from c) (c_rcpts c)
                 end
  | PhaseData => Receiving (c_from c) (c_rcpts c)
  | _ => Connected
  end.

Definition abs (c : core_state) : proto :=
  mkProto (stage_of c) (if c_auth c then Some (c_user c) else None) (c_tls c) (c_queued c).

(** No second sign-in: the state machine cannot enter Authenticating again. *)
Definition identity_fixed (c : core_state) : Prop :=
  c_auth c = true ->
  match c_ssm c with
  | Some m => IsValidTransition (ssm_currentState m) SessionStateAuthenticating = false
  | None => True
  end.

(** What holds whenever the loop is about to read: the phase tells the transfer
    mode, spooled chunks belong to a BDAT transfer, and the reader is in step. *)
Definition phase_ok (c : core_state) : Prop :=
  match c_phase c with
  | PhaseInit => c_greeted c = false /\ c_mode c = DataModeNone /\ c_rcpts c = []
  | PhaseMail => c_greeted c = true /\ c_mode c = DataModeNone /\ c_rcpts c = []
  | PhaseRcpt => c_greeted c = true /\
                 (c_mode c = DataModeNone \/ (c_mode c = DataModeBDAT /\ c_rcpts c <> []))
  | PhaseData => c_greeted c = true /\ c_mode c = DataModeDATA /\ c_rcpts c <> []
  | _ => False
  end.

Record wf (c : core_state) : Prop := mkWf {
  wf_phase : phase_ok c;
  wf_spool : c_spool c <> None -> c_mode c = DataModeBDAT;
  wf_sync : c_lost c = false;
  wf_calm : c_panicked c = false;
  wf_identity : identity_fixed c
}.

(** The loop goes on after a command unless the session panicked, quit, or failed
    with the reader out of step. *)
Definition continues (ok : bool) (c : core_state) : Prop :=
  c_panicked c = false /\ c_phase c <> PhaseQuit /\ (ok = false -> c_lost c = false).

(** ** Simulation *)

(** Nothing the machine sees has changed. *)
Definition quiet (s s' : Session) : Prop := core s' = core s.

#[global] Instance quiet_refl : Reflexive quiet.
Proof. done. Qed.
#[global] Instance quiet_trans : Transitive quiet.
Proof. unfold quiet. congruence. Qed.

Lemma write_quiet now msg : kept quiet (write now msg).
Proof. intros s. unfold write. by destruct (s_writes_left s) as [[|n]|]. Qed.

Lemma flush_quiet : kept quiet flush.
Proof. intros s. unfold flush. by destruct (s_writes_left s) as [[|n]|]. Qed.

Lemma read_line_quiet : kept quiet read_line.
Proof. intros s. unfold read_line, on_data. by destruct (ReadLine _). Qed.

#[export] Hint Resolve write_quiet flush_quiet read_line_quiet quiet_refl quiet_trans : elemta.

Lemma write_lines_quiet now w l : kept quiet (write_lines now w l).
Proof.
  induction l as [|x l IH]; cbn [write_lines]; [auto with elemta|].
  apply kept_bind; [auto with typeclass_instances|auto with elemta|].
  intros [?|?]; auto with elemta.
Qed.

Lemma set_state_quiet f :
  (forall s, core (s <| s_dh ::= fun dh => dh <| dh_state ::= f |> |>) = core s) ->
  kept quiet (set_state f).
Proof. intros H. apply kept_modify. exact H. Qed.

Lemma writeError_quiet now e : kept quiet (writeError now e).
Proof.
  unfold writeError. apply kept_bind; [auto with typeclass_instances|auto with elemta|].
  intros _. by apply set_state_quiet.
Qed.

Lemma reply_quiet sv msg : kept quiet (reply sv msg).
Proof. apply write_quiet. Qed.

Lemma writeError_spec now e s : wp (writeError now e) (fun r s' => r = Ok tt /\ quiet s s') s.
Proof.
  pose proof (writeError_quiet now e s) as H. split; [|exact H].
  unfold writeError, mbind, M_bind, attempt. by destruct (write _ _ _).
Qed.

#[export] Hint Resolve write_lines_quiet writeError_quiet reply_quiet : elemta.

Section Simulation.
Context `{U : UnicodeTables} `{HM : Mac}.
Variable env : SessionEnv.
Variable dir : directory.
Variable sv : services.
Hypothesis Hsv : honours dir sv.

Abbreviation step := (pstep env dir).

Definition good (ok : bool) (c c' : core_state) : Prop :=
  exists p, rtc step (abs c) p /\ p_queue p = c_queued c' /\
            (continues ok c' -> p = abs c' /\ wf c').

Definition simulated {A} (m : M Session A) (s : Session) : Prop :=
  wp m (fun r s' => good (is_ok r) (core s) (core s')) s.

Lemma good_stay ok c : wf c -> good ok c c.
Proof. intros H. exists (abs c). auto using rtc_refl. Qed.

Lemma good_move ok c c' : rtc step (abs c) (abs c') -> wf c' -> good ok c c'.
Proof. intros H Hwf. exists (abs c'). auto. Qed.

Lemma good_one ok c c' : step (abs c) (abs c') -> wf c' -> good ok c c'.
Proof. intros H. by apply good_move, rtc_once. Qed.

Lemma good_end ok c c' : c_queued c' = c_queued c -> ~ continues ok c' -> good ok c c'.
Proof. intros Hq Hn. exists (abs c). split; [apply rtc_refl|]. by split. Qed.

Lemma simulated_quiet {A} (m : M Session A) s : kept quiet m -> wf (core s) -> simulated m s.
Proof.
  intros Hq Hwf. eapply wp_kept; [exact Hq|]. intros r s' E. rewrite E. by apply good_stay.
Qed.

(** *** Greeting, reset and the commands without effect *)

Lemma reset_core now s :
  core (s <| s_dh ::= fun dh => dh <| dh_state ::= Reset now |> |>)
  = (core s) <| c_phase := if c_greeted (core s) then PhaseMail else PhaseInit |>
      <| c_from := "" |> <| c_rcpts := [] |> <| c_mode := DataModeNone |>.
Proof. reflexivity. Qed.

Definition greeted_core (c : core_state) : core_state :=
  c <| c_phase := PhaseMail |> <| c_greeted := true |> <| c_from := "" |> <| c_rcpts := [] |>
    <| c_mode := DataModeNone |>.

Lemma wf_greeted c : c_spool c = None -> c_lost c = false -> c_panicked c = false ->
  identity_fixed c -> wf (greeted_core c).
Proof. intros Hs Hl Hp Hi. split; [by repeat split|intros []; exact Hs|done..]. Qed.

Lemma good_greet ok c : wf c -> between_chunks (stage_of c) = true -> c_mode c = DataModeNone ->
  good ok c (greeted_core c).
Proof.
  intros Hwf Hst Hm. apply good_one; [by apply ps_greet|].
  destruct Hwf as [_ Hs ? ? ?]. apply wf_greeted; try done.
  destruct (c_spool c); [|done]. by rewrite Hm in Hs; specialize (Hs ltac:(done)).
Qed.

(** The commands a phase admits, for a command spelled in upper case. *)
Lemma accepted k s :
  ToUpper (TrimSpace k) = k -> bool_decide (k ∈ ["BDAT"; "RSET"; "QUIT"; "NOOP"]) = false ->
  CanAcceptCommand k (get_state s) = true ->
  c_mode (core s) <> DataModeBDAT /\ bool_decide (k ∈ allowedCommands (c_phase (core s))) = true.
Proof.
  unfold CanAcceptCommand. intros -> Hk H.
  destruct (bool_decide (dataTransferMode _ = _)) eqn:E; [by rewrite Hk in H|].
  bool_facts. split; [exact E|by apply bool_decide_eq_true].
Qed.

Lemma mode_none c :
  wf c -> c_mode c <> DataModeBDAT -> c_phase c <> PhaseData ->
  c_mode c = DataModeNone /\ between_chunks (stage_of c) = true.
Proof.
  intros [Hp _ _ _ _] Hm Hd. unfold phase_ok, stage_of in *.
  destruct (c_phase c); try done; [by destruct Hp as (_ & -> & _)..|].
  destruct Hp as [_ [->|[? _]]]; done.
Qed.

(** Both greetings: the state they leave, and the reply. *)
Lemma greeting_simulated (args : string) (tail : M Session unit) s :
  wf (core s) -> c_mode (core s) <> DataModeBDAT -> c_phase (core s) <> PhaseData ->
  kept quiet tail ->
  simulated (set_state (SetHeloName args) ≫= fun _ => set_state (SetGreeted true) ≫= fun _ =>
             set_state (Reset (now sv)) ≫= fun _ => tail) s.
Proof.
  intros Hwf Hm Hd Hq. unfold simulated, set_state. repeat wp_step.
  eapply wp_kept; [apply Hq|]. intros r s' ->.
  change (good (is_ok r) (core s) (greeted_core (core s))).
  apply good_greet; [done|by apply mode_none..].
Qed.

Lemma HELO_simulated args s :
  wf (core s) -> CanAcceptCommand "HELO" (get_state s) = true ->
  simulated (HandleHELO env sv args) s.
Proof.
  intros Hwf Hacc. apply accepted in Hacc as [Hm Hp]; [|done..].
  unfold HandleHELO. repeat case_match; try (apply simulated_quiet; by auto with elemta).
  apply greeting_simulated; [done..| |apply write_quiet].
  intros E. by rewrite E in Hp.
Qed.

Lemma EHLO_simulated args s :
  wf (core s) -> CanAcceptCommand "EHLO" (get_state s) = true ->
  simulated (HandleEHLO env sv args) s.
Proof.
  intros Hwf Hacc. apply accepted in Hacc as [Hm Hp]; [|done..].
  unfold HandleEHLO. repeat case_match; try (apply simulated_quiet; by auto with elemta).
  apply greeting_simulated; [done..| |].
  - intros E. by rewrite E in Hp.
  - apply kept_bind; auto with elemta typeclass_instances.
Qed.

Definition rset_core (c : core_state) : core_state :=
  c <| c_phase := if c_greeted c then PhaseMail else PhaseInit |> <| c_from := "" |>
    <| c_rcpts := [] |> <| c_mode := DataModeNone |> <| c_spool := None |>.

Lemma wf_rset c : c_lost c = false -> c_panicked c = false -> identity_fixed c -> wf (rset_core c).
Proof.
  intros Hl Hp Hi. split; try done. unfold phase_ok. cbn. by destruct (c_greeted c) eqn:E.
Qed.

Lemma rset_step c : phase_ok c -> rtc step (abs c) (abs (rset_core c)).
Proof.
  intros Hp. unfold phase_ok in Hp.
  assert (abs (rset_core c) = mkProto (if c_greeted c then Greeted else Connected)
            (p_user (abs c)) (p_tls (abs c)) (p_queue (abs c))) as ->.
  { unfold abs, stage_of. cbn. by destruct (c_greeted c). }
  unfold abs, stage_of. destruct (c_phase c); try done; destruct Hp as (-> & Hp).
  - apply rtc_refl.
  - apply rtc_refl.
  - apply rtc_once, ps_abort. by destruct (c_mode c).
  - by apply rtc_once, ps_abort.
Qed.

Lemma good_rset ok c : wf c -> good ok c (rset_core c).
Proof. intros []. apply good_move; [by apply rset_step|by apply wf_rset]. Qed.

Lemma RSET_simulated s : wf (core s) -> simulated (HandleRSET sv) s.
Proof.
  intros Hwf. unfold simulated, HandleRSET, set_state. repeat wp_step.
  unfold reply. eapply wp_kept; [apply write_quiet|]. intros r s' ->.
  by apply (good_rset _ (core s)).
Qed.

Lemma wp_try_state f (Q : result unit -> Session -> Prop) s :
  Q (fst (f (get_state s))) (s <| s_dh ::= fun dh => dh <| dh_state := snd (f (get_state s)) |> |>) ->
  wp (try_state f) Q s.
Proof. unfold wp, try_state. by destruct (f (get_state s)). Qed.

Lemma QUIT_simulated s : wf (core s) -> simulated (HandleQUIT env sv) s.
Proof.
  intros Hwf. unfold simulated, HandleQUIT, reply. repeat wp_step. apply wp_try_state.
  assert (Hv : SetPhase (now sv) PhaseQuit (get_state s)
          = (Ok tt, touch (now sv) (get_state s) <| phase := PhaseQuit |>)).
  { destruct Hwf as [Hp _ _ _ _]. unfold phase_ok in Hp. unfold SetPhase.
    change (c_phase (core s)) with (phase (get_state s)) in Hp.
    by destruct (phase (get_state s)). }
  rewrite Hv. cbn [fst snd].
  apply wp_bind. eapply wp_kept; [apply write_quiet|]. intros r1 s1 E1.
  assert (forall ok s', quiet s1 s' -> good ok (core s) (core s')) as Hend.
  { intros ok s' ->. rewrite E1. apply good_end; [done|]. by intros (_ & Hn & _). }
  destruct r1; [|by apply Hend].
  eapply wp_kept; [apply flush_quiet|]. intros r s'. apply Hend.
Qed.

Lemma idle_core c : wf c -> no_transaction (stage_of c) = true ->
  c_mode c = DataModeNone /\ c_rcpts c = [] /\ c_spool c = None.
Proof.
  intros [Hp Hs _ _ _] Hn. unfold phase_ok, stage_of in *.
  assert (c_mode c = DataModeNone /\ c_rcpts c = []) as [Hm Hr].
  { destruct (c_phase c); try done; [tauto..|by destruct (c_mode c)]. }
  split_and!; try done. destruct (c_spool c); [|done]. rewrite Hm in Hs. by specialize (Hs ltac:(done)).
Qed.

Ltac core_is t := match goal with |- good ?ok ?c _ => change (good ok c t) end.

Lemma STARTTLS_simulated s :
  wf (core s) -> no_transaction (stage_of (core s)) = true -> simulated (HandleSTARTTLS sv) s.
Proof.
  intros Hwf Hidle. unfold simulated, HandleSTARTTLS, reply, set_state. repeat wp_step.
  - by apply good_stay.
  - eapply wp_kept; [apply write_quiet|]. intros r1 s1 E1.
    destruct r1; [|rewrite E1; by apply good_stay].
    apply wp_bind. eapply wp_kept; [apply flush_quiet|]. intros r2 s2 E2. red in E1, E2.
    destruct r2; [|rewrite E2, E1; by apply good_stay].
    rewrite E1 in E2. repeat wp_step.
    + core_is ((core s2) <| c_tls := true |> <| c_greeted := false |> <| c_phase := PhaseInit |>
        <| c_from := "" |> <| c_rcpts := [] |> <| c_mode := DataModeNone |>).
      rewrite E2. destruct (idle_core _ Hwf Hidle) as (Hm & Hr & Hs). destruct Hwf as [_ _ ? ? ?].
      apply good_one; [|by split].
      unfold abs at 1. change (c_tls (core s)) with (tlsActive (get_state s)). rewrite H.
      by apply ps_starttls.
    + apply good_end; [by rewrite <- E2|]. intros (_ & _ & Hl). by discriminate Hl.
  - by apply good_stay.
Qed.

(** *** MAIL and RCPT *)

Lemma checkRBL_quiet : kept quiet (checkRBL env sv).
Proof.
  unfold checkRBL. apply kept_bind; [auto with typeclass_instances|auto with elemta|].
  intros ss. repeat case_match; auto with elemta.
  - apply kept_bind; [auto with typeclass_instances|by apply kept_modify|auto with elemta].
  - apply kept_bind; [auto with typeclass_instances|by apply kept_modify|auto with elemta].
Qed.

Definition user_of (ss : SessionState) : option string :=
  if authenticated ss then Some (username ss) else None.

Lemma user_of_auth ss : user_of ss <> None <-> authenticated ss = true.
Proof. unfold user_of. by destruct (authenticated ss). Qed.

Lemma checkSenderBinding_sound ss from u :
  checkSenderBinding env sv ss from = Ok tt -> user_of ss = Some u ->
  from = "" \/
  (exists a, cfg_Auth (se_cfg env) = Some a /\ auth_AllowAnySender a = true) \/
  senderOwnedBy u from (cfg_LocalDomains (se_cfg env))
    (auth_SenderAliases <$> cfg_Auth (se_cfg env)) = true \/
  dir_shares dir from u.
Proof.
  unfold checkSenderBinding, user_of, cfg. intros H Hu.
  destruct (authenticated ss); [|done]. injection Hu as <-. cbn [negb orb] in H.
  destruct (from =? "")%string eqn:Ef; [bool_facts; by left|]. right.
  destruct (match cfg_Auth (se_cfg env) with Some a => _ | None => _ end) eqn:Ea.
  { left. destruct (cfg_Auth (se_cfg env)) as [a|]; [|done]. eauto. }
  right. destruct (senderOwnedBy _ _ _ _) eqn:Eo; [by left|]. right.
  unfold senderPolicies in H. destruct (_ || _)%bool; [done|].
  destruct (sv_policies sv) as [p|] eqn:Ep; [|done].
  destruct (sp_shareAccess p from (username ss)) as [[]|] eqn:Es; try done.
  by eapply (proj2 Hsv).
Qed.

Lemma checkSubmissionSender_sound ss :
  checkSubmissionSender env ss = Ok tt -> se_submission env = true ->
  user_of ss <> None \/ isRelayAllowed env = true.
Proof.
  unfold checkSubmissionSender. rewrite user_of_auth. intros H Hs. rewrite Hs in H.
  destruct (authenticated ss); [by left|]. right. by destruct (isRelayAllowed env).
Qed.

(** Case on a core whose fields are then plain variables. *)
Ltac open_core c :=
  destruct c as [ph gr au us fr rc mo tl sp lo pa sm qu];
  unfold phase_ok in *; cbn in *; subst.

Lemma good_mail ok c from :
  wf c -> c_phase c = PhaseMail -> may_send_as env dir (p_user (abs c)) from ->
  good ok c (c <| c_phase := PhaseRcpt |> <| c_from := from |> <| c_rcpts := [] |>).
Proof.
  intros [Hp Hs ? ? ?] Hph Hmay. open_core c. destruct Hp as (-> & -> & ->).
  apply good_one; [by apply ps_mail|]. split; try done. by (split; [|left]).
Qed.

Lemma MAIL_simulated args s :
  wf (core s) -> c_phase (core s) = PhaseMail -> simulated (HandleMAIL env sv args) s.
Proof.
  intros Hwf Hph. unfold simulated, HandleMAIL.
  assert (forall s' ok, quiet s s' -> good ok (core s) (core s')) as Hstay
    by (intros ?? ->; by apply good_stay).
  repeat first [wp_step | by apply Hstay].
  eapply wp_kept; [apply checkRBL_quiet|]. intros r1 s1 E1.
  destruct r1; [|by apply Hstay].
  repeat first [wp_step | by apply Hstay].
  apply wp_try_state. unfold AcceptMail. red in E1.
  change (phase (get_state s1)) with (c_phase (core s1)). rewrite E1, Hph. cbn [fst snd].
  match goal with |- context [bool_decide ?P] => change (bool_decide P) with true end.
  unfold reply. eapply wp_kept; [apply write_quiet|]. intros r s2 ->.
  core_is ((core s1) <| c_phase := PhaseRcpt |> <| c_from := mf_addr a0 |> <| c_rcpts := [] |>).
  rewrite E1. apply good_mail; [done..|]. destruct a, a1.
  change (p_user (abs (core s))) with (user_of (get_state s)). split; [|split_and!].
  - change (cfg env) with (se_cfg env) in H. destruct (cfg_Auth (se_cfg env)) as [au|]; [|done].
    intros He Hr. rewrite user_of_auth. rewrite He, Hr in H. by destruct (authenticated _).
  - by apply checkSubmissionSender_sound.
  - done.
  - intros u. by apply checkSenderBinding_sound.
Qed.

Lemma rcpt_checks_sound ss args parsed rcpt :
  rcpt_checks env sv ss args = Ok (parsed, rcpt) ->
  may_send_to env (user_of ss) (mailFrom ss) rcpt.
Proof.
  unfold rcpt_checks, may_send_to. rewrite user_of_auth. intros H.
  apply result_bind_ok in H as (p & _ & H). do 2 apply result_bind_ok in H as (_ & _ & H).
  apply result_bind_ok in H as (b & Eb & H). apply result_bind_ok in H as (u & Er & H).
  do 4 apply result_bind_ok in H as (_ & _ & H). injection H as -> <-.
  destruct (b =? "")%string eqn:Hb.
  - clear Eb. rename parsed into p. destruct u.
    unfold checkRelayPermissions in Er. destruct (authenticated ss); [by left|].
    destruct (isLocalDomain env _); [by right; left|]. 
    destruct (isRelayAllowed env); [by right; right; left|done].
  - rename parsed into p. clear Er.
    right. right. right. unfold reverseSRS in Eb. destruct (se_srs env) as [r|] eqn:Es.
    2:{ by injection Eb as <-. }
    destruct (Is (rt_addr p)) eqn:Ei; cbn [negb orb] in Eb; [|by injection Eb as <-].
    destruct (isLocalDomain env (rt_addr p)) eqn:El; cbn [negb] in Eb; [|by injection Eb as <-].
    destruct (mailFrom ss =? "")%string eqn:Ef; cbn [negb] in Eb; [|done]. bool_facts.
    destruct (Reverse _ _ _) as [x|] eqn:Ev; [|done]. injection Eb as ->.
    split; [done|]. by exists r, (rt_addr p), (now sv).
Qed.

Lemma good_rcpt ok c rcpt :
  wf c -> c_phase c = PhaseRcpt -> c_mode c = DataModeNone ->
  may_send_to env (p_user (abs c)) (c_from c) rcpt ->
  good ok c (c <| c_rcpts := c_rcpts c ++ [rcpt] |> <| c_phase := PhaseRcpt |>).
Proof.
  intros [Hp Hs ? ? ?] Hph Hm Hmay. open_core c. destruct Hp as [-> _].
  apply good_one; [by apply ps_rcpt|]. split; try done. by (split; [|left]).
Qed.

Lemma RCPT_simulated args s :
  wf (core s) -> c_phase (core s) = PhaseRcpt -> c_mode (core s) = DataModeNone ->
  simulated (HandleRCPT env sv args) s.
Proof.
  intros Hwf Hph Hm. unfold simulated, HandleRCPT.
  repeat first [wp_step | by apply good_stay].
  apply wp_try_state. unfold AddRecipient.
  change (phase (get_state s)) with (c_phase (core s)). rewrite Hph. cbn [fst snd].
  match goal with |- context [bool_decide ?P] => change (bool_decide P) with true end.
  cbv beta iota. apply rcpt_checks_sound in Heqr.
  eapply wp_kept with (R := quiet).
  { apply kept_bind; [auto with typeclass_instances| |intros; apply write_quiet].
    destruct (rt_hasDSN r); [by apply set_state_quiet|auto with elemta]. }
  intros ? s2 ->. by apply (good_rcpt _ (core s)).
Qed.

Lemma good_data ok c :
  wf c -> c_phase c = PhaseRcpt -> c_mode c = DataModeNone -> c_rcpts c <> [] ->
  good ok c (c <| c_mode := DataModeDATA |> <| c_phase := PhaseData |>).
Proof.
  intros [Hp Hs ? ? ?] Hph Hm Hr. open_core c. destruct Hp as [-> _].
  apply good_one; [by apply ps_data|]. split; try done. by destruct sp; [specialize (Hs ltac:(done))|].
Qed.

Lemma DATA_simulated s :
  wf (core s) -> c_phase (core s) = PhaseRcpt -> c_mode (core s) = DataModeNone ->
  simulated (HandleDATA sv) s.
Proof.
  intros Hwf Hph Hm. unfold simulated, HandleDATA.
  repeat first [wp_step | by apply good_stay].
  apply wp_try_state. unfold SetDataTransferMode.
  change (dataTransferMode (get_state s)) with (c_mode (core s)). rewrite Hm. cbn [fst snd].
  match goal with |- context [bool_decide ?P] => change (bool_decide P) with true end.
  cbn [negb andb fst snd]. repeat wp_step. apply wp_try_state. unfold SetPhase.
  match goal with |- context [isValidPhaseTransition ?x _] =>
    change x with (c_phase (core s)) end.
  rewrite Hph. change (isValidPhaseTransition PhaseRcpt PhaseData) with true. cbn [fst snd].
  eapply wp_kept with (R := quiet).
  { apply kept_bind; auto with typeclass_instances elemta. }
  intros r s2 ->.
  core_is ((core s) <| c_mode := DataModeDATA |> <| c_phase := PhaseData |>).
  apply good_data; [done..|]. unfold GetRecipientCount in H. bool_facts.
  intros E. apply H. change (rcptTo (get_state s)) with (c_rcpts (core s)). by rewrite E.
Qed.

(** *** BDAT *)

Lemma chunking_steps c o :
  wf c -> c_phase c = PhaseRcpt -> c_rcpts c <> [] ->
  rtc step (abs c) (abs (c <| c_mode := DataModeBDAT |> <| c_spool := o |>)).
Proof.
  intros [Hp Hs ? ? ?] Hph Hr. open_core c. destruct Hp as [-> [->|[-> _]]].
  - by apply rtc_once, ps_chunk.
  - apply rtc_refl.
Qed.

Lemma good_chunk ok c o :
  wf c -> c_phase c = PhaseRcpt -> c_rcpts c <> [] ->
  good ok c (c <| c_mode := DataModeBDAT |> <| c_spool := o |>).
Proof.
  intros Hwf Hph Hr. apply good_move; [by apply chunking_steps|].
  destruct Hwf as [Hp Hs ? ? ?]. open_core c. split; try done. split; [apply Hp|by right].
Qed.

Lemma good_drop ok c :
  wf c -> c_phase c = PhaseRcpt -> c_rcpts c <> [] ->
  good ok c (c <| c_mode := DataModeNone |> <| c_spool := None |>).
Proof.
  intros Hwf Hph Hr. apply good_move.
  - etrans; [by apply (chunking_steps c None)|]. open_core c. apply rtc_once, ps_drop_chunks.
  - destruct Hwf as [Hp Hs ? ? ?]. open_core c. split; try done. split; [apply Hp|by left].
Qed.

Definition delivered_core (m : queued_message) (c : core_state) : core_state :=
  (rset_core c) <| c_queued := c_queued c ++ [m] |>.

Lemma wf_delivered m c : wf c -> wf (delivered_core m c).
Proof.
  intros [_ _ Hl Hp Hi]. pose proof (wf_rset c Hl Hp Hi) as []. by split.
Qed.

Lemma good_chunks_delivered ok c m :
  wf c -> c_phase c = PhaseRcpt -> c_rcpts c <> [] -> q_from m = c_from c -> q_to m = c_rcpts c ->
  good ok c (delivered_core m c).
Proof.
  intros Hwf Hph Hr Hf Ht. apply good_move; [|by apply wf_delivered].
  etrans; [by apply (chunking_steps c None)|]. destruct Hwf as [Hp ? ? ? ?].
  open_core c. destruct Hp as [-> _].
  eapply rtc_once, ps_deliver; [right; reflexivity|done..].
Qed.

Lemma discard_core size s :
  core (s <| s_dh ::= DiscardBDATChunk (sv_data sv) size |>) = core s \/
  core (s <| s_dh ::= DiscardBDATChunk (sv_data sv) size |>) = (core s) <| c_lost := true |>.
Proof.
  unfold DiscardBDATChunk, update. repeat split_match; auto.
Qed.

(** A refused chunk: consumed, or the session ends. *)
Lemma refused_chunk size e s :
  wf (core s) -> simulated (rejectChunk sv size e) s.
Proof.
  intros Hwf. unfold simulated, rejectChunk, discard. repeat wp_step.
  destruct (discard_core size s) as [->| ->]; [by apply good_stay|].
  apply good_end; [done|]. intros (_ & _ & Hl). by discriminate Hl.
Qed.

Lemma read_chunk_core cfg size s r dh :
  ReadBDATChunk cfg (sv_data sv) size (s_dh s) = (r, dh) ->
  (exists o l p, core (s <| s_dh := dh |>)
     = (core s) <| c_spool := o |> <| c_lost := l |> <| c_panicked := p |>) /\
  (r = Ok tt -> exists sp, core (s <| s_dh := dh |>) = (core s) <| c_spool := Some sp |>).
Proof.
  unfold ReadBDATChunk, DiscardBDATChunk. intros H.
  repeat split_match_in H; injection H as <- <-;
    (split; [by eexists _, _, _|intros; try discriminate; by eexists]).
Qed.

(** The transaction survives a failed chunk, its chunks do not. *)
Lemma good_chunk_failed c o l p :
  wf c -> c_phase c = PhaseRcpt -> c_rcpts c <> [] ->
  good false c (c <| c_mode := DataModeBDAT |> <| c_spool := o |> <| c_lost := l |>
                  <| c_panicked := p |> <| c_spool := None |> <| c_mode := DataModeNone |>).
Proof.
  intros Hwf Hph Hr. destruct p; [apply good_end; [done|by intros (? & _)]|].
  destruct l; [apply good_end; [done|]; intros (_ & _ & Hl); by discriminate Hl|].
  pose proof (good_drop false c Hwf Hph Hr) as Hd. destruct Hwf. by open_core c.
Qed.

Lemma ProcessBDATMessage_core s :
  c_spool (core s) <> None ->
  wp (ProcessBDATMessage env sv) (fun r s' =>
    core s' = (core s) <| c_spool := None |> \/
    exists m, r = Ok tt /\ q_from m = c_from (core s) /\ q_to m = c_rcpts (core s) /\
              core s' = delivered_core m (core s)) s.
Proof.
  intros Hs. unfold wp, ProcessBDATMessage. change (c_spool (core s)) with (dh_bdatSpool (s_dh s)) in Hs.
  destruct (dh_bdatSpool (s_dh s)) as [sp|]; [|done].
  destruct (ProcessMessage _ _ _ _ _) as [[r ss] q] eqn:E.
  apply ProcessMessage_cases in E as [[-> ->]|(m & -> & -> & -> & Hf & Ht)]; cbn [fst snd option_list].
  - left. unfold core. cbn. by rewrite app_nil_r.
  - right. exists m. by split_and!.
Qed.

Lemma bdat_transfer_good size isLast c s :
  wf c -> c_phase c = PhaseRcpt -> c_rcpts c <> [] -> core s = c <| c_mode := DataModeBDAT |> ->
  wp (bdat_transfer env sv size isLast) (fun r s' => good (is_ok r) c (core s')) s.
Proof.
  intros Hwf Hph Hr Hc. unfold bdat_transfer. repeat wp_step. unfold on_data, wp at 1.
  destruct (ReadBDATChunk _ _ _ _) as [r dh] eqn:E. apply read_chunk_core in E as [Herr Hok].
  cbn [fst snd]. destruct r as [[]|e].
  - clear Herr. destruct (Hok eq_refl) as [sp1 Hc1]. rewrite Hc in Hc1. clear Hok.
    set (s1 := s <| s_dh := dh |>) in *. destruct isLast; repeat wp_step.
    + eapply wp_mono; [apply ProcessBDATMessage_core; by rewrite Hc1|]. cbv beta.
      intros r s2 [H2|(m & -> & Hf & Ht & H2)]; rewrite Hc1 in *; repeat wp_step.
      * eapply wp_kept; [apply reply_quiet|]. intros r' s3 E3. red in E3. rewrite H2 in E3.
        destruct r'; [|rewrite E3; by apply (good_chunk _ c None)].
        unfold set_state. wp_step. rewrite reset_core, E3.
        pose proof (good_rset true c Hwf) as Hg. by open_core c.
      * unfold set_state. repeat wp_step.
        core_is ((core s2) <| c_mode := DataModeNone |>). rewrite H2.
        pose proof (good_drop false c Hwf Hph Hr) as Hg. by open_core c.
      * pose proof (fun ok => good_chunks_delivered ok c m Hwf Hph Hr Hf Ht) as Hg.
        eapply wp_kept; [apply reply_quiet|]. intros r' s3 E3. red in E3. rewrite H2 in E3.
        destruct Hwf as [Hp _ _ _ _].
        destruct r'; [|rewrite E3; by apply Hg].
        unfold set_state. wp_step. rewrite reset_core, E3. open_core c. destruct Hp as [-> _]. apply Hg.
    + eapply wp_kept; [apply reply_quiet|]. intros r s3 ->. rewrite Hc1. by apply good_chunk.
  - destruct Herr as (o & l & p & Hc1). rewrite Hc in Hc1. unfold set_state. repeat wp_step.
    core_is ((core (s <| s_dh := dh |>)) <| c_spool := None |> <| c_mode := DataModeNone |>).
    rewrite Hc1. by apply good_chunk_failed.
Qed.

Lemma bdat_chunk_simulated size isLast s :
  wf (core s) -> c_phase (core s) = PhaseRcpt -> simulated (bdat_chunk env sv size isLast) s.
Proof.
  intros Hwf Hph. unfold simulated, bdat_chunk. wp_step. wp_step.
  wp_step; [by apply refused_chunk|]. wp_step; [by apply refused_chunk|].
  assert (Hr : c_rcpts (core s) <> []).
  { unfold GetRecipientCount in *. bool_facts. intros E. change (c_rcpts (core s)) with
      (rcptTo (get_state s)) in E. by rewrite E in *. }
  change (dataTransferMode (get_state s)) with (c_mode (core s)). wp_step. wp_step.
  - wp_step. apply wp_try_state. unfold SetDataTransferMode.
    change (dataTransferMode (get_state s)) with (c_mode (core s)). rewrite Heqb1. cbn [negb andb fst snd].
    by apply bdat_transfer_good.
  - wp_step. bool_facts. apply bdat_transfer_good; [done..|].
    destruct Hwf as [Hp _ _ _ _]. unfold phase_ok in Hp. rewrite Hph in Hp.
    destruct Hp as [_ [?|[Hm _]]]; [done|].
    assert (forall c, c_mode c = DataModeBDAT -> c = c <| c_mode := DataModeBDAT |>) as Heq;
      [|by apply Heq]. clear. intros c Hm. by open_core c.
Qed.

Lemma BDAT_simulated args s :
  wf (core s) -> c_phase (core s) = PhaseRcpt -> simulated (HandleBDAT env sv args) s.
Proof.
  intros Hwf Hph. unfold HandleBDAT.
  assert (forall e, simulated (fail e : M Session unit) s) as Hfail
    by (intros; apply simulated_quiet; auto with elemta).
  repeat (case_match; try apply Hfail); by apply bdat_chunk_simulated.
Qed.

(** *** AUTH *)

(** The session is still anonymous; only the authentication machine has moved. *)
Definition anonymous (c : core_state) (s : Session) : Prop :=
  exists o, core s = c <| c_ssm := o |>.

Definition authenticating (c : core_state) (s : Session) : Prop :=
  exists o, core s = c <| c_ssm := o |> /\
    match o with Some m => ssm_currentState m = SessionStateAuthenticating | None => True end.

Lemma authenticating_anonymous c s : authenticating c s -> anonymous c s.
Proof. intros (o & H & _). by exists o. Qed.

Lemma anonymous_good ok c s : wf c -> c_auth c = false -> anonymous c s -> good ok c (core s).
Proof.
  intros Hwf Ha [o ->]. apply good_move; [apply rtc_refl|].
  destruct Hwf. split; try done. intros Ht. cbn in Ht. congruence.
Qed.

Lemma ssm_try_anonymous (f : SessionStateMachine -> result unit * SessionStateMachine) c s :
  anonymous c s -> anonymous c (s <| s_ssm ::= fmap (fun m => snd (f m)) |>).
Proof.
  intros [o H]. exists ((fun m => snd (f m)) <$> s_ssm s).
  change (core (s <| s_ssm ::= fmap (fun m => snd (f m)) |>))
    with ((core s) <| c_ssm := (fun m => snd (f m)) <$> s_ssm s |>).
  by rewrite H.
Qed.

Lemma TransitionTo_fixed now m :
  ssm_currentState m = SessionStateAuthenticating ->
  IsValidTransition (ssm_currentState (snd (TransitionTo now SessionStateAuthenticated m)))
    SessionStateAuthenticating = false.
Proof.
  intros H. unfold TransitionTo. repeat (split_match; cbn [snd]; try by rewrite H).
Qed.

Lemma SetUsername_state u m : ssm_currentState (snd (SetUsername u m)) = ssm_currentState m.
Proof. unfold SetUsername. by split_match. Qed.

(** Signed in as [u]: the machine can no longer enter Authenticating. *)
Definition signed_in (c : core_state) (u : string) (s : Session) : Prop :=
  exists o, core s = c <| c_ssm := o |> <| c_auth := true |> <| c_user := u |> /\
    match o with
    | Some m => IsValidTransition (ssm_currentState m) SessionStateAuthenticating = false
    | None => True
    end.

Lemma signed_in_good ok c s u pw :
  wf c -> c_auth c = false -> no_transaction (stage_of c) = true -> may_sign_in env (c_tls c) ->
  dir_accepts dir u pw -> signed_in c u s -> good ok c (core s).
Proof.
  intros Hwf Ha Hn Hs Hd (o & -> & Ho). apply good_one.
  - unfold abs. rewrite Ha. by eapply ps_auth.
  - destruct Hwf. split; try done. by intros _.
Qed.

Lemma signing_in now c s u g :
  authenticating c s ->
  exists o,
    core (s <| s_dh ::= fun dh => dh <| dh_state ::= SetAuthenticated now true u |> |>
            <| s_asm ::= g |>
            <| s_ssm ::= fmap (fun m => snd (SetUsername u m)) |>
            <| s_ssm ::= fmap (fun m => snd (TransitionTo now SessionStateAuthenticated m)) |>)
    = c <| c_ssm := o |> <| c_auth := true |> <| c_user := u |> /\
    match o with
    | Some m => IsValidTransition (ssm_currentState m) SessionStateAuthenticating = false
    | None => True
    end.
Proof.
  intros (o & Hc & Ho).
  exists ((fun m => snd (TransitionTo now SessionStateAuthenticated (snd (SetUsername u m)))) <$> o).
  split; [|destruct o as [m|]; [|done]; apply TransitionTo_fixed; by rewrite SetUsername_state].
  match goal with |- core ?x = _ => change (core x) with
    ((core s) <| c_ssm := (fun m => snd (TransitionTo now SessionStateAuthenticated m)) <$>
                           ((fun m => snd (SetUsername u m)) <$> c_ssm (core s)) |>
              <| c_auth := true |> <| c_user := u |>) end.
  rewrite Hc. by destruct o.
Qed.

Lemma performAuthentication_good c s u pw :
  wf c -> c_auth c = false -> no_transaction (stage_of c) = true -> may_sign_in env (c_tls c) ->
  authenticating c s ->
  wp (performAuthentication env sv u pw) (fun r s' => good (is_ok r) c (core s')) s.
Proof.
  intros Hwf Ha Hn Hs Hc. pose proof (authenticating_anonymous _ _ Hc) as Hanon.
  unfold performAuthentication, record_failure, ssm_try, set_state. repeat wp_step.
  - by apply anonymous_good.
  - by apply anonymous_good.
  - apply anonymous_good; [done..|]. by apply ssm_try_anonymous.
  - match goal with |- wp _ _ ?x => set (s0 := x) end. bool_facts.
    destruct (sv_authenticate sv u pw) as [[[] app]|] eqn:Eauth; try done.
    assert (forall ok s', core s' = core s0 -> good ok c (core s')) as Hin.
    { intros ok s' E. apply (signed_in_good ok c s' u pw); try done; [by eapply (proj1 Hsv)|].
      red. rewrite E. by apply signing_in. }
    eapply wp_kept; [apply write_quiet|]. intros [] s1 E1; repeat wp_step; [|by apply Hin].
    eapply wp_kept; [apply flush_quiet|]. intros [] s2 E2; repeat wp_step; apply Hin;
      by rewrite E2.
Qed.

Lemma authenticating_quiet c s s' : quiet s s' -> authenticating c s -> authenticating c s'.
Proof. intros E (o & H & Ho). exists o. by rewrite E. Qed.

Lemma prompt_quiet p : kept quiet (prompt sv p).
Proof.
  unfold prompt. repeat (apply kept_bind; auto with typeclass_instances elemta; intros).
Qed.

Section SignIn.
Variable c : core_state.
Hypothesis Hwf : wf c.
Hypothesis Hanon : c_auth c = false.
Hypothesis Hidle : no_transaction (stage_of c) = true.
Hypothesis Hsecure : may_sign_in env (c_tls c).

Definition stays_good (m : M Session unit) (s : Session) : Prop :=
  wp m (fun r s' => good (is_ok r) c (core s')) s.

Lemma authenticating_fails e s : authenticating c s -> stays_good (fail e) s.
Proof.
  intros H. unfold stays_good. wp_step.
  by apply anonymous_good; [| |apply authenticating_anonymous].
Qed.

(** A line from the client, then the rest of the exchange. *)
Lemma authenticating_line (m : M Session string) (k : string -> M Session unit) s :
  kept quiet m -> (forall x s', authenticating c s' -> stays_good (k x) s') ->
  authenticating c s -> stays_good (m ≫= k) s.
Proof.
  intros Hq Hk Hs. unfold stays_good. apply wp_bind. eapply wp_kept; [exact Hq|].
  intros [x|e] s' E; [by apply Hk; eapply authenticating_quiet|].
  apply (authenticating_fails e s'). by eapply authenticating_quiet.
Qed.

Lemma handleAuthPlain_good cmd s : authenticating c s -> stays_good (handleAuthPlain env sv cmd) s.
Proof.
  intros Hs. unfold handleAuthPlain, stays_good. do 2 wp_step.
  wp_step; [by apply authenticating_fails|].
  apply authenticating_line; [| |done].
  - repeat case_match; auto using prompt_quiet with elemta.
  - intros x s' Hs'. repeat case_match; try by apply authenticating_fails.
    by apply performAuthentication_good.
Qed.

Lemma handleAuthLogin_good cmd s : authenticating c s -> stays_good (handleAuthLogin env sv cmd) s.
Proof.
  intros Hs. unfold handleAuthLogin. apply authenticating_line; [| |done].
  - repeat case_match; auto using prompt_quiet with elemta.
  - intros x s' Hs'. case_match; [|by apply authenticating_fails].
    apply authenticating_line; [apply prompt_quiet| |done].
    intros y s'' Hs''. case_match; [|by apply authenticating_fails].
    by apply performAuthentication_good.
Qed.
End SignIn.

Lemma begin_auth_spec s :
  wf (core s) ->
  wp (begin_auth sv) (fun r s' =>
    match r with
    | Ok _ => c_auth (core s) = false /\ authenticating (core s) s'
    | Err _ => s' = s
    end) s.
Proof.
  intros [_ _ _ _ Hi]. unfold wp, begin_auth. unfold identity_fixed in Hi.
  change (c_ssm (core s)) with (s_ssm s) in Hi. change (c_auth (core s)) with (authenticated (get_state s)) in *.
  destruct (s_ssm s) as [m|] eqn:Em.
  - destruct (ssm_IsAuthenticated _ _); [done|].
    destruct (TransitionTo _ _ m) as [r m'] eqn:Et. destruct r; [|done]. cbn [fst snd].
    unfold TransitionTo in Et. repeat (split_match_in Et; try discriminate Et). bool_facts.
    split; [destruct (authenticated _); [rewrite Hi in *; done|done]|].
    exists (Some m'). split; [done|]. by injection Et as _ <-.
  - destruct (authenticated _) eqn:Ea; [done|]. cbn [fst snd]. split; [done|].
    exists None. split; [|done]. unfold core. cbn. by rewrite Em.
Qed.

Lemma checkSecurityConstraints_sound s :
  checkSecurityConstraints env sv s = Ok tt -> may_sign_in env (c_tls (core s)).
Proof.
  unfold checkSecurityConstraints, plaintextAuthAllowed, may_sign_in.
  change (c_tls (core s)) with (tlsActive (get_state s)). intros H.
  destruct (se_requireTLSForPlain env); [|by left]. cbn [negb orb] in H.
  destruct (tlsActive (get_state s)); [by right; left|]. right. right.
  destruct (se_peer env) as [ip|]; [|done]. destruct (IsLoopback ip) eqn:E; [|done]. eauto.
Qed.

Lemma AUTH_simulated cmd s :
  wf (core s) -> no_transaction (stage_of (core s)) = true -> simulated (HandleAuth env sv cmd) s.
Proof.
  intros Hwf Hn. unfold simulated, HandleAuth, ssm_try, set_state. apply wp_bind.
  eapply wp_mono; [by apply begin_auth_spec|]. cbv beta.
  intros [[]|e] s1 H1; [destruct H1 as [Ha Hs1]|subst; by apply good_stay].
  assert (forall e, stays_good (core s) (fail e) s1) as Hfail by (intros; by apply authenticating_fails).
  assert (forall a, checkSecurityConstraints env sv s1 = Ok a -> may_sign_in env (c_tls (core s))) as Hsec.
  { intros [] H%checkSecurityConstraints_sound. by destruct Hs1 as (o & E & _); rewrite E in H. }
  repeat first [apply Hfail | wp_step].
  - apply handleAuthPlain_good; eauto.
  - apply handleAuthLogin_good; eauto.
  - apply anonymous_good; [done..|]. by apply ssm_try_anonymous, authenticating_anonymous.
Qed.

(** *** Dispatch *)

Lemma HandleXDEBUG_quiet line : kept quiet (HandleXDEBUG env sv line).
Proof. unfold HandleXDEBUG. repeat case_match; auto with elemta. Qed.

Lemma idle_of_phase c : wf c -> c_phase c = PhaseInit \/ c_phase c = PhaseMail ->
  no_transaction (stage_of c) = true.
Proof. intros _ [H|H]; unfold stage_of; by rewrite H. Qed.

(** Which phases let a command through. *)
Ltac phase_of Hacc :=
  apply accepted in Hacc as [Hm Hp]; [|done..];
  match goal with Hwf : wf (core ?s) |- _ =>
    pose proof (wf_phase _ Hwf) as Hpo; unfold phase_ok in Hpo;
    destruct (c_phase (core s)) eqn:Eph; try discriminate Hp; try done
  end.

Lemma bdat_phase s :
  CanAcceptCommand "BDAT" (get_state s) = true -> wf (core s) -> c_phase (core s) = PhaseRcpt.
Proof.
  intros H [Hp _ _ _ _]. unfold phase_ok in Hp. unfold CanAcceptCommand in H.
  change (dataTransferMode (get_state s)) with (c_mode (core s)) in H.
  change (phase (get_state s)) with (c_phase (core s)) in H.
  destruct (c_phase (core s)); try done; destruct Hp as (_ & Hm & _); rewrite Hm in H; discriminate H.
Qed.

Lemma dispatch_simulated cmd args line s :
  ToUpper cmd = cmd -> CanAcceptCommand cmd (get_state s) = true ->
  wf (core s) -> c_phase (core s) <> PhaseData ->
  simulated (dispatch env sv cmd args line) s.
Proof.
  intros Hup Hacc Hwf Hd. unfold dispatch. rewrite Hup.
  assert (forall m : M Session unit, kept quiet m -> simulated m s) as Hquiet
    by (intros; by apply simulated_quiet).
  repeat (case_match; bool_facts; subst); try (apply Hquiet; by auto using HandleXDEBUG_quiet with elemta).
  - by apply HELO_simulated.
  - by apply EHLO_simulated.
  - phase_of Hacc. by apply MAIL_simulated.
  - phase_of Hacc. apply RCPT_simulated; [done..|]. apply mode_none; [done..|]. congruence.
  - phase_of Hacc. apply DATA_simulated; [done..|]. apply mode_none; [done..|]. congruence.
  - apply BDAT_simulated; [done|]. by apply bdat_phase.
  - by apply RSET_simulated.
  - apply Hquiet, reply_quiet.
  - by apply QUIT_simulated.
  - phase_of Hacc; apply AUTH_simulated; try done; apply idle_of_phase; auto.
  - phase_of Hacc; apply STARTTLS_simulated; try done; apply idle_of_phase; auto.
  - apply Hquiet, write_lines_quiet.
  - apply Hquiet, reply_quiet.
  - apply Hquiet, reply_quiet.
Qed.

Lemma ProcessCommand_simulated `{!UnicodeLaws} line s :
  wf (core s) -> c_phase (core s) <> PhaseData -> simulated (ProcessCommand env sv line) s.
Proof.
  intros Hwf Hd. unfold simulated, ProcessCommand, set_state. do 2 wp_step.
  match goal with |- wp _ _ ?x => set (s1 := x) end.
  change (core s) with (core s1) in *.
  do 2 wp_step. wp_step; [|by apply good_stay].
  destruct (parseCommand line) as [cmd args] eqn:Ecmd.
  assert (ToUpper cmd = cmd) as Hup.
  { unfold parseCommand in Ecmd. destruct (Cut _ _) as [[x y] f]. injection Ecmd as <- _.
    apply ToUpper_idem. }
  do 2 wp_step. destruct (CanAcceptCommand cmd (get_state s1)) eqn:Hacc; cbn [negb].
  - by apply dispatch_simulated.
  - assert (forall sz, simulated (discard sv sz ≫= fun _ => fail bad_sequence) s1) as Hrej
      by (intros; by apply refused_chunk).
    assert (simulated (fail bad_sequence : M Session unit) s1) as Hfail
      by (apply simulated_quiet; auto with elemta).
    destruct (EqualFold cmd "BDAT"); [|exact Hfail].
    unfold discardRefusedBDAT.
    repeat (case_match; try exact Hfail); apply Hrej.
Qed.

(** *** The loop *)

(** One iteration: abstract steps to what was queued and, when the loop goes round
    again, to exactly the state it goes round with. *)
Definition iterated (live : bool) (c : core_state) (s' : Session) : Prop :=
  exists p, rtc step (abs c) p /\ p_queue p = c_queued (core s') /\
            (live = true -> p = abs (core s') /\ wf (core s')).

Lemma iterated_good (live ok : bool) c s' :
  good ok c (core s') -> (live = true -> continues ok (core s')) -> iterated live c s'.
Proof. intros (p & Hp & Hq & Hc) Hl. exists p. auto. Qed.

(** What reading a message leaves alone. *)
Definition frame (dh : DataHandler) :=
  let ss := dh_state dh in
  (phase ss, greeted ss, authenticated ss, username ss, mailFrom ss, rcptTo ss, tlsActive ss,
   dh_bdatSpool dh, dh_panicked dh).

Definition in_step (dh : DataHandler) := (dataTransferMode (dh_state dh), dh_dataSyncLost dh).

Lemma data_line_core cfg line rs lm spool dh r dh' :
  data_line cfg (sv_data sv) line rs lm spool dh = inl (r, dh') ->
  frame dh' = frame dh /\ (is_ok r = true -> in_step dh' = in_step dh).
Proof.
  unfold data_line. intros H.
  repeat split_match_in H; try discriminate H; injection H as <- <-; by split.
Qed.

Lemma read_loop_core cfg fuel : forall rs lm spool dh r dh',
  read_loop cfg (sv_data sv) fuel rs lm spool dh = (r, dh') ->
  frame dh' = frame dh /\ (is_ok r = true -> in_step dh' = in_step dh).
Proof.
  induction fuel as [|fuel IH]; cbn [read_loop]; intros rs lm spool dh r dh' H.
  { by injection H as <- <-. }
  destruct (readBoundedSMTPLine _ _) as [[line err] rest].
  repeat split_match_in H; subst; try (injection H as <- <-; by split).
  - by apply data_line_core in Heqs.
  - by apply IH in H.
Qed.

Lemma drain_core dh : frame (drainToEndOfData (sv_data sv) dh) = frame dh.
Proof. unfold drainToEndOfData. by repeat split_match. Qed.

Lemma readData_core cfg dh r dh' :
  readData cfg (sv_data sv) dh = (r, dh') ->
  frame dh' = frame dh /\ (is_ok r = true -> in_step dh' = in_step dh).
Proof.
  unfold readData. destruct (if spoolThreshold cfg <? _ then _ else _) as [r0 sp0]. intros H.
  repeat split_match_in H; try (injection H as <- <-; by split). by eapply read_loop_core.
Qed.

Lemma ReadData_core cfg dh r dh' :
  ReadData cfg (sv_data sv) dh = (r, dh') ->
  frame dh' = frame dh /\ (is_ok r = true -> in_step dh' = in_step dh).
Proof.
  unfold ReadData. destruct (readData cfg (sv_data sv) dh) as [r1 d1] eqn:E.
  apply readData_core in E as [H1 H2].
  destruct r1; intros H; injection H as <- <-; [done|]. split; [|done].
  destruct (dh_dataSyncLost d1); [done|]. by rewrite drain_core.
Qed.

Lemma frame_core s dh m l :
  frame dh = frame (s_dh s) -> dataTransferMode (dh_state dh) = m -> dh_dataSyncLost dh = l ->
  core (s <| s_dh := dh |>) = (core s) <| c_mode := m |> <| c_lost := l |>.
Proof. unfold frame. intros H <- <-. injection H as ????????? . unfold core, update, get_state. cbn. by f_equal. Qed.

(** Receiving a message: it fails and leaves the envelope, or it is processed, with
    one message queued or none. *)
Lemma handleDataPhase_core s :
  wf (core s) ->
  wp (handleDataPhase env sv) (fun r s' =>
    (is_ok r = false /\ exists m l, core s' = (core s) <| c_mode := m |> <| c_lost := l |>) \/
    core s' = core s \/
    exists q, is_ok r = true /\ q_from q = c_from (core s) /\ q_to q = c_rcpts (core s) /\
              core s' = (core s) <| c_phase := if c_greeted (core s) then PhaseMail else PhaseInit |>
                <| c_from := "" |> <| c_rcpts := [] |> <| c_mode := DataModeNone |>
                <| c_queued := c_queued (core s) ++ [q] |>) s.
Proof.
  intros Hwf. unfold handleDataPhase. apply wp_bind. unfold on_data, wp at 1.
  destruct (ReadData _ _ _) as [r dh] eqn:E. apply ReadData_core in E as [Hf Hs]. cbn [fst snd].
  pose proof (frame_core s dh _ _ Hf eq_refl eq_refl) as Hc.
  destruct r as [spool|e]; [|by left; eauto]. right.
  assert (core (s <| s_dh := dh |>) = core s) as Hsame.
  { rewrite Hc. specialize (Hs eq_refl). unfold in_step in Hs. injection Hs as -> ->. reflexivity. }
  set (s1 := s <| s_dh := dh |>) in *. unfold wp, process_spool.
  destruct (ProcessMessage _ _ _ _ _) as [[r ss] q] eqn:Ep.
  apply ProcessMessage_cases in Ep as [[-> ->]|(m & -> & -> & -> & Hfrom & Hto)]; cbn [fst snd option_list].
  - left. rewrite <- Hsame. unfold core. cbn. by rewrite app_nil_r.
  - right. exists m. rewrite <- Hsame. by split_and!.
Qed.

Definition iterates (m : M Session bool) (s : Session) : Prop :=
  wp m (fun r s' => exists live, r = Ok live /\ iterated live (core s) s') s.

Lemma iterated_stop c s' : c_queued (core s') = c_queued c -> iterated false c s'.
Proof. intros H. exists (abs c). split; [apply rtc_refl|]. by split. Qed.

Lemma iterated_reset c s' : wf c -> core s' = rset_core c -> iterated true c s'.
Proof.
  intros [Hp Hs Hl Hpa Hi] H. exists (abs (rset_core c)). rewrite H.
  split; [by apply rset_step|]. split; [done|]. intros _. split; [done|by apply wf_rset].
Qed.

Lemma iterated_delivered c s' q :
  wf c -> c_phase c = PhaseData -> q_from q = c_from c -> q_to q = c_rcpts c ->
  core s' = delivered_core q c -> iterated true c s'.
Proof.
  intros Hwf Hph Hf Ht H. exists (abs (delivered_core q c)). rewrite H.
  split; [|split; [done|intros _; split; [done|by apply wf_delivered]]].
  destruct Hwf as [Hp ? ? ? ?]. clear H. open_core c. destruct Hp as (-> & _).
  eapply rtc_once, ps_deliver; [left; reflexivity|done..].
Qed.

Lemma data_spool c : wf c -> c_phase c = PhaseData -> c_spool c = None /\ c_greeted c = true.
Proof.
  intros [Hp Hs _ _ _] Hph. unfold phase_ok in Hp. rewrite Hph in Hp. destruct Hp as (Hg & Hm & _).
  split; [|done]. destruct (c_spool c); [|done]. rewrite Hm in Hs. by specialize (Hs ltac:(done)).
Qed.

Lemma reset_eq c : c_spool c = None ->
  c <| c_phase := if c_greeted c then PhaseMail else PhaseInit |> <| c_from := "" |>
    <| c_rcpts := [] |> <| c_mode := DataModeNone |> = rset_core c.
Proof. intros H. by open_core c. Qed.

Lemma delivered_eq c q : c_spool c = None -> c_greeted c = true ->
  let c' := c <| c_phase := if c_greeted c then PhaseMail else PhaseInit |> <| c_from := "" |>
    <| c_rcpts := [] |> <| c_mode := DataModeNone |> <| c_queued := c_queued c ++ [q] |> in
  c' <| c_phase := if c_greeted c' then PhaseMail else PhaseInit |> <| c_from := "" |>
    <| c_rcpts := [] |> <| c_mode := DataModeNone |> = delivered_core q c.
Proof. intros H Hg. by open_core c. Qed.

Lemma data_iteration_iterates s :
  wf (core s) -> c_phase (core s) = PhaseData -> iterates (data_iteration env sv) s.
Proof.
  intros Hwf Hph. unfold iterates, data_iteration, set_state. do 2 wp_step.
  eapply wp_kept; [apply flush_quiet|]. intros r0 s0 E0. red in E0.
  wp_step; [|wp_step; eexists; split; [done|]; apply iterated_stop; by rewrite E0].
  rewrite <- E0 in *. clear E0 s r0 Heqr. rename s0 into s.
  do 2 wp_step. eapply wp_mono; [by apply handleDataPhase_core|]. cbv beta. intros r s1 H1.
  wp_step.
  - do 2 wp_step. eapply wp_kept; [apply reply_quiet|]. intros _ s2 E2.
    do 2 wp_step. eapply wp_kept; [apply flush_quiet|]. intros _ s3 E3. red in E2, E3. rewrite E2 in E3.
    repeat wp_step. eexists; split; [done|].
    assert (Hs3 := reset_core (now sv) s3). rewrite E3 in Hs3.
    destruct H1 as [[? _]|[H1|(q & _ & Hf & Ht & H1)]]; [done|..]; rewrite H1 in Hs3.
    + apply iterated_reset; [done|]. rewrite Hs3. by apply reset_eq, data_spool.
    + eapply iterated_delivered; try done. rewrite Hs3. by apply delivered_eq; apply data_spool.
  - apply wp_bind. eapply wp_mono; [apply writeError_spec|]. cbv beta. intros ? s2 [-> E2].
    do 2 wp_step. eapply wp_kept; [apply flush_quiet|]. intros _ s3 E3. red in E2, E3. rewrite E2 in E3.
    do 2 wp_step. destruct (dh_dataSyncLost (s_dh s3)) eqn:El; repeat wp_step; (eexists; split; [done|]).
    + apply iterated_stop. rewrite E3.
      by destruct H1 as [(_ & m & l & ->)|[->|(? & ? & _)]].
    + apply iterated_reset; [done|]. rewrite reset_core, E3.
      change (dh_dataSyncLost (s_dh s3)) with (c_lost (core s3)) in El. rewrite E3 in El.
      destruct H1 as [(_ & m & l & H1)|[H1|(? & ? & _)]]; [| |done]; rewrite H1 in *.
      * rewrite <- reset_eq by (by apply data_spool). cbn in El. subst l.
        pose proof (wf_sync _ Hwf) as Hl. clear -Hl. by open_core (core s).
      * by apply reset_eq, data_spool.
Qed.

Lemma live_good s ok s1 s' live :
  good ok (core s) (core s1) -> quiet s1 s' -> (live = true -> continues ok (core s1)) ->
  iterated live (core s) s'.
Proof. intros Hg E Hl. eapply iterated_good; rewrite E; eauto. Qed.

Lemma command_iteration_iterates `{!UnicodeLaws} s :
  wf (core s) -> c_phase (core s) <> PhaseData -> iterates (command_iteration env sv) s.
Proof.
  intros Hwf Hd. unfold iterates, command_iteration, wp at 1.
  destruct (readBoundedSMTPLine 512 (dh_reader (s_dh s))) as [[line err] rest].
  set (s0 := s <| s_dh ::= _ |>). change (core s) with (core s0) in *.
  assert (forall s', quiet s0 s' -> exists live, Ok false = Ok live /\ iterated live (core s0) s') as Hstop.
  { intros s' E. eexists. split; [done|]. apply iterated_stop. by rewrite E. }
  assert (forall msg, quiet s0 (snd ((attempt (reply sv msg) ≫= fun _ => attempt flush) s0))) as Hlast.
  { intros msg. apply kept_bind; auto with typeclass_instances elemta. }
  cbv zeta. destruct err as [[]|]; cbv beta iota; cbn [fst snd]; try (by apply Hstop).
  lazymatch goal with |- context [fst (?m s0)] =>
    change (wp m (fun r s' => exists live, r = Ok live /\ iterated live (core s0) s') s0) end.
  unfold set_state. wp_step. wp_step. match goal with |- wp _ _ ?x => set (s1 := x) end.
  change (core s0) with (core s1) in *. clearbody s1. clear Hstop Hlast.
  do 2 wp_step. eapply wp_mono; [by apply ProcessCommand_simulated|]. cbv beta. intros r s2 Hg.
  do 2 wp_step. destruct (dh_panicked (s_dh s2)) eqn:Epan.
  { wp_step. eexists; split; [done|]. by eapply live_good. }
  apply wp_bind. apply (wp_mono _ (fun r' s' => r' = Ok tt /\ quiet s2 s')).
  { destruct r; [by wp_step|apply writeError_spec]. }
  intros ? s3 [-> E3]. cbv iota. red in E3. do 2 wp_step.
  change (dh_dataSyncLost (s_dh s3)) with (c_lost (core s3)).
  change (phase (get_state s3)) with (c_phase (core s3)). rewrite E3.
  destruct (negb (is_ok r) && c_lost (core s2))%bool eqn:El.
  { do 2 wp_step. eapply wp_kept; [apply flush_quiet|]. intros _ s4 E4. wp_step.
    eexists; split; [done|]. eapply live_good; [done|by etrans|done]. }
  assert (Hcont : c_phase (core s2) <> PhaseQuit -> continues (is_ok r) (core s2)).
  { intros Hq. split; [exact Epan|]. split; [done|]. intros Hr. by rewrite Hr in El. }
  destruct (bool_decide (c_phase (core s2) = PhaseQuit)) eqn:Eq; bool_facts.
  { wp_step. eexists; split; [done|]. by eapply live_good. }
  destruct (sv_buffered sv).
  { wp_step. eexists; split; [done|]. eapply live_good; [done..|]. auto. }
  do 2 wp_step. eapply wp_kept; [apply flush_quiet|]. intros r' s4 E4. wp_step.
  eexists; split; [done|]. eapply live_good; [done|by etrans|]. auto.
Qed.

Lemma loop_step_iterates `{!UnicodeLaws} s : wf (core s) -> iterates (loop_step env sv) s.
Proof.
  intros Hwf. unfold iterates, loop_step. destruct (sv_shutdown sv).
  { wp_step. exists false. split; [done|]. by apply iterated_stop. }
  do 2 wp_step. change (phase (get_state s)) with (c_phase (core s)).
  destruct (bool_decide _) eqn:E; bool_facts;
    [by apply data_iteration_iterates|by apply command_iteration_iterates].
Qed.

Lemma loop_step_run `{!UnicodeLaws} s r s' :
  wf (core s) -> loop_step env sv s = (r, s') ->
  exists live, r = Ok live /\ iterated live (core s) s'.
Proof.
  intros Hwf Hstep. pose proof (loop_step_iterates s Hwf) as H0. unfold iterates, wp in H0.
  by rewrite Hstep in H0.
Qed.
End Simulation.

(** ** Invariants of the machine *)

Section Invariants.
Context `{U : UnicodeTables} `{HM : Mac}.
Variable env : SessionEnv.
Variable dir : directory.

Definition initial : proto := mkProto Connected None false [].

(** The sender and the recipients of an envelope are ones [user] may use. *)
Definition entitled (user : option string) (from : string) (rcpts : list string) : Prop :=
  may_send_as env dir user from /\ Forall (may_send_to env user from) rcpts.

(** Nobody, or somebody whose password the directory accepts. *)
Definition known (user : option string) : Prop :=
  match user with Some u => exists pw, dir_accepts dir u pw | None => True end.

Record pinv (p : proto) : Prop := mkPinv {
  pinv_user : known (p_user p);
  pinv_secure : p_user p <> None -> may_sign_in env (p_tls p);
  pinv_stage : match p_stage p with
               | Envelope from l => entitled (p_user p) from l
               | Receiving from l | Chunking from l => entitled (p_user p) from l /\ l <> []
               | _ => True
               end;
  pinv_queue : Forall (fun m => exists u, known u /\ entitled u (q_from m) (q_to m) /\ q_to m <> [])
                 (p_queue p)
}.

Lemma pinv_initial : pinv initial.
Proof. by split. Qed.

Lemma pstep_pinv p p' : pstep env dir p p' -> pinv p -> pinv p'.
Proof.
  destruct 1; intros [Hu Hs Hst Hq]; cbn in *; try (split; by cbn).
  - split; cbn; try done; [by eexists|]. by destruct st.
  - split; cbn; try done. intros _. by right; left.
  - split; cbn; try done. destruct Hst as [? ?]. split; [done|].
    apply Forall_app. split; [done|]. by apply Forall_singleton.
  - split; cbn; try done. apply Hst.
  - subst. split; cbn; try done. apply Forall_app. split; [done|]. constructor; [|constructor].
    exists u. by destruct H as [->| ->]; cbn in Hst; destruct Hst.
Qed.

Lemma rtc_pinv p p' : rtc (pstep env dir) p p' -> pinv p -> pinv p'.
Proof. induction 1; eauto using pstep_pinv. Qed.


Lemma NewSession_wf now input writes asm :
  wf (core (NewSession now input writes asm)) /\
  abs (core (NewSession now input writes asm)) = initial.
Proof. split; [|done]. by split. Qed.

Lemma reachable_sim `{!UnicodeLaws} live s :
  reachable env dir live s ->
  exists p, rtc (pstep env dir) initial p /\ p_queue p = s_queued s /\
            (live = true -> p = abs (core s) /\ wf (core s)).
Proof.
  induction 1 as [now input writes asm|sv s live s' _ IH Hsv Hstep].
  - exists initial. split; [apply rtc_refl|]. split; [done|]. intros _.
    by destruct (NewSession_wf now input writes asm).
  - destruct IH as (p & Hp & _ & Hl). destruct (Hl eq_refl) as [-> Hwf].
    destruct (loop_step_run env dir sv Hsv _ _ _ Hwf Hstep) as (l & El & Hit).
    injection El as <-. destruct Hit as (p' & Hp' & Hq & Hl'). exists p'. split; [by etrans|]. done.
Qed.

Lemma reachable_pinv `{!UnicodeLaws} live s :
  reachable env dir live s ->
  exists p, pinv p /\ p_queue p = s_queued s /\ (live = true -> p = abs (core s) /\ wf (core s)).
Proof.
  intros (p & Hp & Hrest)%reachable_sim. exists p. split; [|done].
  eapply rtc_pinv; [done|apply pinv_initial].
Qed.
End Invariants.

(** Running a session with one set of answers reaches what it computes. *)
Lemma run_reachable `{U : UnicodeTables} {UL : UnicodeLaws} `{HM : Mac} env dir sv n s :
  honours dir sv -> reachable env dir true s ->
  reachable env dir (fst (run_steps env sv n s)) (snd (run_steps env sv n s)).
Proof.
  intros Hsv Hs. unfold run_steps. induction n as [|n IH]; [exact Hs|].
  rewrite Nat.iter_succ. destruct (Nat.iter n _ _) as [[] s1]; [|exact IH]. cbn [fst snd] in *.
  destruct (loop_step env sv s1) as [[live|e] s2] eqn:E; [by eapply reach_step|].
  apply reachable_sim in IH as (p & _ & _ & Hl); [|done]. destruct (Hl eq_refl) as [_ Hwf].
  by destruct (loop_step_run env dir sv Hsv _ _ _ Hwf E) as (? & ? & _).
Qed.

(** ** Properties *)

(** C2 (refinement).  Whatever a client sends and whatever the outside answers, an
    execution of the command loop is an execution of the abstract machine: it ends
    with exactly the messages the machine queued, and a session that is still alive
    stands in the machine's state: its handler has not recorded that it lost its place in
    the stream, it has not panicked, and its phase, transfer mode and spool agree.  The
    record is the handler's own: a chunk whose read ended short ([bdat_short_read_not_marked])
    and a BDAT that the command screen refuses before it is parsed leave a session alive
    with the client's chunk still to be read, and without it. *)
Theorem session_refines_protocol `{U : UnicodeTables} {UL : UnicodeLaws} `{HM : Mac}
    (env : SessionEnv) (dir : directory) (live : bool) (s : Session)
    (Hreach : reachable env dir live s) :
  exists p, rtc (pstep env dir) initial p /\ p_queue p = s_queued s /\
            (live = true -> p = abs (core s) /\ wf (core s)).
Proof. by apply reachable_sim. Qed.

(** C1 (no open relay, and no sender but one's own).  Every message a session puts in
    the queue was accepted from somebody entitled to it: from a client that never
    signed in, with every recipient local, or behind a signed SRS address in reply to
    a null sender, or from a peer allowed to relay; or from a user whose password the
    directory accepts, with a sender address that user owns, is granted or may choose
    freely.  No denied sender and no empty recipient list gets through, and where
    authentication is required nobody anonymous does. *)
Theorem queued_mail_authorised `{U : UnicodeTables} {UL : UnicodeLaws} `{HM : Mac}
    (env : SessionEnv) (dir : directory) (live : bool) (s : Session)
    (Hreach : reachable env dir live s) :
  Forall (fun m => exists user, known dir user /\
            may_send_as env dir user (q_from m) /\
            Forall (may_send_to env user (q_from m)) (q_to m) /\ q_to m <> []) (s_queued s).
Proof.
  apply reachable_pinv in Hreach as (p & Hp & <- & _); [|done].
  eapply Forall_impl; [apply Hp|]. intros m (u & Hk & [? ?] & ?). by exists u.
Qed.


(** ** The theorems on a session

    A client that signs in as joe and sends one message from joe's address to a
    remote recipient, then quits. *)
Definition joe_directory : directory :=
  {| dir_accepts := fun u p => u = "joe" /\ p = "pw"; dir_shares := fun _ _ => False |}.

Definition joe_authenticate (u p : string) : result (bool * bool) :=
  Ok ((u =? "joe")%string && (p =? "pw")%string, false)%bool.

Definition joe_services : services :=
  {| sv_now := 5; sv_shutdown := false; sv_memory_ok := true; sv_denySender := fun _ => false; sv_inboundMessage := true;
     sv_inboundDomain := fun _ => true; sv_denyRecipient := fun _ => false;
     sv_outboundRecipient := fun _ => true; sv_blocked := false; sv_shielded := fun _ => false;
     sv_rbl := None; sv_rcptVerifier := None; sv_policies := None; sv_tls := None;
     sv_authenticate := joe_authenticate; sv_xdebug := fun _ => []; sv_buffered := false;
     sv_data := example_env; sv_pipeline := example_pipeline |}.

Definition joe_env : SessionEnv :=
  {| se_cfg := example_config; se_antispam := None; se_access := mkAccessControl false [] [] ∅ ∅;
     se_srs := None; se_peer := ParseIP "203.0.113.9"; se_host := Some "203.0.113.9";
     se_submission := true; se_webmailSubmission := false; se_requireTLSForPlain := false |}.

Definition joe_input : string :=
  "EHLO client.example" +:+ CRLF +:+ "AUTH PLAIN AGpvZQBwdw==" +:+ CRLF
  +:+ "MAIL FROM:<joe@ex.org>" +:+ CRLF +:+ "RCPT TO:<c@other.example>" +:+ CRLF +:+ "DATA" +:+ CRLF
  +:+ "From: joe@ex.org" +:+ CRLF +:+ "Date: today" +:+ crlf2 +:+ "hello" +:+ CRLF
  +:+ "." +:+ CRLF +:+ "QUIT" +:+ CRLF.

Lemma joe_honours : honours joe_directory joe_services.
Proof.
  split; [|done]. intros u p app H. unfold joe_services, joe_authenticate in H. cbn in H.
  injection H as H _. by bool_facts.
Qed.

(** The session after [n] iterations. *)
Definition joe_session (n : nat) : bool * Session :=
  run_steps (U := ascii_tables) (HM := toy_mac) joe_env joe_services n
    (NewSession 0 (bytes_of joe_input) None example_asm).

Lemma joe_reachable n :
  reachable (U := ascii_tables) (HM := toy_mac) joe_env joe_directory
    (fst (joe_session n)) (snd (joe_session n)).
Proof.
  apply (run_reachable (UL := ascii_tables_laws) joe_env joe_directory joe_services n).
  - apply joe_honours.
  - apply reach_new.
Qed.

Lemma session_refines_protocol_witness :
  exists p, rtc (pstep (U := ascii_tables) (HM := toy_mac) joe_env joe_directory) initial p /\
    p_queue p = s_queued (snd (joe_session 6)) /\
    (fst (joe_session 6) = true -> p = abs (core (snd (joe_session 6))) /\
                                   wf (core (snd (joe_session 6)))).
Proof.
  exact (session_refines_protocol (UL := ascii_tables_laws) joe_env joe_directory _ _ (joe_reachable 6)).
Defined.

Lemma queued_mail_authorised_witness :
  (q_to <$> s_queued (snd (joe_session 20))) = [["c@other.example"]] /\
  Forall (fun m => exists user, known joe_directory user /\
            may_send_as (U := ascii_tables) joe_env joe_directory user (q_from m) /\
            Forall (may_send_to (U := ascii_tables) (HM := toy_mac) joe_env user (q_from m)) (q_to m) /\
            q_to m <> []) (s_queued (snd (joe_session 20))).
Proof.
  split; [by vm_compute|].
  exact (queued_mail_authorised (UL := ascii_tables_laws) joe_env joe_directory _ _ (joe_reachable 20)).
Defined.

