(* ===== verification/SmtpLiveness.v ===== *)
(** * Every session ends, and STARTTLS starts afresh

    The command loop has no bound of its own: it ends because every iteration uses up
    input.  Reading never makes the input longer, except that STARTTLS replaces it,
    once.  The measure of a session is whether it may still upgrade, then what it has
    not read, then whether a message is due. *)

From S2P Require Import Prelude GoStrings GoNet SmtpState SmtpSyntax Spool SmtpConfig.
From S2P Require Import DataReader Access CommandSecurity Srs Pipeline Session AuthSession.
From S2P Require Import Commands SmtpProtocol.
From Stdlib Require Import Wellfounded.

Open Scope string_scope.
Open Scope list_scope.
Open Scope Z_scope.

(** ** Reading shortens the input *)

Lemma ReadSlice_le room : forall s f e r, ReadSlice room s = (f, e, r) -> (length r <= length s)%nat.
Proof.
  induction room as [|room IH]; cbn; intros s f e r H; [simplify_eq; lia|].
  destruct s as [|[c| |] s]; simplify_eq; cbn; try lia.
  destruct (Ascii.eqb c LF); [simplify_eq; lia|].
  destruct (ReadSlice room s) as [[f' e'] r'] eqn:E. simplify_eq. apply IH in E. lia.
Qed.

Lemma bounded_loop_le limit fuel : forall line s l e r,
  bounded_loop fuel limit line s = (l, e, r) -> (length r <= length s)%nat.
Proof.
  induction fuel as [|fuel IH]; cbn [bounded_loop]; intros line s l e r H; [simplify_eq; lia|].
  destruct (ReadSlice bufio_size s) as [[f e1] r1] eqn:E. apply ReadSlice_le in E.
  repeat split_match_in H; simplify_eq; try lia. apply IH in H. lia.
Qed.

Lemma readBounded_le limit s l e r :
  readBoundedSMTPLine limit s = (l, e, r) -> (length r <= length s)%nat.
Proof. apply bounded_loop_le. Qed.

Lemma readBounded_lt limit s l r :
  0 <= limit -> readBoundedSMTPLine limit s = (l, None, r) -> (length r < length s)%nat.
Proof.
  intros H0 H. apply readBounded_inv in H as [[? _]|(_ & E & _)]; [done| |done].
  by eapply line_of_shorter.
Qed.

Lemma read_full_le n : forall s o r, read_full n s = (o, r) -> (length r <= length s)%nat.
Proof.
  induction n as [|n IH]; cbn; intros s o r H; [by simplify_eq|].
  destruct s as [|[c| |] s]; simplify_eq; cbn; try lia.
  destruct (read_full n s) as [o' r'] eqn:E. simplify_eq. apply IH in E. lia.
Qed.

Lemma read_exactly_le n s o r : read_exactly n s = (o, r) -> (length r <= length s)%nat.
Proof.
  unfold read_exactly. case_match; [|apply read_full_le].
  intros H'. injection H' as _ <-. destruct (read_full _ _) eqn:E. by apply read_full_le in E.
Qed.

Lemma ReadLine_le s o r : ReadLine s = (o, r) -> (length r <= length s)%nat.
Proof.
  unfold ReadLine. destruct (ReadSlice bufio_size s) as [[f e] r1] eqn:E. intros H.
  pose proof (ReadSlice_le _ _ _ _ _ E).
  repeat split_match_in H; simplify_eq; try done. cbn.
  destruct (ReadSlice_spec _ _ _ _ _ E) as [[? _]|(_ & Hl & -> & _)]; [done|].
  rewrite length_app, bytes_of_length, Hl. pose proof bufio_size_pos. lia.
Qed.

(** ** What every handler keeps *)

(** No new input, and the same security of the channel. *)
Definition handler_le (dh dh' : DataHandler) : Prop :=
  (length (dh_reader dh') <= length (dh_reader dh))%nat /\
  tlsActive (dh_state dh') = tlsActive (dh_state dh).

Lemma handler_le_trans dh1 dh2 dh3 : handler_le dh1 dh2 -> handler_le dh2 dh3 -> handler_le dh1 dh3.
Proof. unfold handler_le. intros [? ->] [? ->]. split; [lia|done]. Qed.

Definition unread (s : Session) : nat := length (dh_reader (s_dh s)).
Definition secure (s : Session) : bool := tlsActive (get_state s).

(** The channel is never made insecure, and its input grows only by securing it. *)
Definition spends (s s' : Session) : Prop :=
  (secure s = true -> secure s' = true) /\
  (secure s' = secure s -> (unread s' <= unread s)%nat).

#[global] Instance spends_refl : Reflexive spends.
Proof. intros s. split; auto. Qed.
#[global] Instance spends_trans : Transitive spends.
Proof.
  intros s1 s2 s3 [H1 H2] [H3 H4]. split; [auto|]. intros E.
  destruct (secure s1) eqn:E1, (secure s2) eqn:E2, (secure s3) eqn:E3; try done;
    try (specialize (H1 eq_refl); done); try (specialize (H3 eq_refl); done);
    specialize (H2 eq_refl); specialize (H4 eq_refl); lia.
Qed.

Lemma handler_spends (s s' : Session) : handler_le (s_dh s) (s_dh s') -> spends s s'.
Proof. unfold handler_le, spends, secure, unread, get_state. intros [? ->]. auto. Qed.

Lemma on_data_spends {A} (f : DataHandler -> result A * DataHandler) :
  (forall dh, handler_le dh (snd (f dh))) -> kept spends (on_data f).
Proof.
  intros H s. unfold on_data. specialize (H (s_dh s)). destruct (f (s_dh s)). by apply handler_spends.
Qed.

Lemma handler_le_refl dh : handler_le dh dh.
Proof. by split. Qed.

Lemma set_state_spends f :
  (forall ss, tlsActive (f ss) = tlsActive ss) -> kept spends (set_state f).
Proof. intros H. apply kept_modify. intros s. apply handler_spends. split; [done|]. cbn. apply H. Qed.

Lemma try_state_spends f :
  (forall ss, tlsActive (snd (f ss)) = tlsActive ss) -> kept spends (try_state f).
Proof.
  intros H s. unfold try_state. specialize (H (get_state s)). destruct (f (get_state s)).
  apply handler_spends. by split.
Qed.

Lemma modify_spends f : (forall s, handler_le (s_dh s) (s_dh (f s))) -> kept spends (modify f).
Proof. intros H. apply kept_modify. intros s. by apply handler_spends. Qed.

Lemma write_spends now msg : kept spends (write now msg).
Proof. intros s. unfold write. apply handler_spends. by destruct (s_writes_left s) as [[|n]|]. Qed.

Lemma flush_spends : kept spends flush.
Proof. intros s. unfold flush. apply handler_spends. by destruct (s_writes_left s) as [[|n]|]. Qed.

Lemma read_line_spends : kept spends read_line.
Proof.
  apply on_data_spends. intros dh. destruct (ReadLine (dh_reader dh)) as [o r] eqn:E. cbn [snd].
  split; [by apply ReadLine_le in E|done].
Qed.

#[export] Hint Resolve write_spends flush_spends read_line_spends spends_refl spends_trans : elemta.

(** Compose the primitive steps of a handler; what is left are the state updates. *)
Ltac keeps :=
  repeat first
    [ progress auto with elemta
    | case_match
    | apply kept_bind; [auto with typeclass_instances| |intros]
    | apply kept_attempt
    | apply set_state_spends; done
    | apply modify_spends; intros; by split ].

Lemma write_lines_spends now w l : kept spends (write_lines now w l).
Proof. induction l as [|x l IH]; cbn [write_lines]; keeps. Qed.

Lemma writeError_spends now e : kept spends (writeError now e).
Proof. unfold writeError. keeps. Qed.

Lemma reply_spends sv msg : kept spends (reply sv msg).
Proof. apply write_spends. Qed.

#[export] Hint Resolve write_lines_spends writeError_spends reply_spends : elemta.

Section Handlers.
Context `{U : UnicodeTables} `{HM : Mac}.
Variable env : SessionEnv.
Variable sv : services.

Lemma discard_le size dh : handler_le dh (DiscardBDATChunk (sv_data sv) size dh).
Proof.
  unfold DiscardBDATChunk. repeat split_match; try by split.
  - split; [by apply read_exactly_le in Heqp|done].
  - split; [by apply read_exactly_le in Heqp|done].
Qed.

Lemma discard_spends size : kept spends (discard sv size).
Proof. apply modify_spends. intros s. apply discard_le. Qed.

Lemma chunk_le cfg size dh : handler_le dh (snd (ReadBDATChunk cfg (sv_data sv) size dh)).
Proof.
  unfold ReadBDATChunk. repeat split_match; cbn [snd]; try (by split); try apply discard_le.
  all: split; [by apply read_exactly_le in Heqp|done].
Qed.

Lemma read_loop_le cfg fuel : forall rs lm spool dh,
  handler_le dh (snd (read_loop cfg (sv_data sv) fuel rs lm spool dh)).
Proof.
  induction fuel as [|fuel IH]; cbn [read_loop]; intros rs lm spool dh; [by split|].
  destruct (readBoundedSMTPLine _ _) as [[line err] rest] eqn:E. apply readBounded_le in E.
  assert (handler_le dh (dh <| dh_reader := rest |>)) as Hle by (by split).
  repeat split_match; cbn [snd]; try exact Hle; try (by split).
  - unfold data_line in Heqs. repeat split_match_in Heqs; try discriminate Heqs;
      injection Heqs as <-; by split.
  - eapply handler_le_trans; [exact Hle|apply IH].
Qed.

Lemma drain_loop_le fuel : forall d b s l r, drain_loop fuel d b s = (l, r) -> (length r <= length s)%nat.
Proof.
  induction fuel as [|fuel IH]; cbn [drain_loop]; intros d b s l r H; [simplify_eq; lia|].
  destruct (readBoundedSMTPLine _ _) as [[line err] rest] eqn:E. apply readBounded_le in E.
  repeat split_match_in H; simplify_eq; try lia. apply IH in H. lia.
Qed.

Lemma ReadData_le cfg dh : handler_le dh (snd (ReadData cfg (sv_data sv) dh)).
Proof.
  assert (handler_le dh (snd (readData cfg (sv_data sv) dh))) as H.
  { unfold readData. destruct (if spoolThreshold cfg <? _ then _ else _) as [r0 sp0].
    repeat split_match; try by split. apply read_loop_le. }
  unfold ReadData. destruct (readData cfg (sv_data sv) dh) as [[?|e] d] eqn:E; [done|].
  cbn [snd] in *. destruct (dh_dataSyncLost d); [done|]. eapply handler_le_trans; [done|].
  unfold drainToEndOfData. split_match; [by split|].
  destruct (drain_loop _ _ _ _) as [l r] eqn:Ed. split; [by apply drain_loop_le in Ed|done].
Qed.

Lemma ProcessBDATMessage_spends : kept spends (ProcessBDATMessage env sv).
Proof.
  intros s. apply handler_spends. unfold ProcessBDATMessage.
  destruct (dh_bdatSpool (s_dh s)) as [sp|]; [|by split].
  destruct (ProcessMessage _ _ _ _ _) as [[r ss] q] eqn:E.
  by apply ProcessMessage_cases in E as [[-> _]|(m & _ & _ & -> & _)].
Qed.

Lemma process_spool_spends spool : kept spends (process_spool env sv spool).
Proof.
  intros s. apply handler_spends. unfold process_spool.
  destruct (ProcessMessage _ _ _ _ _) as [[r ss] q] eqn:E.
  by apply ProcessMessage_cases in E as [[-> _]|(m & _ & _ & -> & _)].
Qed.

Lemma handleDataPhase_spends : kept spends (handleDataPhase env sv).
Proof.
  unfold handleDataPhase. apply kept_bind; [auto with typeclass_instances| |apply process_spool_spends].
  apply on_data_spends. apply ReadData_le.
Qed.

(** State methods that refuse leave the channel alone too. *)
Ltac method := apply try_state_spends; intros; first
  [ by unfold AcceptMail; case_match | by unfold AddRecipient; case_match
  | by unfold SetDataTransferMode; case_match | by unfold SetPhase; case_match ].

Ltac handler := repeat first [progress keeps | method].

Lemma BDAT_spends args : kept spends (HandleBDAT env sv args).
Proof.
  assert (forall size e, kept spends (rejectChunk sv size e)) as Hrej.
  { intros. unfold rejectChunk. keeps; apply discard_spends. }
  assert (forall size l, kept spends (bdat_transfer env sv size l)) as Ht.
  { intros. unfold bdat_transfer. keeps; try apply ProcessBDATMessage_spends.
    all: apply on_data_spends; intros; apply chunk_le. }
  unfold HandleBDAT, bdat_chunk. handler; apply Hrej || apply Ht.
Qed.

Lemma MAIL_spends args : kept spends (HandleMAIL env sv args).
Proof. unfold HandleMAIL, checkRBL. handler. Qed.

Lemma RCPT_spends args : kept spends (HandleRCPT env sv args).
Proof. unfold HandleRCPT. handler. Qed.

Lemma AUTH_spends cmd : kept spends (HandleAuth env sv cmd).
Proof.
  assert (forall u p, kept spends (performAuthentication env sv u p)) as Hp.
  { intros. unfold performAuthentication, record_failure, ssm_try. handler. }
  assert (forall p, kept spends (prompt sv p)) as Hprompt by (intros; unfold prompt; handler).
  assert (kept spends (begin_auth sv)) as Hb.
  { intros s. apply handler_spends. unfold begin_auth. repeat split_match; by split. }
  unfold HandleAuth, handleAuthPlain, handleAuthLogin, ssm_try.
  handler; auto.
Qed.

(** The handshake: the one step that brings new input, over a channel now secure. *)
Lemma STARTTLS_spends : kept spends (HandleSTARTTLS sv).
Proof.
  intros s. change (wp (HandleSTARTTLS sv) (fun _ s' => spends s s') s).
  unfold HandleSTARTTLS, set_state. repeat wp_step; try reflexivity.
  eapply wp_kept; [apply reply_spends|]. intros r s1 H1. wp_step; [|done].
  apply wp_bind. eapply wp_kept; [apply flush_spends|]. intros r2 s2 H2. wp_step; [|by etrans].
  assert (spends s s2) as [_ H3] by (by etrans). repeat wp_step.
  - split; [done|]. unfold secure at 2. rewrite H. done.
  - etrans; [by etrans|]. by apply handler_spends.
Qed.

Lemma dispatch_spends cmd args line : kept spends (dispatch env sv cmd args line).
Proof.
  unfold dispatch. repeat case_match.
  - unfold HandleHELO. handler.
  - unfold HandleEHLO. handler.
  - apply MAIL_spends.
  - apply RCPT_spends.
  - unfold HandleDATA. handler.
  - apply BDAT_spends.
  - unfold HandleRSET. handler.
  - apply reply_spends.
  - unfold HandleQUIT. handler.
  - apply AUTH_spends.
  - apply STARTTLS_spends.
  - apply write_lines_spends.
  - apply reply_spends.
  - apply reply_spends.
  - unfold HandleXDEBUG. handler.
  - unfold HandleUnknown. auto with elemta.
Qed.

Lemma ProcessCommand_spends line : kept spends (ProcessCommand env sv line).
Proof.
  unfold ProcessCommand, discardRefusedBDAT. keeps; auto using discard_spends, dispatch_spends.
Qed.

#[local] Hint Resolve handleDataPhase_spends ProcessCommand_spends : elemta.

(** ** The measure *)

Definition due (s : Session) : nat := if bool_decide (phase (get_state s) = PhaseData) then 1 else 0.
Definition measure (s : Session) : nat * nat :=
  (if secure s then 0 else 1, 2 * unread s + due s)%nat.

Lemma due_range s : (due s <= 1)%nat.
Proof. unfold due. case_match; lia. Qed.

Lemma data_iteration_spends : kept spends (data_iteration env sv).
Proof. unfold data_iteration. keeps. Qed.

Lemma reset_not_due now s : due (s <| s_dh ::= fun dh => dh <| dh_state ::= Reset now |> |>) = 0%nat.
Proof. unfold due, get_state. cbn. by destruct (greeted _). Qed.

Lemma data_iteration_not_due s :
  wp (data_iteration env sv) (fun r s' => r = Ok true -> due s' = 0%nat) s.
Proof.
  unfold data_iteration, set_state. do 2 wp_step. apply (wp_kept (fun _ _ => True)); [done|].
  intros r s1 _. wp_step; [|by wp_step]. do 2 wp_step. apply (wp_kept (fun _ _ => True)); [done|].
  intros r2 s2 _. wp_step.
  - do 2 wp_step. apply (wp_kept (fun _ _ => True)); [done|]. intros ? s3 _.
    do 2 wp_step. apply (wp_kept (fun _ _ => True)); [done|]. intros ? s4 _.
    repeat wp_step. intros _. apply reset_not_due.
  - apply wp_bind. eapply wp_mono; [apply writeError_spec|]. cbv beta. intros ? s3 [-> _].
    do 2 wp_step. apply (wp_kept (fun _ _ => True)); [done|]. intros ? s4 _.
    repeat wp_step; [done|]. intros _. apply reset_not_due.
Qed.

Lemma loop_step_decreases s s' :
  loop_step env sv s = (Ok true, s') ->
  (secure s = false /\ secure s' = true) \/
  (secure s' = secure s /\ (2 * unread s' + due s' < 2 * unread s + due s)%nat).
Proof.
  unfold loop_step. destruct (sv_shutdown sv); [done|].
  assert (forall s1, spends s1 s' -> secure s1 = secure s ->
            (2 * unread s1 + due s' < 2 * unread s + due s)%nat ->
            (secure s = false /\ secure s' = true) \/
            (secure s' = secure s /\ (2 * unread s' + due s' < 2 * unread s + due s)%nat)) as Hdec.
  { intros s1 [Hm Hl] E Hlt. rewrite E in *.
    destruct (secure s) eqn:Es, (secure s') eqn:Es'; try (by left); right.
    - specialize (Hl eq_refl). split; [done|lia].
    - by specialize (Hm eq_refl).
    - specialize (Hl eq_refl). split; [done|lia]. }
  intros H. unfold mbind, M_bind, gets in H. cbn in H.
  destruct (bool_decide _) eqn:Ed.
  - pose proof (data_iteration_spends s) as Hs. pose proof (data_iteration_not_due s) as Hn.
    unfold wp in Hn. rewrite H in Hs, Hn. cbn [fst snd] in *. specialize (Hn eq_refl).
    apply (Hdec s); [done..|]. rewrite Hn. unfold due. rewrite Ed. lia.
  - unfold command_iteration in H.
    destruct (readBoundedSMTPLine 512 (dh_reader (s_dh s))) as [[line err] rest] eqn:E.
    destruct err as [[]|]; try discriminate H. apply readBounded_lt in E; [|lia].
    match type of H with ?m ?x = _ => apply (Hdec x);
      [enough (kept spends m) as Hk by (specialize (Hk x); by rewrite H in Hk)|done|] end.
    + keeps.
    + pose proof (due_range s'). unfold unread at 1. cbn. unfold unread. lia.
Qed.
End Handlers.

(** [s'] is what [s] goes round with, whatever the outside answered. *)
Definition next_round `{U : UnicodeTables} `{HM : Mac} (env : SessionEnv) (s' s : Session) : Prop :=
  exists sv, loop_step env sv s = (Ok true, s').

(** C34 (termination).  No session goes on for ever: from any state, with any input and
    any answers from outside, every chain of loop iterations is finite. *)
Theorem session_terminates `{U : UnicodeTables} `{HM : Mac} (env : SessionEnv) :
  well_founded (next_round env).
Proof.
  set (R := fun a b : nat * nat => (a.1 < b.1 \/ (a.1 = b.1 /\ a.2 < b.2))%nat).
  assert (well_founded R) as Hwf.
  { intros [a b]. revert b. induction (lt_wf a) as [a _ IHa]. intros b.
    induction (lt_wf b) as [b _ IHb]. constructor. intros [a' b'] [H|[H1 H2]]; cbn in *;
      [by apply IHa|subst; by apply IHb]. }
  intros s. induction (wf_inverse_image _ _ R measure Hwf s) as [s _ IH]. constructor.
  intros s' [sv Hstep]. apply IH. unfold R, measure. cbn.
  destruct (loop_step_decreases env sv s s' Hstep) as [[-> ->]|[-> ?]]; [by left; lia|by right].
Qed.

(** ** STARTTLS *)

Definition starttls_line : string := "STARTTLS" +:+ CRLF.

Lemma wp_write now msg (Q : result unit -> Session -> Prop) s :
  s_writes_left s = None ->
  (forall s', s_writes_left s' = None ->
     s_dh s' = (s_dh s) <| dh_state ::= AddBytesSent now (slen msg + 2) |> -> Q (Ok tt) s') ->
  wp (write now msg) Q s.
Proof. intros H HQ. unfold wp, write. rewrite H. by apply HQ. Qed.

Lemma wp_flush (Q : result unit -> Session -> Prop) s :
  s_writes_left s = None ->
  (forall s', s_writes_left s' = None -> s_dh s' = s_dh s -> Q (Ok tt) s') -> wp flush Q s.
Proof. intros H HQ. unfold wp, flush. rewrite H. by apply HQ. Qed.

Lemma starttls_reads injected :
  readBoundedSMTPLine 512 (bytes_of starttls_line ++ injected) = (starttls_line, None, injected).
Proof.
  apply readBounded_fits; [|by vm_compute].
  change starttls_line with (("STARTTLS" +:+ String CR "") +:+ String LF "").
  by apply line_of_app.
Qed.

Lemma starttls_command `{U : UnicodeTables} :
  ValidateCommand true starttls_line = Ok tt /\ parseCommand starttls_line = ("STARTTLS", "").
Proof. by vm_compute. Qed.

(** A session at the start of an encrypted conversation. *)
Definition upgraded (encrypted : stream) (s : Session) : Prop :=
  dh_reader (s_dh s) = encrypted /\ phase (get_state s) = PhaseInit /\
  greeted (get_state s) = false /\ mailFrom (get_state s) = "" /\ rcptTo (get_state s) = [] /\
  dsnParams (get_state s) = None /\ requireTLS (get_state s) = false /\
  tlsActive (get_state s) = true.

Section Upgrade.
Context `{U : UnicodeTables} `{HM : Mac}.
Variable env : SessionEnv.
Variable sv : services.
Variable encrypted : stream.
Hypothesis Hmem : sv_memory_ok sv = true.
Hypothesis Htls : sv_tls sv = Some (Some encrypted).

(** A plaintext connection that answers and has not panicked. *)
Definition plain (s : Session) : Prop :=
  tlsActive (get_state s) = false /\ dh_panicked (s_dh s) = false /\ s_writes_left s = None.

Definition secured (s : Session) : Prop :=
  upgraded encrypted s /\ dh_panicked (s_dh s) = false /\ s_writes_left s = None.

Lemma HandleSTARTTLS_upgrades s :
  plain s -> wp (HandleSTARTTLS sv) (fun r s' => r = Ok tt /\ secured s') s.
Proof.
  intros (Hp & Hpan & Hw). unfold HandleSTARTTLS, reply, set_state. do 3 wp_step. rewrite Hp in *. 
  wp_step; [done|]. rewrite Htls. wp_step.
  apply wp_write; [done|]. intros s1 Hw1 E1. wp_step. apply wp_flush; [done|]. intros s2 Hw2 E2.
  repeat wp_step. split; [done|]. unfold secured, upgraded, get_state. cbn. rewrite E2, E1. done.
Qed.

Lemma ProcessCommand_upgrades s :
  plain s -> phase (get_state s) = PhaseInit \/ phase (get_state s) = PhaseMail ->
  dataTransferMode (get_state s) = DataModeNone ->
  wp (ProcessCommand env sv starttls_line) (fun r s' => r = Ok tt /\ secured s') s.
Proof.
  intros Hp Hph Hm. unfold ProcessCommand, set_state. do 2 wp_step. rewrite Hmem.
  destruct starttls_command as [-> ->]. do 4 wp_step.
  match goal with |- wp (if negb (CanAcceptCommand _ ?x) then _ else _) _ _ =>
    assert (CanAcceptCommand "STARTTLS" x = true) as -> end.
  { etrans; [exact (eq_refl (CanAcceptCommand "STARTTLS" (get_state s)))|].
    unfold CanAcceptCommand. rewrite Hm. by destruct Hph as [-> | ->]. }
  by apply HandleSTARTTLS_upgrades.
Qed.
End Upgrade.

(** C35 (STARTTLS discards the plaintext).  When a client sends STARTTLS to a server that
    is not shutting down and the handshake succeeds, whatever it had pipelined behind the command in plaintext is
    never read: the session goes on with the encrypted stream only, ungreeted, with
    no transaction, and knows its channel is secure. *)
Theorem starttls_discards_plaintext `{U : UnicodeTables} `{HM : Mac} (env : SessionEnv)
    (sv : services) (s : Session) (injected encrypted : stream)
    (Hread : dh_reader (s_dh s) = bytes_of starttls_line ++ injected)
    (Hphase : phase (get_state s) = PhaseInit \/ phase (get_state s) = PhaseMail)
    (Hmode : dataTransferMode (get_state s) = DataModeNone)
    (Hplain : tlsActive (get_state s) = false) (Hpan : dh_panicked (s_dh s) = false)
    (Hwrites : s_writes_left s = None) (Hmem : sv_memory_ok sv = true)
    (Hup : sv_shutdown sv = false) (Htls : sv_tls sv = Some (Some encrypted)) :
  fst (loop_step env sv s) = Ok true /\ upgraded encrypted (snd (loop_step env sv s)).
Proof.
  set (Q := fun r s' => r = Ok true /\ upgraded encrypted s').
  change (wp (loop_step env sv) Q s). unfold loop_step. rewrite Hup. do 2 wp_step.
  rewrite bool_decide_false by (destruct Hphase as [-> | ->]; done).
  unfold command_iteration, wp at 1. rewrite Hread, starttls_reads. cbv zeta beta iota.
  lazymatch goal with |- Q (fst (?m ?x)) _ => change (wp m Q x) end.
  unfold set_state. do 4 wp_step.
  eapply wp_mono; [by apply (ProcessCommand_upgrades env sv encrypted)|]. cbv beta.
  intros ? s1 (-> & Hnew & Hpan1 & Hw1). do 2 wp_step. rewrite Hpan1.
  do 4 wp_step. cbn [negb is_ok andb].
  rewrite bool_decide_false by (destruct Hnew as (_ & -> & _); done).
  destruct (sv_buffered sv); [by wp_step|]. do 2 wp_step. apply wp_flush; [done|].
  intros s2 _ E2. wp_step. split; [done|]. unfold upgraded, get_state in *. by rewrite E2.
Qed.

Lemma starttls_discards_plaintext_witness :
  let s := NewSession 0 (bytes_of starttls_line ++ bytes_of "RSET") None example_asm in
  let sv := {| sv_now := 5; sv_shutdown := false; sv_memory_ok := true; sv_denySender := fun _ => false;
     sv_inboundMessage := true; sv_inboundDomain := fun _ => true; sv_denyRecipient := fun _ => false;
     sv_outboundRecipient := fun _ => true; sv_blocked := false; sv_shielded := fun _ => false;
     sv_rbl := None; sv_rcptVerifier := None; sv_policies := None;
     sv_tls := Some (Some (bytes_of "NOOP")); sv_authenticate := fun _ _ => Ok (false, false);
     sv_xdebug := fun _ => []; sv_buffered := true; sv_data := example_env;
     sv_pipeline := example_pipeline |} in
  fst (loop_step (U := ascii_tables) (HM := toy_mac) example_session_env sv s) = Ok true /\
  upgraded (bytes_of "NOOP")
    (snd (loop_step (U := ascii_tables) (HM := toy_mac) example_session_env sv s)).
Proof.
  intros s sv.
  apply (starttls_discards_plaintext (U := ascii_tables) (HM := toy_mac) example_session_env sv s
           (bytes_of "RSET") (bytes_of "NOOP")); try reflexivity. by left.
Defined.
