(* ===== verification/Resources.v ===== *)
(** * Resources: connection limits, rate limits and circuit breakers

    Models internal/smtp/resource_manager.go and the part of memory_manager.go and
    server.go it works with: the per-address connection tracker, the token-bucket rate
    limiter, the worker-token pool, the circuit breakers, the memory checks, the
    resource manager that asks all of them, and the life of a connection from the
    accept loop to its release, at the granularity of the code's atomic actions.

    The clock ([now], nanoseconds), the readings of the Go runtime and the Valkey server
    are arguments. *)

From stdpp Require Import gmap.
From S2P Require Import Prelude GoStrings GoNet GoMath.

Set Primitive Projections.

(** ** Conversions (end of resource_manager.go) *)

Definition minInt32 (a b : Z) : Z := if a <? b then a else b.
Definition safeIntToInt32 (v : Z) : Z :=
  if MaxInt32 <? v then MaxInt32 else if v <? MinInt32 then MinInt32 else v.
Definition safeInt64ToInt32 (v : Z) : Z :=
  if MaxInt32 <? v then MaxInt32 else if v <? MinInt32 then MinInt32 else v.
Definition safeUint64ToInt64 (v : Z) : Z := if two63 - 1 <? v then two63 - 1 else v.

Lemma safeIntToInt32_ok v : int32_ok (safeIntToInt32 v) = true.
Proof. unfold safeIntToInt32, int32_ok, MaxInt32, MinInt32. repeat case_match; lia. Qed.

Lemma safeInt64ToInt32_ok v : int32_ok (safeInt64ToInt32 v) = true.
Proof. exact (safeIntToInt32_ok v). Qed.

(** ** Connections per address *)

Module Tracker.

Record IPConnectionTracker := mkTracker {
  connections : gmap string Z;
  maxPerIP : Z;
  exempt : option (string -> bool)
}.

Definition SetLimit (max : Z) (t : IPConnectionTracker) : IPConnectionTracker :=
  mkTracker (connections t) (safeIntToInt32 max) (exempt t).

Definition NewIPConnectionTracker (max : Z) : IPConnectionTracker :=
  SetLimit max (mkTracker ∅ 0 None).

Definition SetExempt (f : string -> bool) (t : IPConnectionTracker) : IPConnectionTracker :=
  mkTracker (connections t) (maxPerIP t) (Some f).

Definition isExempt (t : IPConnectionTracker) (ip : string) : bool :=
  match exempt t with Some f => f ip | None => false end.

(** A missing key of a Go map reads as zero. *)
Definition count_of (t : IPConnectionTracker) (ip : string) : Z :=
  default 0 (connections t !! ip).

Definition CanConnect (t : IPConnectionTracker) (ip : string) : bool :=
  ((count_of t ip <? maxPerIP t) || isExempt t ip)%bool.

Definition AddConnection (ip : string) (t : IPConnectionTracker) : bool * IPConnectionTracker :=
  if ((maxPerIP t <=? count_of t ip) && negb (isExempt t ip))%bool then (false, t)
  else (true, mkTracker (<[ip := wrap32 (count_of t ip + 1)]> (connections t))
                        (maxPerIP t) (exempt t)).

Definition RemoveConnection (ip : string) (t : IPConnectionTracker) : IPConnectionTracker :=
  if 0 <? count_of t ip then
    let n := wrap32 (count_of t ip - 1) in
    mkTracker (if n =? 0 then delete ip (connections t) else <[ip := n]> (connections t))
              (maxPerIP t) (exempt t)
  else t.

Definition GetConnectionCount (t : IPConnectionTracker) (ip : string) : Z := count_of t ip.

Definition GetTotalConnections (t : IPConnectionTracker) : Z :=
  wrap32 (msum id (connections t)).

(** The map holds no zero and no negative count, so its keys are the addresses that
    have a connection. *)
Definition positive (t : IPConnectionTracker) : Prop :=
  map_Forall (fun _ n => 0 < n <= MaxInt32) (connections t).

Lemma count_nonneg t ip : positive t -> 0 <= count_of t ip <= MaxInt32.
Proof.
  intros H. unfold count_of. destruct (connections t !! ip) as [n|] eqn:E; cbn.
  - specialize (H ip n E). cbn in H. lia.
  - unfold MaxInt32. lia.
Qed.

Lemma count_AddConnection ip t t' h :
  count_of t ip < MaxInt32 -> 0 <= count_of t ip -> AddConnection ip t = (true, t') ->
  count_of t' h = count_of t h + (if decide (ip = h) then 1 else 0).
Proof.
  intros Hlt Hge. unfold AddConnection. case_match; [done|]. intros [= <-].
  rewrite wrap32_id by (unfold int32_ok, MaxInt32, MinInt32 in *; lia).
  unfold count_of at 1. cbn [connections]. case_decide as D.
  - subst. by rewrite lookup_insert_eq.
  - rewrite lookup_insert_ne by done. unfold count_of. lia.
Qed.

Lemma count_RemoveConnection ip t h :
  0 < count_of t ip <= MaxInt32 ->
  count_of (RemoveConnection ip t) h = count_of t h - (if decide (ip = h) then 1 else 0).
Proof.
  intros Hpos. unfold RemoveConnection. rewrite (proj2 (Z.ltb_lt _ _)) by lia.
  rewrite wrap32_id by (unfold int32_ok, MaxInt32, MinInt32 in *; lia).
  destruct (Z.eqb_spec (count_of t ip - 1) 0) as [E0|E0].
  - unfold count_of at 1. cbn [connections]. case_decide as D.
    + subst. rewrite lookup_delete_eq. cbn. lia.
    + rewrite lookup_delete_ne by done. unfold count_of. lia.
  - unfold count_of at 1. cbn [connections]. case_decide as D.
    + subst. by rewrite lookup_insert_eq.
    + rewrite lookup_insert_ne by done. unfold count_of. lia.
Qed.

Lemma positive_AddConnection ip t t' b :
  positive t -> count_of t ip < MaxInt32 -> AddConnection ip t = (b, t') -> positive t'.
Proof.
  intros Hp Hlt. pose proof (count_nonneg t ip Hp) as Hge.
  unfold AddConnection. case_match; intros [= <- <-]; [done|].
  rewrite wrap32_id by (unfold int32_ok, MaxInt32, MinInt32 in *; lia).
  apply map_Forall_insert_2; [lia|exact Hp].
Qed.

Lemma positive_RemoveConnection ip t : positive t -> positive (RemoveConnection ip t).
Proof.
  intros Hp. pose proof (count_nonneg t ip Hp) as Hge.
  unfold RemoveConnection. case_match; [|done]. bool_facts.
  rewrite wrap32_id by (unfold int32_ok, MaxInt32, MinInt32 in *; lia).
  unfold positive. cbn [connections]. case_match; bool_facts.
  - by apply map_Forall_delete.
  - apply map_Forall_insert_2; [lia|exact Hp].
Qed.

End Tracker.

(** ** Token bucket *)

Module Limiter.

Record ResourceRateLimiter := mkLimiter {
  tokens : Z;
  maxTokens : Z;
  refillRate : Z;
  lastRefill : Z;      (* whole seconds *)
  windowStart : Z;
  windowCount : Z;
  windowLimit : Z;
  windowDuration : Z
}.

Definition NewResourceRateLimiter (now max refill limit duration : Z) : ResourceRateLimiter :=
  mkLimiter (safeIntToInt32 max) (safeIntToInt32 max) (safeIntToInt32 refill)
            (Unix now) now 0 (safeIntToInt32 limit) duration.

(** The window starts again when it is over. *)
Definition roll_window (now : Z) (rl : ResourceRateLimiter) : ResourceRateLimiter :=
  if windowDuration rl <=? now - windowStart rl
  then rl <| windowStart := now |> <| windowCount := 0 |> else rl.

(** Tokens for the whole seconds that passed. *)
Definition refill (now : Z) (rl : ResourceRateLimiter) : ResourceRateLimiter :=
  let elapsed := Unix now - lastRefill rl in
  if 0 <? elapsed then
    let tokensToAdd := wrap32 (safeInt64ToInt32 elapsed * refillRate rl) in
    rl <| tokens := minInt32 (maxTokens rl) (wrap32 (tokens rl + tokensToAdd)) |>
       <| lastRefill := Unix now |>
  else rl.

Definition Allow (now : Z) (rl : ResourceRateLimiter) : bool * ResourceRateLimiter :=
  let rl := roll_window now rl in
  if windowLimit rl <=? windowCount rl then (false, rl)
  else
    let rl := refill now rl in
    if 0 <? tokens rl
    then (true, rl <| tokens ::= fun n => wrap32 (n - 1) |>
                   <| windowCount ::= fun n => wrap32 (n + 1) |>)
    else (false, rl).

Definition GetTokens (rl : ResourceRateLimiter) : Z := tokens rl.

(** A history of calls: the answers in order and the limiter left. *)
Fixpoint run (ts : list Z) (rl : ResourceRateLimiter) : list bool * ResourceRateLimiter :=
  match ts with
  | [] => ([], rl)
  | t :: ts' =>
      let '(b, rl1) := Allow t rl in
      let '(bs, rl2) := run ts' rl1 in
      (b :: bs, rl2)
  end.

Definition granted (bs : list bool) : Z := zsum (fun b : bool => if b then 1 else 0) bs.

(** What every limiter built from non-negative settings satisfies, now and after any
    calls. *)
Record sane (rl : ResourceRateLimiter) : Prop := {
  sane_tokens : 0 <= tokens rl <= maxTokens rl;
  sane_max : maxTokens rl <= MaxInt32;
  sane_rate : 0 <= refillRate rl;
  sane_count : 0 <= windowCount rl <= windowLimit rl;
  sane_limit : windowLimit rl <= MaxInt32;
  sane_duration : 0 < windowDuration rl
}.

(** Seconds the refill arithmetic of [rl] is exact for, up to time [T]. *)
Definition refill_exact (T : Z) (rl : ResourceRateLimiter) : Prop :=
  maxTokens rl + refillRate rl * (Unix T - lastRefill rl) <= MaxInt32.

(** What can still be granted by time [T]: by the bucket, and by the windows. *)
Definition bucket_budget (T : Z) (rl : ResourceRateLimiter) : Z :=
  tokens rl + refillRate rl * (Unix T - lastRefill rl).
Definition window_budget (T : Z) (rl : ResourceRateLimiter) : Z :=
  windowLimit rl - windowCount rl
  + windowLimit rl * ((T - windowStart rl) / windowDuration rl).

(** Time has not passed [T] yet. *)
Definition before (T : Z) (rl : ResourceRateLimiter) : Prop :=
  lastRefill rl <= Unix T /\ windowStart rl <= T.

Lemma sane_new now max refill limit duration :
  0 <= max -> 0 <= refill -> 0 <= limit -> 0 < duration ->
  sane (NewResourceRateLimiter now max refill limit duration).
Proof.
  intros. unfold NewResourceRateLimiter, safeIntToInt32, MaxInt32, MinInt32.
  split; cbn; unfold MaxInt32; repeat case_match; lia.
Qed.

Lemma roll_window_ok now T rl :
  sane rl -> before T rl -> now <= T -> refill_exact T rl ->
  let rl' := roll_window now rl in
  sane rl' /\ before T rl' /\ refill_exact T rl' /\
  bucket_budget T rl' = bucket_budget T rl /\ window_budget T rl' <= window_budget T rl.
Proof.
  intros S [B1 B2] Hn Hx. unfold roll_window. case_match; bool_facts; [|by repeat split; try apply S].
  destruct S. split; [split; cbn; lia|]. split_and!; cbn; try done; try lia.
  - unfold window_budget. cbn.
    assert ((T - now) / windowDuration rl + 1 <= (T - windowStart rl) / windowDuration rl) as Hd.
    { rewrite <- Z.div_add by lia. apply Z.div_le_mono; lia. }
    nia.
Qed.

Lemma refill_ok now T rl :
  sane rl -> before T rl -> now <= T -> refill_exact T rl ->
  let rl' := refill now rl in
  sane rl' /\ before T rl' /\ refill_exact T rl' /\
  bucket_budget T rl' <= bucket_budget T rl /\ window_budget T rl' = window_budget T rl /\
  windowCount rl' = windowCount rl /\ windowLimit rl' = windowLimit rl.
Proof.
  intros S [B1 B2] Hn Hx. pose proof (Unix_mono _ _ Hn) as Hu.
  unfold refill. case_match; bool_facts; [|by repeat split; try apply S].
  destruct S. unfold refill_exact in *.
  assert (refillRate rl * (Unix now - lastRefill rl) <= refillRate rl * (Unix T - lastRefill rl))
    as Hm by nia.
  assert (wrap32 (safeInt64ToInt32 (Unix now - lastRefill rl) * refillRate rl)
          = refillRate rl * (Unix now - lastRefill rl)) as ->.
  { unfold safeInt64ToInt32. destruct (decide (refillRate rl = 0)) as [->|Hr].
    - rewrite Z.mul_0_r. done.
    - assert (Unix now - lastRefill rl <= MaxInt32) by nia.
      rewrite (proj2 (Z.ltb_ge MaxInt32 _)) by lia.
      rewrite (proj2 (Z.ltb_ge _ MinInt32)) by (unfold MinInt32; lia).
      rewrite Z.mul_comm. apply wrap32_id. unfold int32_ok, MinInt32 in *. nia. }
  rewrite wrap32_id by (unfold int32_ok, MinInt32; nia).
  unfold minInt32, bucket_budget, window_budget, before.
  split_and!; cbn; try done; try nia; [split; cbn; try lia|]; case_match; bool_facts; nia.
Qed.

Lemma Allow_ok now T rl b rl' :
  sane rl -> before T rl -> now <= T -> refill_exact T rl -> Allow now rl = (b, rl') ->
  sane rl' /\ before T rl' /\ refill_exact T rl' /\
  bucket_budget T rl' + (if b then 1 else 0) <= bucket_budget T rl /\
  window_budget T rl' + (if b then 1 else 0) <= window_budget T rl.
Proof.
  intros S B Hn Hx. unfold Allow.
  destruct (roll_window_ok now T rl S B Hn Hx) as (S1 & B1 & X1 & Eb & Lw).
  set (rl1 := roll_window now rl) in *. case_match eqn:Hfull; bool_facts.
  { intros [= <- <-]. split_and!; try done; lia. }
  destruct (refill_ok now T rl1 S1 B1 Hn X1) as (S2 & B2 & X2 & Lb & Ew & Ec & El).
  set (rl2 := refill now rl1) in *. case_match eqn:Htok; bool_facts; intros [= <- <-];
    [|split_and!; try done; lia].
  destruct S2. unfold bucket_budget, window_budget, refill_exact, before in *. cbn.
  rewrite !wrap32_id by (unfold int32_ok, MinInt32; lia).
  split_and!; try lia. split; cbn; rewrite ?wrap32_id by (unfold int32_ok, MinInt32; lia); lia.
Qed.

Lemma run_ok T ts : forall rl bs rl',
  sane rl -> before T rl -> Forall (fun t => t <= T) ts -> refill_exact T rl ->
  run ts rl = (bs, rl') ->
  sane rl' /\ before T rl' /\ refill_exact T rl' /\
  bucket_budget T rl' + granted bs <= bucket_budget T rl /\
  window_budget T rl' + granted bs <= window_budget T rl.
Proof.
  induction ts as [|t ts IH]; intros rl bs rl' S B Hts Hx; cbn.
  { intros [= <- <-]. unfold granted. rewrite zsum_nil. split_and!; try done; lia. }
  inversion_clear Hts as [|? ? Ht Hts'].
  destruct (Allow t rl) as [b rl1] eqn:EA.
  destruct (Allow_ok t T rl b rl1 S B Ht Hx EA) as (S1 & B1 & X1 & Lb & Lw).
  destruct (run ts rl1) as [bs2 rl2] eqn:ER. intros [= <- <-].
  destruct (IH rl1 bs2 rl2 S1 B1 Hts' X1 ER) as (S2 & B2 & X2 & Lb2 & Lw2).
  unfold granted in *. rewrite zsum_cons.
  split_and!; try done; lia.
Qed.

(** What can still be granted from time [t0] to time [T]: whatever the bucket gathered
    before [t0], it is refilled to its capacity at most before it grants again. *)
Definition recent_budget (t0 T : Z) (rl : ResourceRateLimiter) : Z :=
  if lastRefill rl <? Unix t0 then maxTokens rl + refillRate rl * (Unix T - Unix t0) else bucket_budget T rl.

Lemma recent_budget_le t0 T rl :
  sane rl -> recent_budget t0 T rl <= maxTokens rl + refillRate rl * (Unix T - Unix t0).
Proof. intros []. unfold recent_budget, bucket_budget. case_match; bool_facts; nia. Qed.

Lemma refill_recent t0 now T rl :
  sane rl -> before T rl -> refill_exact T rl -> t0 <= now <= T ->
  Unix t0 <= lastRefill (refill now rl) /\ bucket_budget T (refill now rl) <= recent_budget t0 T rl.
Proof.
  intros S B Hx [H0 H1]. destruct (refill_ok now T rl S B H1 Hx) as (S' & [B' _] & _ & Hb & _).
  pose proof (Unix_mono _ _ H0) as Hu.
  assert (Unix t0 <= lastRefill (refill now rl)) as Hl.
  { unfold refill. case_match; bool_facts; cbn; lia. }
  split; [done|]. unfold recent_budget. case_match; bool_facts; [|done].
  destruct S'. unfold bucket_budget.
  assert (maxTokens (refill now rl) = maxTokens rl /\ refillRate (refill now rl) = refillRate rl) as [Em Er]
    by (unfold refill; by case_match). rewrite Em, Er in *. nia.
Qed.

Lemma Allow_recent t0 now T rl b rl' :
  sane rl -> before T rl -> refill_exact T rl -> t0 <= now <= T -> Allow now rl = (b, rl') ->
  recent_budget t0 T rl' + (if b then 1 else 0) <= recent_budget t0 T rl.
Proof.
  intros S B Hx Hn. unfold Allow.
  destruct (roll_window_ok now T rl S B (proj2 Hn) Hx) as (S1 & B1 & X1 & _).
  assert (recent_budget t0 T (roll_window now rl) = recent_budget t0 T rl) as <-
    by (unfold roll_window; by destruct (_ <=? _)).
  set (rl1 := roll_window now rl) in *. case_match; [intros [= <- <-]; lia|].
  destruct (refill_recent t0 now T rl1 S1 B1 X1 Hn) as [Hl Hb].
  destruct (refill_ok now T rl1 S1 B1 (proj2 Hn) X1) as (S2 & _). destruct S2.
  set (rl2 := refill now rl1) in *. case_match eqn:Htok; bool_facts; intros [= <- <-].
  - unfold recent_budget at 1. rewrite (proj2 (Z.ltb_ge _ _)) by exact Hl. unfold bucket_budget in *.
    change (wrap32 (tokens rl2 - 1) + refillRate rl2 * (Unix T - lastRefill rl2) + 1 <= recent_budget t0 T rl1).
    rewrite wrap32_id by (unfold int32_ok, MinInt32; lia). lia.
  - unfold recent_budget at 1. rewrite (proj2 (Z.ltb_ge _ _) Hl). lia.
Qed.

Lemma run_recent t0 T ts : forall rl bs rl',
  sane rl -> before T rl -> refill_exact T rl -> Forall (fun t => t0 <= t <= T) ts -> run ts rl = (bs, rl') ->
  recent_budget t0 T rl' + granted bs <= recent_budget t0 T rl.
Proof.
  induction ts as [|t ts IH]; intros rl bs rl' S B Hx Hts; cbn.
  { intros [= <- <-]. unfold granted. rewrite zsum_nil. lia. }
  inversion_clear Hts as [|? ? Ht Hts']. destruct (Allow t rl) as [b rl1] eqn:EA.
  destruct (Allow_ok t T rl b rl1 S B (proj2 Ht) Hx EA) as (S1 & B1 & X1 & _).
  pose proof (Allow_recent t0 t T rl b rl1 S B Hx Ht EA).
  destruct (run ts rl1) as [bs2 rl2] eqn:ER. intros [= <- <-].
  pose proof (IH rl1 bs2 rl2 S1 B1 X1 Hts' ER). unfold granted in *. rewrite zsum_cons. lia.
Qed.

(** The settings of a limiter never change. *)
Definition settings (rl : ResourceRateLimiter) : Z * Z * Z * Z :=
  (maxTokens rl, refillRate rl, windowLimit rl, windowDuration rl).

Lemma Allow_settings now rl : settings (snd (Allow now rl)) = settings rl.
Proof. unfold Allow, roll_window, refill. by repeat case_match. Qed.

Lemma run_settings ts : forall rl, settings (snd (run ts rl)) = settings rl.
Proof.
  induction ts as [|t ts IH]; intros rl; cbn; [done|].
  pose proof (Allow_settings t rl) as E. destruct (Allow t rl) as [b rl1]. cbn in E.
  specialize (IH rl1). by destruct (run ts rl1); cbn in *; congruence.
Qed.

Lemma bucket_budget_nonneg T rl : sane rl -> before T rl -> 0 <= bucket_budget T rl.
Proof. intros [] []. unfold bucket_budget. nia. Qed.

Lemma window_budget_nonneg T rl : sane rl -> before T rl -> 0 <= window_budget T rl.
Proof.
  intros [] []. unfold window_budget.
  assert (0 <= (T - windowStart rl) / windowDuration rl) by (apply Z.div_pos; lia). nia.
Qed.

Lemma roll_window_idem now rl : sane rl -> roll_window now (roll_window now rl) = roll_window now rl.
Proof.
  intros S. destruct S. unfold roll_window at 2 3. case_match eqn:E; unfold roll_window.
  - cbn. by rewrite (proj2 (Z.leb_gt _ _)) by lia.
  - by rewrite E.
Qed.

Lemma Allow_roll now rl : sane rl -> Allow now (roll_window now rl) = Allow now rl.
Proof. intros S. unfold Allow. by rewrite roll_window_idem. Qed.

(** However the calls before it fell, calls within one window length are granted at
    most twice the limit: the end of one window and the start of the next. *)
Lemma burst_bounded t0 T ts rl bs rl' :
  sane rl -> before T rl -> refill_exact T rl ->
  t0 <= T < t0 + windowDuration rl -> Forall (fun t => t <= T) ts ->
  run (t0 :: ts) rl = (bs, rl') -> granted bs <= 2 * windowLimit rl.
Proof.
  intros S B Hx [H1 H2] Hts Hrun.
  destruct (roll_window_ok t0 T rl S B H1 Hx) as (S1 & B1 & X1 & _ & _).
  assert (run (t0 :: ts) (roll_window t0 rl) = (bs, rl')) as Hrun'.
  { rewrite <- Hrun. cbn. by rewrite Allow_roll. }
  destruct (run_ok T (t0 :: ts) _ bs rl' S1 B1 ltac:(by constructor) X1 Hrun')
    as (S2 & B2 & _ & _ & Hw).
  pose proof (window_budget_nonneg T rl' S2 B2) as Hnn.
  assert (windowLimit (roll_window t0 rl) = windowLimit rl /\
          windowDuration (roll_window t0 rl) = windowDuration rl /\
          t0 - windowDuration rl < windowStart (roll_window t0 rl)) as (EL & ED & Hs).
  { destruct S. unfold roll_window. case_match; bool_facts; cbn; lia. }
  destruct S1. unfold window_budget in Hw at 2. rewrite EL, ED in *.
  assert ((T - windowStart (roll_window t0 rl)) / windowDuration rl <= 1).
  { apply Z.lt_succ_r, Z.div_lt_upper_bound; lia. }
  nia.
Qed.

(** C38 (bounds). A rate limiter grants no more than its settings say: of the calls made up
    to time [T], after any history [ts0] of calls, those from [t0] on get at most the
    capacity of the bucket plus the refill of the seconds from [t0] to [T]; all of them get
    at most the limit for each window; and calls that fall within one window length get at
    most twice the limit.  [max + refill * seconds] must fit in 32 bits, as the code
    multiplies in [int32]: beyond that horizon it wraps ([refill_overflows]). *)
Theorem limiter_never_exceeds now T max refill limit duration ts0 t0 ts bs0 rl bs rl' :
  0 <= max -> 0 <= refill -> 0 <= limit <= MaxInt32 -> 0 < duration -> now <= T ->
  safeIntToInt32 max + safeIntToInt32 refill * (Unix T - Unix now) <= MaxInt32 ->
  Forall (fun t => t <= T) ts0 -> Forall (fun t => t <= T) ts -> t0 <= T ->
  run ts0 (NewResourceRateLimiter now max refill limit duration) = (bs0, rl) ->
  run (t0 :: ts) rl = (bs, rl') ->
  granted bs0 + granted bs <= max + refill * (Unix T - Unix now)
  /\ granted bs0 + granted bs <= limit * (1 + (T - now) / duration)
  /\ (T < t0 + duration -> granted bs <= 2 * limit)
  /\ (Forall (fun t => t0 <= t) ts -> granted bs <= max + refill * (Unix T - Unix t0)).
Proof.
  intros Hm Hr Hl Hd Hn Hx H0 H1 Ht R0 R1.
  set (new := NewResourceRateLimiter now max refill limit duration) in *.
  assert (sane new) as Sn by (apply sane_new; lia).
  assert (before T new) as Bn by (split; cbn; [by apply Unix_mono|done]).
  destruct (run_ok T ts0 new bs0 rl Sn Bn H0 Hx R0) as (S & B & X & Lb & Lw).
  destruct (run_ok T (t0 :: ts) rl bs rl' S B ltac:(by constructor) X R1)
    as (S' & B' & _ & Lb' & Lw').
  pose proof (bucket_budget_nonneg T rl' S' B'). pose proof (window_budget_nonneg T rl' S' B').
  pose proof (run_settings ts0 new) as Es. rewrite R0 in Es. injection Es as Em Er El Ed.
  cbn [snd] in El, Ed. assert (safeIntToInt32 limit = limit) as EL
    by (unfold safeIntToInt32, MaxInt32, MinInt32 in *; repeat case_match; lia).
  split_and!.
  - assert (bucket_budget T new <= max + refill * (Unix T - Unix now)); [|lia].
    pose proof (Unix_mono _ _ Hn). unfold bucket_budget. cbn.
    unfold safeIntToInt32, MinInt32. repeat case_match; bool_facts; nia.
  - assert (window_budget T new = limit * (1 + (T - now) / duration)); [|lia].
    unfold window_budget. cbn. rewrite EL. lia.
  - intros Hb. assert (windowLimit rl = limit) as <- by (rewrite El; exact EL).
    eapply burst_bounded; eauto. split; [done|]. rewrite Ed. exact Hb.
  - intros Hlate. assert (recent_budget t0 T rl' + granted bs <= recent_budget t0 T rl) as Hrec.
    { eapply run_recent; [done..| |exact R1]. constructor; [done|].
      rewrite Forall_forall in Hlate, H1 |- *. intros t Hin. split; [by apply Hlate|by apply H1]. }
    pose proof (recent_budget_le t0 T rl S) as Hle. pose proof (Unix_mono _ _ Ht) as Hu.
    assert (0 <= recent_budget t0 T rl').
    { unfold recent_budget. destruct S'. case_match; [nia|done]. }
    cbn [snd] in Em, Er. rewrite Em, Er in Hle. cbn in Hle.
    assert (0 <= safeIntToInt32 max <= max /\ 0 <= safeIntToInt32 refill <= refill)
      by (unfold safeIntToInt32, MaxInt32, MinInt32; repeat case_match; bool_facts; lia). nia.
Qed.

(** Three connections at once and two a second later, of a limiter that allows 100 a
    minute. *)
Lemma limiter_never_exceeds_witness :
  let new := NewResourceRateLimiter (1000 * Second) 100 1 100 Minute in
  let r0 := run [1000 * Second; 1000 * Second; 1000 * Second] new in
  let r1 := run [1001 * Second; 1001 * Second] (snd r0) in
  granted (fst r0) + granted (fst r1) <= 100 + 1 * (Unix (1001 * Second) - Unix (1000 * Second)) /\
  granted (fst r1) <= 100 + 1 * (Unix (1001 * Second) - Unix (1001 * Second)).
Proof.
  intros new r0 r1.
  destruct (limiter_never_exceeds (1000 * Second) (1001 * Second) 100 1 100 Minute
           [1000 * Second; 1000 * Second; 1000 * Second] (1001 * Second) [1001 * Second]
           (fst r0) (snd r0) (fst r1) (snd r1)) as (H & _ & _ & H'); cycle -1;
    [split; [exact H|apply H'; repeat (constructor; [by vm_compute|]); constructor]|..];
    [lia|lia|unfold MaxInt32; lia|by vm_compute|by vm_compute|by vm_compute
    |repeat (constructor; [by vm_compute|]); constructor
    |repeat (constructor; [by vm_compute|]); constructor|by vm_compute|by vm_compute|by vm_compute].
Defined.

(** A limit under 60 requests per window divides to a refill of zero: such a limiter is
    empty for good once its first tokens are spent, however long one waits. *)
Lemma zero_refill_starves now rl :
  refillRate rl = 0 -> tokens rl = 0 -> 0 <= maxTokens rl ->
  fst (Allow now rl) = false /\ tokens (snd (Allow now rl)) = 0.
Proof.
  intros Hr Ht Hm.
  assert (forall r, refillRate r = 0 -> tokens r = 0 -> 0 <= maxTokens r ->
            tokens (refill now r) = 0) as Hz.
  { intros r Er Et Em. unfold refill. case_match; [|done]. cbn.
    rewrite Er, Et, Z.mul_0_r. change (wrap32 (0 + wrap32 0)) with 0.
    unfold minInt32. case_match; bool_facts; lia. }
  unfold Allow. assert (tokens (refill now (roll_window now rl)) = 0) as E.
  { apply Hz; unfold roll_window; by case_match. }
  case_match; [split; [done|]; unfold roll_window; by case_match|]. by rewrite E.
Qed.

(** The refill is computed in [int32]: after a day and a half without a call, a bucket
    that fills at 16666 tokens a second is found empty. *)
Example refill_overflows :
  let rl := NewResourceRateLimiter 0 1000000 16666 1000000 Minute in
  fst (Allow 0 rl) = true /\ fst (Allow (129000 * Second) rl) = false.
Proof. vm_compute. done. Qed.

End Limiter.

(** ** Circuit breaker for external services *)

Module Breaker.

Inductive CircuitBreakerState := CircuitBreakerClosed | CircuitBreakerOpen | CircuitBreakerHalfOpen.

#[global] Instance state_eq : EqDecision CircuitBreakerState.
Proof. solve_decision. Defined.

Record CircuitBreaker := mkBreaker {
  name : string;
  maxFailures : Z;
  timeout : Z;
  failureCount : Z;
  lastFailureTime : Z;
  state : CircuitBreakerState
}.

Definition NewCircuitBreaker (nm : string) (max tmo : Z) : CircuitBreaker :=
  mkBreaker nm (safeIntToInt32 max) tmo 0 0 CircuitBreakerClosed.

Definition AllowRequest (now : Z) (cb : CircuitBreaker) : bool * CircuitBreaker :=
  match state cb with
  | CircuitBreakerClosed => (true, cb)
  | CircuitBreakerOpen =>
      if timeout cb <=? now - lastFailureTime cb
      then (true, cb <| state := CircuitBreakerHalfOpen |>)
      else (false, cb)
  | CircuitBreakerHalfOpen => (true, cb)
  end.

Definition RecordSuccess (cb : CircuitBreaker) : CircuitBreaker :=
  if decide (state cb = CircuitBreakerHalfOpen)
  then cb <| state := CircuitBreakerClosed |> <| failureCount := 0 |> else cb.

Definition RecordFailure (now : Z) (cb : CircuitBreaker) : CircuitBreaker :=
  let cb := cb <| failureCount ::= fun n => wrap32 (n + 1) |> <| lastFailureTime := now |> in
  if maxFailures cb <=? failureCount cb then cb <| state := CircuitBreakerOpen |> else cb.

(** [Execute] runs [fn] on the world [w]; the clock is read before and after. *)
Definition Execute {W} (now now' : Z) (fn : W -> option string * W) (w : W)
    (cb : CircuitBreaker) : option string * W * CircuitBreaker :=
  let '(ok, cb) := AllowRequest now cb in
  if negb ok then (Some ("circuit breaker " +:+ name cb +:+ " is open"), w, cb)
  else
    let '(err, w') := fn w in
    match err with
    | Some e => (Some e, w', RecordFailure now' cb)
    | None => (None, w', RecordSuccess cb)
    end.

(** A closed breaker has failures to spare, a breaker that is not closed has used them. *)
Definition consistent (cb : CircuitBreaker) : Prop :=
  0 <= failureCount cb < MaxInt32 /\ 0 < maxFailures cb /\
  (state cb = CircuitBreakerClosed <-> failureCount cb < maxFailures cb).

Lemma consistent_AllowRequest now cb : consistent cb -> consistent (snd (AllowRequest now cb)).
Proof.
  intros H. unfold AllowRequest. repeat case_match; try done. destruct H as (Hc & Hm & Hs).
  split_and!; cbn; try lia. split; [done|]. intros Hlt. apply Hs in Hlt. congruence.
Qed.

Lemma consistent_RecordSuccess cb : consistent cb -> consistent (RecordSuccess cb).
Proof.
  intros H. unfold RecordSuccess. case_decide; [|done]. destruct H as (Hc & Hm & Hs).
  split_and!; cbn; unfold MaxInt32; try lia. by split.
Qed.

Lemma consistent_RecordFailure now cb :
  failureCount cb < MaxInt32 - 1 -> consistent cb -> consistent (RecordFailure now cb).
Proof.
  intros Hr (Hc & Hm & Hs).
  assert (wrap32 (failureCount cb + 1) = failureCount cb + 1) as Ew
    by (apply wrap32_id; unfold int32_ok, MinInt32; lia).
  unfold RecordFailure. cbn. rewrite Ew. case_match; bool_facts; split_and!; cbn; try lia.
  - split; [done|lia].
  - split; [intros _; lia|intros _; apply Hs; lia].
Qed.

Lemma consistent_Execute {W} now now' (fn : W -> option string * W) w cb :
  consistent cb -> failureCount cb < MaxInt32 - 1 ->
  consistent (snd (Execute now now' fn w cb)).
Proof.
  intros Hc Hr. unfold Execute. pose proof (consistent_AllowRequest now cb Hc) as Ha.
  assert (failureCount (snd (AllowRequest now cb)) = failureCount cb) as Ef
    by (unfold AllowRequest; by repeat case_match).
  destruct (AllowRequest now cb) as [ok cb1]. cbn in Ha, Ef.
  destruct ok; cbn; [|done]. destruct (fn w) as [[e|] w']; cbn.
  - apply consistent_RecordFailure; [lia|done].
  - by apply consistent_RecordSuccess.
Qed.

(** An open breaker keeps the service out of reach until its timeout has passed. *)
Lemma open_blocks {W} now now' (fn : W -> option string * W) w cb :
  state cb = CircuitBreakerOpen -> now < lastFailureTime cb + timeout cb ->
  Execute now now' fn w cb = (Some ("circuit breaker " +:+ name cb +:+ " is open"), w, cb).
Proof.
  intros Hs Hn. unfold Execute, AllowRequest. rewrite Hs.
  by rewrite (proj2 (Z.leb_gt _ _)) by lia.
Qed.

End Breaker.

(** ** Worker tokens

    A token of [workers] is taken by [Submit] and put back when the task it paid for has
    run; [tasks] is the buffered channel between [Submit] and the workers. *)

Module Pool.
Section Pool.
Context {T : Type}.

Record GoroutinePool := mkPool {
  workers : Z;             (* tokens in the channel *)
  tasks : list T;          (* tasks in the channel *)
  running : list T;        (* tasks taken by a worker and not finished *)
  closed : bool;
  maxWorkers : Z
}.

Definition NewGoroutinePool (max : Z) : GoroutinePool := mkPool max [] [] false max.

Definition Submit (t : T) (p : GoroutinePool) : bool * GoroutinePool :=
  if closed p then (false, p)
  else if workers p <=? 0 then (false, p)
  else
    let p := p <| workers ::= fun n => n - 1 |> in
    if Z.of_nat (length (tasks p)) <? maxWorkers p * 2
    then (true, p <| tasks ::= fun l => l ++ [t] |>)
    else (false, p <| workers ::= fun n => n + 1 |>).

(** A worker takes the next task; after [Close] it returns instead of running it. *)
Definition worker_take (p : GoroutinePool) : GoroutinePool :=
  match tasks p with
  | [] => p
  | t :: l => if closed p then p <| tasks := l |>
              else p <| tasks := l |> <| running ::= fun r => r ++ [t] |>
  end.

(** The i-th running task ends, by returning or by a recovered panic: the deferred
    function puts the token back either way. *)
Definition worker_done (i : nat) (p : GoroutinePool) : GoroutinePool :=
  match running p !! i with
  | None => p
  | Some _ => p <| running ::= fun r => take i r ++ drop (S i) r |>
                <| workers ::= fun n => n + 1 |>
  end.

Definition Close (p : GoroutinePool) : GoroutinePool := p <| closed := true |>.

Inductive pool_step : GoroutinePool -> GoroutinePool -> Prop :=
| step_submit t p : pool_step p (snd (Submit t p))
| step_take p : pool_step p (worker_take p)
| step_done i p : pool_step p (worker_done i p)
| step_close p : pool_step p (Close p).

(** Every token is in the channel, with a queued task or with a running one; after
    [Close] some may be gone with tasks that were dropped. *)
Definition tokens_out (p : GoroutinePool) : Z :=
  workers p + Z.of_nat (length (tasks p)) + Z.of_nat (length (running p)).
Definition tokens_kept (p : GoroutinePool) : Prop :=
  0 <= workers p /\ tokens_out p <= maxWorkers p /\
  (closed p = false -> tokens_out p = maxWorkers p).

Lemma pool_step_tokens p p' : pool_step p p' -> tokens_kept p -> tokens_kept p'.
Proof.
  unfold tokens_kept, tokens_out. intros [t q|q|i q|q] (Hw & Ht & He).
  - unfold Submit. repeat case_match; bool_facts; cbn in *; rewrite ?length_app; cbn;
      split_and!; try done; try lia; congruence.
  - unfold worker_take. destruct (tasks q) as [|t l] eqn:Et; cbn in *; [rewrite Et in *; by split_and!|].
    case_match eqn:Ec; cbn; rewrite ?length_app; cbn; split_and!; try lia; rewrite ?Ec;
      intros; try congruence; specialize (He eq_refl); lia.
  - unfold worker_done. case_match eqn:El; [|done]. cbn.
    apply lookup_lt_Some in El. rewrite length_app, length_take, length_drop.
    split_and!; try lia. intros Hc. specialize (He Hc). lia.
  - cbn. split_and!; lia.
Qed.

(** So a token always finds room in its channel, and a task that has a token finds room
    in the task queue: [Submit] refuses only when the pool is closed or no token is
    left. *)
Lemma Submit_refuses t p :
  rtc pool_step (NewGoroutinePool (maxWorkers p)) p -> 0 <= maxWorkers p ->
  workers p <= maxWorkers p /\
  (fst (Submit t p) = false <-> closed p = true \/ workers p = 0).
Proof.
  intros Hr Hm. destruct (rtc_keeps _ _ pool_step_tokens _ _ Hr) as (Hw & Ht & _).
  { unfold tokens_kept, tokens_out. cbn. lia. }
  unfold tokens_out in Ht. split; [lia|]. unfold Submit.
  destruct (closed p); cbn; [by split; [left|]|].
  case_match eqn:E; bool_facts; cbn; [split; [right; lia|done]|].
  rewrite (proj2 (Z.ltb_lt _ _)) by lia. cbn. split; [done|]. intros [|]; [done|lia].
Qed.

End Pool.
End Pool.

(** ** Memory limits (memory_manager.go) *)

Module Memory.

Record MemoryConfig := mkMemoryConfig {
  MaxMemoryUsage : Z;
  MemoryWarningThreshold : float64;
  MemoryCriticalThreshold : float64;
  GCThreshold : float64;
  MonitoringIntervalSeconds : Z;
  MonitoringInterval : Z;
  PerConnectionMemoryLimit : Z;
  MaxGoroutines : Z;
  GoroutineLeakDetection : bool;
  MemoryExhaustionProtection : bool
}.

Definition DefaultMemoryConfig : MemoryConfig :=
  mkMemoryConfig (1024 * 1024 * 1024) (f64_ratio 3 4) (f64_ratio 9 10) (f64_ratio 4 5)
                 0 (5 * Second) (10 * 1024 * 1024) 2000 true true.

(** [c.X <= 0 || c.X > 1] *)
Definition out_of_unit (x : float64) : bool :=
  (f64_le x (f64_of_Z 0) || f64_gt x (f64_of_Z 1))%bool.

Definition ApplyDefaults (c : MemoryConfig) : MemoryConfig :=
  let d := DefaultMemoryConfig in
  let c := if MaxMemoryUsage c <=? 0 then c <| MaxMemoryUsage := MaxMemoryUsage d |> else c in
  let c := if out_of_unit (MemoryWarningThreshold c)
           then c <| MemoryWarningThreshold := MemoryWarningThreshold d |> else c in
  let c := if out_of_unit (MemoryCriticalThreshold c)
           then c <| MemoryCriticalThreshold := MemoryCriticalThreshold d |> else c in
  let c := if out_of_unit (GCThreshold c) then c <| GCThreshold := GCThreshold d |> else c in
  let c := if 0 <? MonitoringIntervalSeconds c
           then c <| MonitoringInterval := wrap64 (MonitoringIntervalSeconds c * Second) |>
           else c in
  let c := if MonitoringInterval c <? Second
           then c <| MonitoringInterval := MonitoringInterval d |> else c in
  let c := c <| MonitoringIntervalSeconds := go_div (MonitoringInterval c) Second |> in
  let c := if PerConnectionMemoryLimit c <=? 0
           then c <| PerConnectionMemoryLimit := PerConnectionMemoryLimit d |> else c in
  if MaxGoroutines c <=? 0 then c <| MaxGoroutines := MaxGoroutines d |> else c.

(** A configuration the server can run with. *)
Record usable (c : MemoryConfig) : Prop := {
  usable_max : 0 < MaxMemoryUsage c;
  usable_warning : out_of_unit (MemoryWarningThreshold c) = false;
  usable_critical : out_of_unit (MemoryCriticalThreshold c) = false;
  usable_gc : out_of_unit (GCThreshold c) = false;
  usable_interval : Second <= MonitoringInterval c;
  usable_seconds : MonitoringIntervalSeconds c = MonitoringInterval c / Second;
  usable_connection : 0 < PerConnectionMemoryLimit c;
  usable_goroutines : 0 < MaxGoroutines c
}.

Lemma ApplyDefaults_usable c : usable (ApplyDefaults c).
Proof.
  split; unfold ApplyDefaults.
  - repeat case_match; bool_facts; cbn in *; lia.
  - by repeat case_match.
  - by repeat case_match.
  - by repeat case_match.
  - repeat case_match; bool_facts; cbn in *; unfold Second in *; lia.
  - unfold go_div. repeat case_match; bool_facts; cbn in *; try done;
      apply Z.quot_div_nonneg; unfold Second in *; lia.
  - repeat case_match; bool_facts; cbn in *; lia.
  - repeat case_match; bool_facts; cbn in *; lia.
Qed.

(** Only what is out of range is replaced. *)
Lemma ApplyDefaults_keeps c :
  usable c -> MonitoringInterval c < 2 ^ 62 ->
  MonitoringInterval c = MonitoringIntervalSeconds c * Second -> ApplyDefaults c = c.
Proof.
  intros [] Hi He. destruct c as [mx w cr gc ms mi pc mg gl me]. cbn in *.
  assert (0 < ms) by (unfold Second in *; nia). subst mi.
  unfold ApplyDefaults. cbn. rewrite (proj2 (Z.leb_gt mx 0)) by done. cbn.
  rewrite usable_warning0. cbn. rewrite usable_critical0. cbn. rewrite usable_gc0. cbn.
  rewrite (proj2 (Z.ltb_lt 0 ms)) by done. cbn.
  rewrite wrap64_id by (unfold int64_ok, two63, Second in *; lia).
  rewrite (proj2 (Z.ltb_ge _ Second)) by done. cbn.
  rewrite (proj2 (Z.leb_gt pc 0)) by done. cbn. rewrite (proj2 (Z.leb_gt mg 0)) by done.
  unfold go_div. by rewrite Z.quot_mul by done.
Qed.

Inductive MemoryCircuitBreakerState :=
| MemoryCircuitBreakerClosed | MemoryCircuitBreakerOpen | MemoryCircuitBreakerHalfOpen.

#[global] Instance mstate_eq : EqDecision MemoryCircuitBreakerState.
Proof. solve_decision. Defined.

Record MemoryCircuitBreaker := mkMemoryBreaker {
  mstate : MemoryCircuitBreakerState;
  mtimeout : Z;
  lastTriggered : Z;
  triggerCount : Z;
  maxTriggers : Z
}.

Definition MemoryAllowRequest (now : Z) (b : MemoryCircuitBreaker) : bool * MemoryCircuitBreaker :=
  match mstate b with
  | MemoryCircuitBreakerClosed => (true, b)
  | MemoryCircuitBreakerOpen =>
      if mtimeout b <=? now - lastTriggered b
      then (true, b <| mstate := MemoryCircuitBreakerHalfOpen |>)
      else (false, b)
  | MemoryCircuitBreakerHalfOpen => (true, b)
  end.

Definition RecordTrigger (now : Z) (b : MemoryCircuitBreaker) : MemoryCircuitBreaker :=
  let b := b <| triggerCount ::= fun n => wrap64 (n + 1) |> <| lastTriggered := now |> in
  if maxTriggers b <=? triggerCount b then b <| mstate := MemoryCircuitBreakerOpen |> else b.

Definition MemoryRecordSuccess (b : MemoryCircuitBreaker) : MemoryCircuitBreaker :=
  if decide (mstate b = MemoryCircuitBreakerHalfOpen)
  then b <| mstate := MemoryCircuitBreakerClosed |> <| triggerCount := 0 |> else b.

(** What the Go runtime reports: [runtime.ReadMemStats] and [runtime.NumGoroutine]. *)
Record runtime := mkRuntime { Alloc : Z; NumGoroutine : Z; NumGC : Z }.

Record MemoryStats := mkMemoryStats {
  CurrentMemoryUsage : Z;
  PeakMemoryUsage : Z;
  MemoryUtilization : float64;
  GoroutineCount : Z;
  PeakGoroutineCount : Z;
  GCCollections : Z;
  ForcedGCCollections : Z;
  MemoryWarnings : Z;
  MemoryCriticalAlerts : Z;
  LastGC : Z;
  LastUpdate : Z
}.
Definition zero_stats : MemoryStats := mkMemoryStats 0 0 (f64_of_Z 0) 0 0 0 0 0 0 0 0.

Record MemoryManager := mkMemoryManager {
  config : MemoryConfig;
  stats : MemoryStats;
  circuitBreaker : MemoryCircuitBreaker
}.

Definition NewMemoryManager (c : option MemoryConfig) : MemoryManager :=
  mkMemoryManager (default DefaultMemoryConfig c) zero_stats
    (mkMemoryBreaker MemoryCircuitBreakerClosed (30 * Second) 0 0 5).

(** [float64(m.Alloc) / float64(mm.config.MaxMemoryUsage)] *)
Definition utilization (rt : runtime) (c : MemoryConfig) : float64 :=
  f64_div (f64_of_Z (Alloc rt)) (f64_of_Z (MaxMemoryUsage c)).

Definition CheckMemoryLimit (now : Z) (rt : runtime) : M MemoryManager unit :=
  mm ← get;
  let '(ok, b) := MemoryAllowRequest now (circuitBreaker mm) in
  _ ← modify (fun mm => mm <| circuitBreaker := b |>);
  if negb ok
  then fail "memory circuit breaker is open - memory exhaustion protection active"
  else
    let u := utilization rt (config mm) in
    if f64_ge u (MemoryCriticalThreshold (config mm)) then
      _ ← modify (fun mm => mm <| circuitBreaker ::= RecordTrigger now |>);
      _ ← modify (fun mm => mm <| stats ::= fun s =>
                    s <| MemoryCriticalAlerts ::= fun n => wrap64 (n + 1) |> |>);
      fail "memory critical threshold exceeded"
    else
      if f64_ge u (MemoryWarningThreshold (config mm))
      then modify (fun mm => mm <| stats ::= fun s =>
                     s <| MemoryWarnings ::= fun n => wrap64 (n + 1) |> |>)
      else mret tt.

Definition CheckConnectionMemoryLimit (now : Z) (rt : runtime) (additionalMemory : Z) :
    M MemoryManager unit :=
  _ ← CheckMemoryLimit now rt;
  mm ← get;
  if PerConnectionMemoryLimit (config mm) <? additionalMemory
  then fail "connection memory limit exceeded" else mret tt.

Definition CheckGoroutineLimit (rt : runtime) (mm : MemoryManager) : result unit :=
  if MaxGoroutines (config mm) <=? NumGoroutine rt
  then Err "goroutine limit exceeded" else Ok tt.

(** Thresholds left out of the configuration file are zero, and zero refuses everybody;
    after [ApplyDefaults] the same file admits connections. *)
Definition partial_config : MemoryConfig :=
  mkMemoryConfig 0 (f64_of_Z 0) (f64_of_Z 0) (f64_of_Z 0) 0 0 (20 * 1024 * 1024) 0 true true.
Example defaults_revive :
  let rt := mkRuntime (64 * 1024 * 1024) 12 3 in
  is_ok (fst (CheckMemoryLimit 0 rt (NewMemoryManager (Some
           (partial_config <| MaxMemoryUsage := 1024 |>))))) = false /\
  is_ok (fst (CheckMemoryLimit 0 rt (NewMemoryManager (Some
           (ApplyDefaults partial_config))))) = true.
Proof. vm_compute. done. Qed.

(** The check passes exactly when the breaker lets it through and the utilisation is
    under the critical threshold. *)
Lemma CheckMemoryLimit_spec now rt mm :
  is_ok (fst (CheckMemoryLimit now rt mm))
  = (fst (MemoryAllowRequest now (circuitBreaker mm))
     && negb (f64_ge (utilization rt (config mm)) (MemoryCriticalThreshold (config mm))))%bool.
Proof.
  unfold CheckMemoryLimit, mbind, M_bind, get, modify. cbn.
  destruct (MemoryAllowRequest now (circuitBreaker mm)) as [[|] b]; cbn; [|done].
  destruct (f64_ge _ (MemoryCriticalThreshold (config mm))); cbn; [done|].
  by destruct (f64_ge _ _).
Qed.

(** Nothing the checks do closes the breaker again ([MemoryRecordSuccess] has no caller):
    once it has opened, one critical reading is enough to open it, for good. *)
Definition tripped (b : MemoryCircuitBreaker) : Prop :=
  mstate b <> MemoryCircuitBreakerClosed /\ 0 < maxTriggers b <= triggerCount b.

Lemma CheckMemoryLimit_stays_tripped now rt mm :
  triggerCount (circuitBreaker mm) < two63 - 1 -> tripped (circuitBreaker mm) ->
  tripped (circuitBreaker (snd (CheckMemoryLimit now rt mm))).
Proof.
  intros Hr [Hs Ht]. unfold CheckMemoryLimit, mbind, M_bind, get, modify. cbn.
  assert (tripped (snd (MemoryAllowRequest now (circuitBreaker mm))) /\
          triggerCount (snd (MemoryAllowRequest now (circuitBreaker mm)))
          = triggerCount (circuitBreaker mm)) as [Hb Ec].
  { unfold MemoryAllowRequest, tripped. repeat case_match; cbn; split_and!; congruence || lia. }
  destruct (MemoryAllowRequest now (circuitBreaker mm)) as [[|] b]; cbn in *; [|done].
  destruct (f64_ge _ (MemoryCriticalThreshold (config mm))); cbn.
  - destruct Hb as [Hb1 Hb2]. unfold RecordTrigger, tripped. cbn.
    rewrite wrap64_id by (unfold int64_ok, two63 in *; lia).
    rewrite (proj2 (Z.leb_le _ _)) by lia. cbn. split; [done|].
    rewrite wrap64_id by (unfold int64_ok, two63 in *; lia). lia.
  - by destruct (f64_ge _ _).
Qed.

(** *** The monitoring goroutine

    [mm.mu] is a [sync.RWMutex].  A goroutine is the list of what it still has to do;
    [Lock] waits until nobody holds the mutex, [RLock] until nobody holds it for
    writing. *)
Inductive rwmutex := Unlocked | RLocked (n : positive) | Locked.
Inductive action :=
| Lock | Unlock | RLock | RUnlock
| Do (f : MemoryStats -> MemoryStats).

(** One action; [None] when it has to wait. *)
Definition act (a : action) (w : rwmutex * MemoryStats) : option (rwmutex * MemoryStats) :=
  let '(mu, st) := w in
  match a, mu with
  | Lock, Unlocked => Some (Locked, st)
  | Unlock, Locked => Some (Unlocked, st)
  | RLock, Unlocked => Some (RLocked 1, st)
  | RLock, RLocked n => Some (RLocked (n + 1), st)
  | RUnlock, RLocked 1 => Some (Unlocked, st)
  | RUnlock, RLocked n => Some (RLocked (n - 1), st)
  | Do f, _ => Some (mu, f st)
  | _, _ => None
  end.

(** A goroutine runs as far as it can. *)
Fixpoint go_on (p : list action) (w : rwmutex * MemoryStats) :
    list action * (rwmutex * MemoryStats) :=
  match p with
  | [] => ([], w)
  | a :: p' => match act a w with Some w' => go_on p' w' | None => (p, w) end
  end.

Definition updateMemoryStats (now : Z) (rt : runtime) (c : MemoryConfig) (st : MemoryStats) :
    MemoryStats :=
  let usage := safeUint64ToInt64 (Alloc rt) in
  let st := st <| CurrentMemoryUsage := usage |>
               <| MemoryUtilization := utilization rt c |>
               <| GoroutineCount := NumGoroutine rt |>
               <| GCCollections := NumGC rt |>
               <| LastUpdate := now |> in
  let st := if PeakMemoryUsage st <? CurrentMemoryUsage st
            then st <| PeakMemoryUsage := CurrentMemoryUsage st |> else st in
  if PeakGoroutineCount st <? GoroutineCount st
  then st <| PeakGoroutineCount := GoroutineCount st |> else st.

(** [rt'] is read after the collection. *)
Definition ForceGarbageCollection (now : Z) (rt rt' : runtime) (c : MemoryConfig) : list action :=
  [Lock] ++
  (if f64_ge (utilization rt c) (GCThreshold c) then
     [Do (fun st => st <| ForcedGCCollections ::= fun n => wrap64 (n + 1) |> <| LastGC := now |>);
      Do (updateMemoryStats now rt' c)]
   else []) ++ [Unlock].

Definition GetMemoryStats (now : Z) (rt : runtime) (c : MemoryConfig) : list action :=
  [RLock; Do (updateMemoryStats now rt c); RUnlock].

Definition performMemoryMonitoring (now : Z) (rt rt' : runtime) (c : MemoryConfig) : list action :=
  [Lock; Do (updateMemoryStats now rt c)] ++ ForceGarbageCollection now rt rt' c ++ [Unlock].

(** The first tick of the monitor locks the mutex twice: it waits for itself, and from
    then on every reader of the statistics waits too. *)
Lemma monitoring_locks_itself now rt rt' c st :
  exists rest st',
    go_on (performMemoryMonitoring now rt rt' c) (Unlocked, st) = (Lock :: rest, (Locked, st'))
    /\ forall now2 rt2, go_on (GetMemoryStats now2 rt2 c) (Locked, st')
                       = (GetMemoryStats now2 rt2 c, (Locked, st')).
Proof. eexists _, _. by split. Qed.

End Memory.
