(* ===== verification/Connections.v ===== *)
(** * Connections: the resource manager and the life of a connection

    Models the [ResourceManager] of internal/smtp/resource_manager.go with its limits,
    and what internal/smtp/server.go does with it: [acceptLoop] asks
    [CanAcceptConnection], and a worker runs [handleAndCloseSession], which registers the
    connection, serves it and releases it.

    [AcceptConnection] and [ReleaseConnection] change three things that three different
    locks protect (the table of connections, the counts per address, the total).  They
    are written here as a sequence of their atomic actions, so that the accounting
    theorem covers every interleaving of any number of workers with the monitor that
    releases idle connections. *)

From stdpp Require Import gmap.
From S2P Require Import Prelude GoStrings GoNet GoMath Resources.
Import Tracker.

Set Primitive Projections.

(** ** Distributed limits

    The Valkey server is outside the repository: its commands are parameters. *)
Class Valkey (V : Type) := {
  ZREMRANGEBYSCORE : string -> Z -> Z -> V -> V;
  ZCOUNT : string -> Z -> Z -> V -> Z * option string * V;
  ZADD : string -> Z -> string -> V -> V;
  EXPIRE : string -> Z -> V -> V;
  INCR : string -> V -> Z * option string * V
}.

Record ValkeyRateLimiter := mkValkey {
  keyPrefix : string;
  enabled : bool;
  rateLimitTTL : Z
}.

Section Valkey.
Context {V : Type} `{!Valkey V}.

Definition CheckRateLimit (now : Z) (v : ValkeyRateLimiter) (key : string)
    (maxRequests window : Z) (db : V) : bool * V :=
  if negb (enabled v) then (true, db)
  else
    let fullKey := keyPrefix v +:+ key in
    let sec := Unix now in
    let windowStart := sec - whole_seconds window in
    let db := ZREMRANGEBYSCORE fullKey 0 windowStart db in
    let '(count, err, db) := ZCOUNT fullKey windowStart sec db in
    match err with
    | Some e => if negb (e =? "redis nil message")%string then (true, db)
                else if maxRequests <=? count then (false, db)
                else (true, EXPIRE fullKey (whole_seconds (rateLimitTTL v))
                              (ZADD fullKey sec (FormatInt sec) db))
    | None => if maxRequests <=? count then (false, db)
              else (true, EXPIRE fullKey (whole_seconds (rateLimitTTL v))
                            (ZADD fullKey sec (FormatInt sec) db))
    end.

Definition IncrementCounter (v : ValkeyRateLimiter) (key : string) (ttl : Z) (db : V) :
    result Z * V :=
  if negb (enabled v) then (Ok 0, db)
  else
    let fullKey := keyPrefix v +:+ key in
    let '(n, err, db) := INCR fullKey db in
    match err with
    | Some e => (Err ("failed to increment counter: " +:+ e), db)
    | None => (Ok n, EXPIRE fullKey (whole_seconds ttl) db)
    end.
End Valkey.

(** ** State *)

Record ResourceLimits := mkLimits {
  MaxConnections : Z;
  MaxConnectionsPerIP : Z;
  LimitGoroutines : Z;
  ConnectionTimeout : Z;
  SessionTimeout : Z;
  IdleTimeout : Z;
  RateLimitWindow : Z;
  MaxRequestsPerWindow : Z;
  LimitMemory : Z;
  GoroutinePoolSize : Z;
  ValkeyURL : string;
  ValkeyKeyPrefix : string
}.

Definition DefaultResourceLimits : ResourceLimits :=
  mkLimits 1000 50 2000 (30 * Second) (5 * Minute) (2 * Minute) Minute 100
           (2 * 1024 * 1024 * 1024) 100 "" "".

Record ConnectionInfo := mkConn {
  RemoteAddr : string;
  ConnectedAt : Z;
  LastActivity : Z;
  RequestCount : Z;
  SessionID : string
}.

Record ResourceManager {V : Type} := mkManager {
  limits : ResourceLimits;
  rm_connections : gmap string ConnectionInfo;
  ipTracker : IPConnectionTracker;
  globalRateLimiter : Limiter.ResourceRateLimiter;
  ipRateLimiters : gmap string Limiter.ResourceRateLimiter;
  circuitBreakers : gmap string Breaker.CircuitBreaker;
  memoryManager : option Memory.MemoryManager;
  valkeyClient : option ValkeyRateLimiter;
  valkey : V;
  activeConnections : Z;
  totalRequests : Z;
  rejectedRequests : Z
}.
Arguments ResourceManager : clear implicits.

Section Manager.
Context {V : Type} `{!Valkey V}.

(** The memory manager [NewResourceManager] builds from its limits. *)
Definition memory_config (l : ResourceLimits) : Memory.MemoryConfig :=
  let maxConnections := if MaxConnections l =? 0 then 1 else MaxConnections l in
  Memory.mkMemoryConfig (LimitMemory l) (f64_ratio 3 4) (f64_ratio 9 10) (f64_ratio 4 5)
    0 (5 * Second) (go_div (LimitMemory l) maxConnections) (LimitGoroutines l) true true.

(** [connect] is what connecting to the Valkey server gave. *)
Definition NewResourceManager (now : Z) (limits : option ResourceLimits)
    (connect : result unit) (db : V) : ResourceManager V :=
  let l := default DefaultResourceLimits limits in
  let client :=
    if (ValkeyURL l =? "")%string then None
    else match connect with
         | Err _ => None
         | Ok _ =>
             let prefix := if (ValkeyKeyPrefix l =? "")%string then "elemta:ratelimit:"
                           else ValkeyKeyPrefix l in
             Some (mkValkey prefix true (RateLimitWindow l * 2))
         end in
  mkManager V l ∅ (NewIPConnectionTracker (MaxConnectionsPerIP l))
    (Limiter.NewResourceRateLimiter now (MaxRequestsPerWindow l)
       (go_div (MaxRequestsPerWindow l) 60) (MaxRequestsPerWindow l) (RateLimitWindow l))
    ∅ ∅ (Some (Memory.NewMemoryManager (Some (memory_config l)))) client db 0 0 0.

(** [host, _, err := net.SplitHostPort(addr); if err != nil { host = addr }] *)
Definition host_of (addr : string) : string :=
  match SplitHostPort addr with Some (h, _) => h | None => addr end.

Definition M_ := M (ResourceManager V).

(** [atomic.AddInt64(&rm.rejectedRequests, 1); return false] *)
Definition reject (why : string) : M_ unit :=
  _ ← modify (fun rm => rm <| rejectedRequests ::= fun n => wrap64 (n + 1) |>);
  fail why.

Definition reject_unless (b : bool) (why : string) : M_ unit :=
  if b then mret tt else reject why.

(** A check of the memory manager, when there is one. *)
Definition memory_check {A} (m : M Memory.MemoryManager A) (none : A) : M_ A :=
  fun rm =>
    match memoryManager rm with
    | None => (Ok none, rm)
    | Some mm => let '(r, mm') := m mm in (r, rm <| memoryManager := Some mm' |>)
    end.

Definition getOrCreateIPRateLimiter (now : Z) (ip : string) : M_ Limiter.ResourceRateLimiter :=
  rm ← get;
  match ipRateLimiters rm !! ip with
  | Some l => mret l
  | None =>
      let l := Limiter.NewResourceRateLimiter now
                 (go_div (MaxRequestsPerWindow (limits rm)) 2)
                 (go_div (MaxRequestsPerWindow (limits rm)) 60)
                 (go_div (MaxRequestsPerWindow (limits rm)) 2)
                 (RateLimitWindow (limits rm)) in
      _ ← modify (fun rm => rm <| ipRateLimiters ::= <[ip := l]> |>);
      mret l
  end.

Definition allow_global (now : Z) : M_ bool := fun rm =>
  let '(b, l) := Limiter.Allow now (globalRateLimiter rm) in
  (Ok b, rm <| globalRateLimiter := l |>).

Definition allow_ip (now : Z) (host : string) : M_ bool :=
  l ← getOrCreateIPRateLimiter now host;
  let '(b, l') := Limiter.Allow now l in
  _ ← modify (fun rm => rm <| ipRateLimiters ::= <[host := l']> |>);
  mret b.

Definition allow_valkey (now : Z) (host : string) : M_ bool := fun rm =>
  match valkeyClient rm with
  | Some v =>
      if enabled v then
        let '(b, db) := CheckRateLimit now v ("ip:" +:+ host)
                          (MaxRequestsPerWindow (limits rm)) (RateLimitWindow (limits rm))
                          (valkey rm) in
        (Ok b, rm <| valkey := db |>)
      else (Ok true, rm)
  | None => (Ok true, rm)
  end.

(** The checks in order; the error says which one refused.  The runtime is read once
    for the memory and once for the goroutines. *)
Definition can_accept (now : Z) (rt : Memory.runtime) (remoteAddr : string) : M_ unit :=
  mem ← attempt (memory_check (Memory.CheckMemoryLimit now rt) tt);
  _ ← reject_unless (is_ok mem) "memory limit exceeded";
  rm ← get;
  let gor := match memoryManager rm with
             | Some mm => is_ok (Memory.CheckGoroutineLimit rt mm) | None => true end in
  _ ← reject_unless gor "goroutine limit exceeded";
  _ ← reject_unless (negb (safeIntToInt32 (MaxConnections (limits rm)) <=? activeConnections rm))
        "global limit reached";
  let host := host_of remoteAddr in
  _ ← reject_unless (CanConnect (ipTracker rm) host) "IP limit reached";
  g ← allow_global now;
  _ ← reject_unless g "global rate limit exceeded";
  i ← allow_ip now host;
  _ ← reject_unless i "IP rate limit exceeded";
  v ← allow_valkey now host;
  reject_unless v "distributed rate limit exceeded".

Definition CanAcceptConnection (now : Z) (rt : Memory.runtime) (remoteAddr : string)
    (rm : ResourceManager V) : bool * ResourceManager V :=
  let '(r, rm') := can_accept now rt remoteAddr rm in (is_ok r, rm').

(** ** The atomic actions of accepting and releasing *)

Definition session_id (now : Z) (remoteAddr : string) : string :=
  "session-" +:+ FormatInt now +:+ "-" +:+ remoteAddr.

Definition estimatedMemory : Z := 1024 * 1024.

Definition accept_memory (now : Z) (rt : Memory.runtime) : M_ unit :=
  memory_check (Memory.CheckConnectionMemoryLimit now rt estimatedMemory) tt.

(** [rm.ipTracker.AddConnection(host)] *)
Definition accept_count (addr : string) (rm : ResourceManager V) : bool * ResourceManager V :=
  let '(b, t) := AddConnection (host_of addr) (ipTracker rm) in
  (b, rm <| ipTracker := t |>).

(** [rm.connections[sessionID] = connInfo] *)
Definition accept_register (now : Z) (id addr : string) (rm : ResourceManager V) :
    ResourceManager V :=
  rm <| rm_connections ::= <[id := mkConn addr now now 0 id]> |>.

(** [atomic.AddInt32(&rm.activeConnections, 1); atomic.AddInt64(&rm.totalRequests, 1)] *)
Definition accept_activate (rm : ResourceManager V) : ResourceManager V :=
  rm <| activeConnections ::= fun n => wrap32 (n + 1) |>
     <| totalRequests ::= fun n => wrap64 (n + 1) |>.

(** Under the lock: look the connection up and delete it. *)
Definition release_take (id : string) (rm : ResourceManager V) :
    option ConnectionInfo * ResourceManager V :=
  (rm_connections rm !! id, rm <| rm_connections ::= delete id |>).

Definition release_uncount (addr : string) (rm : ResourceManager V) : ResourceManager V :=
  rm <| ipTracker ::= RemoveConnection (host_of addr) |>.

Definition release_deactivate (rm : ResourceManager V) : ResourceManager V :=
  rm <| activeConnections ::= fun n => wrap32 (n - 1) |>.

Definition ReleaseConnection (id : string) (rm : ResourceManager V) : ResourceManager V :=
  if (id =? "")%string then rm
  else
    match release_take id rm with
    | (Some info, rm) => release_deactivate (release_uncount (RemoteAddr info) rm)
    | (None, rm) => rm
    end.

(** [deadline] is whether [conn.SetDeadline] succeeded.  The result is the session id,
    empty when the connection is refused. *)
Definition AcceptConnection (now : Z) (rt : Memory.runtime) (remoteAddr : string)
    (deadline : bool) (rm : ResourceManager V) : string * ResourceManager V :=
  let id := session_id now remoteAddr in
  match accept_memory now rt rm with
  | (Err _, rm) => ("", rm)
  | (Ok _, rm) =>
      match accept_count remoteAddr rm with
      | (false, rm) => ("", rm)
      | (true, rm) =>
          let rm := accept_activate (accept_register now id remoteAddr rm) in
          if deadline then (id, rm) else ("", ReleaseConnection id rm)
      end
  end.

Definition UpdateConnectionActivity (now : Z) (id : string) (rm : ResourceManager V) :
    ResourceManager V :=
  match rm_connections rm !! id with
  | Some c => rm <| rm_connections ::=
                <[id := c <| LastActivity := now |>
                          <| RequestCount ::= fun n => wrap32 (n + 1) |>]> |>
  | None => rm
  end.

Definition idle (now : Z) (rm : ResourceManager V) (c : ConnectionInfo) : bool :=
  LastActivity c <? now - IdleTimeout (limits rm).

(** Go visits a map in no particular order; [idle_ids] lists one. *)
Definition idle_ids (now : Z) (rm : ResourceManager V) : list string :=
  fst <$> filter (fun kv => idle now rm (snd kv) = true) (map_to_list (rm_connections rm)).

Definition cleanupIdleConnections (now : Z) (rm : ResourceManager V) : ResourceManager V :=
  foldl (fun rm id => ReleaseConnection id rm) rm (idle_ids now rm).

Definition cleanupOldRateLimiters (rm : ResourceManager V) : ResourceManager V :=
  rm <| ipRateLimiters ::=
    filter (fun kv => bool_decide (GetConnectionCount (ipTracker rm) (fst kv) = 0) = false) |>.

Definition GetCircuitBreaker (serviceName : string) : M_ Breaker.CircuitBreaker :=
  rm ← get;
  match circuitBreakers rm !! serviceName with
  | Some cb => mret cb
  | None =>
      let cb := Breaker.NewCircuitBreaker serviceName 5 (30 * Second) in
      _ ← modify (fun rm => rm <| circuitBreakers ::= <[serviceName := cb]> |>);
      mret cb
  end.

Definition SetMemoryManager (mm : option Memory.MemoryManager) (rm : ResourceManager V) :
    ResourceManager V := rm <| memoryManager := mm |>.

End Manager.

(** ** The server around it

    A goroutine of the server is where it stands in [handleAndCloseSession]; its session
    id is empty when [AcceptConnection] refused it, which the handler does not look at. *)

(** What a goroutine does when a release is over. *)
Inductive after := Ends | Serves (addr : string).

Inductive goroutine :=
| Accepting (id addr : string)     (* in AcceptConnection, before the memory check *)
| Cleared (id addr : string)      (* before ipTracker.AddConnection *)
| Counted (id addr : string)       (* before the table is written *)
| Registered (id addr : string)    (* before the total is incremented *)
| Activated (id addr : string)     (* before conn.SetDeadline *)
| Serving (id addr : string)       (* session.Handle *)
| Releasing (id : string) (k : after)
| Taken (addr : string) (k : after)      (* before ipTracker.RemoveConnection *)
| Uncounted (k : after).                 (* before the total is decremented *)

Definition resume (k : after) : list goroutine :=
  match k with Ends => [] | Serves addr => [Serving "" addr] end.

(** What the environment supplies to one action. *)
Record environment := mkEnv { e_now : Z; e_rt : Memory.runtime; e_deadline : bool }.

Section Server.
Context {V : Type} `{!Valkey V}.

(** One atomic action of a goroutine. *)
Definition advance (e : environment) (g : goroutine) (rm : ResourceManager V) :
    list goroutine * ResourceManager V :=
  match g with
  | Accepting id addr =>
      match accept_memory (e_now e) (e_rt e) rm with
      | (Err _, rm) => ([Serving "" addr], rm)
      | (Ok _, rm) => ([Cleared id addr], rm)
      end
  | Cleared id addr =>
      match accept_count addr rm with
      | (false, rm) => ([Serving "" addr], rm)
      | (true, rm) => ([Counted id addr], rm)
      end
  | Counted id addr => ([Registered id addr], accept_register (e_now e) id addr rm)
  | Registered id addr => ([Activated id addr], accept_activate rm)
  | Activated id addr =>
      if e_deadline e then ([Serving id addr], rm) else ([Releasing id (Serves addr)], rm)
  | Serving id addr => if (id =? "")%string then ([], rm) else ([Releasing id Ends], rm)
  | Releasing id k =>
      if (id =? "")%string then (resume k, rm)
      else match release_take id rm with
           | (Some info, rm) => ([Taken (RemoteAddr info) k], rm)
           | (None, rm) => (resume k, rm)
           end
  | Taken addr k => ([Uncounted k], release_uncount addr rm)
  | Uncounted k => (resume k, release_deactivate rm)
  end.

Record system := mkSystem { sys_rm : ResourceManager V; sys_gs : list goroutine }.

(** Run one goroutine alone for [n] actions. *)
Fixpoint drive (n : nat) (e : environment) (gs : list goroutine) (rm : ResourceManager V) :
    list goroutine * ResourceManager V :=
  match n, gs with
  | S n', g :: _ => let '(gs', rm') := advance e g rm in drive n' e gs' rm'
  | _, _ => (gs, rm)
  end.

(** The composed operations are what a goroutine does when nobody interferes. *)
Lemma AcceptConnection_drive e addr rm :
  exists n, drive n e [Accepting (session_id (e_now e) addr) addr] rm
            = ([Serving (fst (AcceptConnection (e_now e) (e_rt e) addr (e_deadline e) rm)) addr],
               snd (AcceptConnection (e_now e) (e_rt e) addr (e_deadline e) rm)).
Proof.
  unfold AcceptConnection.
  destruct (accept_memory (e_now e) (e_rt e) rm) as [[[]|err] rm1] eqn:Em.
  2: { exists 1%nat. cbn [drive advance]. by rewrite Em. }
  destruct (accept_count addr rm1) as [[|] rm2] eqn:Ec.
  2: { exists 2%nat. cbn [drive advance]. rewrite Em. cbn [drive advance]. by rewrite Ec. }
  destruct (e_deadline e) eqn:Ed.
  - exists 5%nat. cbn [drive advance]. rewrite Em. cbn [drive advance]. rewrite Ec.
    cbn [drive advance]. by rewrite Ed.
  - exists 8%nat. cbn [drive advance]. rewrite Em. cbn [drive advance]. rewrite Ec.
    cbn [drive advance]. rewrite Ed. unfold ReleaseConnection. cbn. by rewrite lookup_insert_eq.
Qed.

Lemma ReleaseConnection_drive e id rm :
  exists n, drive n e [Releasing id Ends] rm = ([], ReleaseConnection id rm).
Proof.
  unfold ReleaseConnection. destruct (id =? "")%string eqn:E0.
  { exists 1%nat. cbn. by rewrite E0. }
  destruct (rm_connections rm !! id) as [info|] eqn:El.
  - exists 3%nat. cbn. by rewrite E0, El.
  - exists 1%nat. cbn. by rewrite E0, El.
Qed.
End Server.

(** ** Every interleaving

    [cap] bounds the limits per address that are ever set, [covered] holds the addresses
    that may be exempted from them. *)

(** Ids chosen but not yet in the table, and the connections not yet or no longer in
    it. *)
Definition pending (g : goroutine) : option string :=
  match g with
  | Accepting id _ | Cleared id _ | Counted id _ => Some id
  | _ => None
  end.
Definition weight (g : goroutine) : Z :=
  match g with
  | Accepting _ _ | Cleared _ _ | Counted _ _ | Taken _ _ => 1
  | _ => 0
  end.
(** The id a goroutine will release. *)
Definition holds (g : goroutine) : option string :=
  match g with
  | Registered id _ | Activated id _ | Serving id _ | Releasing id _ => Some id
  | _ => None
  end.
(** Counts per address held outside the table. *)
Definition owes (h : string) (g : goroutine) : Z :=
  match g with
  | Counted _ addr | Taken addr _ => if decide (host_of addr = h) then 1 else 0
  | _ => 0
  end.
(** How far the total is from the size of the table. *)
Definition lag (g : goroutine) : Z :=
  match g with Registered _ _ => -1 | Taken _ _ | Uncounted _ => 1 | _ => 0 end.
Definition from_host (h : string) (c : ConnectionInfo) : Z :=
  if decide (host_of (RemoteAddr c) = h) then 1 else 0.

Section Interleaving.
Context {V : Type} `{!Valkey V} (cap : Z) (covered : string -> Prop).
Implicit Types (rm : ResourceManager V) (gs l r : list goroutine).

Definition load (s : @system V) : Z :=
  Z.of_nat (size (rm_connections (sys_rm s))) + zsum weight (sys_gs s).

Inductive server_step : @system V -> @system V -> Prop :=
| step_accept now now' rt addr rm rm' gs :
    (* acceptLoop: admitted, handed to a worker.  The id is the clock in nanoseconds and
       the peer's address and port: it is new.  A server has fewer than 2^31 connections. *)
    CanAcceptConnection now rt addr rm = (true, rm') ->
    rm_connections rm !! session_id now' addr = None ->
    session_id now' addr ∉ omap pending gs ->
    load (mkSystem rm gs) < MaxInt32 ->
    server_step (mkSystem rm gs) (mkSystem rm' (Accepting (session_id now' addr) addr :: gs))
| step_refuse now rt addr rm rm' gs :
    CanAcceptConnection now rt addr rm = (false, rm') ->
    server_step (mkSystem rm gs) (mkSystem rm' gs)
| step_advance e l g r rm rm' gs' :
    advance e g rm = (gs', rm') ->
    server_step (mkSystem rm (l ++ g :: r)) (mkSystem rm' (l ++ gs' ++ r))
| step_idle now id rm gs :
    (* startResourceMonitoring: one connection of cleanupIdleConnections *)
    id ∈ idle_ids now rm ->
    server_step (mkSystem rm gs) (mkSystem rm (Releasing id Ends :: gs))
| step_limiters rm gs :
    server_step (mkSystem rm gs) (mkSystem (cleanupOldRateLimiters rm) gs)
| step_activity now id rm gs :
    server_step (mkSystem rm gs) (mkSystem (UpdateConnectionActivity now id rm) gs)
| step_limit n rm gs :
    safeIntToInt32 n <= cap ->
    server_step (mkSystem rm gs) (mkSystem (rm <| ipTracker ::= SetLimit n |>) gs)
| step_exempt f rm gs :
    (forall h, f h = true -> covered h) ->
    server_step (mkSystem rm gs) (mkSystem (rm <| ipTracker ::= SetExempt f |>) gs).

Record accounted (s : @system V) : Prop := {
  acc_positive : positive (ipTracker (sys_rm s));
  acc_count : forall h, count_of (ipTracker (sys_rm s)) h
                        = zsum (owes h) (sys_gs s) + msum (from_host h) (rm_connections (sys_rm s));
  acc_active : activeConnections (sys_rm s)
               = wrap32 (Z.of_nat (size (rm_connections (sys_rm s))) + zsum lag (sys_gs s));
  acc_new : NoDup (omap pending (sys_gs s));
  acc_fresh : forall id, id ∈ omap pending (sys_gs s) ->
                id <> "" /\ rm_connections (sys_rm s) !! id = None;
  acc_named : rm_connections (sys_rm s) !! "" = None;
  acc_held : forall id, is_Some (rm_connections (sys_rm s) !! id) ->
               id ∈ omap holds (sys_gs s);
  acc_load : load s <= MaxInt32;
  acc_limit : maxPerIP (ipTracker (sys_rm s)) <= cap;
  acc_exempt : forall h, isExempt (ipTracker (sys_rm s)) h = true -> covered h;
  acc_bound : 0 <= cap /\
              forall h, ~ covered h -> count_of (ipTracker (sys_rm s)) h <= cap
}.

(** The parts of the manager that the accounting is about. *)
Definition books (rm : ResourceManager V) :=
  (rm_connections rm, ipTracker rm, activeConnections rm).

Lemma accounted_books rm rm' gs :
  books rm' = books rm -> accounted (mkSystem rm gs) -> accounted (mkSystem rm' gs).
Proof.
  intros [= E1 E2 E3] []. unfold load in *. cbn in *.
  split; unfold load; cbn; rewrite ?E1, ?E2, ?E3; done.
Qed.

(** Checks and limiters do not touch the books. *)
Definition same_books (rm rm' : ResourceManager V) : Prop := books rm' = books rm.
#[local] Instance same_books_refl : Reflexive same_books.
Proof. done. Qed.
#[local] Instance same_books_trans : Transitive same_books.
Proof. intros a b c. unfold same_books. congruence. Qed.

Lemma kept_memory_check {A} (m : M Memory.MemoryManager A) none :
  kept same_books (memory_check m none).
Proof.
  intros rm. unfold memory_check. destruct (memoryManager rm); [|done]. by destruct (m _).
Qed.

Lemma kept_reject_unless b why : kept same_books (reject_unless b why).
Proof. intros rm. by destruct b. Qed.

Lemma can_accept_books now rt addr : kept same_books (can_accept now rt addr).
Proof.
  unfold can_accept.
  apply kept_bind; [apply _| |intros mem].
  { apply kept_attempt, kept_memory_check. }
  apply kept_bind; [apply _|apply kept_reject_unless|intros _].
  apply kept_bind; [apply _|by intros rm|intros rm].
  do 3 (apply kept_bind; [apply _|apply kept_reject_unless|intros _]).
  apply kept_bind; [apply _| |intros g].
  { intros q. unfold allow_global. by destruct (Limiter.Allow _ _). }
  apply kept_bind; [apply _|apply kept_reject_unless|intros _].
  apply kept_bind; [apply _| |intros i].
  { intros q. unfold allow_ip, getOrCreateIPRateLimiter, mbind, M_bind, get, modify. cbn.
    destruct (ipRateLimiters q !! _); cbn; by destruct (Limiter.Allow _ _). }
  apply kept_bind; [apply _|apply kept_reject_unless|intros _].
  apply kept_bind; [apply _| |intros v; apply kept_reject_unless].
  intros q. unfold allow_valkey. destruct (valkeyClient q) as [v|]; [|done].
  case_match; [|done]. by destruct (CheckRateLimit _ _ _ _ _ _).
Qed.

Lemma CanAcceptConnection_books now rt addr rm b rm' :
  CanAcceptConnection now rt addr rm = (b, rm') -> books rm' = books rm.
Proof.
  unfold CanAcceptConnection. pose proof (can_accept_books now rt addr rm) as H.
  destruct (can_accept now rt addr rm) as [r q]. cbn in H. intros [= <- <-]. exact H.
Qed.

Lemma accounted_perm rm gs gs' :
  gs ≡ₚ gs' -> accounted (mkSystem rm gs) -> accounted (mkSystem rm gs').
Proof.
  intros P []. unfold load in *. cbn in *.
  split; unfold load; cbn; try setoid_rewrite <- P;
    repeat setoid_rewrite <- (fun f => zsum_perm f _ _ P); done.
Qed.

(** The count of an address never exceeds what the server is loaded with. *)
Lemma count_le_load rm gs h :
  accounted (mkSystem rm gs) ->
  count_of (ipTracker rm) h + zsum (fun g => weight g - owes h g) gs <= load (mkSystem rm gs).
Proof.
  intros []. cbn in *. rewrite acc_count0. unfold load. cbn.
  assert (msum (from_host h) (rm_connections rm) <= msum (fun _ => 1) (rm_connections rm)) as Hm.
  { apply msum_le. intros c. unfold from_host. case_decide; lia. }
  rewrite msum_size in Hm.
  assert (zsum (owes h) gs + zsum (fun g => weight g - owes h g) gs = zsum weight gs); [|lia].
  clear. induction gs as [|g gs IH]; autorewrite with counting; lia.
Qed.

Lemma owes_le_weight h g : 0 <= owes h g <= weight g.
Proof. destruct g; cbn; try case_decide; lia. Qed.

Lemma weight_nonneg gs h : 0 <= zsum (fun g => weight g - owes h g) gs.
Proof. apply zsum_nonneg. intros g. pose proof (owes_le_weight h g). lia. Qed.

(** A goroutine may be replaced by one that stands for the same, and forgotten when it
    stands for nothing. *)
Definition neutral rm (gs gs' : list goroutine) : Prop :=
  (forall h, zsum (owes h) gs' = zsum (owes h) gs) /\ zsum lag gs' = zsum lag gs /\
  zsum weight gs' <= zsum weight gs /\ omap pending gs' `sublist_of` omap pending gs /\
  (forall id, id <> "" -> is_Some (rm_connections rm !! id) ->
     id ∈ omap holds gs -> id ∈ omap holds gs').

Lemma accounted_neutral rm gs gs' k :
  neutral rm gs gs' -> accounted (mkSystem rm (gs ++ k)) -> accounted (mkSystem rm (gs' ++ k)).
Proof.
  intros (No & Nl & Nw & Np & Nh) []. unfold load in *. cbn in *.
  rewrite ?omap_app in *. autorewrite with counting in *.
  split; unfold load; cbn; rewrite ?omap_app; autorewrite with counting; try done.
  - intros h. rewrite acc_count0. autorewrite with counting. by rewrite No.
  - by rewrite Nl.
  - eapply sublist_NoDup; [exact acc_new0|]. by apply sublist_app.
  - intros id Hid. apply acc_fresh0. eapply elem_of_sublist; [exact Hid|].
    by apply sublist_app.
  - intros id Hid. assert (id <> "") as Hne by (intros ->; destruct Hid; congruence).
    specialize (acc_held0 id Hid). set_solver.
  - lia.
Qed.

Ltac neutral_step :=
  match goal with
  | |- neutral _ _ _ =>
      unfold neutral; cbn; autorewrite with counting; cbn;
      split_and!; try done; try lia; try (by apply sublist_nil_l);
      intros; autorewrite with counting; cbn; try lia; set_solver
  end.

Lemma accounted_accept now addr rm gs :
  rm_connections rm !! session_id now addr = None ->
  session_id now addr ∉ omap pending gs -> load (mkSystem rm gs) < MaxInt32 ->
  accounted (mkSystem rm gs) ->
  accounted (mkSystem rm (Accepting (session_id now addr) addr :: gs)).
Proof.
  intros Hn Hp Hl []. unfold load in *. cbn in *.
  split; unfold load; cbn; autorewrite with counting; cbn; try done.
  - by constructor.
  - intros id [->|Hid]%elem_of_cons; [done|auto].
  - lia.
Qed.

Lemma accounted_count addr rm id k rm' b :
  accept_count addr rm = (b, rm') ->
  accounted (mkSystem rm (Cleared id addr :: k)) ->
  accounted (mkSystem rm' ((if b then Counted id addr else Serving "" addr) :: k)).
Proof.
  unfold accept_count. destruct (AddConnection (host_of addr) (ipTracker rm)) as [ok t] eqn:E.
  intros [= <- <-] H. pose proof (count_le_load rm _ (host_of addr) H) as Hle.
  autorewrite with counting in Hle.
  pose proof (weight_nonneg k (host_of addr)) as Hnn. destruct ok.
  - pose proof H as []. unfold load in *. cbn in *. autorewrite with counting in *.
    pose proof (count_nonneg _ (host_of addr) acc_positive0) as Hc.
    assert (forall h, count_of t h = count_of (ipTracker rm) h
                      + (if decide (host_of addr = h) then 1 else 0)) as Ht.
    { intros h. apply count_AddConnection; [lia|lia|done]. }
    assert (maxPerIP t = maxPerIP (ipTracker rm) /\ exempt t = exempt (ipTracker rm)) as [Em Ee].
    { revert E. unfold AddConnection. case_match; [done|]. by intros [= <-]. }
    unfold load in *. split; unfold load; cbn; autorewrite with counting in *; cbn in *; try done.
    + eapply positive_AddConnection; eauto. lia.
    + intros h. rewrite Ht, acc_count0. autorewrite with counting. cbn. lia.
    + by rewrite Em.
    + unfold isExempt. rewrite Ee. exact acc_exempt0.
    + split; [lia|]. intros h Hh. rewrite Ht. case_decide as D; [|rewrite Z.add_0_r; by apply acc_bound0].
      subst h. revert E. unfold AddConnection. case_match eqn:EA; [done|]. intros _.
      apply andb_false_iff in EA as [EA|EA]; bool_facts; [lia|]. by destruct Hh; auto.
  - assert (t = ipTracker rm) as ->.
    { revert E. unfold AddConnection. case_match; [|done]. by intros [= <-]. }
    apply (accounted_books rm); [done|].
    apply (accounted_neutral rm [Cleared id addr] [Serving "" addr] k); [|done]. neutral_step.
Qed.

Lemma accounted_register now id addr rm k :
  accounted (mkSystem rm (Counted id addr :: k)) ->
  accounted (mkSystem (accept_register now id addr rm) (Registered id addr :: k)).
Proof.
  intros []. unfold load in *. cbn in *. autorewrite with counting in *. cbn in *.
  destruct (acc_fresh0 id ltac:(set_solver)) as [Hne Hn].
  split; unfold load; cbn; autorewrite with counting; cbn; try done.
  - intros h. rewrite acc_count0. autorewrite with counting. cbn.
    rewrite msum_insert by done. unfold from_host. cbn. lia.
  - etrans; [exact acc_active0|]. rewrite map_size_insert_None by done. f_equal. lia.
  - by inversion acc_new0.
  - intros id' Hid. destruct (acc_fresh0 id' ltac:(set_solver)) as [? ?]. split; [done|].
    rewrite lookup_insert_ne; [done|]. intros <-. by inversion acc_new0.
  - by rewrite lookup_insert_ne.
  - intros id' Hid. destruct (decide (id' = id)) as [->|D]; [set_solver|].
    rewrite lookup_insert_ne in Hid by done. specialize (acc_held0 id' Hid). set_solver.
  - rewrite map_size_insert_None by done. lia.
Qed.

Lemma accounted_activate id addr rm k :
  accounted (mkSystem rm (Registered id addr :: k)) ->
  accounted (mkSystem (accept_activate rm) (Activated id addr :: k)).
Proof.
  intros []. unfold load in *. cbn in *. autorewrite with counting in *. cbn in *.
  split; unfold load; cbn; autorewrite with counting; cbn; try done.
  etrans; [exact (f_equal (fun z => wrap32 (z + 1)) acc_active0)|].
  rewrite wrap32_add_l. f_equal. lia.
Qed.

Lemma accounted_resume g k rm rest :
  neutral rm [g] (resume k) -> accounted (mkSystem rm (g :: rest)) ->
  accounted (mkSystem rm (resume k ++ rest)).
Proof. intros N. exact (accounted_neutral rm [g] (resume k) rest N). Qed.

Lemma accounted_take id k rm rest info :
  rm_connections rm !! id = Some info ->
  accounted (mkSystem rm (Releasing id k :: rest)) ->
  accounted (mkSystem (snd (release_take id rm)) (Taken (RemoteAddr info) k :: rest)).
Proof.
  intros Hl []. unfold load in *. cbn in *. autorewrite with counting in *. cbn in *.
  assert (0 < size (rm_connections rm))%nat as Hpos.
  { apply Nat.neq_0_lt_0, map_size_ne_0_lookup. eauto. }
  split; unfold load; cbn; autorewrite with counting; cbn; try done.
  - intros h. etrans; [exact (acc_count0 h)|]. autorewrite with counting. cbn.
    rewrite (msum_delete _ _ _ _ Hl). unfold from_host. lia.
  - etrans; [exact acc_active0|]. rewrite map_size_delete_Some by eauto. f_equal. lia.
  - intros id' Hid. destruct (acc_fresh0 id' Hid) as [? ?]. split; [done|].
    by rewrite lookup_delete_None; right.
  - by rewrite lookup_delete_None; right.
  - intros id' Hid. destruct (decide (id' = id)) as [->|D].
    { rewrite lookup_delete_eq in Hid. by destruct Hid. }
    rewrite lookup_delete_ne in Hid by done. specialize (acc_held0 id' Hid). set_solver.
  - rewrite map_size_delete_Some by eauto. lia.
Qed.

Lemma accounted_uncount addr k rm rest :
  accounted (mkSystem rm (Taken addr k :: rest)) ->
  accounted (mkSystem (release_uncount addr rm) (Uncounted k :: rest)).
Proof.
  intros []. unfold load in *. cbn in *. autorewrite with counting in *. cbn in *.
  assert (0 < count_of (ipTracker rm) (host_of addr) <= MaxInt32) as Hc.
  { split; [|by apply count_nonneg]. rewrite acc_count0. autorewrite with counting. cbn.
    rewrite decide_True by done.
    assert (0 <= zsum (owes (host_of addr)) rest)
      by (apply zsum_nonneg; intros g; apply owes_le_weight).
    assert (0 <= msum (from_host (host_of addr)) (rm_connections rm))
      by (apply msum_nonneg; intros c; unfold from_host; case_decide; lia). lia. }
  change (release_uncount addr rm)
    with (rm <| ipTracker := RemoveConnection (host_of addr) (ipTracker rm) |>).
  pose proof (positive_RemoveConnection (host_of addr) _ acc_positive0) as Tp.
  pose proof (fun h => count_RemoveConnection _ _ h Hc) as Tc.
  assert (maxPerIP (RemoveConnection (host_of addr) (ipTracker rm)) = maxPerIP (ipTracker rm) /\
          exempt (RemoveConnection (host_of addr) (ipTracker rm)) = exempt (ipTracker rm))
    as [Em Ee] by (unfold RemoveConnection; by case_match).
  generalize dependent (RemoveConnection (host_of addr) (ipTracker rm)). intros t Tp Tc Em Ee.
  split; unfold load; cbn; autorewrite with counting; cbn; try done.
  - intros h. rewrite Tc, acc_count0. autorewrite with counting. cbn. lia.
  - lia.
  - by rewrite Em.
  - unfold isExempt. rewrite Ee. exact acc_exempt0.
  - split; [lia|]. intros h Hh. rewrite Tc.
    specialize (proj2 acc_bound0 h Hh). case_decide; lia.
Qed.

Lemma accounted_deactivate k rm rest :
  accounted (mkSystem rm (Uncounted k :: rest)) ->
  accounted (mkSystem (release_deactivate rm) (resume k ++ rest)).
Proof.
  intros []. unfold load in *. cbn in *. autorewrite with counting in *. cbn in *.
  assert (zsum lag (resume k) = 0 /\ zsum weight (resume k) = 0 /\ omap pending (resume k) = []
          /\ forall h, zsum (owes h) (resume k) = 0) as (Rl & Rw & Rp & Ro) by (by destruct k).
  split; unfold load; cbn; rewrite ?omap_app, ?Rp; autorewrite with counting;
    rewrite ?Rl, ?Rw; cbn; try done.
  - intros h. etrans; [exact (acc_count0 h)|]. autorewrite with counting. by rewrite Ro.
  - etrans; [exact (f_equal (fun z => wrap32 (z - 1)) acc_active0)|].
    unfold Z.sub. rewrite wrap32_add_l. f_equal. lia.
  - intros id' Hid. specialize (acc_held0 id' Hid). set_solver.
Qed.

Lemma accounted_advance e g rm gs' rm' rest :
  advance e g rm = (gs', rm') ->
  accounted (mkSystem rm (g :: rest)) -> accounted (mkSystem rm' (gs' ++ rest)).
Proof.
  intros E H. destruct g as [id addr|id addr|id addr|id addr|id addr|id addr|id k|addr k|k];
    cbn [advance] in E.
  - pose proof (kept_memory_check
      (Memory.CheckConnectionMemoryLimit (e_now e) (e_rt e) estimatedMemory) tt rm) as Hk.
    unfold accept_memory in E. destruct (memory_check _ _ _) as [[[]|?] q]; cbn in Hk;
      injection E as <- <-; apply (accounted_books rm); try exact Hk;
      eapply (accounted_neutral rm [_]); eauto; neutral_step.
  - destruct (accept_count addr rm) as [[|] q] eqn:Ec; injection E as <- <-;
      exact (accounted_count _ _ _ _ _ _ Ec H).
  - injection E as <- <-. by apply accounted_register.
  - injection E as <- <-. by apply accounted_activate.
  - destruct (e_deadline e); injection E as <- <-;
      eapply (accounted_neutral rm [_]); eauto; neutral_step.
  - destruct (id =? "")%string eqn:E0; injection E as <- <-; bool_facts;
      eapply (accounted_neutral rm [_]); eauto; neutral_step.
  - destruct (id =? "")%string eqn:E0; bool_facts.
    { injection E as <- <-. eapply accounted_resume; eauto. destruct k; neutral_step. }
    unfold release_take in E. destruct (rm_connections rm !! id) as [info|] eqn:El;
      injection E as <- <-.
    + by apply accounted_take.
    + apply (accounted_books rm); [unfold books; cbn; by rewrite delete_id|].
      eapply accounted_resume; eauto. destruct k; unfold neutral; cbn;
        split_and!; try done; intros id' _ [? Hs]; set_solver.
  - injection E as <- <-. by apply accounted_uncount.
  - injection E as <- <-. by apply accounted_deactivate.
Qed.

Lemma accounted_activity now id rm gs :
  accounted (mkSystem rm gs) -> accounted (mkSystem (UpdateConnectionActivity now id rm) gs).
Proof.
  unfold UpdateConnectionActivity. destruct (rm_connections rm !! id) as [c|] eqn:El; [|done].
  intros []. unfold load in *. cbn in *.
  assert (forall id', <[id := c <| LastActivity := now |>
             <| RequestCount ::= fun n => wrap32 (n + 1) |>]> (rm_connections rm) !! id' = None
             <-> rm_connections rm !! id' = None) as Hn.
  { intros id'. destruct (decide (id = id')) as [<-|D].
    - by rewrite lookup_insert_eq, El.
    - by rewrite lookup_insert_ne. }
  split; unfold load; cbn; rewrite ?map_size_insert_Some by eauto; try done.
  - intros h. etrans; [exact (acc_count0 h)|]. rewrite (msum_update _ _ _ _ _ El).
    unfold from_host. cbn. lia.
  - intros id' Hid. destruct (acc_fresh0 id' Hid). by rewrite Hn.
  - by rewrite Hn.
  - intros id' Hid. apply acc_held0. apply not_eq_None_Some. rewrite <- Hn.
    by apply not_eq_None_Some.
Qed.

Lemma accounted_step s s' : server_step s s' -> accounted s -> accounted s'.
Proof.
  intros [now now' rt addr rm rm' gs Ha Hn Hp Hl|now rt addr rm rm' gs Ha|e l g r rm rm' gs' Ha
         |now id rm gs Hi|rm gs|now id rm gs|n rm gs Hn|f rm gs Hf] H.
  - eapply accounted_books; [exact (CanAcceptConnection_books _ _ _ _ _ _ Ha)|].
    by apply accounted_accept.
  - eapply accounted_books; [exact (CanAcceptConnection_books _ _ _ _ _ _ Ha)|done].
  - apply (accounted_perm _ (gs' ++ (l ++ r))).
    { rewrite !app_assoc. by rewrite (Permutation_app_comm gs' l). }
    eapply accounted_advance; eauto. eapply accounted_perm; [|exact H].
    symmetry. apply Permutation_middle.
  - destruct H. unfold load in *. cbn in *.
    split; unfold load; cbn; autorewrite with counting; cbn; try done.
    intros id' Hid. specialize (acc_held0 id' Hid). set_solver.
  - by apply (accounted_books rm).
  - by apply accounted_activity.
  - destruct H. split; done.
  - destruct H. split; done.
Qed.

Lemma accounted_new now lim connect db :
  0 <= cap -> safeIntToInt32 (MaxConnectionsPerIP (default DefaultResourceLimits lim)) <= cap ->
  accounted (mkSystem (NewResourceManager now lim connect db) []).
Proof.
  intros Hc Hl. split; cbn; try done.
  - constructor.
  - intros id Hid. by apply not_elem_of_nil in Hid.
  - intros id [? Hid]. by rewrite lookup_empty in Hid.
Qed.

(** The server at rest: every goroutine is inside a session. *)
Definition at_rest (gs : list goroutine) : bool :=
  forallb (fun g => match g with Serving _ _ => true | _ => false end) gs.

Lemma at_rest_zero (f : goroutine -> Z) gs :
  at_rest gs = true -> (forall id addr, f (Serving id addr) = 0) -> zsum f gs = 0.
Proof.
  intros Hr Hf. apply zsum_zero. intros g Hg.
  unfold at_rest in Hr. rewrite forallb_forall in Hr. specialize (Hr g).
  rewrite <- list_elem_of_In in Hr. specialize (Hr Hg). by destruct g.
Qed.

(** C24 (invariant). Connection accounting survives every interleaving of the workers, the
    accept loop and the idle monitor, each atomic action of [AcceptConnection] and
    [ReleaseConnection] being a step of its own.  At every moment the count of an address
    is the number of its registered connections plus those that an accept has counted and
    not yet registered or a release has taken out and not yet uncounted, and the total is
    the number of registered connections but for those of an accept or a release half
    done; an address that was never exempt is not counted above the highest limit that
    was set; whenever no operation is half done counts and table agree; and when all
    goroutines have ended nothing is left registered or counted.  What is counted are
    registrations, not sessions: one that [AcceptConnection] refused, or that the idle
    monitor released, is served without being counted (the examples below). *)
Theorem connections_accounted now lim connect db rm gs :
  0 <= cap -> safeIntToInt32 (MaxConnectionsPerIP (default DefaultResourceLimits lim)) <= cap ->
  rtc server_step (mkSystem (NewResourceManager now lim connect db) []) (mkSystem rm gs) ->
  (forall h, GetConnectionCount (ipTracker rm) h
             = msum (from_host h) (rm_connections rm) + zsum (owes h) gs)
  /\ activeConnections rm = wrap32 (Z.of_nat (size (rm_connections rm)) + zsum lag gs)
  /\ (forall h, ~ covered h -> GetConnectionCount (ipTracker rm) h <= cap)
  /\ (at_rest gs = true ->
      activeConnections rm = Z.of_nat (size (rm_connections rm)) /\
      forall h, GetConnectionCount (ipTracker rm) h = msum (from_host h) (rm_connections rm))
  /\ (gs = [] -> rm_connections rm = ∅ /\ activeConnections rm = 0 /\
      connections (ipTracker rm) = ∅).
Proof.
  intros Hc Hl Hr.
  pose proof (rtc_keeps _ _ accounted_step _ _ Hr (accounted_new now lim connect db Hc Hl)) as [].
  unfold load in *. cbn in *. split_and!.
  - intros h. unfold GetConnectionCount. rewrite acc_count0. lia.
  - exact acc_active0.
  - apply acc_bound0.
  - intros Hq. assert (forall h, zsum (owes h) gs = 0) as Ho by (intros h; by apply at_rest_zero).
    rewrite (at_rest_zero lag) in acc_active0 by done.
    rewrite (at_rest_zero weight) in acc_load0 by done. split.
    + rewrite acc_active0. rewrite Z.add_0_r. apply wrap32_id.
      unfold int32_ok, MinInt32. lia.
    + intros h. unfold GetConnectionCount. rewrite acc_count0, Ho. lia.
  - intros ->. assert (rm_connections rm = ∅) as E.
    { apply map_empty. intros id. destruct (rm_connections rm !! id) eqn:El; [|done].
      specialize (acc_held0 id ltac:(eauto)). set_solver. }
    rewrite E in *. split_and!; [done|exact acc_active0|].
    apply map_empty. intros h. destruct (connections (ipTracker rm) !! h) as [n|] eqn:El; [|done].
    specialize (acc_positive0 h n El). specialize (acc_count0 h).
    unfold count_of in acc_count0. rewrite El in acc_count0. cbn in acc_count0.
    rewrite zsum_nil, msum_empty in acc_count0. cbn in *. lia.
Qed.
End Interleaving.

(** ** Running schedules *)

Inductive command :=
| RunAccept (now now' : Z) (rt : Memory.runtime) (addr : string)
| RunAdvance (i : nat) (e : environment)
| RunIdle (now : Z) (id : string).

Section Schedules.
Context {V : Type} `{!Valkey V}.

Definition obey (c : command) (s : @system V) : option (@system V) :=
  let rm := sys_rm s in
  let gs := sys_gs s in
  match c with
  | RunAccept now now' rt addr =>
      let id := session_id now' addr in
      match CanAcceptConnection now rt addr rm with
      | (true, rm') =>
          if (bool_decide (rm_connections rm !! id = None)
              && bool_decide (id ∉ omap pending gs) && (load s <? MaxInt32))%bool
          then Some (mkSystem rm' (Accepting id addr :: gs)) else None
      | _ => None
      end
  | RunAdvance i e =>
      match gs !! i with
      | Some g => let '(gs', rm') := advance e g rm in
                  Some (mkSystem rm' (take i gs ++ gs' ++ drop (S i) gs))
      | None => None
      end
  | RunIdle now id =>
      if bool_decide (id ∈ idle_ids now rm) then Some (mkSystem rm (Releasing id Ends :: gs))
      else None
  end.

Fixpoint obey_all (cs : list command) (s : @system V) : option (@system V) :=
  match cs with [] => Some s | c :: cs' => s' ← obey c s; obey_all cs' s' end.

Lemma obey_step cap covered c s s' : obey c s = Some s' -> server_step cap covered s s'.
Proof.
  destruct s as [rm gs]. destruct c as [now now' rt addr|i e|now id]; cbn [obey sys_rm sys_gs].
  - destruct (CanAcceptConnection now rt addr rm) as [[|] rm'] eqn:Ea; [|done].
    case_match eqn:Eb; [|done]. intros [= <-]. bool_facts. by eapply step_accept.
  - destruct (gs !! i) as [g|] eqn:Eg; [|done].
    destruct (advance e g rm) as [gs' rm'] eqn:Ea. intros [= <-].
    rewrite <- (take_drop_middle gs i g Eg) at 1. by eapply step_advance.
  - case_bool_decide; [|done]. intros [= <-]. by eapply step_idle.
Qed.

Lemma obey_all_reach cap covered cs : forall s s',
  obey_all cs s = Some s' -> rtc (server_step cap covered) s s'.
Proof.
  induction cs as [|c cs IH]; cbn; intros s s'.
  - intros [= <-]. apply rtc_refl.
  - intros H. apply bind_Some in H as (s1 & Ho & Hs). eapply rtc_l; [by eapply obey_step|auto].
Qed.
End Schedules.

(** A Valkey server that counts nothing, and a server that allows one connection per
    address. *)
#[global] Instance no_valkey : Valkey unit := {|
  ZREMRANGEBYSCORE _ _ _ db := db; ZCOUNT _ _ _ db := (0, None, db); ZADD _ _ _ db := db;
  EXPIRE _ _ db := db; INCR _ db := (1, None, db) |}.

Definition one_per_address : ResourceLimits := DefaultResourceLimits <| MaxConnectionsPerIP := 1 |>.
Definition demo_start : @system unit :=
  mkSystem (NewResourceManager 0 (Some one_per_address) (Ok tt) tt) [].
Definition demo_env : environment := mkEnv 10 (Memory.mkRuntime 1000000 20 0) true.
Definition demo_accept (now : Z) (addr : string) : command :=
  RunAccept now now (Memory.mkRuntime 1000000 20 0) addr.

(** Two connections of one address pass [CanAcceptConnection] before either is counted;
    the first is registered, the second refused by [AcceptConnection]. *)
Definition demo_race : list command :=
  [demo_accept 1 "192.0.2.7:1000"; demo_accept 2 "192.0.2.7:1001"]
  ++ repeat (RunAdvance 1 demo_env) 5 ++ repeat (RunAdvance 0 demo_env) 2.

Definition demo_end : option (@system unit) := obey_all demo_race demo_start.

(** The refused one is served all the same: the handler does not look at the empty
    session id. *)
Example refused_connection_is_served :
  (fun s => (sys_gs s, GetConnectionCount (ipTracker (sys_rm s)) "192.0.2.7"))
    <$> demo_end
  = Some ([Serving "" "192.0.2.7:1001"; Serving "session-1-192.0.2.7:1000" "192.0.2.7:1000"], 1).
Proof. vm_compute. reflexivity. Qed.

(** Nothing in the server reports activity, so a session older than the idle timeout
    loses its place in the books while it is still being served. *)
Example idle_release_frees_a_live_session :
  (fun s => (sys_gs s, GetConnectionCount (ipTracker (sys_rm s)) "192.0.2.7"))
    <$> obey_all (demo_race ++ [RunIdle (200 * Second) "session-1-192.0.2.7:1000"]
                  ++ repeat (RunAdvance 0 demo_env) 3) demo_start
  = Some ([Serving "" "192.0.2.7:1001"; Serving "session-1-192.0.2.7:1000" "192.0.2.7:1000"], 0).
Proof. vm_compute. reflexivity. Qed.

(** The race above, half done (one connection counted, not yet registered) and at its
    end: one connection registered and counted. *)
Definition demo_middle : option (@system unit) :=
  obey_all (take 4 demo_race) demo_start.

Lemma connections_accounted_witness :
  (exists rm gs, demo_middle = Some (mkSystem rm gs) /\
    GetConnectionCount (ipTracker rm) "192.0.2.7"
    = msum (from_host "192.0.2.7") (rm_connections rm) + zsum (owes "192.0.2.7") gs /\
    rm_connections rm = ∅ /\ zsum (owes "192.0.2.7") gs = 1) /\
  exists rm gs, demo_end = Some (mkSystem rm gs) /\ at_rest gs = true /\
    activeConnections rm = Z.of_nat (size (rm_connections rm)) /\
    GetConnectionCount (ipTracker rm) "192.0.2.7" = 1.
Proof.
  split.
  - destruct demo_middle as [[rm gs]|] eqn:E; [|by vm_compute in E].
    exists rm, gs. split; [done|]. split.
    + by apply (connections_accounted 1 (fun _ => False) 0 (Some one_per_address) (Ok tt) tt rm gs);
        [|vm_compute|eapply obey_all_reach].
    + assert ((fun s => (bool_decide (rm_connections (sys_rm s) = ∅), zsum (owes "192.0.2.7") (sys_gs s)))
                <$> demo_middle = Some (true, 1)) as H by (vm_compute; reflexivity).
      rewrite E in H. injection H as Hb Hz. by bool_facts.
  - destruct demo_end as [[rm gs]|] eqn:E; [|by vm_compute in E].
    exists rm, gs. split; [done|].
    assert ((fun s => (at_rest (sys_gs s), GetConnectionCount (ipTracker (sys_rm s)) "192.0.2.7"))
              <$> demo_end = Some (true, 1)) as H by (vm_compute; reflexivity).
    rewrite E in H. injection H as Hr Hn. split; [done|]. split; [|done].
    by apply (connections_accounted 1 (fun _ => False) 0 (Some one_per_address) (Ok tt) tt rm gs);
      [|vm_compute|eapply obey_all_reach|].
Defined.

(** ** Start-up (server.go) *)

Record ResourceConfig := mkResourceConfig {
  cfg_MaxConnections : Z;
  cfg_MaxConnectionsPerIP : Z;
  cfg_MaxConcurrent : Z;
  cfg_ConnectionTimeout : Z;
  cfg_SessionTimeout : Z;
  cfg_IdleTimeout : Z;
  cfg_GoroutinePoolSize : Z;
  cfg_RateLimitWindow : Z;
  cfg_MaxRequestsPerWindow : Z;
  cfg_ValkeyURL : string;
  cfg_ValkeyKeyPrefix : string
}.

(** The first of the values that is not zero. *)
Definition or_else (a b : Z) : Z := if a =? 0 then b else a.

Definition resource_limits (rc : ResourceConfig) (mc : Memory.MemoryConfig) : ResourceLimits :=
  mkLimits (cfg_MaxConnections rc)
    (or_else (cfg_MaxConnectionsPerIP rc) (or_else (cfg_MaxConcurrent rc) 50))
    (cfg_MaxConnections rc * 2)
    (wrap64 (cfg_ConnectionTimeout rc * Second))
    (wrap64 (cfg_SessionTimeout rc * Second))
    (wrap64 (cfg_IdleTimeout rc * Second))
    (or_else (wrap64 (cfg_RateLimitWindow rc * Second)) Minute)
    (or_else (cfg_MaxRequestsPerWindow rc) (cfg_MaxConnections rc * 10))
    (Memory.MaxMemoryUsage mc)
    (or_else (cfg_GoroutinePoolSize rc) 100)
    (cfg_ValkeyURL rc) (cfg_ValkeyKeyPrefix rc).

Definition initResourceManager {V} `{!Valkey V} (now : Z) (resources : option ResourceConfig)
    (memory : option Memory.MemoryConfig) (connect : result unit) (db : V) :
    ResourceManager V * ResourceLimits :=
  match resources with
  | Some rc =>
      let mc := match memory with
                | Some c => Memory.ApplyDefaults c
                | None => Memory.DefaultMemoryConfig
                end in
      let l := resource_limits rc mc in
      (SetMemoryManager (Some (Memory.NewMemoryManager (Some mc)))
         (NewResourceManager now (Some l) connect db), l)
  | None =>
      let l := DefaultResourceLimits in
      (SetMemoryManager (Some (Memory.NewMemoryManager (Some Memory.DefaultMemoryConfig)))
         (NewResourceManager now (Some l) connect db), l)
  end.

(** Whatever the operator wrote, a server started from a configuration file checks memory
    against thresholds and limits that are in range. *)
Lemma initResourceManager_usable {V} `{!Valkey V} now rc c connect (db : V) :
  exists mm, memoryManager (fst (initResourceManager now (Some rc) (Some c) connect db)) = Some mm
             /\ Memory.usable (Memory.config mm).
Proof. eexists. split; [reflexivity|]. apply Memory.ApplyDefaults_usable. Qed.

(** With [max_connections = 5] and nothing else set, the window allows 50 requests and
    the refill is zero: after 50 connections nobody is admitted, even a day later. *)
Definition small_server : ResourceConfig :=
  mkResourceConfig 5 5 0 30 300 120 0 0 0 "" "".
Example small_server_starves :
  let rm := fst (initResourceManager 0 (Some small_server) None (Ok tt) tt) in
  let spent := snd (Limiter.run (repeat Second 50) (globalRateLimiter rm)) in
  let rt := Memory.mkRuntime 1000000 1 0 in
  fst (CanAcceptConnection Second rt "192.0.2.7:1000" rm) = true /\
  fst (CanAcceptConnection (24 * Hour) rt "192.0.2.8:1000" (rm <| globalRateLimiter := spent |>))
  = false.
Proof. vm_compute. done. Qed.
