(* ===== verification/QueueStorage.v ===== *)
(** * The file queue store (internal/queue: storage.go, content_hash.go, tombstone.go,
      storage_file_claim.go, and the types of manager.go)

    A queue directory as the maps from file names to contents it is: a metadata file
    per message in one of four queue directories, a body per message, and a tombstone
    per consumed message.  Every file-system call may fail: the faults to come are
    part of the state, so a run with faults is an interrupted run, and what it leaves
    behind is what the next run finds.  JSON files hold the record they encode, or
    something that does not decode.  The per-message locks make the operations on
    one message sequential. *)

From S2P Require Import Prelude GoStrings.
From stdpp Require Import sorting.

Open Scope string_scope.
Open Scope list_scope.
Open Scope Z_scope.

(** ** Messages *)

Inductive QueueType := Active | Deferred | Hold | Failed.

#[global] Instance QueueType_eq_dec : EqDecision QueueType.
Proof. solve_decision. Defined.

#[global] Instance QueueType_countable : Countable QueueType.
Proof.
  refine (inj_countable'
    (fun q => match q with Active => 0 | Deferred => 1 | Hold => 2 | Failed => 3 end%nat)
    (fun n => match n with 0 => Active | 1 => Deferred | 2 => Hold | _ => Failed end%nat) _).
  by intros [].
Defined.

Definition queueTypes : list QueueType := [Active; Deferred; Hold; Failed].

Record Attempt := mkAttempt { at_Time : Z; at_Result : string; at_Error : string }.

Set Primitive Projections.
Record Message := mkMessage {
  m_ID : string;
  m_QueueType : QueueType;
  m_FilePath : string;
  m_From : string;
  m_To : list string;
  m_Domain : string;
  m_Subject : string;
  m_Size : Z;
  m_Priority : Z;
  m_ReceivedAt : Z;
  m_CreatedAt : Z;
  m_UpdatedAt : Z;
  m_NextRetry : Z;
  m_RetryCount : Z;
  m_LastError : string;
  m_HoldReason : string;
  m_Attempts : list Attempt;
  m_Annotations : gmap string string
}.

(** enqueueTombstone: the identity of a consumed message. *)
Record enqueueTombstone := mkTombstone {
  t_Message : Message;
  t_Content : string;
  t_ContentHash : string
}.

(** ** The directory *)

(** [None] is a file whose JSON does not decode. *)
Record Files := mkFiles {
  f_meta : gmap (QueueType * string) (option Message);
  f_data : gmap string string;
  f_tomb : gmap string (option enqueueTombstone * Z);   (** with the time it was written *)
  f_dropBody : bool;                                    (** tombstoneBodyPolicy *)
  f_faults : list bool                                  (** which calls to come fail *)
}.
Unset Primitive Projections.

Definition ErrNotExist : string := "no such file or directory".
Definition not_exist (e : string) : bool := HasSuffix e ErrNotExist.

(** One call to the file system, which fails when the next fault says so. *)
Definition fault (e : string) : M Files unit :=
  fun fs => match f_faults fs with
            | [] => (Ok tt, fs)
            | b :: l => (if (b : bool) then Err e else Ok tt, fs <| f_faults := l |>)
            end.

Definition wrap {A} (prefix : string) (m : M Files A) : M Files A :=
  fun fs => match m fs with
            | (Err e, fs') => (Err (prefix +:+ e), fs')
            | out => out
            end.

Definition read_meta (q : QueueType) (id : string) : M Files (option Message) :=
  fault "read error" ≫= fun _ =>
  fs ← get;
  match f_meta fs !! (q, id) with Some e => mret e | None => fail ErrNotExist end.

Definition write_meta (q : QueueType) (id : string) (m : Message) : M Files unit :=
  fault "write error" ≫= fun _ => modify (fun fs => fs <| f_meta ::= <[(q, id) := Some m]> |>).

Definition unlink_meta (q : QueueType) (id : string) : M Files unit :=
  fault "unlink error" ≫= fun _ =>
  fs ← get;
  match f_meta fs !! (q, id) with
  | Some _ => modify (fun fs => fs <| f_meta ::= delete (q, id) |>)
  | None => fail ErrNotExist
  end.

Definition read_data (id : string) : M Files string :=
  fault "read error" ≫= fun _ =>
  fs ← get;
  match f_data fs !! id with Some d => mret d | None => fail ErrNotExist end.

Definition write_data (id data : string) : M Files unit :=
  fault "write error" ≫= fun _ => modify (fun fs => fs <| f_data ::= <[id := data]> |>).

Definition unlink_data (id : string) : M Files unit :=
  fault "unlink error" ≫= fun _ =>
  fs ← get;
  match f_data fs !! id with
  | Some _ => modify (fun fs => fs <| f_data ::= delete id |>)
  | None => fail ErrNotExist
  end.

Definition read_tomb (id : string) : M Files (option enqueueTombstone) :=
  fault "read error" ≫= fun _ =>
  fs ← get;
  match f_tomb fs !! id with Some (t, _) => mret t | None => fail ErrNotExist end.

Definition write_tomb (now : Z) (id : string) (t : enqueueTombstone) : M Files unit :=
  fault "write error" ≫= fun _ => modify (fun fs => fs <| f_tomb ::= <[id := (Some t, now)]> |>).

(** ** Identity *)

Definition validateMessageID (id : string) : result unit :=
  if (id =? "")%string then Err "empty message ID"
  else if 255 <? slen id then Err "message ID too long"
  else if (ContainsAny id "/\" || Contains id ".." || exists_byte (Ascii.eqb (chr 0)) id)%bool
  then Err "invalid characters in message ID"
  else Ok tt.

Definition sameEnqueueMessage (a b : Message) : bool :=
  ((m_ID a =? m_ID b)%string && (m_From a =? m_From b)%string && (m_Domain a =? m_Domain b)%string
   && (m_Subject a =? m_Subject b)%string && (m_Size a =? m_Size b) && (m_Priority a =? m_Priority b)
   && (m_ReceivedAt a =? m_ReceivedAt b) && bool_decide (m_To a = m_To b))%bool.

(** SHA-256 in hexadecimal. *)
Class Digest := sha256_hex : string -> string.

Section Store.
Context `{DG : Digest}.
Variable now : Z.

Definition ContentHash (content : string) : string := "sha256:" +:+ sha256_hex content.

Definition matchesContent (t : enqueueTombstone) (content hash : string) : bool :=
  if negb (t_ContentHash t =? "")%string then (t_ContentHash t =? hash)%string
  else (t_Content t =? content)%string.

(** contentSource: a body in memory, or one re-opened for every pass over it. *)
Record contentSource := mkSource { cs_body : string; cs_streamed : bool }.

Definition src_open (src : contentSource) : M Files string :=
  (if cs_streamed src then fault "open error" else mret tt) ≫= fun _ => mret (cs_body src).

Definition src_Hash (src : contentSource) : M Files string :=
  body ← src_open src; mret (ContentHash body).

(** ** Reading *)

Definition decodeMessage (e : option Message) (id : string) (q : QueueType) : result Message :=
  match e with
  | None => Err "failed to unmarshal message"
  | Some m => if ((m_ID m =? id)%string && bool_decide (m_QueueType m = q))%bool then Ok m
              else Err ("corrupt message metadata identity for " +:+ id)
  end.

Definition readMessageAt (q : QueueType) (id : string) : M Files Message :=
  e ← read_meta q id; liftR (decodeMessage e id q).

Definition tombstoneFor (id : string) : M Files (option enqueueTombstone) :=
  r ← attempt (read_tomb id);
  match r with
  | Err e => if not_exist e then mret None else fail ("read enqueue tombstone: " +:+ e)
  | Ok None => fail ("corrupt enqueue tombstone for " +:+ id)
  | Ok (Some t) => if (m_ID (t_Message t) =? id)%string then mret (Some t)
                   else fail ("corrupt enqueue tombstone for " +:+ id)
  end.

Definition contentHash (id : string) : M Files string :=
  liftR (validateMessageID id) ≫= fun _ => body ← read_data id; mret (ContentHash body).

Definition RetrieveContent (id : string) : M Files string :=
  liftR (validateMessageID id) ≫= fun _ => wrap "failed to read content file: " (read_data id).

(** suppressConsumed fails for a message whose tombstone says it is done with. *)
Definition suppressConsumed (msg : Message) : M Files unit :=
  tomb ← tombstoneFor (m_ID msg);
  match tomb with
  | None => mret tt
  | Some t =>
      if negb (sameEnqueueMessage (t_Message t) msg)
      then fail ("live message " +:+ m_ID msg +:+ " conflicts with consumed enqueue identity")
      else
        let hashed := negb (t_ContentHash t =? "")%string in
        live ← attempt (if hashed then contentHash (m_ID msg) else RetrieveContent (m_ID msg));
        match live with
        | Ok x =>
            if negb (x =? (if hashed then t_ContentHash t else t_Content t))%string
            then fail ("live message " +:+ m_ID msg +:+ " conflicts with consumed enqueue content")
            else fail ("message not found: " +:+ m_ID msg +:+ " (consumed)")
        | Err e =>
            if not_exist e then fail ("message not found: " +:+ m_ID msg +:+ " (consumed)")
            else fail ("verify consumed message " +:+ m_ID msg +:+ " content: " +:+ e)
        end
  end.

(** The first queue that has the message decides. *)
Fixpoint retrieve_in (qs : list QueueType) (id : string) : M Files Message :=
  match qs with
  | [] => fail ("message not found: " +:+ id)
  | q :: qs' =>
      r ← attempt (readMessageAt q id);
      match r with
      | Err e => if not_exist e then retrieve_in qs' id else fail ("failed to read message file: " +:+ e)
      | Ok msg => suppressConsumed msg ≫= fun _ => mret msg
      end
  end.

Definition Retrieve (id : string) : M Files Message :=
  liftR (validateMessageID id) ≫= fun _ => retrieve_in queueTypes id.

(** The names in one queue directory. *)
Definition queue_ids (q : QueueType) (fs : Files) : list string :=
  omap (fun '((q', id), _) => if bool_decide (q' = q) then Some id else None) (map_to_list (f_meta fs)).

(** An entry removed between the listing and the read is skipped. *)
Fixpoint listAt (q : QueueType) (ids : list string) : M Files (list Message) :=
  match ids with
  | [] => mret []
  | id :: ids' =>
      liftR (match validateMessageID id with Err e => Err ("corrupt queue filename: " +:+ e) | ok => ok end)
      ≫= fun _ =>
      r ← attempt (read_meta q id);
      match r with
      | Err e => if not_exist e then listAt q ids' else fail ("failed to read queue entry: " +:+ e)
      | Ok e =>
          msg ← liftR (match decodeMessage e id q with Err e => Err ("corrupt queue entry: " +:+ e) | ok => ok end);
          rest ← listAt q ids';
          mret (msg :: rest)
      end
  end.

Fixpoint visible (msgs : list Message) : M Files (list Message) :=
  match msgs with
  | [] => mret []
  | msg :: msgs' =>
      r ← attempt (suppressConsumed msg);
      match r with
      | Ok _ => rest ← visible msgs'; mret (msg :: rest)
      | Err e => if (Contains e "conflicts" || Contains e "corrupt")%bool then fail e else visible msgs'
      end
  end.

Definition List_ (q : QueueType) : M Files (list Message) :=
  fault "open error" ≫= fun _ =>
  ids ← gets (queue_ids q);
  msgs ← listAt q ids;
  visible msgs.

Definition Count (q : QueueType) : M Files Z :=
  fault "open error" ≫= fun _ => gets (fun fs => Z.of_nat (length (queue_ids q fs))).

(** ** Writing *)

Definition Store (msg : Message) : M Files unit :=
  liftR (validateMessageID (m_ID msg)) ≫= fun _ =>
  wrap "failed to write message file: " (write_meta (m_QueueType msg) (m_ID msg) msg).

Definition Update_ (msg : Message) : M Files unit := Store msg.

Definition StoreContent (id data : string) : M Files unit :=
  liftR (validateMessageID id) ≫= fun _ => wrap "failed to write content file: " (write_data id data).

Definition storeContentFrom (id : string) (src : contentSource) : M Files unit :=
  body ← src_open src; StoreContent id body.

(** deleteInQueue: the file is gone even when syncing the directory then fails. *)
Definition deleteInQueue (q : QueueType) (id : string) : M Files unit :=
  liftR (validateMessageID id) ≫= fun _ =>
  wrap "failed to delete message file: " (unlink_meta q id) ≫= fun _ =>
  fault "failed to sync queue directory".

Fixpoint delete_in (qs : list QueueType) (id : string) : M Files unit :=
  match qs with
  | [] => fail ("message not found: " +:+ id)
  | q :: qs' =>
      r ← attempt (deleteInQueue q id);
      match r with
      | Ok _ => mret tt
      | Err e => if not_exist e then delete_in qs' id else fail e
      end
  end.

Definition Delete (id : string) : M Files unit :=
  liftR (validateMessageID id) ≫= fun _ => delete_in queueTypes id.

Definition DeleteContent (id : string) : M Files unit :=
  liftR (validateMessageID id) ≫= fun _ =>
  r ← attempt (unlink_data id);
  match r with
  | Err e => if not_exist e then fault "failed to sync content directory"
             else fail ("failed to delete content file: " +:+ e)
  | Ok _ => fault "failed to sync content directory"
  end.

Definition Move (id : string) (from to : QueueType) : M Files unit :=
  liftR (validateMessageID id) ≫= fun _ =>
  msg ← wrap "failed to read message file: " (readMessageAt from id);
  write_meta to id (msg <| m_QueueType := to |>) ≫= fun _ =>
  wrap "failed to remove source file: " (unlink_meta from id).

(** DeleteAll: the metadata files of one queue, in directory order, until a call fails. *)
Fixpoint delete_all (q : QueueType) (ids : list string) : M Files unit :=
  match ids with
  | [] => mret tt
  | id :: ids' => wrap "failed to delete file: " (unlink_meta q id) ≫= fun _ => delete_all q ids'
  end.

Definition DeleteAll (q : QueueType) : M Files unit :=
  fault "open error" ≫= fun _ => ids ← gets (queue_ids q); delete_all q ids.

(** bodyFor: what a tombstone keeps of the body. *)
Definition bodyFor (fs : Files) (content : string) : string := if f_dropBody fs then "" else content.

Definition recordEnqueueTombstoneLocked (msg : Message) (content : string) : M Files unit :=
  body ← gets (fun fs => bodyFor fs content);
  wrap "publish enqueue tombstone: "
    (write_tomb now (m_ID msg) (mkTombstone msg body (ContentHash content))) ≫= fun _ =>
  fault "sync tombstone directory".

Definition EnsureDirectories : M Files unit := fault "failed to create queue directory".
Definition acquireEnqueueLock : M Files unit := fault "claim enqueue ID".

Definition RecordEnqueueTombstone (msg : Message) (content : string) : M Files unit :=
  EnsureDirectories ≫= fun _ => acquireEnqueueLock ≫= fun _ => recordEnqueueTombstoneLocked msg content.

Definition DeleteMessageWithTombstone (msg : Message) (content : string) : M Files unit :=
  EnsureDirectories ≫= fun _ =>
  acquireEnqueueLock ≫= fun _ =>
  recordEnqueueTombstoneLocked msg content ≫= fun _ =>
  r ← attempt (Delete (m_ID msg));
  match r with
  | Err e => if Contains e "message not found" then DeleteContent (m_ID msg) else fail e
  | Ok _ => DeleteContent (m_ID msg)
  end.

(** ** Enqueue *)

(** An ID that was consumed before: a repeat of the same message is recognised, any
    other use of the ID refused. *)
Definition check_consumed (msg : Message) (src : contentSource) (hash : string)
    (t : option enqueueTombstone) : M Files bool :=
  let conflict := fail ("message ID " +:+ m_ID msg +:+ " conflicts with consumed enqueue identity") in
  match t with
  | None => conflict
  | Some t =>
      if negb (sameEnqueueMessage (t_Message t) msg) then conflict
      else
        body ← (if (t_ContentHash t =? "")%string then src_open src else mret "");
        if negb (matchesContent t body hash) then conflict else mret false
  end.

(** createMessageIfAbsent: body first, then metadata, so that an interruption leaves
    a body without metadata, which the retry completes.  Metadata without a body is
    repaired.  The result says whether the message is new. *)
Definition createMessageIfAbsent (msg : Message) (src : contentSource) : M Files bool :=
  liftR (validateMessageID (m_ID msg)) ≫= fun _ =>
  EnsureDirectories ≫= fun _ =>
  acquireEnqueueLock ≫= fun _ =>
  hash ← src_Hash src;
  tomb ← attempt (read_tomb (m_ID msg));
  match tomb with
  | Ok t => check_consumed msg src hash t
  | Err e =>
      if negb (not_exist e) then fail ("read enqueue tombstone: " +:+ e)
      else
        existing ← attempt (Retrieve (m_ID msg));
        existingHash ← attempt (contentHash (m_ID msg));
        match existing, existingHash with
        | Ok old, Ok h =>
            if negb (sameEnqueueMessage old msg)
            then fail ("message ID " +:+ m_ID msg +:+ " conflicts with existing metadata")
            else if negb (h =? hash)%string
            then fail ("message ID " +:+ m_ID msg +:+ " conflicts with existing content")
            else mret false
        | Ok old, Err _ =>
            if negb (sameEnqueueMessage old msg)
            then fail ("message ID " +:+ m_ID msg +:+ " conflicts with existing metadata")
            else wrap "repair missing content: " (storeContentFrom (m_ID msg) src) ≫= fun _ => mret false
        | Err _, Ok h =>
            if negb (h =? hash)%string
            then fail ("message ID " +:+ m_ID msg +:+ " has conflicting orphan content")
            else Store msg ≫= fun _ => mret true
        | Err _, Err _ =>
            storeContentFrom (m_ID msg) src ≫= fun _ => Store msg ≫= fun _ => mret true
        end
  end.

(** ** Cleaning *)

(** Times are whole seconds since the epoch.  A cutoff is a time in nanoseconds: the
    duration [n * time.Hour] is an [int64], and its product wraps around. *)
Definition second : Z := 1000000000.
Definition hours_ns (n : Z) : Z := wrap64 (n * (3600 * second)).
Definition hours_before (now n : Z) : Z := now * second + hours_ns (- n).
Definition tombstoneRetentionHours : Z := 24.

Definition modTimeAt (id : string) : M Files Z :=
  fault "stat error" ≫= fun _ =>
  fs ← get;
  match f_tomb fs !! id with Some (_, mtime) => mret mtime | None => fail ErrNotExist end.

Definition unlink_tomb (id : string) : M Files unit :=
  fault "unlink error" ≫= fun _ =>
  fs ← get;
  match f_tomb fs !! id with
  | Some _ => modify (fun fs => fs <| f_tomb ::= delete id |>)
  | None => fail ErrNotExist
  end.

(** A tombstone whose time cannot be read is skipped, and one that has gone meanwhile is
    not counted. *)
Fixpoint prune (cutoff : Z) (l : list string) : M Files Z :=
  match l with
  | [] => mret 0
  | id :: l' =>
      mtime ← attempt (modTimeAt id);
      match mtime with
      | Err _ => prune cutoff l'
      | Ok mtime =>
          if cutoff <? mtime * second then prune cutoff l'
          else
            r ← attempt (unlink_tomb id);
            match r with
            | Ok _ => n ← prune cutoff l'; mret (n + 1)
            | Err e => if not_exist e then prune cutoff l'
                       else fail ("unlink tombstone " +:+ id +:+ ": " +:+ e)
            end
      end
  end.

Definition tombstone_ids (fs : Files) : list string := fst <$> map_to_list (f_tomb fs).

Definition pruneTombstones (cutoff : Z) : M Files Z :=
  fault "open error" ≫= fun _ => l ← gets tombstone_ids; prune cutoff l.

Fixpoint cleanup_messages (cutoff : Z) (q : QueueType) (msgs : list Message) : M Files Z :=
  match msgs with
  | [] => mret 0
  | msg :: msgs' =>
      if negb (m_CreatedAt msg * second <? cutoff) then cleanup_messages cutoff q msgs'
      else
        deleteInQueue q (m_ID msg) ≫= fun _ =>
        r ← attempt (unlink_data (m_ID msg));
        match r with
        | Err e => if not_exist e then n ← cleanup_messages cutoff q msgs'; mret (n + 1)
                   else fail ("failed to delete message content: " +:+ e)
        | Ok _ => n ← cleanup_messages cutoff q msgs'; mret (n + 1)
        end
  end.

Fixpoint cleanup_queues (cutoff : Z) (qs : list QueueType) : M Files Z :=
  match qs with
  | [] => mret 0
  | q :: qs' =>
      fault "open error" ≫= fun _ =>
      ids ← gets (queue_ids q);
      msgs ← listAt q ids;
      n ← cleanup_messages cutoff q msgs;
      rest ← cleanup_queues cutoff qs';
      mret (n + rest)
  end.

Definition Cleanup (retentionHours : Z) : M Files Z :=
  if retentionHours <=? 0 then fail "retention hours must be positive"
  else
    fault "open error" ≫= fun _ =>
    pruned ← wrap "failed to prune enqueue tombstones: "
               (pruneTombstones (hours_before now tombstoneRetentionHours));
    deleted ← cleanup_queues (hours_before now retentionHours) queueTypes;
    mret (pruned + deleted).
End Store.

(** ** Claims *)

Record fileClaim := mkClaim { cl_workerID : string; cl_until : Z }.
Abbreviation claims := (gmap string fileClaim).

Definition claimable (now : Z) (cs : claims) (id : string) : bool :=
  match cs !! id with None => true | Some c => cl_until c <? now end.

(** The leasing loop of ClaimMessages over the sorted names. *)
Fixpoint claim_ids (now : Z) (limit : nat) (w : string) (until : Z) (ids : list string) (cs : claims)
    : list string * claims :=
  match limit, ids with
  | O, _ | _, [] => ([], cs)
  | S limit', id :: ids' =>
      if claimable now cs id then
        let '(l, cs') := claim_ids now limit' w until ids' (<[id := mkClaim w until]> cs) in
        (id :: l, cs')
      else claim_ids now limit w until ids' cs
  end.

Definition ReleaseMessageClaim (id workerID : string) (cs : claims) : result unit * claims :=
  if (TrimSpace id =? "")%string then (Err "message id is required", cs)
  else match cs !! id with
       | None => (Ok tt, cs)
       | Some c =>
           if (negb (TrimSpace workerID =? "")%string && negb (cl_workerID c =? workerID)%string)%bool
           then (Ok tt, cs) else (Ok tt, delete id cs)
       end.

Definition forgetExpiredFileClaims (now : Z) (cs : claims) : claims :=
  filter (fun '(_, c) => now <= cl_until c) cs.

(** The messages read after the claim; what cannot be read or has been consumed is
    released again. *)
Section Claiming.
Context `{DG : Digest}.
Variable now : Z.

Fixpoint read_claimed (q : QueueType) (w : string) (ids : list string) (cs : claims)
    : M Files (list Message * claims) :=
  match ids with
  | [] => mret ([], cs)
  | id :: ids' =>
      r ← attempt (msg ← readMessageAt q id; suppressConsumed msg ≫= fun _ => mret msg);
      match r with
      | Err _ => read_claimed q w ids' (snd (ReleaseMessageClaim id w cs))
      | Ok msg => '(l, cs') ← read_claimed q w ids' cs; mret (msg :: l, cs')
      end
  end.

Definition string_le (a b : string) : Prop := String.leb a b = true.
#[local] Instance string_le_dec : RelDecision string_le.
Proof. intros a b. unfold string_le. apply _. Defined.

(** ClaimMessages. *)
Definition ClaimMessages (q : QueueType) (limit : Z) (w : string) (until : Z) (cs : claims)
    : M Files (list Message * claims) :=
  if limit <=? 0 then mret ([], cs)
  else if (TrimSpace w =? "")%string then fail "worker id is required"
  else
    fault "open error" ≫= fun _ =>
    ids ← gets (fun fs => merge_sort string_le
                  (filter (fun id => is_ok (validateMessageID id) = true) (queue_ids q fs)));
    let '(claimed, cs) := claim_ids now (Z.to_nat limit) w until ids cs in
    read_claimed q w claimed cs.
End Claiming.

(** ** Running without faults *)

Definition healthy_store (fs : Files) : Prop := f_faults fs = [].

Lemma bind_run {S A B} (m : M S A) (f : A -> M S B) s a s' :
  m s = (Ok a, s') -> (m ≫= f) s = f a s'.
Proof. unfold mbind, M_bind. by intros ->. Qed.

Lemma bind_run_err {S A B} (m : M S A) (f : A -> M S B) s e s' :
  m s = (Err e, s') -> (m ≫= f) s = (Err e, s').
Proof. unfold mbind, M_bind. by intros ->. Qed.

Lemma attempt_run {S A B} (m : M S A) (f : result A -> M S B) s r s' :
  m s = (r, s') -> (attempt m ≫= f) s = f r s'.
Proof. unfold mbind, M_bind, attempt. by intros ->. Qed.

Section Runs.
Context `{DG : Digest}.
Variable fs : Files.
Hypothesis Hfs : healthy_store fs.

Lemma fault_run e : fault e fs = (Ok tt, fs).
Proof. unfold fault. by rewrite Hfs. Qed.

Definition found {A} (o : option A) : result A :=
  match o with Some a => Ok a | None => Err ErrNotExist end.

Lemma read_meta_run q id : read_meta q id fs = (found (f_meta fs !! (q, id)), fs).
Proof.
  unfold read_meta. rewrite (bind_run _ _ _ _ _ (fault_run _)).
  unfold mbind, M_bind, get. by destruct (f_meta fs !! (q, id)).
Qed.

Lemma read_data_run id : read_data id fs = (found (f_data fs !! id), fs).
Proof.
  unfold read_data. rewrite (bind_run _ _ _ _ _ (fault_run _)).
  unfold mbind, M_bind, get. by destruct (f_data fs !! id).
Qed.

Lemma read_tomb_run id : read_tomb id fs = (found (fst <$> f_tomb fs !! id), fs).
Proof.
  unfold read_tomb. rewrite (bind_run _ _ _ _ _ (fault_run _)).
  unfold mbind, M_bind, get. by destruct (f_tomb fs !! id) as [[t z]|].
Qed.

Lemma src_Hash_run src : src_Hash src fs = (Ok (ContentHash (cs_body src)), fs).
Proof.
  unfold src_Hash, src_open. destruct (cs_streamed src); [|done].
  unfold mbind, M_bind. by rewrite fault_run.
Qed.

Lemma contentHash_run id :
  validateMessageID id = Ok tt ->
  contentHash id fs = (found (ContentHash <$> f_data fs !! id), fs).
Proof.
  intros Hid. unfold contentHash. unfold liftR at 1. rewrite Hid.
  unfold mbind at 1, M_bind at 1. unfold mbind, M_bind. rewrite read_data_run.
  by destruct (f_data fs !! id).
Qed.

Lemma storeContentFrom_run id src :
  validateMessageID id = Ok tt ->
  storeContentFrom id src fs = (Ok tt, fs <| f_data ::= <[id := cs_body src]> |>).
Proof.
  intros Hid. unfold storeContentFrom, src_open, StoreContent, write_data, wrap, liftR. rewrite Hid.
  unfold mbind, M_bind. destruct (cs_streamed src); rewrite ?fault_run; cbn; by rewrite fault_run.
Qed.

Lemma Store_run msg :
  validateMessageID (m_ID msg) = Ok tt ->
  Store msg fs = (Ok tt, fs <| f_meta ::= <[(m_QueueType msg, m_ID msg) := Some msg]> |>).
Proof.
  intros Hid. unfold Store, write_meta, wrap, liftR. rewrite Hid.
  unfold mbind, M_bind. by rewrite fault_run.
Qed.
End Runs.

(** ** Reading leaves the files alone *)

Definition same_files (fs fs' : Files) : Prop :=
  f_meta fs' = f_meta fs /\ f_data fs' = f_data fs /\ f_tomb fs' = f_tomb fs /\
  f_dropBody fs' = f_dropBody fs.

#[global] Instance same_files_refl : Reflexive same_files.
Proof. done. Qed.
#[global] Instance same_files_trans : Transitive same_files.
Proof. intros ? ? ? (? & ? & ? & ?) (? & ? & ? & ?). repeat split; congruence. Qed.

Lemma fault_same e : kept same_files (fault e).
Proof. intros fs. unfold fault. by destruct (f_faults fs). Qed.

Lemma wrap_same {A} p (m : M Files A) : kept same_files m -> kept same_files (wrap p m).
Proof. intros H fs. specialize (H fs). unfold wrap. destruct (m fs) as [[]]; exact H. Qed.

#[export] Hint Resolve fault_same wrap_same same_files_refl same_files_trans : elemta.

Ltac reads :=
  repeat first
    [ progress auto with elemta
    | case_match
    | apply kept_bind; [auto with typeclass_instances| |intros]
    | apply kept_attempt ].

Section Reads.
Context `{DG : Digest}.

Lemma read_meta_same q id : kept same_files (read_meta q id).
Proof. unfold read_meta. reads. Qed.
Lemma read_data_same id : kept same_files (read_data id).
Proof. unfold read_data. reads. Qed.
Lemma read_tomb_same id : kept same_files (read_tomb id).
Proof. unfold read_tomb. reads. Qed.
Lemma src_open_same src : kept same_files (src_open src).
Proof. unfold src_open. reads. Qed.

#[local] Hint Resolve read_meta_same read_data_same read_tomb_same src_open_same : elemta.

Lemma src_Hash_same src : kept same_files (src_Hash src).
Proof. unfold src_Hash. reads. Qed.
Lemma contentHash_same id : kept same_files (contentHash id).
Proof. unfold contentHash. reads. Qed.
Lemma RetrieveContent_same id : kept same_files (RetrieveContent id).
Proof. unfold RetrieveContent. reads. Qed.

#[local] Hint Resolve contentHash_same RetrieveContent_same : elemta.

Lemma tombstoneFor_same id : kept same_files (tombstoneFor id).
Proof. unfold tombstoneFor. reads. Qed.
#[local] Hint Resolve tombstoneFor_same : elemta.

Lemma suppressConsumed_same m : kept same_files (suppressConsumed m).
Proof. unfold suppressConsumed. reads. Qed.

Lemma readMessageAt_same q id : kept same_files (readMessageAt q id).
Proof. unfold readMessageAt. reads. Qed.
#[local] Hint Resolve suppressConsumed_same readMessageAt_same : elemta.

Lemma retrieve_in_same qs id : kept same_files (retrieve_in qs id).
Proof. induction qs as [|q qs IH]; cbn [retrieve_in]; reads. Qed.

Lemma Retrieve_same id : kept same_files (Retrieve id).
Proof. unfold Retrieve. reads. Qed.
End Reads.

#[export] Hint Resolve read_meta_same read_data_same read_tomb_same src_open_same src_Hash_same
  contentHash_same RetrieveContent_same suppressConsumed_same readMessageAt_same Retrieve_same : elemta.

(** ** Enqueue, interrupted and repeated *)

Section Enqueue.
Context `{DG : Digest}.

(** No trace of the message but, perhaps, its body from an interrupted enqueue. *)
Definition fresh (fs : Files) (msg : Message) (body : string) : Prop :=
  validateMessageID (m_ID msg) = Ok tt /\
  (forall q, f_meta fs !! (q, m_ID msg) = None) /\
  f_tomb fs !! m_ID msg = None /\
  (f_data fs !! m_ID msg = None \/ f_data fs !! m_ID msg = Some body).

(** The message is there, once, with its body. *)
Definition enqueued (fs fs' : Files) (msg : Message) (body : string) : Prop :=
  f_meta fs' = <[(m_QueueType msg, m_ID msg) := Some msg]> (f_meta fs) /\
  f_data fs' = <[m_ID msg := body]> (f_data fs) /\ f_tomb fs' = f_tomb fs /\
  f_dropBody fs' = f_dropBody fs.

(** How far an enqueue may get. *)
Definition progress (fs fs' : Files) (msg : Message) (body : string) : Prop :=
  enqueued fs fs' msg body \/
  (f_meta fs' = f_meta fs /\ f_tomb fs' = f_tomb fs /\ f_dropBody fs' = f_dropBody fs /\
   (f_data fs' = f_data fs \/ f_data fs' = <[m_ID msg := body]> (f_data fs))).

Lemma fresh_same fs fs' msg body : same_files fs fs' -> fresh fs msg body -> fresh fs' msg body.
Proof. intros (E1 & E2 & E3 & _). unfold fresh. by rewrite E1, E2, E3. Qed.

Lemma progress_same fs fs' msg body : same_files fs fs' -> progress fs fs' msg body.
Proof. intros (E1 & E2 & E3 & E4). right. auto. Qed.

Lemma validate_not_exist id e : validateMessageID id = Err e -> not_exist e = false.
Proof. unfold validateMessageID. repeat case_match; intros H'; simplify_eq; by vm_compute. Qed.

(** Nothing to retrieve, faults or not. *)
Lemma Retrieve_absent fs id :
  (forall q, f_meta fs !! (q, id) = None) -> is_ok (fst (Retrieve id fs)) = false.
Proof.
  intros Hno. unfold Retrieve.
  assert (forall qs fs', same_files fs fs' -> is_ok (fst (retrieve_in qs id fs')) = false) as H.
  { induction qs as [|q qs IH]; intros fs' Hs; [done|]. cbn [retrieve_in].
    pose proof (readMessageAt_same q id fs') as Hr.
    unfold mbind at 1, M_bind at 1, attempt. destruct (readMessageAt q id fs') as [[m|e] fs1] eqn:E.
    - exfalso. unfold readMessageAt, mbind, M_bind, read_meta in E.
      pose proof (fault_same "read error" fs') as Hf. unfold mbind, M_bind in E.
      destruct (fault "read error" fs') as [[]fs2]; [|done]. cbn in E, Hf.
      destruct Hs as (Em & _). destruct Hf as (Em2 & _). by rewrite Em2, Em, Hno in E.
    - cbn [snd] in Hr. case_match; [|done]. apply IH. by etrans. }
  unfold mbind, M_bind, liftR. destruct (validateMessageID id); [|done]. by apply H.
Qed.

Lemma contentHash_ok fs id h fs' :
  contentHash id fs = (Ok h, fs') -> h = ContentHash (default "" (f_data fs !! id)) /\ is_Some (f_data fs !! id).
Proof.
  unfold contentHash, liftR, mbind, M_bind, read_data, get. destruct (validateMessageID id); [|done].
  unfold mbind, M_bind. pose proof (fault_same "read error" fs) as Hf.
  destruct (fault "read error" fs) as [[] fs2]; [|done]. cbn in Hf. destruct Hf as (_ & -> & _).
  destruct (f_data fs !! id); [|done]. intros H. injection H as <- _. split; [done|by eexists].
Qed.

(** A write happens or it does not. *)
Lemma storeContentFrom_wp id src fs :
  wp (storeContentFrom id src) (fun r fs' =>
    (is_ok r = false /\ same_files fs fs') \/
    (f_meta fs' = f_meta fs /\ f_tomb fs' = f_tomb fs /\ f_dropBody fs' = f_dropBody fs /\
     f_data fs' = <[id := cs_body src]> (f_data fs))) fs.
Proof.
  unfold storeContentFrom, StoreContent. apply wp_bind.
  assert (wp (src_open src) (fun r fs' => same_files fs fs' /\ (forall b, r = Ok b -> b = cs_body src)) fs) as Ho.
  { unfold src_open. apply wp_bind. eapply wp_kept with (R := same_files); [reads|].
    intros r fs1 H1. destruct r; [wp_step; split; [done|]; congruence|done]. }
  eapply wp_mono; [exact Ho|]. cbv beta. intros [b|e] fs1 [H1 Hb]; [|by left].
  rewrite (Hb b eq_refl). wp_step. wp_step. wp_step; [|by left].
  unfold wp, wrap, write_data, mbind, M_bind. pose proof (fault_same "write error" fs1) as H2.
  destruct (fault "write error" fs1) as [[] fs2]; cbn in *; [|left; split; [done|by etrans]].
  right. assert (same_files fs fs2) as (E1 & E2 & E3 & E4) by (by etrans).
  split; [exact E1|]. split; [exact E3|]. split; [exact E4|]. rewrite <- E2. reflexivity.
Qed.

Lemma Store_wp msg fs :
  wp (Store msg) (fun r fs' =>
    (is_ok r = false /\ same_files fs fs') \/
    (f_meta fs' = <[(m_QueueType msg, m_ID msg) := Some msg]> (f_meta fs) /\ f_tomb fs' = f_tomb fs /\
     f_dropBody fs' = f_dropBody fs /\ f_data fs' = f_data fs)) fs.
Proof.
  unfold Store. wp_step. wp_step. wp_step; [|by left].
  unfold wp, wrap, write_meta, mbind, M_bind. pose proof (fault_same "write error" fs) as H2.
  destruct (fault "write error" fs) as [[] fs2]; cbn in *; [|by left].
  right. destruct H2 as (E1 & E2 & E3 & E4). split; [rewrite <- E1; reflexivity|].
  split; [exact E3|]. split; [exact E4|exact E2].
Qed.

Lemma Store_finishes msg body fs fs1 :
  f_meta fs1 = f_meta fs -> f_tomb fs1 = f_tomb fs -> f_dropBody fs1 = f_dropBody fs ->
  f_data fs1 = <[m_ID msg := body]> (f_data fs) ->
  wp (Store msg ≫= fun _ => mret true) (fun r fs' =>
    progress fs fs' msg body /\ (is_ok r = true -> enqueued fs fs' msg body)) fs1.
Proof.
  intros Em Et Ed Ec. apply wp_bind. eapply wp_mono; [apply Store_wp|]. cbv beta.
  assert (forall fs', f_meta fs' = <[(m_QueueType msg, m_ID msg) := Some msg]> (f_meta fs1) ->
            f_tomb fs' = f_tomb fs1 -> f_dropBody fs' = f_dropBody fs1 -> f_data fs' = f_data fs1 ->
            enqueued fs fs' msg body) as Hen.
  { intros fs' E1 E2 E3 E4. unfold enqueued. by rewrite E1, E2, E3, E4, Em, Et, Ed, Ec. }
  intros [[]|e] fs2 [[Hr (E1 & E2 & E3 & E4)]|(E1 & E2 & E3 & E4)]; try done.
  - wp_step. split; [left|intros _]; by apply Hen.
  - split; [|done]. right. rewrite E1, E2, E3, E4. auto.
  - split; [|done]. left. by apply Hen.
Qed.

Lemma src_Hash_wp src fs :
  wp (src_Hash src) (fun r fs' => same_files fs fs' /\ (forall h, r = Ok h -> h = ContentHash (cs_body src))) fs.
Proof.
  unfold src_Hash, src_open. apply wp_bind, wp_bind. eapply wp_kept with (R := same_files); [reads|].
  intros [[]|e] fs1 H1; repeat wp_step; split; congruence || done.
Qed.

(** A computation that keeps [R], with the result it gives. *)
Lemma keeps_with {A} (R : Files -> Files -> Prop) (m : M Files A) fs :
  kept R m -> wp m (fun r fs' => R fs fs' /\ fst (m fs) = r) fs.
Proof. intros H. split; [apply H|done]. Qed.

Lemma read_tomb_absent fs id : f_tomb fs !! id = None -> is_ok (fst (read_tomb id fs)) = false.
Proof.
  intros Hno. unfold read_tomb, mbind, M_bind, get. pose proof (fault_same "read error" fs) as Hf.
  destruct (fault "read error" fs) as [[] fs1]; [|done]. cbn in Hf. destruct Hf as (_ & _ & Et & _).
  by rewrite Et, Hno.
Qed.

Lemma create_progress msg src fs :
  fresh fs msg (cs_body src) ->
  wp (createMessageIfAbsent msg src) (fun r fs' =>
    progress fs fs' msg (cs_body src) /\ (is_ok r = true -> enqueued fs fs' msg (cs_body src))) fs.
Proof.
  intros Hf. unfold createMessageIfAbsent.
  assert (forall A (e : string) fs', same_files fs fs' ->
    progress fs fs' msg (cs_body src) /\ (is_ok (Err e : result A) = true -> enqueued fs fs' msg (cs_body src)))
    as Hstop by (intros; split; [by apply progress_same|done]).
  do 2 wp_step. wp_step; [|by apply Hstop].
  apply wp_bind. eapply wp_kept; [apply fault_same|]. intros [[]|e] fs1 H1; [|by apply Hstop].
  apply wp_bind. eapply wp_kept; [apply fault_same|]. intros [[]|e] fs2 H2; [|by apply Hstop; etrans].
  assert (same_files fs fs2) as H3 by (by etrans). clear fs1 H1 H2.
  apply wp_bind. eapply wp_mono; [apply src_Hash_wp|]. cbv beta. intros [h|e] fs3 [H4 Hh];
    [|apply Hstop; by etrans].
  rewrite (Hh h eq_refl). assert (same_files fs fs3) as H5 by (by etrans). clear fs2 H3 H4 Hh h.
  do 2 wp_step. pose proof (read_tomb_absent fs3 (m_ID msg)) as Hno.
  eapply wp_mono; [apply keeps_with, read_tomb_same|]. cbv beta. intros r fs4 [H6 Hr].
  destruct r as [t|e].
  { exfalso. rewrite Hr in Hno. apply fresh_same with (fs' := fs3) in Hf; [|done].
    destruct Hf as (_ & _ & Ht & _). by specialize (Hno Ht). }
  assert (same_files fs fs4) as H7 by (by etrans). clear fs3 H5 H6 Hno Hr.
  wp_step; [by apply Hstop|]. do 2 wp_step.
  assert (fresh fs4 msg (cs_body src)) as Hf4 by (by eapply fresh_same).
  pose proof (Retrieve_absent fs4 (m_ID msg) (proj1 (proj2 Hf4))) as Hno.
  eapply wp_mono; [apply keeps_with, Retrieve_same|]. cbv beta. intros r fs5 [H8 Hr].
  destruct r as [m|em]; [by rewrite Hr in Hno|]. clear Hno Hr.
  assert (same_files fs fs5) as H9 by (by etrans). clear fs4 H7 Hf4 H8.
  do 2 wp_step. eapply wp_mono; [apply keeps_with, contentHash_same|].
  cbv beta. intros r fs6 [H10 Hr]. assert (same_files fs fs6) as H11 by (by etrans).
  destruct H11 as (Em & Ec & Et & Ed). destruct Hf as (Hid & Hmeta & Htomb & Hdata).
  destruct r as [h|eh].
  - destruct (contentHash (m_ID msg) fs5) as [rh fsh] eqn:Eh. cbn [fst] in Hr. subst rh.
    apply contentHash_ok in Eh as [-> Hsome]. destruct H9 as (_ & Ec5 & _). rewrite Ec5 in *.
    wp_step; [apply Hstop; by repeat split|]. apply Store_finishes; try done.
    rewrite Ec. symmetry. apply insert_id. destruct Hdata as [Hd|Hd]; [|done].
    rewrite Hd in Hsome. by destruct Hsome.
  - apply wp_bind. eapply wp_mono; [apply storeContentFrom_wp|]. cbv beta.
    intros [[]|es] fs7 [[Hr7 Hs7]|(E1 & E2 & E3 & E4)]; try done.
    + apply Store_finishes; congruence.
    + apply Hstop. etrans; [|exact Hs7]. by repeat split.
    + split; [|done]. right. rewrite E1, E2, E3, E4, Em, Ec, Et, Ed. auto.
Qed.

(** *** Without faults *)

(** The message is in queue [q] and nowhere else. *)
Definition only_in (q : QueueType) (fs : Files) (msg : Message) : Prop :=
  m_QueueType msg = q /\ f_meta fs !! (q, m_ID msg) = Some (Some msg) /\
  forall q', q' <> q -> f_meta fs !! (q', m_ID msg) = None.

Lemma readMessageAt_run fs q id :
  healthy_store fs ->
  readMessageAt q id fs
  = (match f_meta fs !! (q, id) with Some e => decodeMessage e id q | None => Err ErrNotExist end, fs).
Proof.
  intros Hh. unfold readMessageAt, mbind, M_bind. rewrite (read_meta_run fs Hh).
  by destruct (f_meta fs !! (q, id)).
Qed.

Lemma suppressConsumed_run fs msg :
  healthy_store fs -> f_tomb fs !! m_ID msg = None -> suppressConsumed msg fs = (Ok tt, fs).
Proof.
  intros Hh Ht. unfold suppressConsumed, tombstoneFor, mbind, M_bind, attempt.
  by rewrite (read_tomb_run fs Hh), Ht.
Qed.

Lemma retrieve_in_run fs msg q qs :
  healthy_store fs -> f_tomb fs !! m_ID msg = None -> only_in q fs msg -> q ∈ qs ->
  retrieve_in qs (m_ID msg) fs = (Ok msg, fs).
Proof.
  intros Hh Ht (Hq & Hm & Ho) Hin. induction qs as [|q' qs IH]; [by apply elem_of_nil in Hin|].
  cbn [retrieve_in]. rewrite (attempt_run _ _ _ _ _ (readMessageAt_run fs q' (m_ID msg) Hh)).
  destruct (decide (q' = q)) as [->|Hne].
  - rewrite Hm. unfold decodeMessage. rewrite String.eqb_refl, bool_decide_true by done. cbn [andb].
    unfold mbind, M_bind. by rewrite suppressConsumed_run.
  - rewrite (Ho q' Hne). cbn. apply IH. by apply elem_of_cons in Hin as [<-|?].
Qed.

Lemma all_queues q : q ∈ queueTypes.
Proof. destruct q; unfold queueTypes; set_solver. Qed.

Lemma Retrieve_run fs msg q :
  healthy_store fs -> validateMessageID (m_ID msg) = Ok tt -> f_tomb fs !! m_ID msg = None ->
  only_in q fs msg -> Retrieve (m_ID msg) fs = (Ok msg, fs).
Proof.
  intros Hh Hid Ht Hq. unfold Retrieve, mbind, M_bind, liftR. rewrite Hid.
  eapply retrieve_in_run; eauto using all_queues.
Qed.

Lemma sameEnqueueMessage_refl m : sameEnqueueMessage m m = true.
Proof.
  unfold sameEnqueueMessage. rewrite !String.eqb_refl, !Z.eqb_refl. cbn. by apply bool_decide_true.
Qed.

(** A repeat of an enqueue that succeeded is recognised and changes nothing. *)
Lemma create_repeated fs msg src q old :
  healthy_store fs -> validateMessageID (m_ID msg) = Ok tt -> f_tomb fs !! m_ID msg = None ->
  only_in q fs old -> m_ID old = m_ID msg -> sameEnqueueMessage old msg = true ->
  f_data fs !! m_ID msg = Some (cs_body src) ->
  createMessageIfAbsent msg src fs = (Ok false, fs).
Proof.
  intros Hh Hid Ht Hq Ho Hsame Hd. unfold createMessageIfAbsent, EnsureDirectories, acquireEnqueueLock.
  rewrite (bind_run _ _ fs tt fs) by (unfold liftR; by rewrite Hid).
  do 2 rewrite (bind_run _ _ _ _ _ (fault_run fs Hh _)).
  rewrite (bind_run _ _ _ _ _ (src_Hash_run fs Hh src)).
  rewrite (attempt_run _ _ _ _ _ (read_tomb_run fs Hh _)), Ht. cbn [fmap option_fmap option_map found].
  change (negb (not_exist ErrNotExist)) with false. cbv iota.
  rewrite <- Ho in Ht. pose proof (Retrieve_run fs old q Hh) as Hr. rewrite Ho in Hr, Ht.
  rewrite (attempt_run _ _ _ _ _ (Hr Hid Ht Hq)).
  rewrite (attempt_run _ _ _ _ _ (contentHash_run fs Hh _ Hid)), Hd. cbn [fmap option_fmap option_map found].
  by rewrite Hsame, String.eqb_refl.
Qed.

Lemma Retrieve_absent_run fs id :
  healthy_store fs -> validateMessageID id = Ok tt -> (forall q, f_meta fs !! (q, id) = None) ->
  Retrieve id fs = (Err ("message not found: " +:+ id), fs).
Proof.
  intros Hh Hid Hno. unfold Retrieve, mbind at 1, M_bind at 1, liftR. rewrite Hid.
  generalize queueTypes. induction l as [|q qs IH]; [done|]. cbn [retrieve_in].
  rewrite (attempt_run _ _ _ _ _ (readMessageAt_run fs q id Hh)), Hno. apply IH.
Qed.

(** A first enqueue, or the retry of one that was interrupted. *)
Lemma create_fresh_run fs msg src :
  healthy_store fs -> fresh fs msg (cs_body src) ->
  exists fs', createMessageIfAbsent msg src fs = (Ok true, fs') /\ enqueued fs fs' msg (cs_body src) /\
              healthy_store fs'.
Proof.
  intros Hh (Hid & Hno & Ht & Hd). unfold createMessageIfAbsent, EnsureDirectories, acquireEnqueueLock.
  rewrite (bind_run _ _ fs tt fs) by (unfold liftR; by rewrite Hid).
  do 2 rewrite (bind_run _ _ _ _ _ (fault_run fs Hh _)).
  rewrite (bind_run _ _ _ _ _ (src_Hash_run fs Hh src)).
  rewrite (attempt_run _ _ _ _ _ (read_tomb_run fs Hh _)), Ht. cbn [fmap option_fmap option_map found].
  change (negb (not_exist ErrNotExist)) with false. cbv iota.
  rewrite (attempt_run _ _ _ _ _ (Retrieve_absent_run fs _ Hh Hid Hno)).
  rewrite (attempt_run _ _ _ _ _ (contentHash_run fs Hh _ Hid)).
  destruct Hd as [Hd|Hd]; rewrite Hd; cbn [fmap option_fmap option_map found].
  - rewrite (bind_run _ _ _ _ _ (storeContentFrom_run fs Hh _ src Hid)).
    set (fs1 := fs <| f_data ::= _ |>). assert (healthy_store fs1) as Hh1 by done.
    rewrite (bind_run _ _ _ _ _ (Store_run fs1 Hh1 msg Hid)). eexists. by split.
  - rewrite String.eqb_refl. cbn [negb].
    rewrite (bind_run _ _ _ _ _ (Store_run fs Hh msg Hid)). eexists. split; [done|]. split; [|done].
    repeat split. change (f_data fs = <[m_ID msg := cs_body src]> (f_data fs)). by rewrite insert_id.
Qed.

Lemma enqueued_only_in fs fs' msg body :
  (forall q, f_meta fs !! (q, m_ID msg) = None) -> enqueued fs fs' msg body ->
  only_in (m_QueueType msg) fs' msg.
Proof.
  intros Hno (E & _). unfold only_in. rewrite E. split; [done|]. split; [apply lookup_insert_eq|].
  intros q' Hq. rewrite lookup_insert_ne by congruence. apply Hno.
Qed.
End Enqueue.

(** ** Properties of the store *)

(** The same files, with no more faults to come: what a later call finds. *)
Definition settled (fs : Files) : Files := fs <| f_faults := [] |>.

(** Repeating an enqueue after any failure, under a message of the same identity. *)
Lemma create_again `{DG : Digest} (fs fs1 fs1' : Files) (msg msg' : Message) (src : contentSource) (r : result bool) :
  fresh fs msg (cs_body src) -> createMessageIfAbsent msg src fs = (r, fs1) ->
  healthy_store fs1' -> same_files fs1 fs1' ->
  m_ID msg' = m_ID msg -> sameEnqueueMessage msg msg' = true ->
  exists b fs2 m, createMessageIfAbsent msg' src fs1' = (Ok b, fs2) /\ (m = msg \/ m = msg') /\
    enqueued fs fs2 m (cs_body src) /\ (r = Ok true -> b = false).
Proof.
  intros Hfresh Hrun Hh (S1 & S2 & S3 & S4) Hsid Hsame.
  destruct (wp_run _ _ _ _ _ (create_progress msg src fs Hfresh) Hrun) as [Hp Hok].
  destruct Hfresh as (Hid & Hno & Ht & Hd).
  assert (Hdone : enqueued fs fs1 msg (cs_body src) ->
    createMessageIfAbsent msg' src fs1' = (Ok false, fs1') /\ enqueued fs fs1' msg (cs_body src)).
  { intros (E1 & E2 & E3 & E4).
    assert (enqueued fs fs1' msg (cs_body src)) as He by (repeat split; congruence). split; [|done].
    apply (create_repeated _ msg' src (m_QueueType msg) msg); rewrite ?Hsid; try done.
    - by rewrite S3, E3.
    - exact (enqueued_only_in fs fs1' msg _ Hno He).
    - destruct He as (_ & -> & _). apply lookup_insert_eq. }
  destruct Hp as [He|(Em & Et & Edb & Ed)];
    [destruct (Hdone He); exists false, fs1', msg; by auto|].
  destruct (create_fresh_run fs1' msg' src) as (fs2 & Hc & (E1 & E2 & E3 & E4) & _); [done| |].
  - unfold fresh. rewrite Hsid, S1, S2, S3, Em, Et. split_and!; try done.
    destruct Ed as [->| ->]; [done|]. right. apply lookup_insert_eq.
  - destruct r as [b|e]; [destruct (Hdone (Hok eq_refl)); exists false, fs1', msg; by auto|].
    exists true, fs2, msg'. split_and!; [done|by right| |done]. repeat split; [congruence| |congruence..].
    rewrite E2, S2, Hsid. destruct Ed as [->| ->]; [done|]. apply insert_insert_eq.
Qed.

(** C8 (an interrupted enqueue can be repeated).  Whatever call fails, or at whatever
    point the process dies, while a message is enqueued, repeating the enqueue ends
    with the message stored once, body and metadata, and nothing else changed; a
    repeat of one that had succeeded adds nothing and says so. *)
Theorem enqueue_retryable `{DG : Digest} (fs fs1 : Files) (msg : Message) (src : contentSource)
    (r : result bool) (Hfresh : fresh fs msg (cs_body src))
    (Hrun : createMessageIfAbsent msg src fs = (r, fs1)) :
  exists b fs2, createMessageIfAbsent msg src (settled fs1) = (Ok b, fs2) /\
    enqueued fs fs2 msg (cs_body src) /\ (r = Ok true -> b = false).
Proof.
  destruct (create_again fs fs1 (settled fs1) msg msg src r) as (b & fs2 & m & Hc & [-> | ->] & He & Hb);
    try done; try apply sameEnqueueMessage_refl; by exists b, fs2.
Qed.

(** ** Consumption *)

(** Only files of message [id] have gone. *)
Definition shrinks (id : string) (fs fs' : Files) : Prop :=
  f_tomb fs' = f_tomb fs /\
  (forall k, f_meta fs' !! k = f_meta fs !! k \/ (snd k = id /\ f_meta fs' !! k = None)) /\
  (forall i, f_data fs' !! i = f_data fs !! i \/ (i = id /\ f_data fs' !! i = None)).

#[global] Instance shrinks_refl id : Reflexive (shrinks id).
Proof. intros fs. split; [done|]. split; by left. Qed.
#[global] Instance shrinks_trans id : Transitive (shrinks id).
Proof.
  intros fs1 fs2 fs3 (E1 & M1 & D1) (E2 & M2 & D2). split; [congruence|]. split.
  - intros k. destruct (M2 k) as [->|[? ?]]; [apply M1|by right].
  - intros i. destruct (D2 i) as [->|[? ?]]; [apply D1|by right].
Qed.

Lemma same_shrinks id fs fs' : same_files fs fs' -> shrinks id fs fs'.
Proof. intros (E1 & E2 & E3 & _). split; [done|]. split; intros; left; congruence. Qed.

Lemma fault_shrinks id e : kept (shrinks id) (fault e).
Proof. intros fs. apply same_shrinks, fault_same. Qed.

Lemma wrap_shrinks {A} id p (m : M Files A) : kept (shrinks id) m -> kept (shrinks id) (wrap p m).
Proof. intros H fs. specialize (H fs). unfold wrap. destruct (m fs) as [[]]; exact H. Qed.

Section Consumption.
Context `{DG : Digest}.

Lemma unlink_meta_shrinks q id : kept (shrinks id) (unlink_meta q id).
Proof.
  unfold unlink_meta. apply kept_bind; [auto with typeclass_instances|apply fault_shrinks|].
  intros _ fs. unfold mbind, M_bind, get. destruct (f_meta fs !! (q, id)); [|reflexivity].
  split; [done|]. split; [|by left]. intros k. destruct (decide (k = (q, id))) as [->|Hk].
  - right. split; [done|]. apply lookup_delete_eq.
  - left. by apply lookup_delete_ne.
Qed.

Lemma unlink_data_shrinks id : kept (shrinks id) (unlink_data id).
Proof.
  unfold unlink_data. apply kept_bind; [auto with typeclass_instances|apply fault_shrinks|].
  intros _ fs. unfold mbind, M_bind, get. destruct (f_data fs !! id); [|reflexivity].
  split; [done|]. split; [by left|]. intros i. destruct (decide (i = id)) as [->|Hi].
  - right. split; [done|]. apply lookup_delete_eq.
  - left. by apply lookup_delete_ne.
Qed.

#[local] Hint Resolve fault_shrinks wrap_shrinks unlink_meta_shrinks unlink_data_shrinks
  shrinks_refl shrinks_trans : elemta.

Lemma Delete_shrinks id : kept (shrinks id) (Delete id).
Proof.
  unfold Delete. apply kept_bind; [auto with typeclass_instances|auto with elemta|]. intros _.
  generalize queueTypes. induction l as [|q qs IH]; cbn [delete_in]; [auto with elemta|].
  unfold deleteInQueue. reads.
Qed.

Lemma DeleteContent_shrinks id : kept (shrinks id) (DeleteContent id).
Proof. unfold DeleteContent. reads. Qed.

(** A fault is neither a missing file nor a missing message. *)
Lemma fault_wp e fs (Q : result unit -> Files -> Prop) :
  (forall fs', same_files fs fs' -> Q (Ok tt) fs') -> (forall fs', same_files fs fs' -> Q (Err e) fs') ->
  wp (fault e) Q fs.
Proof.
  intros H1 H2. pose proof (fault_same e fs) as Hs. unfold wp, fault in *.
  destruct (f_faults fs) as [|[] l]; cbn in *; auto.
Qed.

Lemma deleteInQueue_gone q id fs :
  validateMessageID id = Ok tt ->
  wp (deleteInQueue q id) (fun r fs' =>
    match r with
    | Ok _ => f_meta fs !! (q, id) <> None /\ f_meta fs' !! (q, id) = None
    | Err e => Contains e "message not found" = false /\
               (not_exist e = true -> f_meta fs' !! (q, id) = None)
    end) fs.
Proof.
  intros Hid. unfold deleteInQueue, unlink_meta. wp_step. unfold liftR, wp at 1. rewrite Hid. cbn [fst snd].
  apply wp_bind. unfold wrap, wp at 1, mbind, M_bind.
  pose proof (fault_same "unlink error" fs) as Hs.
  destruct (fault "unlink error" fs) as [[] fs1] eqn:Ef.
  2:{ cbn [fst snd]. unfold fault in Ef. destruct (f_faults fs) as [|[] l]; simplify_eq. by vm_compute. }
  unfold get. destruct (f_meta fs1 !! (q, id)) eqn:E; cbn [fst snd modify].
  2:{ split; [by vm_compute|done]. }
  assert (f_meta fs !! (q, id) <> None) by (destruct Hs as (Em & _); cbn in Em; congruence).
  apply fault_wp; intros fs2 (Em & _);
    [split; [done|]|split; [by vm_compute|]; intros _]; rewrite Em; apply lookup_delete_eq.
Qed.

Lemma deleteInQueue_shrinks q id : kept (shrinks id) (deleteInQueue q id).
Proof. unfold deleteInQueue. reads. Qed.

Lemma shrinks_gone id fs fs' k : shrinks id fs fs' -> f_meta fs !! k = None -> f_meta fs' !! k = None.
Proof. intros (_ & H & _) E. destruct (H k) as [->|[_ ?]]; done. Qed.

Lemma Delete_gone q id fs :
  validateMessageID id = Ok tt ->
  (forall q', q' <> q -> f_meta fs !! (q', id) = None) ->
  wp (Delete id) (fun r fs' =>
    match r with
    | Ok _ => f_meta fs' !! (q, id) = None
    | Err e => Contains e "message not found" = true -> f_meta fs' !! (q, id) = None
    end) fs.
Proof.
  intros Hid Hno. unfold Delete. wp_step. unfold liftR, wp at 1. rewrite Hid. cbn [fst snd].
  enough (forall qs fs, (q ∈ qs \/ f_meta fs !! (q, id) = None) ->
            (forall q', q' <> q -> f_meta fs !! (q', id) = None) ->
            wp (delete_in qs id) (fun r fs' =>
              match r with
              | Ok _ => f_meta fs' !! (q, id) = None
              | Err e => Contains e "message not found" = true -> f_meta fs' !! (q, id) = None
              end) fs) as H by (apply H; [left; apply all_queues|done]).
  clear fs Hno. induction qs as [|q' qs IH]; intros fs Hin Hno; cbn [delete_in].
  { wp_step. intros _. destruct Hin as [Hin|?]; [by apply elem_of_nil in Hin|done]. }
  do 2 wp_step. pose proof (deleteInQueue_shrinks q' id fs) as Hs.
  pose proof (deleteInQueue_gone q' id fs Hid) as Hg. unfold wp in Hg |- * at 1.
  destruct (deleteInQueue q' id fs) as [[]fs1] eqn:E; cbn [fst snd] in *.
  - wp_step. destruct Hg as [Hp Hg]. destruct (decide (q' = q)) as [->|Hne]; [done|by rewrite Hno in Hp].
  - destruct Hg as [Hc Hg]. destruct (not_exist e) eqn:En; [|wp_step; congruence].
    apply IH; [|intros; eapply shrinks_gone; eauto].
    destruct (decide (q' = q)) as [->|Hne]; [right; by apply Hg|].
    destruct Hin as [[->|?]%elem_of_cons|?]; [done|by left|]. right. by eapply shrinks_gone.
Qed.

Lemma DeleteContent_gone id fs :
  validateMessageID id = Ok tt ->
  wp (DeleteContent id) (fun r fs' => is_ok r = true -> f_data fs' !! id = None) fs.
Proof.
  intros Hid. unfold DeleteContent. wp_step. unfold liftR, wp at 1. rewrite Hid. cbn [fst snd].
  do 2 wp_step. unfold unlink_data. apply wp_bind, fault_wp; intros fs1 _.
  - unfold get, mbind, M_bind, wp at 1. destruct (f_data fs1 !! id) eqn:E; cbn [fst snd modify].
    + apply fault_wp; intros fs2 (_ & Ed & _); [|done]. intros _. rewrite Ed. apply lookup_delete_eq.
    + change (not_exist ErrNotExist) with true. cbv iota.
      apply fault_wp; intros fs2 (_ & Ed & _); [|done]. intros _. by rewrite Ed.
  - change (not_exist "unlink error") with false. by wp_step.
Qed.

(** The tombstone of [msg]. *)
Definition tombstone_of (fs : Files) (msg : Message) (content : string) : enqueueTombstone :=
  mkTombstone msg (bodyFor fs content) (ContentHash content).

Definition marked (now : Z) (msg : Message) (content : string) (fs : Files) : Files :=
  fs <| f_tomb ::= <[m_ID msg := (Some (tombstone_of fs msg content), now)]> |>.

Lemma marked_same now msg content fs fs' :
  same_files fs fs' -> same_files (marked now msg content fs) (marked now msg content fs').
Proof.
  intros (E1 & E2 & E3 & E4). unfold marked, tombstone_of, bodyFor. rewrite E4.
  split; [exact E1|]. split; [exact E2|]. split; [|exact E4]. cbn. by rewrite <- E3.
Qed.

Lemma recordEnqueueTombstoneLocked_wp now msg content fs :
  wp (recordEnqueueTombstoneLocked now msg content) (fun r fs' =>
    (is_ok r = false /\ same_files fs fs') \/ shrinks (m_ID msg) (marked now msg content fs) fs') fs.
Proof.
  unfold recordEnqueueTombstoneLocked, write_tomb. do 2 wp_step. apply wp_bind.
  unfold wrap, wp at 1, mbind, M_bind. pose proof (fault_same "write error" fs) as H.
  destruct (fault "write error" fs) as [[] fs1]; cbn [fst snd modify] in *; [|by left].
  eapply wp_kept; [apply fault_same|]. intros r fs2 H2. right.
  etrans; [|by apply same_shrinks]. destruct H as (E1 & E2 & E3 & E4).
  unfold marked, tombstone_of. split; [|split; intros; left].
  - cbn. by rewrite <- E3.
  - change (f_meta fs1 !! k = f_meta fs !! k). by rewrite E1.
  - change (f_data fs1 !! i = f_data fs !! i). by rewrite E2.
Qed.

(** With the tombstone in place only files of the message go, and at the end all. *)
Lemma delete_files_wp q id fs0 fs :
  validateMessageID id = Ok tt -> shrinks id fs0 fs ->
  (forall q', q' <> q -> f_meta fs0 !! (q', id) = None) ->
  wp (r ← attempt (Delete id);
      match r with
      | Err e => if Contains e "message not found" then DeleteContent id else fail e
      | Ok _ => DeleteContent id
      end) (fun r fs' =>
    shrinks id fs0 fs' /\
    (is_ok r = true -> f_meta fs' !! (q, id) = None /\ f_data fs' !! id = None)) fs.
Proof.
  intros Hid H0 Hno. do 2 wp_step. pose proof (Delete_shrinks id fs) as Hs.
  pose proof (Delete_gone q id fs Hid) as Hg.
  unfold wp in Hg |- * at 1. destruct (Delete id fs) as [rd fs1]. cbn [fst snd] in *.
  assert (shrinks id fs0 fs1) as H1 by (by etrans).
  specialize (Hg ltac:(intros; eapply shrinks_gone; eauto)).
  assert (f_meta fs1 !! (q, id) = None -> wp (DeleteContent id) (fun r fs' =>
    shrinks id fs0 fs' /\
    (is_ok r = true -> f_meta fs' !! (q, id) = None /\ f_data fs' !! id = None)) fs1) as Hfin.
  { intros Hgone. pose proof (DeleteContent_shrinks id fs1) as Hs1.
    pose proof (DeleteContent_gone id fs1 Hid) as Hg1. split; [by etrans|].
    intros Hr. split; [by eapply shrinks_gone|by apply Hg1]. }
  destruct rd as [[]|e]; [by apply Hfin|]. wp_step; [by apply Hfin, Hg|]. by wp_step.
Qed.

(** The tombstone comes first: before it nothing has changed. *)
Lemma DeleteMessageWithTombstone_wp now msg content q fs :
  validateMessageID (m_ID msg) = Ok tt ->
  (forall q', q' <> q -> f_meta fs !! (q', m_ID msg) = None) ->
  wp (DeleteMessageWithTombstone now msg content) (fun r fs' =>
    (is_ok r = false /\ same_files fs fs') \/
    (shrinks (m_ID msg) (marked now msg content fs) fs' /\
     (is_ok r = true -> f_meta fs' !! (q, m_ID msg) = None /\ f_data fs' !! m_ID msg = None))) fs.
Proof.
  intros Hid Hno. unfold DeleteMessageWithTombstone, EnsureDirectories, acquireEnqueueLock.
  apply wp_bind, fault_wp; intros fs1 H1; [|by left].
  apply wp_bind, fault_wp; intros fs2 H2; [|left; split; [done|by etrans]].
  assert (same_files fs fs2) as H3 by (by etrans).
  apply wp_bind. eapply wp_mono; [apply recordEnqueueTombstoneLocked_wp|]. cbv beta.
  intros r fs3 [[Hr Hs]|Hs].
  { destruct r; [done|]. left. split; [done|by etrans]. }
  assert (shrinks (m_ID msg) (marked now msg content fs) fs3) as H4.
  { etrans; [by apply same_shrinks, marked_same|exact Hs]. }
  destruct r as [[]|e]; [|by right].
  eapply wp_mono; [by apply (delete_files_wp q _ _ _ Hid H4)|]. cbv beta. intros r fs4 H5. by right.
Qed.

Lemma ContentHash_nonempty c : (ContentHash c =? "")%string = false.
Proof. done. Qed.

(** A message with a tombstone is not retrieved, whatever is left of it. *)
Lemma suppressConsumed_marked fs msg t z :
  healthy_store fs -> f_tomb fs !! m_ID msg = Some (Some t, z) ->
  is_ok (fst (suppressConsumed msg fs)) = false.
Proof.
  intros Hh Ht. unfold suppressConsumed, tombstoneFor.
  assert (attempt (read_tomb (m_ID msg)) fs = (Ok (Ok (Some t)), fs)) as Hr.
  { unfold attempt. by rewrite (read_tomb_run fs Hh), Ht. }
  unfold mbind, M_bind. rewrite Hr. destruct (m_ID (t_Message t) =? m_ID msg)%string; [|done]. cbn.
  destruct (negb (sameEnqueueMessage _ _)); [done|].
  destruct (attempt _ fs) as [[[x|e]|?] fs1]; unfold fail; repeat case_match; done.
Qed.

Lemma Retrieve_marked fs id t z :
  healthy_store fs -> f_tomb fs !! id = Some (Some t, z) -> is_ok (fst (Retrieve id fs)) = false.
Proof.
  intros Hh Ht. unfold Retrieve, mbind at 1, M_bind at 1, liftR. destruct (validateMessageID id); [|done].
  generalize queueTypes. induction l as [|q qs IH]; [done|]. cbn [retrieve_in].
  rewrite (attempt_run _ _ _ _ _ (readMessageAt_run fs q id Hh)).
  destruct (f_meta fs !! (q, id)) as [e|]; [|apply IH].
  destruct (decodeMessage e id q) as [m|er] eqn:Ed; [|by case_match].
  assert (m_ID m = id) as <-.
  { unfold decodeMessage in Ed. destruct e as [m'|]; [|done].
    destruct ((m_ID m' =? id)%string) eqn:E; cbn in Ed; [|done].
    destruct (bool_decide _); [|done]. injection Ed as <-. by apply String.eqb_eq. }
  pose proof (suppressConsumed_marked fs m t z Hh Ht) as Hs. unfold mbind, M_bind.
  by destruct (suppressConsumed m fs) as [[] ?].
Qed.

Lemma create_consumed_run fs msg src t z :
  healthy_store fs -> validateMessageID (m_ID msg) = Ok tt ->
  f_tomb fs !! m_ID msg = Some (Some t, z) -> sameEnqueueMessage (t_Message t) msg = true ->
  t_ContentHash t = ContentHash (cs_body src) ->
  createMessageIfAbsent msg src fs = (Ok false, fs).
Proof.
  intros Hh Hid Ht Hsame Hc. unfold createMessageIfAbsent, EnsureDirectories, acquireEnqueueLock.
  rewrite (bind_run _ _ fs tt fs) by (unfold liftR; by rewrite Hid).
  do 2 rewrite (bind_run _ _ _ _ _ (fault_run fs Hh _)).
  rewrite (bind_run _ _ _ _ _ (src_Hash_run fs Hh src)).
  rewrite (attempt_run _ _ _ _ _ (read_tomb_run fs Hh _)), Ht. cbn [fmap option_fmap option_map found fst].
  unfold check_consumed. rewrite Hsame, Hc, ContentHash_nonempty. cbn [negb].
  unfold mbind, M_bind, matchesContent. cbn. by rewrite Hc, ContentHash_nonempty, String.eqb_refl.
Qed.
End Consumption.

(** C12 (a consumed message is gone for good).  Whatever call fails, or at whatever
    point the process dies, while a delivered message is removed: either nothing has
    happened to it, and the removal reports the failure; or it can no longer be
    retrieved, a repeat of its enqueue is recognised and puts nothing back, and no
    other message is touched.  A removal that reports success has removed its
    metadata and its body. *)
Theorem consumed_for_good `{DG : Digest} (now : Z) (fs fs1 : Files) (msg : Message)
    (content : string) (q : QueueType) (r : result unit)
    (Hid : validateMessageID (m_ID msg) = Ok tt) (Honly : only_in q fs msg)
    (Hrun : DeleteMessageWithTombstone now msg content fs = (r, fs1)) :
  (is_ok r = false /\ same_files fs fs1) \/
  (is_ok (fst (Retrieve (m_ID msg) (settled fs1))) = false /\
   (forall again src, m_ID again = m_ID msg -> sameEnqueueMessage msg again = true ->
      cs_body src = content ->
      createMessageIfAbsent again src (settled fs1) = (Ok false, settled fs1)) /\
   (forall q' id, id <> m_ID msg ->
      f_meta fs1 !! (q', id) = f_meta fs !! (q', id) /\ f_data fs1 !! id = f_data fs !! id /\
      f_tomb fs1 !! id = f_tomb fs !! id) /\
   (is_ok r = true -> f_meta fs1 !! (q, m_ID msg) = None /\ f_data fs1 !! m_ID msg = None)).
Proof.
  destruct (wp_run _ _ _ _ _ (DeleteMessageWithTombstone_wp now msg content q fs Hid
              (proj2 (proj2 Honly))) Hrun) as [?|[(Et & Em & Ed) Hgone]]; [by left|right].
  assert (f_tomb (settled fs1) !! m_ID msg = Some (Some (tombstone_of fs msg content), now)) as Ht.
  { change (f_tomb (settled fs1)) with (f_tomb fs1). rewrite Et. apply lookup_insert_eq. }
  split_and!; try done.
  - by eapply Retrieve_marked.
  - intros again src Hag Hsame Hb. rewrite <- Hag in Ht, Hid. eapply create_consumed_run; try done.
    by rewrite Hb.
  - intros q' id Hne. split_and!.
    + by destruct (Em (q', id)) as [->|[? _]].
    + by destruct (Ed id) as [->|[? _]].
    + rewrite Et. apply lookup_insert_ne. congruence.
Qed.

(** ** Moving between queues *)

Section Moving.
Context `{DG : Digest}.

Lemma decodeMessage_stored msg : decodeMessage (Some msg) (m_ID msg) (m_QueueType msg) = Ok msg.
Proof. unfold decodeMessage. by rewrite String.eqb_refl, bool_decide_true. Qed.

Lemma readMessageAt_wp fs msg :
  f_meta fs !! (m_QueueType msg, m_ID msg) = Some (Some msg) ->
  wp (readMessageAt (m_QueueType msg) (m_ID msg))
     (fun r fs' => same_files fs fs' /\ (forall m, r = Ok m -> m = msg)) fs.
Proof.
  intros Hm. unfold readMessageAt, read_meta. do 2 apply wp_bind. apply fault_wp; intros fs1 Hs; [|done].
  do 2 wp_step. pose proof Hs as (E & _). rewrite E, Hm. wp_step.
  unfold liftR. rewrite decodeMessage_stored. split; [done|]. intros m H. cbn in H. congruence.
Qed.

(** How far a move gets: the copy is written before the original goes. *)
Definition moving (msg : Message) (to : QueueType) (r : result unit) (fs fs' : Files) : Prop :=
  let copied := <[(to, m_ID msg) := Some (msg <| m_QueueType := to |>)]> (f_meta fs) in
  f_data fs' = f_data fs /\ f_tomb fs' = f_tomb fs /\
  (is_ok r = true /\ f_meta fs' = delete (m_QueueType msg, m_ID msg) copied \/
   is_ok r = false /\ (f_meta fs' = f_meta fs \/ f_meta fs' = copied)).

Lemma wrap_wp {A} p (m : M Files A) (Q : result A -> Files -> Prop) fs :
  wp m (fun r fs' => match r with Ok a => Q (Ok a) fs' | Err e => Q (Err (p +:+ e)) fs' end) fs ->
  wp (wrap p m) Q fs.
Proof. unfold wp, wrap. by destruct (m fs) as [[] ?]. Qed.

Lemma Move_moving msg to fs :
  to <> m_QueueType msg -> f_meta fs !! (m_QueueType msg, m_ID msg) = Some (Some msg) ->
  wp (Move (m_ID msg) (m_QueueType msg) to) (fun r fs' => moving msg to r fs fs') fs.
Proof.
  intros Hne Hm. unfold Move, moving.
  wp_step. wp_step. destruct (validateMessageID (m_ID msg)); [|by auto 10].
  wp_step. apply wrap_wp. eapply wp_mono; [by apply readMessageAt_wp|]. cbv beta.
  intros [m|e] fs1 [(E1 & E2 & E3 & _) Hr]; [rewrite (Hr m eq_refl)|by auto 10].
  unfold write_meta. do 2 wp_step. apply fault_wp; intros fs2 (F1 & F2 & F3 & _); [|split_and!; try congruence].
  2:{ right. split; [done|]. left. congruence. }
  wp_step. apply wrap_wp. unfold unlink_meta. wp_step.
  apply fault_wp; intros fs3 (G1 & G2 & G3 & _); cbn in G1, G2, G3.
  - do 2 wp_step. rewrite G1, lookup_insert_ne, F1, E1, Hm by congruence. wp_step. cbn.
    split; [by etrans; [exact G2|etrans]|]. split; [by etrans; [exact G3|etrans]|].
    left. split; [done|]. f_equal. by rewrite <- E1, <- F1.
  - split; [by etrans; [exact G2|etrans]|]. split; [by etrans; [exact G3|etrans]|].
    right. split; [done|]. right. by rewrite <- E1, <- F1.
Qed.

Lemma Move_run msg to fs :
  healthy_store fs -> validateMessageID (m_ID msg) = Ok tt -> to <> m_QueueType msg ->
  f_meta fs !! (m_QueueType msg, m_ID msg) = Some (Some msg) ->
  fst (Move (m_ID msg) (m_QueueType msg) to fs) = Ok tt.
Proof.
  intros Hh Hid Hne Hm. unfold Move. rewrite (bind_run _ _ fs tt fs) by (unfold liftR; by rewrite Hid).
  rewrite (bind_run _ _ fs msg fs).
  2:{ unfold wrap. by rewrite readMessageAt_run, Hm, decodeMessage_stored. }
  unfold write_meta, wrap, unlink_meta, mbind, M_bind. rewrite (fault_run fs Hh). cbn [modify].
  match goal with |- context [fault "unlink error" ?f] => rewrite (fault_run f Hh); cbn end.
  by rewrite lookup_insert_ne, Hm by congruence.
Qed.
End Moving.

(** C14 (a move loses nothing).  Whatever call fails, or at whatever point the process
    dies, while a message moves to another queue, it stays in its first queue, or is
    in both, or, exactly when the move reports success, in the second one alone; no
    other message, body or tombstone is touched.  When the move has failed, repeating
    it completes it. *)
Theorem Move_never_loses `{DG : Digest} (fs fs1 : Files) (msg : Message) (to : QueueType)
    (r : result unit) (Hid : validateMessageID (m_ID msg) = Ok tt) (Hto : to <> m_QueueType msg)
    (Hm : f_meta fs !! (m_QueueType msg, m_ID msg) = Some (Some msg))
    (Hrun : Move (m_ID msg) (m_QueueType msg) to fs = (r, fs1)) :
  moving msg to r fs fs1 /\
  (is_ok r = false -> exists fs2,
     Move (m_ID msg) (m_QueueType msg) to (settled fs1) = (Ok tt, fs2) /\ moving msg to (Ok tt) fs fs2).
Proof.
  pose proof (wp_run _ _ _ _ _ (Move_moving msg to fs Hto Hm) Hrun) as Hmv. split; [done|]. intros Hr.
  destruct Hmv as (Ed & Et & [[? _]|[_ Em]]); [congruence|].
  assert (f_meta (settled fs1) !! (m_QueueType msg, m_ID msg) = Some (Some msg)) as Hm1.
  { change (f_meta (settled fs1)) with (f_meta fs1).
    destruct Em as [->| ->]; [done|]. by rewrite lookup_insert_ne by congruence. }
  pose proof (Move_run msg to (settled fs1) eq_refl Hid Hto Hm1) as Hok.
  pose proof (Move_moving msg to (settled fs1) Hto Hm1) as Hmv. unfold wp in Hmv.
  destruct (Move _ _ _ (settled fs1)) as [r2 fs2]. cbn [fst snd] in *. subst r2.
  exists fs2. split; [done|]. destruct Hmv as (Ed2 & Et2 & [[_ Em2]|[? _]]); [|done].
  split; [by rewrite Ed2|]. split; [by rewrite Et2|]. left. split; [done|]. rewrite Em2.
  change (f_meta (settled fs1)) with (f_meta fs1).
  destruct Em as [->| ->]; [done|]. by rewrite insert_insert_eq.
Qed.

(** Moving a message to the queue it is in deletes it. *)
Lemma Move_to_itself_deletes `{DG : Digest} (fs : Files) (msg : Message) :
  healthy_store fs -> validateMessageID (m_ID msg) = Ok tt ->
  f_meta fs !! (m_QueueType msg, m_ID msg) = Some (Some msg) ->
  let '(r, fs1) := Move (m_ID msg) (m_QueueType msg) (m_QueueType msg) fs in
  r = Ok tt /\ f_meta fs1 !! (m_QueueType msg, m_ID msg) = None.
Proof.
  intros Hh Hid Hm. unfold Move. rewrite (bind_run _ _ fs tt fs) by (unfold liftR; by rewrite Hid).
  rewrite (bind_run _ _ fs msg fs).
  2:{ unfold wrap. by rewrite readMessageAt_run, Hm, decodeMessage_stored. }
  unfold write_meta, wrap, unlink_meta, mbind, M_bind. rewrite (fault_run fs Hh). cbn [modify].
  match goal with |- context [fault "unlink error" ?f] => rewrite (fault_run f Hh); cbn end.
  rewrite lookup_insert_eq. cbn. split; [done|]. apply lookup_delete_eq.
Qed.

(** ** Leases *)

Section Leases.
Context `{DG : Digest}.

Lemma queue_ids_elem q id fs : (id ∈ queue_ids q fs) <-> is_Some (f_meta fs !! (q, id)).
Proof.
  unfold queue_ids. rewrite list_elem_of_omap. split.
  - intros ([[q' i] e] & Hin & Hf). case_bool_decide; simplify_eq. eexists. by apply elem_of_map_to_list.
  - intros [e He]. exists ((q, id), e). split; [by apply elem_of_map_to_list|]. by rewrite bool_decide_true.
Qed.

Lemma queue_ids_nodup q fs : NoDup (queue_ids q fs).
Proof.
  unfold queue_ids. generalize (NoDup_fst_map_to_list (f_meta fs)).
  generalize (map_to_list (f_meta fs)). induction l as [|[[q' i] e] l IH]; intros Hn; [constructor|].
  apply NoDup_cons in Hn as [Hi Hn]. cbn. case_bool_decide; [|by apply IH]. subst q'.
  apply NoDup_cons. split; [|by apply IH]. rewrite list_elem_of_omap. intros ([[q'' i'] e'] & Hin & Hf).
  case_bool_decide; simplify_eq. apply Hi. apply list_elem_of_fmap. by eexists ((q, _), e').
Qed.

Lemma claim_ids_spec now w until ids limit cs l cs' :
  claim_ids now limit w until ids cs = (l, cs') ->
  l `sublist_of` ids /\ (length l <= limit)%nat /\
  (forall id, id ∈ l -> cs' !! id = Some (mkClaim w until)) /\
  (forall id, claimable now cs id = false -> (id ∉ l) /\ cs' !! id = cs !! id) /\
  (forall id, id ∉ l -> cs' !! id = cs !! id).
Proof.
  revert limit cs l. induction ids as [|i ids IH]; intros [|limit] cs l; cbn.
  1-3: intros [= <- <-]; clear; split_and!; auto using sublist_nil_l; try (cbn; lia); set_solver.
  destruct (claimable now cs i) eqn:Ec.
  - destruct (claim_ids _ _ _ _ _ _) as [l0 cs0] eqn:E. intros [= <- <-].
    apply IH in E as (Hs & Hl & Hh & Hn & Ho). cbn. split; [by apply sublist_skip|]. split; [lia|].
    assert (cs0 !! i = Some (mkClaim w until)) as Hi.
    { destruct (decide (i ∈ l0)) as [?|Hni]; [by apply Hh|]. rewrite (Ho i Hni). apply lookup_insert_eq. }
    split_and!.
    + intros id [->|?]%elem_of_cons; auto.
    + intros id Hid. assert (id <> i) as Hne by congruence.
      assert (claimable now (<[i:=mkClaim w until]> cs) id = false) as Hid'.
      { unfold claimable. by rewrite lookup_insert_ne. }
      destruct (Hn id Hid') as [? ->]. split; [by apply not_elem_of_cons|by rewrite lookup_insert_ne].
    + intros id [? ?]%not_elem_of_cons. rewrite Ho by done. by rewrite lookup_insert_ne.
  - intros E. apply IH in E as (Hs & Hl & Hh & Hn & Ho). split_and!; try done. by apply sublist_cons.
Qed.

Lemma ReleaseMessageClaim_other id w cs i :
  i <> id -> snd (ReleaseMessageClaim id w cs) !! i = cs !! i.
Proof. intros. unfold ReleaseMessageClaim. repeat case_match; cbn; try done. by apply lookup_delete_ne. Qed.

Lemma readMessageAt_ID q id fs m fs' : readMessageAt q id fs = (Ok m, fs') -> m_ID m = id.
Proof.
  unfold readMessageAt, mbind, M_bind, liftR, decodeMessage.
  destruct (read_meta q id fs) as [[e|] ?]; [|done]. destruct e as [m'|]; [|done].
  destruct (m_ID m' =? id)%string eqn:E; cbn; [|done]. case_bool_decide; [|done].
  intros [= <- _]. by apply String.eqb_eq.
Qed.

Lemma read_claimed_spec q w ids cs fs msgs cs' fs' :
  NoDup ids -> read_claimed q w ids cs fs = (Ok (msgs, cs'), fs') ->
  (m_ID <$> msgs) `sublist_of` ids /\
  (forall id, id ∈ (m_ID <$> msgs) \/ id ∉ ids -> cs' !! id = cs !! id).
Proof.
  revert cs fs msgs. induction ids as [|i ids IH]; intros cs fs msgs Hn; cbn [read_claimed].
  { intros [= <- <- _]. split; [done|]. done. }
  apply NoDup_cons in Hn as [Hi Hn]. unfold mbind at 1, M_bind at 1, attempt.
  destruct ((msg ← readMessageAt q i; _) fs) as [r fs1] eqn:Er. cbn. destruct r as [m|e].
  - assert (m_ID m = i) as <-.
    { unfold mbind, M_bind in Er. destruct (readMessageAt q i fs) as [[m'|] fs2] eqn:E; [|done].
      apply readMessageAt_ID in E. destruct (suppressConsumed m' fs2) as [[] ?]; [|done].
      injection Er as <- _. done. }
    unfold mbind, M_bind. destruct (read_claimed q w ids cs fs1) as [[[l cs1]|] fs2] eqn:E; [|done].
    intros [= <- <- <-]. apply IH in E as [Hs Ho]; [|done]. cbn. split; [by apply sublist_skip|].
    intros id [[->|?]%elem_of_cons|[? ?]%not_elem_of_cons]; auto.
  - intros E. apply IH in E as [Hs Ho]; [|done]. split; [by apply sublist_cons|].
    intros id Hid. assert (id <> i) as Hne.
    { intros ->. destruct Hid as [Hid|Hid]; [|by apply Hid, elem_of_cons; left]. by apply Hi, (elem_of_sublist _ _ _ Hid). }
    rewrite Ho; [by apply ReleaseMessageClaim_other|].
    destruct Hid as [?|Hid]; [by left|]. right. by apply not_elem_of_cons in Hid as [? ?].
Qed.
End Leases.

(** *** Histories of claims *)

Inductive lease_event :=
  | EvClaim (now : Z) (q : QueueType) (limit : Z) (w : string) (until : Z) (got : list Message)
  | EvRelease (id w : string)
  | EvForget (now : Z).

(** Whatever the files are by then. *)
Inductive lease_step `{DG : Digest} : claims -> lease_event -> claims -> Prop :=
  | ls_claim now q limit w until cs got cs' fs fs' :
      ClaimMessages now q limit w until cs fs = (Ok (got, cs'), fs') ->
      lease_step cs (EvClaim now q limit w until got) cs'
  | ls_release id w cs : lease_step cs (EvRelease id w) (snd (ReleaseMessageClaim id w cs))
  | ls_forget now cs : lease_step cs (EvForget now) (forgetExpiredFileClaims now cs).

Inductive lease_run `{DG : Digest} : claims -> list lease_event -> claims -> Prop :=
  | lr_nil cs : lease_run cs [] cs
  | lr_cons cs e cs1 es cs2 : lease_step cs e cs1 -> lease_run cs1 es cs2 -> lease_run cs (e :: es) cs2.

Definition no_later (t : Z) (e : lease_event) : Prop :=
  match e with
  | EvClaim now _ _ _ _ _ | EvForget now => now <= t
  | EvRelease _ _ => True
  end.

(** The event gives back the lease of [w] on [id]. *)
Definition gives_back (id w : string) (e : lease_event) : Prop :=
  match e with
  | EvRelease id' w' => id' = id /\ (TrimSpace w' = "" \/ w' = w)
  | _ => False
  end.

Section Histories.
Context `{DG : Digest}.

Lemma ClaimMessages_spec now q limit w until cs fs got cs' fs' :
  ClaimMessages now q limit w until cs fs = (Ok (got, cs'), fs') ->
  NoDup (m_ID <$> got) /\ (length got <= Z.to_nat limit)%nat /\
  (forall id, id ∈ (m_ID <$> got) -> cs' !! id = Some (mkClaim w until)) /\
  (forall id, claimable now cs id = false -> (id ∉ m_ID <$> got) /\ cs' !! id = cs !! id).
Proof.
  unfold ClaimMessages. destruct (limit <=? 0).
  { intros [= <- <- _]. split_and!; [constructor|cbn; lia|set_solver|set_solver]. }
  destruct (TrimSpace w =? "")%string; [done|].
  unfold mbind, M_bind, gets. destruct (fault _ fs) as [[] fs1]; [|done].
  destruct (claim_ids _ _ _ _ _ _) as [l cs1] eqn:Ec. apply claim_ids_spec in Ec as (Hs & Hl & Hh & Hn & _).
  assert (NoDup l) as Hnd.
  { eapply sublist_NoDup, Hs. rewrite merge_sort_Permutation. apply NoDup_filter, queue_ids_nodup. }
  intros Hr. apply read_claimed_spec in Hr as [Hs' Ho]; [|done]. split_and!.
  - by eapply sublist_NoDup.
  - apply sublist_length in Hs'. rewrite length_fmap in Hs'. lia.
  - intros id Hid. rewrite Ho by (by left). apply Hh. by eapply elem_of_sublist.
  - intros id Hid. destruct (Hn id Hid) as [Hnl Hcs]. rewrite <- Hcs. split; [|by apply Ho; right].
    intros Hin. apply Hnl. by eapply elem_of_sublist.
Qed.

(** A lease survives whatever does not give it back before it runs out. *)
Lemma lease_step_held cs e cs' id w until :
  lease_step cs e cs' -> no_later until e -> ~ gives_back id w e ->
  cs !! id = Some (mkClaim w until) -> cs' !! id = Some (mkClaim w until).
Proof.
  intros Hs Ht Hg Hc. destruct Hs; cbn in Ht, Hg.
  - apply ClaimMessages_spec in H as (_ & _ & _ & Hn). destruct (Hn id) as [_ ->]; [|done].
    unfold claimable. rewrite Hc. cbn. by apply Z.ltb_ge.
  - destruct (decide (id0 = id)) as [->|]; [|by rewrite ReleaseMessageClaim_other by congruence].
    unfold ReleaseMessageClaim. destruct (TrimSpace id =? "")%string; [done|]. rewrite Hc. cbn.
    destruct (TrimSpace w0 =? "")%string eqn:E1; cbn.
    { apply String.eqb_eq in E1. destruct Hg. auto. }
    destruct (w =? w0)%string eqn:E2; cbn; [|done]. apply String.eqb_eq in E2. destruct Hg. auto.
  - unfold forgetExpiredFileClaims. by apply map_lookup_filter_Some.
Qed.

Lemma lease_run_held cs es cs' id w until :
  lease_run cs es cs' -> Forall (no_later until) es -> Forall (fun e => ~ gives_back id w e) es ->
  cs !! id = Some (mkClaim w until) -> cs' !! id = Some (mkClaim w until).
Proof.
  induction 1; intros Ht Hg Hc; [done|]. apply Forall_cons in Ht as [? ?], Hg as [? ?].
  apply IHlease_run; try done. by eapply lease_step_held.
Qed.

Lemma lease_run_app cs es es' cs' :
  lease_run cs (es ++ es') cs' -> exists cs1, lease_run cs es cs1 /\ lease_run cs1 es' cs'.
Proof.
  revert cs. induction es as [|e es IH]; intros cs; cbn; [by eexists; split; [constructor|]|].
  inversion_clear 1. edestruct IH as (? & ? & ?); [done|]. eexists. split; [by econstructor|done].
Qed.
End Histories.

#[global] Instance gives_back_dec id w e : Decision (gives_back id w e).
Proof. destruct e; cbn; apply _. Defined.

(** C13 (no message is handed to two workers).  A claim hands out at most as many
    messages as it was asked for, each once.  As long as its lease runs, a message it
    handed out is handed out again, to any worker, only after the holder's lease was
    given back. *)
Theorem claims_exclusive `{DG : Digest} (cs cs' : claims) (now now' until until' : Z) (q q' : QueueType)
    (limit limit' : Z) (w w' : string) (got got' : list Message) (es : list lease_event)
    (Hrun : lease_run cs (EvClaim now q limit w until got :: es ++ [EvClaim now' q' limit' w' until' got']) cs')
    (Htime : Forall (no_later until) es) (Hnow : now' <= until) :
  NoDup (m_ID <$> got) /\ Z.of_nat (length got) <= Z.max 0 limit /\
  forall m m', m ∈ got -> m' ∈ got' -> m_ID m = m_ID m' -> Exists (gives_back (m_ID m) w) es.
Proof.
  inversion_clear Hrun as [|? ? cs1 ? ? H1 H2]. apply lease_run_app in H2 as (cs2 & H2 & H3).
  inversion_clear H3 as [|? ? cs3 ? ? H4 _]. inversion_clear H1 as [? ? ? ? ? ? ? ? fs fs' Hc| |].
  apply ClaimMessages_spec in Hc as (Hnd & Hlen & Hheld & _). split; [done|]. split; [lia|].
  intros m m' Hm Hm' Heq. apply dec_stable. intros Hno%not_Exists_Forall; [|apply _].
  assert (cs2 !! m_ID m = Some (mkClaim w until)) as Hc2.
  { eapply lease_run_held; try done. apply Hheld. by apply list_elem_of_fmap_2. }
  inversion_clear H4 as [? ? ? ? ? ? ? ? fs1 fs1' Hc'| |].
  apply ClaimMessages_spec in Hc' as (_ & _ & _ & Hn). destruct (Hn (m_ID m)) as [Hni _].
  - unfold claimable. rewrite Hc2. cbn. by apply Z.ltb_ge.
  - apply Hni. rewrite Heq. by apply list_elem_of_fmap_2.
Qed.

(** ** Retention *)

Section Retention.
Context `{DG : Digest}.
Variables cutoff tcutoff : Z.

Definition expired (m : Message) : Prop := m_CreatedAt m * second < cutoff.

(** From [fs] to [fs'] files of expired messages and old tombstones may have gone. *)
Definition aged (fs fs' : Files) : Prop :=
  (forall k, f_meta fs' !! k = f_meta fs !! k \/
     f_meta fs' !! k = None /\ exists m, f_meta fs !! k = Some (Some m) /\ expired m) /\
  (forall i, f_data fs' !! i = f_data fs !! i \/
     f_data fs' !! i = None /\ exists q m, f_meta fs !! (q, i) = Some (Some m) /\ expired m) /\
  (forall i, f_tomb fs' !! i = f_tomb fs !! i \/
     f_tomb fs' !! i = None /\ exists t z, f_tomb fs !! i = Some (t, z) /\ z * second <= tcutoff).

Lemma aged_same fs fs' fs'' : aged fs fs' -> same_files fs' fs'' -> aged fs fs''.
Proof. intros H (E1 & E2 & E3 & _). unfold aged. by rewrite E1, E2, E3. Qed.

Lemma aged_refl fs : aged fs fs.
Proof. split_and!; by left. Qed.

Lemma aged_meta fs fs' k e : aged fs fs' -> f_meta fs' !! k = Some e -> f_meta fs !! k = Some e.
Proof. intros (H & _) E. destruct (H k) as [<-|[? _]]; congruence. Qed.

Lemma aged_unlink_meta fs fs' q i m :
  aged fs fs' -> f_meta fs !! (q, i) = Some (Some m) -> expired m ->
  aged fs (fs' <| f_meta ::= delete (q, i) |>).
Proof.
  intros (H1 & H2 & H3) Hm He. split; [|done]. intros k.
  change (f_meta (fs' <| f_meta ::= delete (q, i) |>)) with (delete (q, i) (f_meta fs')).
  destruct (decide (k = (q, i))) as [->|]; [right|by rewrite lookup_delete_ne].
  rewrite lookup_delete_eq. eauto.
Qed.

Lemma aged_unlink_data fs fs' q i m :
  aged fs fs' -> f_meta fs !! (q, i) = Some (Some m) -> expired m ->
  aged fs (fs' <| f_data ::= delete i |>).
Proof.
  intros (H1 & H2 & H3) Hm He. split; [done|]. split; [|done]. intros k.
  change (f_data (fs' <| f_data ::= delete i |>)) with (delete i (f_data fs')).
  destruct (decide (k = i)) as [->|]; [right|by rewrite lookup_delete_ne].
  rewrite lookup_delete_eq. eauto 6.
Qed.

Lemma aged_unlink_tomb fs fs' i t z :
  aged fs fs' -> f_tomb fs !! i = Some (t, z) -> z * second <= tcutoff ->
  aged fs (fs' <| f_tomb ::= delete i |>).
Proof.
  intros (H1 & H2 & H3) Hm He. split; [done|]. split; [done|]. intros k.
  change (f_tomb (fs' <| f_tomb ::= delete i |>)) with (delete i (f_tomb fs')).
  destruct (decide (k = i)) as [->|]; [right|by rewrite lookup_delete_ne].
  rewrite lookup_delete_eq. eauto 6.
Qed.

(** Metadata only goes away. *)
Definition fewer (fs fs' : Files) : Prop := f_meta fs' ⊆ f_meta fs /\ f_tomb fs' ⊆ f_tomb fs.

#[local] Instance fewer_preorder : PreOrder fewer.
Proof. split; [done|]. intros ? ? ? [? ?] [? ?]. split; by etrans. Qed.

Lemma fewer_same fs fs' : same_files fs fs' -> fewer fs fs'.
Proof. intros (E1 & _ & E3 & _). split; by rewrite ?E1, ?E3. Qed.

Lemma fewer_none fs fs' k : fewer fs fs' -> f_meta fs !! k = None -> f_meta fs' !! k = None.
Proof.
  intros [H _] E. destruct (f_meta fs' !! k) eqn:E'; [|done].
  apply (lookup_weaken _ _ _ _ E') in H. congruence.
Qed.

(** *** Tombstones *)

(** No call to come fails. *)
Definition calm (fs : Files) : Prop := true ∉ f_faults fs.

Lemma calm_fault_wp e fs (Q : result unit -> Files -> Prop) :
  (forall fs', same_files fs fs' -> (calm fs -> calm fs') -> Q (Ok tt) fs') ->
  (forall fs', same_files fs fs' -> ~ calm fs -> Q (Err e) fs') -> wp (fault e) Q fs.
Proof.
  unfold calm. intros H1 H2. pose proof (fault_same e fs) as Hs. unfold wp, fault in *.
  destruct (f_faults fs) as [|[] l] eqn:E; cbn in *.
  - apply H1; [done|by rewrite E].
  - apply H2; [done|]. intros H. apply H. by left.
  - apply H1; [done|]. intros H Hin. apply H. by right.
Qed.

Lemma fewer_tomb fs fs' i : fewer fs fs' -> f_tomb fs !! i = None -> f_tomb fs' !! i = None.
Proof.
  intros [_ H] E. destruct (f_tomb fs' !! i) eqn:E'; [|done].
  apply (lookup_weaken _ _ _ _ E') in H. congruence.
Qed.

(** Of the tombstones looked at, the old ones are gone when no call failed. *)
Definition pruned (fs : Files) (l : list string) (fs' : Files) : Prop :=
  calm fs -> forall i t z, i ∈ l -> f_tomb fs' !! i = Some (t, z) -> tcutoff < z * second.

Lemma prune_wp l fs0 fs :
  aged fs0 fs ->
  wp (prune tcutoff l) (fun r fs' => aged fs0 fs' /\ fewer fs fs' /\ (is_ok r = true -> pruned fs l fs')) fs.
Proof.
  revert fs. induction l as [|i l IH]; intros fs Ha; cbn [prune].
  { wp_step. split_and!; [done..|]. intros _ _ ? ? ? []%elem_of_nil. }
  assert (forall fs1, aged fs0 fs1 -> fewer fs fs1 -> (calm fs -> calm fs1) ->
    (calm fs -> forall t z, f_tomb fs1 !! i = Some (t, z) -> tcutoff < z * second) ->
    wp (prune tcutoff l) (fun r fs' => aged fs0 fs' /\ fewer fs fs' /\ (is_ok r = true -> pruned fs (i :: l) fs')) fs1)
    as Hnext.
  { intros fs1 Ha1 Hf1 Hc1 Hi. eapply wp_mono; [by apply IH|]. cbv beta. intros r fs2 (H1 & H2 & H3).
    split_and!; [done|by etrans|]. intros Hr Hc i' t z [->|Hin]%elem_of_cons E; [|by eapply (H3 Hr (Hc1 Hc))].
    eapply (Hi Hc). eapply lookup_weaken; [exact E|]. apply H2. }
  do 2 wp_step. unfold modTimeAt. apply wp_bind, calm_fault_wp; intros fs1 Hs Hc;
    pose proof (aged_same _ _ _ Ha Hs) as Ha1; pose proof (fewer_same _ _ Hs) as Hf1; [|by apply Hnext].
  do 2 wp_step. destruct (f_tomb fs1 !! i) as [[t z]|] eqn:Ei; [|wp_step; apply Hnext; try done; congruence].
  wp_step. destruct (tcutoff <? z * second) eqn:Ez.
  { apply Hnext; try done. intros _ t' z' [= -> ->]%(eq_trans (eq_sym Ei)). lia. }
  do 2 wp_step. unfold unlink_tomb. apply wp_bind, calm_fault_wp; intros fs2 Hs2 Hc2;
    pose proof (aged_same _ _ _ Ha1 Hs2) as Ha2; pose proof (fewer_same _ _ Hs2) as Hf2;
    [|change (not_exist "unlink error") with false; split_and!; [done|by etrans|done]].
  do 2 wp_step. pose proof Hs2 as (_ & _ & Et & _). rewrite Et, Ei. wp_step. wp_step.
  eapply wp_mono; [apply Hnext|].
  - apply (aged_unlink_tomb _ _ _ t z); [done| |lia]. destruct Ha1 as (_ & _ & Ha1).
    destruct (Ha1 i) as [<-|[Hn _]]; congruence.
  - etrans; [exact Hf1|]. etrans; [exact Hf2|]. split; [done|]. apply delete_subseteq.
  - intros H. exact (Hc2 (Hc H)).
  - intros _ t' z' E. change (delete i (f_tomb fs2) !! i = Some (t', z')) in E. by rewrite lookup_delete_eq in E.
  - cbv beta. intros [n|e] fs3 H; [wp_step|]; exact H.
Qed.

Lemma pruneTombstones_wp fs :
  wp (pruneTombstones tcutoff) (fun r fs' => aged fs fs' /\ fewer fs fs' /\
    (is_ok r = true -> calm fs -> forall i t z, f_tomb fs' !! i = Some (t, z) -> tcutoff < z * second)) fs.
Proof.
  unfold pruneTombstones. apply wp_bind, calm_fault_wp; intros fs1 Hs Hc;
    pose proof (aged_same _ _ _ (aged_refl fs) Hs) as Ha; pose proof (fewer_same _ _ Hs) as Hf; [|by split_and!].
  do 2 wp_step. eapply wp_mono; [by apply (prune_wp _ fs)|]. cbv beta.
  intros r fs2 (H1 & H2 & H3). assert (fewer fs fs2) as [Hm Ht] by (by etrans).
  split_and!; [done|done|]. intros Hr Hcalm i t z E. eapply (H3 Hr (Hc Hcalm)); [|exact E].
  destruct Hs as (_ & _ & Et & _). unfold tombstone_ids. rewrite Et. apply list_elem_of_fmap.
  exists (i, (t, z)). split; [done|]. apply elem_of_map_to_list. by eapply lookup_weaken.
Qed.

(** *** Messages *)

Lemma listAt_wp q ids fs :
  wp (listAt q ids) (fun r fs' => same_files fs fs' /\
    forall msgs, r = Ok msgs ->
      Forall (fun m => f_meta fs !! (q, m_ID m) = Some (Some m)) msgs /\
      forall id m, id ∈ ids -> f_meta fs !! (q, id) = Some (Some m) -> (m ∈ msgs) /\ m_ID m = id) fs.
Proof.
  revert fs. induction ids as [|i ids IH]; intros fs; cbn [listAt].
  { wp_step. split; [done|]. intros ? [= <-]. split; [constructor|]. intros ? ? []%elem_of_nil. }
  do 2 wp_step. destruct (validateMessageID i); [|by split].
  do 2 wp_step. unfold read_meta. apply wp_bind, fault_wp; intros fs1 Hs;
    [|change (not_exist "read error") with false; by split].
  pose proof Hs as (E1 & _). do 2 wp_step. rewrite E1.
  assert (forall r fs2, same_files fs1 fs2 /\
      (forall msgs, r = Ok msgs ->
        Forall (fun m => f_meta fs1 !! (q, m_ID m) = Some (Some m)) msgs /\
        forall id m, id ∈ ids -> f_meta fs1 !! (q, id) = Some (Some m) -> (m ∈ msgs) /\ m_ID m = id) ->
    same_files fs fs2 /\
      (forall msgs, r = Ok msgs ->
        Forall (fun m => f_meta fs !! (q, m_ID m) = Some (Some m)) msgs /\
        forall id m, id ∈ ids -> f_meta fs !! (q, id) = Some (Some m) -> (m ∈ msgs) /\ m_ID m = id)) as Hw.
  { intros r fs2 [H1 H2]. rewrite E1 in H2. split; [by etrans|done]. }
  destruct (f_meta fs !! (q, i)) as [e|] eqn:Ei; wp_step.
  - do 2 wp_step. destruct (decodeMessage e i q) as [m|er] eqn:Ed; [|by split].
    assert (e = Some m /\ m_ID m = i) as [-> Hid].
    { unfold decodeMessage in Ed. destruct e as [m'|]; [|done].
      destruct (m_ID m' =? i)%string eqn:E; cbn in Ed; [|done]. case_bool_decide; [|done].
      injection Ed as <-. split; [done|]. by apply String.eqb_eq. }
    wp_step. eapply wp_mono; [apply IH|]. cbv beta. intros [rest|] fs2 H%Hw; [wp_step|by destruct H; split].
    destruct H as [Hsame Hrest]. split; [done|]. intros msgs [= <-].
    destruct (Hrest rest eq_refl) as [Hall Hin]. rewrite Forall_cons, Hid. split; [done|].
    intros id m' [->|Hi]%elem_of_cons Hm.
    + replace m' with m by congruence. split; [by left|done].
    + destruct (Hin id m' Hi Hm). split; [by right|done].
  - change (not_exist ErrNotExist) with true. cbv iota. eapply wp_mono; [apply IH|]. cbv beta.
    intros r fs2 [Hsame Hrest]%Hw. split; [done|]. intros msgs Hr. destruct (Hrest msgs Hr) as [Hall Hin].
    split; [done|]. intros id m [->|Hi]%elem_of_cons Hm; [congruence|by eapply Hin].
Qed.

Lemma cleanup_messages_wp q msgs fs0 fs :
  aged fs0 fs -> Forall (fun m => f_meta fs0 !! (q, m_ID m) = Some (Some m)) msgs ->
  wp (cleanup_messages cutoff q msgs) (fun r fs' => aged fs0 fs' /\ fewer fs fs' /\
    (is_ok r = true -> forall m, m ∈ msgs -> expired m -> f_meta fs' !! (q, m_ID m) = None)) fs.
Proof.
  revert fs. induction msgs as [|m msgs IH]; intros fs Ha Hall; cbn [cleanup_messages].
  { wp_step. split_and!; [done..|]. intros _ ? []%elem_of_nil. }
  apply Forall_cons in Hall as [Hm Hall].
  destruct (m_CreatedAt m * second <? cutoff) eqn:Ec; cbn [negb].
  2:{ eapply wp_mono; [by apply IH|]. cbv beta. intros r fs1 (H1 & H2 & H3). split_and!; try done.
      intros Hr m' [->|?]%elem_of_cons He; [unfold expired in He; lia|auto]. }
  assert (expired m) as He by (unfold expired; lia).
  assert (forall fs1, aged fs0 fs1 -> fewer fs fs1 -> f_meta fs1 !! (q, m_ID m) = None ->
    wp (n ← cleanup_messages cutoff q msgs; mret (n + 1)) (fun r fs' => aged fs0 fs' /\ fewer fs fs' /\
      (is_ok r = true -> forall m', m' ∈ m :: msgs -> expired m' -> f_meta fs' !! (q, m_ID m') = None)) fs1)
    as Hrest.
  { intros fs1 Ha1 Hf1 Hn1. wp_step. eapply wp_mono; [by apply IH|]. cbv beta. intros r fs2 (H1 & H2 & H3).
    assert (fewer fs fs2) by (by etrans). destruct r; [wp_step|by split_and!]. split_and!; [done..|].
    intros _ m' [->|?]%elem_of_cons He'; [exact (fewer_none _ _ _ H2 Hn1)|by apply H3]. }
  unfold deleteInQueue. do 3 wp_step. destruct (validateMessageID (m_ID m)); [|by split_and!].
  wp_step. apply wrap_wp. unfold unlink_meta. apply wp_bind, fault_wp; intros fs1 Hs;
    pose proof (aged_same _ _ _ Ha Hs) as Ha1; apply fewer_same in Hs; [|by split_and!].
  do 2 wp_step. destruct (f_meta fs1 !! (q, m_ID m)) as [e|] eqn:Ee; [|by split_and!].
  wp_step. set (fs2 := fs1 <| f_meta ::= delete (q, m_ID m) |>).
  assert (aged fs0 fs2) as Ha2 by (by apply (aged_unlink_meta _ _ _ _ m)).
  assert (fewer fs fs2) as Hf2 by (etrans; [done|]; split; [apply delete_subseteq|done]).
  assert (f_meta fs2 !! (q, m_ID m) = None) as Hn2 by apply lookup_delete_eq.
  apply fault_wp; intros fs3 Hs3; pose proof (aged_same _ _ _ Ha2 Hs3) as Ha3;
    assert (fewer fs fs3) as Hf3 by (etrans; [done|by apply fewer_same]); [|by split_and!].
  assert (f_meta fs3 !! (q, m_ID m) = None) as Hn3 by exact (fewer_none _ _ _ (fewer_same _ _ Hs3) Hn2).
  do 2 wp_step. unfold unlink_data. apply wp_bind, fault_wp; intros fs4 Hs4;
    pose proof (aged_same _ _ _ Ha3 Hs4) as Ha4;
    assert (fewer fs fs4) as Hf4 by (etrans; [done|by apply fewer_same]);
    [|change (not_exist "unlink error") with false; by split_and!].
  assert (f_meta fs4 !! (q, m_ID m) = None) as Hn4 by exact (fewer_none _ _ _ (fewer_same _ _ Hs4) Hn3).
  do 2 wp_step. destruct (f_data fs4 !! m_ID m); wp_step.
  - apply Hrest; [by apply (aged_unlink_data _ _ q _ m)|done|done].
  - change (not_exist ErrNotExist) with true. by apply Hrest.
Qed.

Lemma cleanup_queues_wp qs fs0 fs :
  aged fs0 fs ->
  wp (cleanup_queues cutoff qs) (fun r fs' => aged fs0 fs' /\ fewer fs fs' /\
    (is_ok r = true -> forall q i m, q ∈ qs -> f_meta fs' !! (q, i) = Some (Some m) -> ~ expired m)) fs.
Proof.
  revert fs. induction qs as [|q qs IH]; intros fs Ha; cbn [cleanup_queues].
  { wp_step. split_and!; [done..|]. intros _ ? ? ? []%elem_of_nil. }
  apply wp_bind, fault_wp; intros fs' Hs';
    [|split_and!; [by eapply aged_same|by apply fewer_same|done]].
  do 3 wp_step. eapply wp_mono; [apply listAt_wp|]. cbv beta. intros [msgs|e] fs1 [Hs Hl].
  2:{ assert (same_files fs fs1) by (by etrans). split_and!; [by eapply aged_same|by apply fewer_same|done]. }
  destruct (Hl msgs eq_refl) as [Hall Hin]. rewrite (proj1 Hs') in Hall, Hin.
  pose proof (transitivity Hs' Hs) as Hs1. clear Hs Hl. rename Hs1 into Hs. pose proof (aged_same _ _ _ Ha Hs) as Ha1.
  pose proof (fewer_same _ _ Hs) as Hf1.
  wp_step. eapply wp_mono; [apply (cleanup_messages_wp q msgs fs0 fs1 Ha1)|].
  { eapply Forall_impl; [exact Hall|]. cbv beta. intros m Hm. exact (aged_meta _ _ _ _ Ha Hm). }
  cbv beta. intros r fs2 (Ha2 & Hf2 & Hg2). assert (fewer fs fs2) as Hf by (by etrans).
  destruct r as [n|e]; [|by split_and!].
  wp_step. eapply wp_mono; [by apply IH|]. cbv beta. intros r fs3 (Ha3 & Hf3 & Hg3).
  assert (fewer fs fs3) as Hf' by (by etrans). destruct r as [k|e]; [wp_step|by split_and!].
  split_and!; [done..|]. intros _ q' i m [->|Hq]%elem_of_cons Hm He; [|by eapply Hg3].
  assert (f_meta fs !! (q, i) = Some (Some m)) as Hm0.
  { eapply lookup_weaken; [exact Hm|]. apply Hf'. }
  destruct (Hin i m) as [Hmm Hi]; [apply queue_ids_elem; rewrite (proj1 Hs'); by eexists|done|].
  pose proof (fewer_none _ _ _ Hf3 (Hg2 eq_refl m Hmm He)) as Hgone. congruence.
Qed.
End Retention.

(** The longest retention whose duration does not wrap around. *)
Lemma hours_before_id now n : 0 <= n <= 2562047 -> hours_before now n = (now - n * 3600) * second.
Proof.
  intros H. unfold hours_before, hours_ns. rewrite wrap64_id; [unfold second; lia|].
  unfold int64_ok, two63, second. lia.
Qed.

(** C15 (what a cleanup takes).  Whatever call fails, a cleanup removes only messages
    created before its cutoff, with their bodies, and tombstones more than a day old.
    When it reports success no message older than the cutoff is left, and no such
    tombstone either if no call failed on the way (one whose time cannot be read is left
    for the next time); it refuses a retention period that is not positive.  The cutoff
    is the retention period ago, up to 2562047 hours: beyond, the [int64] of its
    nanoseconds wraps around ([huge_retention_deletes_all]). *)
Theorem Cleanup_retention `{DG : Digest} (now retentionHours : Z) (fs fs1 : Files) (r : result Z)
    (Hrun : Cleanup now retentionHours fs = (r, fs1)) :
  let cutoff := hours_before now retentionHours in
  let tcutoff := (now - 24 * 3600) * second in
  (0 < retentionHours <= 2562047 -> cutoff = (now - retentionHours * 3600) * second) /\
  (if retentionHours <=? 0 then is_ok r = false /\ fs1 = fs else aged cutoff tcutoff fs fs1) /\
  (is_ok r = true ->
     (forall q i m, f_meta fs1 !! (q, i) = Some (Some m) -> cutoff <= m_CreatedAt m * second) /\
     (calm fs -> forall i t z, f_tomb fs1 !! i = Some (t, z) -> tcutoff < z * second)).
Proof.
  cbv zeta. split; [intros; apply hours_before_id; lia|]. rewrite <- hours_before_id by lia.
  unfold Cleanup in Hrun. destruct (retentionHours <=? 0); [injection Hrun as <- <-; by split|].
  pattern r, fs1. refine (wp_run _ _ _ _ _ _ Hrun).
  apply wp_bind, calm_fault_wp; intros fs0 Hs Hc; pose proof (aged_same (hours_before now retentionHours) (hours_before now 24) _ _ _ (aged_refl _ _ fs) Hs) as Ha0;
    [|by split].
  wp_step. apply wrap_wp. eapply wp_mono; [apply pruneTombstones_wp|]. cbv beta.
  intros r2 fs2 (Ha & Hf & Ht).
  assert (aged (hours_before now retentionHours) (hours_before now tombstoneRetentionHours) fs fs2) as Ha2.
  { clear -Ha Hs. unfold aged in *. by destruct Hs as (<- & <- & <- & _). }
  destruct r2 as [n|e]; [|by split].
  wp_step. eapply wp_mono; [by apply cleanup_queues_wp|]. cbv beta.
  intros [k|e] fs3 (Ha3 & [_ Hf3] & Hq); [wp_step|by split].
  split; [done|]. intros _. split.
  - intros q i m Hm. specialize (Hq eq_refl q i m (all_queues q) Hm). unfold expired in Hq. lia.
  - intros Hcalm i t z E. eapply (Ht eq_refl (Hc Hcalm)). by eapply lookup_weaken.
Qed.

(** ** Examples *)

#[local] Instance toy_digest : Digest := fun s => s.

Definition note (id : string) : Message :=
  mkMessage id Active "" "ann@a.example" ["bob@b.example"] "b.example" "hi" 5 1 1000 1000 1000 0 0 "" "" [] ∅.
Definition note_body : contentSource := mkSource "hello" true.

(** A queue whose [n]th call from now fails. *)
Definition failing (n : nat) (fs : Files) : Files := fs <| f_faults := replicate n false ++ [true] |>.
Definition empty_queue : Files := mkFiles ∅ ∅ ∅ true [].
Definition note_queue (id : string) : Files := snd (createMessageIfAbsent (note id) note_body empty_queue).

Lemma note_queue_only : only_in Active (note_queue "m1") (note "m1").
Proof. split; [done|]. split; [by vm_compute|]. intros [] H; by vm_compute. Qed.

Lemma enqueue_retryable_witness :
  let out := createMessageIfAbsent (note "m1") note_body (failing 11 empty_queue) in
  fst out = Err "failed to write message file: write error" /\
  exists b fs2, createMessageIfAbsent (note "m1") note_body (settled (snd out)) = (Ok b, fs2) /\
    enqueued (failing 11 empty_queue) fs2 (note "m1") "hello" /\ (fst out = Ok true -> b = false).
Proof.
  split; [by vm_compute|].
  refine (enqueue_retryable (failing 11 empty_queue) _ (note "m1") note_body _ _ (surjective_pairing _)).
  split; [done|]. split; [by intros []|]. split; [done|by left].
Defined.

Lemma consumed_for_good_witness :
  let fs := failing 4 (note_queue "m1") in
  let out := DeleteMessageWithTombstone 2000 (note "m1") "hello" fs in
  fst out = Err "failed to delete message file: unlink error" /\
  ((is_ok (fst out) = false /\ same_files fs (snd out)) \/
   (is_ok (fst (Retrieve "m1" (settled (snd out)))) = false /\
    (forall again src, m_ID again = "m1" -> sameEnqueueMessage (note "m1") again = true ->
       cs_body src = "hello" ->
       createMessageIfAbsent again src (settled (snd out)) = (Ok false, settled (snd out))) /\
    (forall q' id, id <> "m1" ->
       f_meta (snd out) !! (q', id) = f_meta fs !! (q', id) /\ f_data (snd out) !! id = f_data fs !! id /\
       f_tomb (snd out) !! id = f_tomb fs !! id) /\
    (is_ok (fst out) = true -> f_meta (snd out) !! (Active, "m1") = None /\ f_data (snd out) !! "m1" = None))).
Proof.
  split; [by vm_compute|].
  exact (consumed_for_good 2000 (failing 4 (note_queue "m1")) _ (note "m1") "hello" Active _ eq_refl
           note_queue_only (surjective_pairing _)).
Defined.

Lemma Move_never_loses_witness :
  let fs := failing 2 (note_queue "m1") in
  let out := Move "m1" Active Deferred fs in
  fst out = Err "failed to remove source file: unlink error" /\
  moving (note "m1") Deferred (fst out) fs (snd out) /\
  (is_ok (fst out) = false -> exists fs2,
     Move "m1" Active Deferred (settled (snd out)) = (Ok tt, fs2) /\ moving (note "m1") Deferred (Ok tt) fs fs2).
Proof.
  split; [by vm_compute|].
  exact (Move_never_loses (failing 2 (note_queue "m1")) _ (note "m1") Deferred _ eq_refl
           ltac:(done) ltac:(by vm_compute) (surjective_pairing _)).
Defined.

Lemma claims_exclusive_witness :
  NoDup (m_ID <$> [note "m1"]) /\ Z.of_nat (length [note "m1"]) <= Z.max 0 5 /\
  forall m m', m ∈ [note "m1"] -> m' ∈ [note "m1"] -> m_ID m = m_ID m' ->
    Exists (gives_back (m_ID m) "w1") [EvForget 20; EvRelease "m1" "w1"].
Proof.
  refine (claims_exclusive ∅ _ 10 30 100 120 Active Active 5 5 "w1" "w2" [note "m1"] [note "m1"]
            [EvForget 20; EvRelease "m1" "w1"] _ _ _); [|repeat constructor; done|done].
  eapply lr_cons; [eapply (ls_claim _ _ _ _ _ _ _ _ (note_queue "m1")); vm_compute; reflexivity|].
  eapply lr_cons; [apply ls_forget|]. eapply lr_cons; [apply ls_release|].
  eapply lr_cons; [eapply (ls_claim _ _ _ _ _ _ _ _ (note_queue "m1")); vm_compute; reflexivity|apply lr_nil].
Defined.

Lemma Cleanup_retention_witness :
  let fs := note_queue "m1" in
  let out := Cleanup 8000 1 fs in
  fst out = Ok 1 /\
  (0 < 1 <= 2562047 -> hours_before 8000 1 = (8000 - 1 * 3600) * second) /\
  (aged (hours_before 8000 1) ((8000 - 24 * 3600) * second) fs (snd out)) /\
  (is_ok (fst out) = true ->
     (forall q i m, f_meta (snd out) !! (q, i) = Some (Some m) -> hours_before 8000 1 <= m_CreatedAt m * second) /\
     (calm fs -> forall i t z, f_tomb (snd out) !! i = Some (t, z) -> (8000 - 24 * 3600) * second < z * second)).
Proof. split; [by vm_compute|]. exact (Cleanup_retention 8000 1 (note_queue "m1") _ _ (surjective_pairing _)). Defined.

(** A retention of 2562048 hours, meant to keep everything for 292 years, deletes a message
    that was created just now. *)
Example huge_retention_deletes_all :
  let out := Cleanup 1000 2562048 (note_queue "m1") in
  fst out = Ok 1 /\ f_meta (snd out) = ∅.
Proof. by vm_compute. Qed.
