(* ===== verification/QueueManager.v ===== *)
(** * The queue manager (internal/queue: manager.go, interfaces.go)

    The operations of [Manager] over any storage backend.  The backend is the class
    [StorageBackend], the Go interface with its optional extensions; what its clients
    rely on, failures included, is [BackendLaws].  The file backend of QueueStorage.v is
    an instance of both.  The read-write mutex and the per-message locks make the
    operations on one message sequential; one operation reads the clock once. *)

From stdpp Require Import sorting.
From S2P Require Import Prelude GoStrings QueueStorage.

Open Scope string_scope.
Open Scope list_scope.
Open Scope Z_scope.

(** ** Storage backends *)

(** StorageBackend; the extensions a backend may lack are options. *)
Class StorageBackend (S : Type) := {
  sb_Store : Message -> M S unit;
  sb_Retrieve : string -> M S Message;
  sb_Update : Message -> M S unit;
  sb_Delete : string -> M S unit;
  sb_List : QueueType -> M S (list Message);
  sb_Count : QueueType -> M S Z;
  sb_Move : string -> QueueType -> QueueType -> M S unit;
  sb_StoreContent : string -> string -> M S unit;
  sb_RetrieveContent : string -> M S string;
  sb_DeleteContent : string -> M S unit;
  sb_Cleanup : Z -> M S Z;
  sb_CreateMessageIfAbsent : option (Message -> string -> M S bool);
  sb_CreateMessageIfAbsentStream : option (Message -> contentSource -> M S bool);
  sb_RecordEnqueueTombstone : option (Message -> string -> M S unit);
  sb_DeleteMessageWithTombstone : option (Message -> string -> M S unit)
}.

(** ** The manager *)

Set Primitive Projections.
Record QueueStats := mkStats {
  ActiveCount : Z; DeferredCount : Z; HoldCount : Z; FailedCount : Z; TotalSize : Z; LastUpdated : Z
}.

Record Manager (S : Type) := mkManager {
  mg_store : S;
  mg_stats : QueueStats;
  mg_retrySchedule : list Z
}.
Unset Primitive Projections.
Arguments mkManager {S}.
Arguments mg_store {S}.
Arguments mg_stats {S}.
Arguments mg_retrySchedule {S}.

Definition defaultRetrySchedule : list Z :=
  [60; 300; 900; 3600; 10800; 21600; 21600; 21600; 21600; 43200; 43200; 43200; 43200].

Definition add_count (q : QueueType) (d : Z) (st : QueueStats) : QueueStats :=
  match q with
  | Active => st <| ActiveCount ::= Z.add d |>
  | Deferred => st <| DeferredCount ::= Z.add d |>
  | Hold => st <| HoldCount ::= Z.add d |>
  | Failed => st <| FailedCount ::= Z.add d |>
  end.

Definition zero_count (q : QueueType) (st : QueueStats) : QueueStats :=
  match q with
  | Active => st <| ActiveCount := 0 |>
  | Deferred => st <| DeferredCount := 0 |>
  | Hold => st <| HoldCount := 0 |>
  | Failed => st <| FailedCount := 0 |>
  end.

Definition extractDomain `{U : UnicodeTables} (addr : string) : string :=
  match LastIndexByte addr "@"%char with
  | None => ""
  | Some i => if (i =? String.length addr - 1)%nat then "" else ToLower (sdrop (i + 1) addr)
  end.

Section Manager.
Context `{U : UnicodeTables} {S : Type} `{SB : StorageBackend S}.
Variable now : Z.
(** filepath.Join(m.queueDir, data, id). *)
Variable dataPath : string -> string.
(** The random part of a delay of so many seconds. *)
Variable jitter : Z -> Z.

Definition on_store {A} (m : M S A) : M (Manager S) A :=
  fun mg => let '(r, s) := m (mg_store mg) in (r, mg <| mg_store := s |>).

Definition werr {A} (prefix : string) (m : M S A) : M (Manager S) A :=
  fun mg => match on_store m mg with
            | (Err e, mg') => (Err (prefix +:+ e), mg')
            | out => out
            end.

Definition upd_stats (f : QueueStats -> QueueStats) : M (Manager S) unit :=
  modify (fun mg => mg <| mg_stats ::= fun st => f st <| LastUpdated := now |> |>).

Definition SetRetrySchedule (schedule : list Z) : M (Manager S) unit :=
  match schedule with
  | [] => mret tt
  | _ => modify (fun mg => mg <| mg_retrySchedule := schedule |>)
  end.

(** *** Statistics and listing *)

Definition refreshCounts : M (Manager S) unit :=
  a ← werr "failed to count active queue: " (sb_Count Active);
  d ← werr "failed to count deferred queue: " (sb_Count Deferred);
  h ← werr "failed to count hold queue: " (sb_Count Hold);
  f ← werr "failed to count failed queue: " (sb_Count Failed);
  upd_stats (fun st => mkStats a d h f (TotalSize st) now).

(** Higher priority first, then older first. *)
Definition list_before (a b : Message) : Prop :=
  m_Priority b < m_Priority a \/ (m_Priority a = m_Priority b /\ m_CreatedAt a <= m_CreatedAt b).

#[global] Instance list_before_dec : RelDecision list_before.
Proof. intros a b. unfold list_before. apply _. Defined.

Definition ListMessages (q : QueueType) : M (Manager S) (list Message) :=
  l ← werr "failed to list messages: " (sb_List q);
  mret (merge_sort list_before l).

Fixpoint update_stats (qs : list QueueType) (st : QueueStats) : M (Manager S) QueueStats :=
  match qs with
  | [] => mret st
  | q :: qs' =>
      fun mg => match ListMessages q mg with
                | (Err e, mg') => (Err ("failed to list queue: " +:+ e), mg')
                | (Ok l, mg') =>
                    update_stats qs'
                      (add_count q (Z.of_nat (length l)) (zero_count q st)
                         <| TotalSize ::= Z.add (foldr (fun m n => m_Size m + n) 0 l) |>) mg'
                end
  end.

Definition UpdateStats : M (Manager S) unit :=
  st ← update_stats queueTypes (mkStats 0 0 0 0 0 now);
  modify (fun mg => mg <| mg_stats := st |>).

Fixpoint all_messages (qs : list QueueType) : M (Manager S) (list Message) :=
  match qs with
  | [] => mret []
  | q :: qs' =>
      r ← attempt (ListMessages q);
      rest ← all_messages qs';
      mret (match r with Ok l => l ++ rest | Err _ => rest end)
  end.

Definition GetAllMessages : M (Manager S) (list Message) := all_messages queueTypes.

Definition GetMessage (id : string) : M (Manager S) Message := on_store (sb_Retrieve id).
Definition GetMessageContent (id : string) : M (Manager S) string := on_store (sb_RetrieveContent id).

(** *** Enqueueing *)

Definition newEnqueueMessage (id from : string) (to : list string) (subject : string)
    (size priority receivedAt : Z) : Message :=
  mkMessage id Active (dataPath id) from to
    (match to with [] => "" | a :: _ => extractDomain a end)
    subject size priority receivedAt now now 0 0 "" "" [] ∅.

Definition recordEnqueued (msg : Message) : M (Manager S) unit :=
  upd_stats (fun st => add_count Active 1 st <| TotalSize ::= Z.add (m_Size msg) |>).

Definition enqueueMessageWithID (id from : string) (to : list string) (subject data : string)
    (priority receivedAt : Z) : M (Manager S) string :=
  let msg := newEnqueueMessage id from to subject (slen data) priority receivedAt in
  match sb_CreateMessageIfAbsent with
  | Some create =>
      created ← werr "idempotent enqueue failed: " (create msg data);
      if (created : bool) then recordEnqueued msg ≫= fun _ => mret id else mret id
  | None =>
      werr "failed to store message metadata: " (sb_Store msg) ≫= fun _ =>
      r ← attempt (on_store (sb_StoreContent id data));
      match r with
      | Err e => attempt (on_store (sb_Delete id)) ≫= fun _ => fail ("failed to store message content: " +:+ e)
      | Ok _ => recordEnqueued msg ≫= fun _ => mret id
      end
  end.

(** EnqueueMessage, under the ID generateUniqueID gave. *)
Definition EnqueueMessage := enqueueMessageWithID.

Definition EnqueueMessageWithID (id from : string) (to : list string) (subject data : string)
    (priority receivedAt : Z) : M (Manager S) string :=
  if (TrimSpace id =? "")%string then fail "message ID is required"
  else enqueueMessageWithID id from to subject data priority receivedAt.

(** enqueueMessageStreamWithID; [readable] is how opening and reading the body goes
    when the backend cannot stream. *)
Definition EnqueueMessageStream (id from : string) (to : list string) (subject : string)
    (src : contentSource) (readable : result unit) (size priority receivedAt : Z) : M (Manager S) string :=
  match sb_CreateMessageIfAbsentStream with
  | None =>
      match readable with
      | Err e => fail e
      | Ok _ => enqueueMessageWithID id from to subject (cs_body src) priority receivedAt
      end
  | Some create =>
      let msg := newEnqueueMessage id from to subject size priority receivedAt in
      created ← werr "idempotent enqueue failed: " (create msg src);
      if (created : bool) then recordEnqueued msg ≫= fun _ => mret id else mret id
  end.

(** *** Changing queued messages *)

(** The storage part of DeleteMessage. *)
Definition consume (msg : Message) (content : string) : M (Manager S) unit :=
  match sb_DeleteMessageWithTombstone with
  | Some f => werr "failed to atomically consume message: " (f msg content)
  | None =>
      (match sb_RecordEnqueueTombstone with
       | Some f => werr "failed to record idempotency tombstone: " (f msg content)
       | None => mret tt
       end) ≫= fun _ =>
      werr "failed to delete message: " (sb_Delete (m_ID msg)) ≫= fun _ =>
      attempt (on_store (sb_DeleteContent (m_ID msg))) ≫= fun _ => mret tt
  end.

Definition DeleteMessage (id : string) : M (Manager S) unit :=
  msg ← werr "message not found: " (sb_Retrieve id);
  content ← werr "failed to read content for idempotency tombstone: " (sb_RetrieveContent id);
  consume msg content ≫= fun _ =>
  upd_stats (fun st => add_count (m_QueueType msg) (-1) st <| TotalSize ::= Z.add (- m_Size msg) |>).

Definition calculateNextRetry (schedule : list Z) (retryCount : Z) : Z :=
  let retryCount := if retryCount <=? 0 then 1 else retryCount in
  let schedule := match schedule with [] => defaultRetrySchedule | _ => schedule end in
  let idx := Nat.min (Z.to_nat (retryCount - 1)) (length schedule - 1) in
  let delay := nth idx schedule 0 in
  now + (delay + jitter delay).

(** The fields MoveMessage sets before it moves. *)
Definition moved_message (schedule : list Z) (target : QueueType) (reason : string) (msg : Message) : Message :=
  let msg := msg <| m_QueueType := target |> <| m_UpdatedAt := now |> in
  if (reason =? "")%string then msg
  else match target with
       | Failed => msg <| m_LastError := reason |>
       | Hold => msg <| m_HoldReason := reason |>
       | Deferred =>
           let msg := msg <| m_LastError := reason |> <| m_RetryCount ::= Z.add 1 |> in
           msg <| m_NextRetry := calculateNextRetry schedule (m_RetryCount msg) |>
       | Active => msg
       end.

Definition MoveMessage (id : string) (target : QueueType) (reason : string) : M (Manager S) unit :=
  msg ← werr "message not found: " (sb_Retrieve id);
  schedule ← gets mg_retrySchedule;
  werr "failed to move message: " (sb_Move id (m_QueueType msg) target) ≫= fun _ =>
  werr "failed to update message metadata: " (sb_Update (moved_message schedule target reason msg)) ≫= fun _ =>
  upd_stats (fun st => add_count target 1 (add_count (m_QueueType msg) (-1) st)).

Definition AddAttempt (id res errorMsg : string) : M (Manager S) unit :=
  msg ← on_store (sb_Retrieve id);
  let msg := msg <| m_Attempts ::= fun l => l ++ [mkAttempt now res errorMsg] |> <| m_UpdatedAt := now |> in
  on_store (sb_Update (if (errorMsg =? "")%string then msg else msg <| m_LastError := errorMsg |>)).

Definition SetAnnotation (id key value : string) : M (Manager S) unit :=
  msg ← on_store (sb_Retrieve id);
  on_store (sb_Update (msg <| m_Annotations ::= <[key := value]> |> <| m_UpdatedAt := now |>)).

Fixpoint flush_messages (msgs : list Message) : M (Manager S) unit :=
  match msgs with
  | [] => mret tt
  | msg :: msgs' =>
      attempt (on_store (sb_Delete (m_ID msg))) ≫= fun _ =>
      attempt (on_store (sb_DeleteContent (m_ID msg))) ≫= fun _ =>
      flush_messages msgs'
  end.

Definition FlushQueue (q : QueueType) : M (Manager S) unit :=
  msgs ← werr "failed to list messages: " (sb_List q);
  flush_messages msgs ≫= fun _ =>
  upd_stats (zero_count q).

Fixpoint flush_queues (qs : list QueueType) : M (Manager S) unit :=
  match qs with
  | [] => mret tt
  | q :: qs' => attempt (FlushQueue q) ≫= fun _ => flush_queues qs'
  end.

Definition FlushAllQueues : M (Manager S) unit :=
  flush_queues queueTypes ≫= fun _ => upd_stats (fun _ => mkStats 0 0 0 0 0 now).

Definition CleanupExpiredMessages (retentionHours : Z) : M (Manager S) Z :=
  if retentionHours <=? 0 then fail "retention period must be positive"
  else werr "cleanup failed: " (sb_Cleanup retentionHours).
End Manager.

(** ** What the manager's clients rely on *)

(** The removal DeleteMessage makes, on the store itself. *)
Definition remove_stored {S : Type} `{SB : StorageBackend S} (msg : Message) (content : string) : M S unit :=
  match sb_DeleteMessageWithTombstone with
  | Some f => f msg content
  | None =>
      (match sb_RecordEnqueueTombstone with Some f => f msg content | None => mret tt end) ≫= fun _ =>
      sb_Delete (m_ID msg) ≫= fun _ =>
      attempt (sb_DeleteContent (m_ID msg)) ≫= fun _ => mret tt
  end.

(** [holds q m b s]: the message is in queue [q] alone, live, with body [b].
    [survives id to b s]: there is a live copy of it, for exactly those recipients.
    [consumed id s]: it is gone for good.  Operations may fail at any point. *)
Class BackendLaws (S : Type) `{SB : StorageBackend S} := {
  holds : QueueType -> Message -> string -> S -> Prop;
  survives : string -> list string -> string -> S -> Prop;
  consumed : string -> S -> Prop;
  settle : S -> S;
  holds_queue q m b s : holds q m b s -> m_QueueType m = q;
  holds_survives q m b s : holds q m b s -> survives (m_ID m) (m_To m) b s;
  survives_readable id to b s :
    survives id to b s ->
    (exists m, fst (sb_Retrieve id (settle s)) = Ok m /\ m_ID m = id /\ m_To m = to) /\
    fst (sb_RetrieveContent id (settle s)) = Ok b;
  consumed_unreadable id s : consumed id s -> is_ok (fst (sb_Retrieve id (settle s))) = false;
  law_Retrieve q m b s :
    holds q m b s ->
    wp (sb_Retrieve (m_ID m)) (fun r s' => holds q m b s' /\ (forall m', r = Ok m' -> m' = m)) s;
  law_RetrieveContent q m b s :
    holds q m b s ->
    wp (sb_RetrieveContent (m_ID m)) (fun r s' => holds q m b s' /\ (forall b', r = Ok b' -> b' = b)) s;
  law_Update q m m' b s :
    holds q m b s -> m_ID m' = m_ID m -> m_QueueType m' = q ->
    wp (sb_Update m') (fun r s' =>
      holds q m' b s' \/ (is_ok r = false /\ holds q m b s')) s;
  law_Move q m b to s :
    holds q m b s -> to <> q ->
    wp (sb_Move (m_ID m) q to) (fun r s' =>
      if is_ok r then holds to (m <| m_QueueType := to |>) b s'
      else holds q m b s' \/ survives (m_ID m) (m_To m) b s') s;
  law_remove q m b s :
    holds q m b s ->
    wp (remove_stored m b) (fun r s' =>
      consumed (m_ID m) s' \/ (is_ok r = false /\ holds q m b s')) s
}.

(** ** The file backend *)

Section FileBackend.
Context `{DG : Digest}.
Variable now : Z.

Definition FileStorageBackend : StorageBackend Files := {|
  sb_Store := Store; sb_Retrieve := Retrieve; sb_Update := Update_; sb_Delete := Delete;
  sb_List := List_; sb_Count := Count; sb_Move := Move; sb_StoreContent := StoreContent;
  sb_RetrieveContent := RetrieveContent; sb_DeleteContent := DeleteContent; sb_Cleanup := Cleanup now;
  sb_CreateMessageIfAbsent := Some (fun msg content => createMessageIfAbsent msg (mkSource content false));
  sb_CreateMessageIfAbsentStream := Some createMessageIfAbsent;
  sb_RecordEnqueueTombstone := Some (RecordEnqueueTombstone now);
  sb_DeleteMessageWithTombstone := Some (DeleteMessageWithTombstone now)
|}.
#[local] Existing Instance FileStorageBackend.

Definition live (id body : string) (fs : Files) : Prop :=
  validateMessageID id = Ok tt /\ f_tomb fs !! id = None /\ f_data fs !! id = Some body.

Definition file_holds (q : QueueType) (m : Message) (b : string) (fs : Files) : Prop :=
  live (m_ID m) b fs /\ only_in q fs m.

(** Every copy there is, and there is one, goes to these recipients. *)
Definition file_survives (id : string) (to : list string) (b : string) (fs : Files) : Prop :=
  live id b fs /\ (exists q, is_Some (f_meta fs !! (q, id))) /\
  forall q e, f_meta fs !! (q, id) = Some e ->
    exists m, e = Some m /\ m_ID m = id /\ m_QueueType m = q /\ m_To m = to.

Definition file_consumed (id : string) (fs : Files) : Prop :=
  exists t z, f_tomb fs !! id = Some (Some t, z).

Lemma live_same id b fs fs' : same_files fs fs' -> live id b fs -> live id b fs'.
Proof. intros (_ & E2 & E3 & _). unfold live. by rewrite E2, E3. Qed.

Lemma only_in_same q fs fs' m : same_files fs fs' -> only_in q fs m -> only_in q fs' m.
Proof. intros (E1 & _). unfold only_in. by rewrite E1. Qed.

Lemma file_holds_same q m b fs fs' : same_files fs fs' -> file_holds q m b fs -> file_holds q m b fs'.
Proof. intros Hs [? ?]. split; [by eapply live_same|by eapply only_in_same]. Qed.

Lemma file_holds_survives q m b fs : file_holds q m b fs -> file_survives (m_ID m) (m_To m) b fs.
Proof.
  intros [Hl (Hq & Hm & Ho)]. split; [done|]. split; [exists q; by rewrite Hm|].
  intros q' e He. destruct (decide (q' = q)) as [->|Hne]; [|by rewrite Ho in He].
  exists m. split; [congruence|done].
Qed.

Lemma retrieve_in_survives qs id to b fs :
  healthy_store fs -> file_survives id to b fs ->
  (exists m, fst (retrieve_in qs id fs) = Ok m /\ m_ID m = id /\ m_To m = to) \/
  Forall (fun q => f_meta fs !! (q, id) = None) qs.
Proof.
  intros Hh (Hl & _ & Hall). induction qs as [|q qs IH]; [by right|]. cbn [retrieve_in].
  rewrite (attempt_run _ _ _ _ _ (readMessageAt_run fs q id Hh)).
  destruct (f_meta fs !! (q, id)) as [e|] eqn:Ee.
  - left. destruct (Hall q e Ee) as (m & -> & <- & <- & <-). rewrite decodeMessage_stored.
    unfold mbind, M_bind. rewrite suppressConsumed_run by (apply Hl || done). by exists m.
  - destruct IH as [IH|IH]; [by left|right]. by constructor.
Qed.

Lemma file_survives_readable id to b fs :
  file_survives id to b fs ->
  (exists m, fst (Retrieve id (settled fs)) = Ok m /\ m_ID m = id /\ m_To m = to) /\
  fst (RetrieveContent id (settled fs)) = Ok b.
Proof.
  intros Hs. assert (file_survives id to b (settled fs)) as Hs' by exact Hs.
  destruct Hs as ((Hid & _ & Hd) & [q [e Hq]] & _). split.
  - unfold Retrieve, mbind, M_bind, liftR. rewrite Hid.
    destruct (retrieve_in_survives queueTypes id to b (settled fs) eq_refl Hs') as [?|Hn]; [done|].
    rewrite Forall_forall in Hn. specialize (Hn q (all_queues q)).
    change (f_meta fs !! (q, id) = None) in Hn. congruence.
  - unfold RetrieveContent, mbind, M_bind, liftR, wrap. rewrite Hid, (read_data_run (settled fs) eq_refl).
    change (f_data (settled fs)) with (f_data fs). by rewrite Hd.
Qed.
(** What Retrieve returns is stored, whatever fails on the way. *)
Lemma readMessageAt_stored q id fs :
  wp (readMessageAt q id) (fun r fs' => same_files fs fs' /\
    forall m, r = Ok m -> m_ID m = id /\ m_QueueType m = q /\ f_meta fs !! (q, id) = Some (Some m)) fs.
Proof.
  unfold readMessageAt, read_meta. do 2 apply wp_bind. apply fault_wp; intros fs1 Hs; [|done].
  do 2 wp_step. pose proof Hs as (E & _). rewrite E. destruct (f_meta fs !! (q, id)) as [e|]; [|by split].
  wp_step. split; [done|]. cbn. intros m. unfold decodeMessage. destruct e as [m'|]; [|done].
  destruct (m_ID m' =? id)%string eqn:Ei; cbn; [|done]. case_bool_decide; [|done].
  intros [= <-]. split; [by apply String.eqb_eq|done].
Qed.

Lemma retrieve_in_stored qs id fs :
  wp (retrieve_in qs id) (fun r fs' =>
    forall m, r = Ok m -> f_meta fs !! (m_QueueType m, id) = Some (Some m)) fs.
Proof.
  revert fs. induction qs as [|q qs IH]; intros fs; cbn [retrieve_in]; [by wp_step|].
  do 2 wp_step. eapply wp_mono; [apply readMessageAt_stored|]. cbv beta.
  intros [m|e] fs1 [Hs Hr].
  - wp_step. eapply wp_kept; [apply suppressConsumed_same|]. intros [[]|] fs2 _; [wp_step|done].
    intros m' [= <-]. by destruct (Hr m eq_refl) as (_ & -> & ?).
  - wp_step; [|by wp_step]. eapply wp_mono; [apply IH|]. cbv beta.
    destruct Hs as (<- & _). auto.
Qed.

Lemma Retrieve_stored id fs :
  wp (Retrieve id) (fun r fs' =>
    forall m, r = Ok m -> f_meta fs !! (m_QueueType m, id) = Some (Some m)) fs.
Proof. unfold Retrieve. do 2 wp_step. destruct (validateMessageID id); [apply retrieve_in_stored|done]. Qed.

Lemma wp_and {S A} (m : M S A) (P Q : result A -> S -> Prop) s :
  wp m P s -> wp m Q s -> wp m (fun r s' => P r s' /\ Q r s') s.
Proof. by split. Qed.

Lemma file_Retrieve q m b fs :
  file_holds q m b fs ->
  wp (Retrieve (m_ID m)) (fun r fs' => file_holds q m b fs' /\ (forall m', r = Ok m' -> m' = m)) fs.
Proof.
  intros H. eapply wp_mono; [apply wp_and; [apply keeps_with, Retrieve_same|apply Retrieve_stored]|].
  cbv beta. intros r fs' [[Hs _] Hr]. split; [by eapply file_holds_same|].
  intros m' ->. specialize (Hr m' eq_refl). destruct H as [_ (Hq & Hm & Ho)].
  destruct (decide (m_QueueType m' = q)) as [E|Hne]; [|by rewrite Ho in Hr]. rewrite E, Hm in Hr. congruence.
Qed.

Lemma file_RetrieveContent q m b fs :
  file_holds q m b fs ->
  wp (RetrieveContent (m_ID m)) (fun r fs' => file_holds q m b fs' /\ (forall b', r = Ok b' -> b' = b)) fs.
Proof.
  intros H. unfold RetrieveContent. do 2 wp_step. pose proof H as [(Hid & _ & Hd) _]. rewrite Hid.
  apply wrap_wp. unfold read_data. wp_step. apply fault_wp; intros fs1 Hs;
    (assert (file_holds q m b fs1) as H1 by (by eapply file_holds_same)); [|done].
  do 2 wp_step. destruct Hs as (_ & E & _). rewrite E, Hd. wp_step. split; [done|]. congruence.
Qed.

Lemma file_Update q m m' b fs :
  file_holds q m b fs -> m_ID m' = m_ID m -> m_QueueType m' = q ->
  wp (Update_ m') (fun r fs' => file_holds q m' b fs' \/ (is_ok r = false /\ file_holds q m b fs')) fs.
Proof.
  intros H Hi Hq. unfold Update_. eapply wp_mono; [apply Store_wp|]. cbv beta.
  intros r fs' [[Hr Hs]|(E1 & E2 & E3 & E4)]; [right; split; [done|by eapply file_holds_same]|left].
  destruct H as [(Hid & Ht & Hd) (Hmq & Hm & Ho)]. unfold file_holds, live, only_in.
  rewrite E1, E2, E4, Hi, Hq. split; [done|]. split; [done|]. split; [by rewrite lookup_insert_eq|].
  intros q' Hq'. rewrite lookup_insert_ne by congruence. by apply Ho.
Qed.

Lemma file_Move q m b to fs :
  file_holds q m b fs -> to <> q ->
  wp (Move (m_ID m) q to) (fun r fs' =>
    if is_ok r then file_holds to (m <| m_QueueType := to |>) b fs'
    else file_holds q m b fs' \/ file_survives (m_ID m) (m_To m) b fs') fs.
Proof.
  intros [(Hid & Ht & Hd) (Hmq & Hm & Ho)] Hto. subst q. eapply wp_mono; [by apply Move_moving|]. cbv beta.
  intros r fs' (Ed & Et & [[Hr Em]|[Hr Em]]); rewrite Hr.
  - split; [unfold live; by rewrite Ed, Et|]. split; [done|]. rewrite Em. split.
    + rewrite lookup_delete_ne by (cbn; congruence). by rewrite lookup_insert_eq.
    + intros q' Hq'. destruct (decide (q' = m_QueueType m)) as [->|Hne]; [apply lookup_delete_eq|].
      rewrite lookup_delete_ne by (cbn; congruence). rewrite lookup_insert_ne by (cbn; congruence). by apply Ho.
  - assert (live (m_ID m) b fs') as Hl by (unfold live; by rewrite Ed, Et).
    destruct Em as [Em|Em].
    + left. split; [done|]. unfold only_in. by rewrite Em.
    + right. split; [done|]. rewrite Em. split; [exists to; by rewrite lookup_insert_eq|].
      intros q' e He. destruct (decide (q' = to)) as [->|Hne].
      * rewrite lookup_insert_eq in He. injection He as <-. eexists. by repeat split.
      * rewrite lookup_insert_ne in He by congruence. exists m.
        destruct (decide (q' = m_QueueType m)) as [->|Hne']; [|by rewrite Ho in He].
        split; [congruence|done].
Qed.

Lemma file_remove q m b fs :
  file_holds q m b fs ->
  wp (DeleteMessageWithTombstone now m b) (fun r fs' =>
    file_consumed (m_ID m) fs' \/ (is_ok r = false /\ file_holds q m b fs')) fs.
Proof.
  intros H. pose proof H as [(Hid & Ht & Hd) (Hmq & Hm & Ho)].
  eapply wp_mono; [by apply (DeleteMessageWithTombstone_wp now m b q fs Hid)|]. cbv beta.
  intros r fs' [[Hr Hs]|[(Et & _ & _) _]]; [right; split; [done|by eapply file_holds_same]|left].
  do 2 eexists. rewrite Et. apply lookup_insert_eq.
Qed.

#[global] Program Instance FileBackendLaws : BackendLaws Files := {|
  holds := file_holds; survives := file_survives; consumed := file_consumed; settle := settled
|}.
Next Obligation. intros q m b fs [_ (? & _)]. done. Qed.
Next Obligation. apply file_holds_survives. Qed.
Next Obligation. apply file_survives_readable. Qed.
Next Obligation. intros id fs (t & z & Ht). by eapply Retrieve_marked. Qed.
Next Obligation. apply file_Retrieve. Qed.
Next Obligation. apply file_RetrieveContent. Qed.
Next Obligation. apply file_Update. Qed.
Next Obligation. apply file_Move. Qed.
Next Obligation. apply file_remove. Qed.
End FileBackend.

(** ** Manager operations on a message that is held *)

Section Held.
Context `{U : UnicodeTables} {S : Type} `{BL : BackendLaws S}.
Variables (now : Z) (jitter : Z -> Z).

Lemma on_store_wp {A} (m : M S A) (Q : result A -> Manager S -> Prop) mg :
  wp m (fun r s => Q r (mg <| mg_store := s |>)) (mg_store mg) -> wp (on_store m) Q mg.
Proof. unfold wp, on_store. by destruct (m (mg_store mg)). Qed.

Lemma werr_wp {A} p (m : M S A) (Q : result A -> Manager S -> Prop) mg :
  wp m (fun r s => Q (match r with Ok a => Ok a | Err e => Err (p +:+ e) end) (mg <| mg_store := s |>))
     (mg_store mg) ->
  wp (werr p m) Q mg.
Proof. unfold wp, werr, on_store. by destruct (m (mg_store mg)) as [[] ?]. Qed.

(** The part of a message that attempts, moves and timestamps leave alone. *)
Definition same_envelope (m m' : Message) : Prop :=
  m_ID m' = m_ID m /\ m_From m' = m_From m /\ m_To m' = m_To m /\ m_QueueType m' = m_QueueType m /\
  m_RetryCount m' = m_RetryCount m /\ m_Annotations m' = m_Annotations m.

#[global] Instance same_envelope_equiv : PreOrder same_envelope.
Proof. split; [by repeat split|]. unfold same_envelope. intros x y z. intuition congruence. Qed.

Lemma AddAttempt_held q m b res e mg :
  holds q m b (mg_store mg) ->
  wp (AddAttempt now (m_ID m) res e) (fun r mg' => mg_retrySchedule mg' = mg_retrySchedule mg /\
    exists m', same_envelope m m' /\ holds q m' b (mg_store mg')) mg.
Proof.
  intros H. unfold AddAttempt. wp_step. apply on_store_wp. eapply wp_mono; [by apply law_Retrieve|].
  cbv beta. intros [m'|er] s1 [H1 Hr]; [rewrite (Hr m' eq_refl)|by split; [|exists m]].
  apply on_store_wp. cbv zeta. set (m1 := if (e =? "")%string then _ else _).
  assert (same_envelope m m1) as Hsame by (unfold m1; by destruct (e =? "")%string).
  eapply wp_mono; [apply (law_Update q m m1 b); [done|apply Hsame|]|].
  - destruct Hsame as (_ & _ & _ & -> & _). by eapply holds_queue.
  - cbv beta. intros r s2 [H2|[_ H2]]; (split; [done|]); [by exists m1|by exists m].
Qed.

Lemma DeleteMessage_consumes q m b mg :
  holds q m b (mg_store mg) ->
  wp (DeleteMessage now (m_ID m)) (fun r mg' => mg_retrySchedule mg' = mg_retrySchedule mg /\
    (consumed (m_ID m) (mg_store mg') \/ (is_ok r = false /\ holds q m b (mg_store mg')))) mg.
Proof.
  intros H. unfold DeleteMessage. wp_step. apply werr_wp. eapply wp_mono; [by apply law_Retrieve|].
  cbv beta. intros [m'|er] s1 [H1 Hr]; [rewrite (Hr m' eq_refl)|by auto].
  wp_step. apply werr_wp. eapply wp_mono; [by apply law_RetrieveContent|].
  cbv beta. intros [b'|er] s2 [H2 Hr2]; [rewrite (Hr2 b' eq_refl)|by auto].
  wp_step. set (mg2 := mg <| mg_store := _ |> <| mg_store := _ |>).
  assert (forall s, wp (remove_stored m b) (fun r s' =>
            consumed (m_ID m) s' \/ (is_ok r = false /\ holds q m b s')) s ->
          wp (consume m b) (fun r mg' => mg_retrySchedule mg' = mg_retrySchedule mg /\
            (consumed (m_ID m) (mg_store mg') \/ (is_ok r = false /\ holds q m b (mg_store mg')))) (mg2 <| mg_store := s |>)) as Hc.
  { intros s Hs. unfold consume, remove_stored in *. destruct sb_DeleteMessageWithTombstone as [f|].
    - apply werr_wp. eapply wp_mono; [exact Hs|]. cbv beta. intros [] s' Hs'; by split.
    - assert (forall s1, wp (sb_Delete (m_ID m) ≫= fun _ => attempt (sb_DeleteContent (m_ID m)) ≫= fun _ => mret tt)
                (fun r s' => consumed (m_ID m) s' \/ (is_ok r = false /\ holds q m b s')) s1 ->
              wp (werr "failed to delete message: " (sb_Delete (m_ID m)) ≫= fun _ =>
                  attempt (on_store (sb_DeleteContent (m_ID m))) ≫= fun _ => mret tt)
                (fun r mg' => mg_retrySchedule mg' = mg_retrySchedule mg /\
                  (consumed (m_ID m) (mg_store mg') \/ (is_ok r = false /\ holds q m b (mg_store mg'))))
                (mg2 <| mg_store := s1 |>)) as Hd.
      { intros s1' Hs1. unfold wp, mbind, M_bind, werr, on_store, attempt in *. cbn in *.
        destruct (sb_Delete (m_ID m) s1') as [[[]|e] s3]; cbn in *; [|done].
        by destruct (sb_DeleteContent (m_ID m) s3) as [r4 s4]. }
      destruct sb_RecordEnqueueTombstone as [f|]; [|exact (Hd s Hs)].
      wp_step. apply werr_wp. eapply wp_mono; [exact (wp_bind_inv _ _ _ _ Hs)|]. cbv beta.
      intros [[]|e] s3 H3; [exact (Hd s3 H3)|by split]. }
  specialize (Hc s2 (law_remove q m b s2 H2)). eapply wp_mono; [exact Hc|]. cbv beta.
  intros [[]|e] mg3 Hm; [|exact Hm]. unfold upd_stats. wp_step.
  destruct Hm as [? [?|[? _]]]; [by split; [|left]|done].
Qed.

Lemma moved_message_envelope sched target reason m :
  m_ID (moved_message now jitter sched target reason m) = m_ID m /\
  m_To (moved_message now jitter sched target reason m) = m_To m /\
  m_QueueType (moved_message now jitter sched target reason m) = target.
Proof. unfold moved_message. cbv zeta. destruct (reason =? "")%string, target; done. Qed.

Lemma MoveMessage_survives q m b target reason mg :
  holds q m b (mg_store mg) -> target <> q ->
  wp (MoveMessage now jitter (m_ID m) target reason) (fun r mg' =>
    survives (m_ID m) (m_To m) b (mg_store mg') /\
    (is_ok r = true ->
       holds target (moved_message now jitter (mg_retrySchedule mg) target reason m) b (mg_store mg'))) mg.
Proof.
  intros H Ht. pose proof (holds_survives _ _ _ _ H) as Hs. unfold MoveMessage.
  wp_step. apply werr_wp. eapply wp_mono; [by apply law_Retrieve|]. cbv beta.
  intros [m'|er] s1 [H1 Hr]; [rewrite (Hr m' eq_refl)|split; [exact (holds_survives _ _ _ _ H1)|done]].
  do 2 wp_step. wp_step. apply werr_wp. rewrite (holds_queue _ _ _ _ H).
  eapply wp_mono; [by apply (law_Move q m b target)|]. cbv beta.
  intros [[]|er] s2; cbn [is_ok]; [intros H2|intros [H2|H2]; (split; [|done]); [exact (holds_survives _ _ _ _ H2)|exact H2]].
  wp_step. apply werr_wp. cbn [mg_retrySchedule].
  destruct (moved_message_envelope (mg_retrySchedule mg) target reason m) as (Ei & Et & Eq).
  set (m1 := moved_message _ _ _ _ _ _) in *.
  eapply wp_mono; [exact (law_Update target (m <| m_QueueType := target |>) m1 b _ H2 Ei Eq)|]. cbv beta.
  intros [[]|er] s3 [H3|[Hno H3]]; try done.
  - unfold upd_stats. wp_step. split; [|done]. apply holds_survives in H3. by rewrite Ei, Et in H3.
  - split; [|done]. apply holds_survives in H3. by rewrite Ei, Et in H3.
  - split; [|done]. exact (holds_survives _ _ _ _ H3).
Qed.
End Held.
