(* ===== verification/QueueProcessor.v ===== *)
(** * The queue processor (internal/queue: processor.go)

    What happens to a queued message when its turn comes: delivery, the outcome of every
    recipient, delivery status notifications, retries and failure.  The delivery handler
    and the bounce engine answer what they like ([round]); the calls made to the bounce
    engine and to the suppression list are kept in the state.  Log and metrics calls
    have no counterpart. *)

From stdpp Require Import pretty.
From S2P Require Import Prelude GoStrings CommandSecurity QueueStorage QueueManager.

Open Scope string_scope.
Open Scope list_scope.
Open Scope Z_scope.

(** ** Delivery results *)

(** The sentinels and types the delivery code looks for with [errors.Is] and
    [errors.As]. *)
Inductive error_mark :=
  | errRefusedDestination
  | ErrDestinationBackingOff
  | ErrPoolAtCapacity
  | daneError_mark
  | dnsNotFound.              (** a *net.DNSError with [IsNotFound] *)

#[global] Instance error_mark_eq_dec : EqDecision error_mark.
Proof. solve_decision. Defined.

Set Primitive Projections.
(** A delivery error: its text, and what [errors.As] finds in its chain. *)
Record delivery_error := mkDErr {
  de_text : string;
  de_permanent : bool;        (** a [Permanent] method that says so *)
  de_temporary : bool;        (** a [Temporary] method that says so *)
  de_network : bool;          (** a net.Error, *net.OpError or *net.DNSError *)
  de_reply : option Z;        (** the code of a *textproto.Error *)
  de_msg : string;            (** and its message *)
  de_marks : list error_mark;
  de_judged : bool            (** has a [Permanent] method, whatever it says *)
}.

Unset Primitive Projections.

Definition plain_error (text : string) : delivery_error :=
  mkDErr text false false false None "" [] false.

Inductive RecipientDeliveryStatus :=
  | RecipientDelivered
  | RecipientTemporaryFailure
  | RecipientPermanentFailure
  | RecipientStatusOther (s : string).

#[global] Instance RecipientDeliveryStatus_eq_dec : EqDecision RecipientDeliveryStatus.
Proof. solve_decision. Defined.

Record RecipientOutcome := mkOutcome {
  ro_Recipient : string;
  ro_Status : RecipientDeliveryStatus;
  ro_EnhancedStatusCode : string;
  ro_Diagnostic : string;
  ro_Route : string;
  ro_SourceIP : string;
  ro_Pool : string;
  ro_Provider : string;
  ro_Throttled : bool
}.

(** An outcome that says nothing about the way it went. *)
Definition outcome (r : string) (st : RecipientDeliveryStatus) (enhanced diagnostic : string) :
    RecipientOutcome := mkOutcome r st enhanced diagnostic "" "" "" "" false.

#[global] Instance RecipientOutcome_eq_dec : EqDecision RecipientOutcome.
Proof. solve_decision. Defined.

Set Primitive Projections.
Record DeliveryResult := mkResult {
  dr_Success : bool;
  dr_Error : option delivery_error;
  dr_DeliveryIP : string;
  dr_DeliveryHost : string;
  dr_DeliveryTime : Z;
  dr_ResponseMessage : string;
  dr_RecipientOutcomes : list RecipientOutcome;
  dr_DeliveryMethod : string
}.
Unset Primitive Projections.

Definition count_in (r : string) (l : list string) : nat := length (filter (fun x => x = r) l).

Definition known_status (s : RecipientDeliveryStatus) : bool :=
  match s with RecipientStatusOther _ => false | _ => true end.

(** The reported outcomes by recipient, no more of them than the envelope has. *)
Fixpoint by_recipient (to : list string) (outs : list RecipientOutcome)
    (by_ : gmap string (list RecipientOutcome)) : gmap string (list RecipientOutcome) :=
  match outs with
  | [] => by_
  | o :: outs' =>
      let r := ro_Recipient o in
      let seen := default [] (by_ !! r) in
      by_recipient to outs'
        (if ((r =? "")%string || (count_in r to =? 0)%nat || (count_in r to <=? length seen)%nat)%bool
         then by_
         else if known_status (ro_Status o) then <[r := seen ++ [o]]> by_ else by_)
  end.

Definition missing_outcome (r : string) : RecipientOutcome :=
  mkOutcome r RecipientTemporaryFailure "" "" "" "" "" "" false.

(** One outcome per recipient, in envelope order. *)
Fixpoint assign_outcomes (to : list string) (by_ : gmap string (list RecipientOutcome))
    : list RecipientOutcome :=
  match to with
  | [] => []
  | r :: to' =>
      match default [] (by_ !! r) with
      | o :: os => o :: assign_outcomes to' (<[r := os]> by_)
      | [] => missing_outcome r :: assign_outcomes to' by_
      end
  end.

Definition normalizeDeliveryResult (msg : Message) (res : option DeliveryResult)
    (deliveryErr : option delivery_error) : DeliveryResult * option delivery_error :=
  let res := default (mkResult false None "" "" 0 "" [] "") res in
  let deliveryErr := match deliveryErr with None => dr_Error res | e => e end in
  let deliveryErr :=
    match deliveryErr with
    | None => if dr_Success res then None
              else Some (plain_error "delivery handler returned an unsuccessful result without an error")
    | e => e
    end in
  let outs := assign_outcomes (m_To msg) (by_recipient (m_To msg) (dr_RecipientOutcomes res) ∅) in
  (res <| dr_RecipientOutcomes := outs |> <| dr_Error := deliveryErr |>, deliveryErr).

Definition permanent_codes : list string := ["550"; "551"; "552"; "553"; "554"].

Definition tempPatterns : list string :=
  ["450"; "451"; "452"; "421"; "454"; "temporary"; "try again"; "busy"; "throttled"; "rate limit";
   "timeout"; "timed out"; "connection refused"; "connection reset"; "broken pipe"; "eof";
   "no route to host"; "network is unreachable"; "network error"; "no such host"; "dns"; "greylist";
   "insufficient system storage"; "mailbox unavailable"; "local error"; "service not available";
   "i/o timeout"].

Definition isTemporaryFailure `{U : UnicodeTables} (err : option delivery_error) : bool :=
  match err with
  | None => false
  | Some e =>
      if de_permanent e then false
      else if de_temporary e then true
      else if de_network e then true
      else match de_reply e with
           | Some code => ((400 <=? code) && (code <? 500))%bool
           | None =>
               if existsb (fun c => Contains (de_text e) (c +:+ " ") || HasPrefix (de_text e) c)%bool
                    permanent_codes then false
               else if existsb (Contains (ToLower (de_text e))) tempPatterns then true
               else true
           end
  end.

(** ** Delivery status notifications *)

Record BounceResult := mkBounceResult { br_Generated : bool; br_ID : string; br_Error : option string }.

(** BounceEngine, with the idempotent entry point it may have. *)
Record BounceEngine := mkBounceEngine {
  GenerateBounceIfNeeded : Message -> string -> option BounceResult;
  GenerateBounceIdempotent : option (Message -> string -> string -> option BounceResult)
}.

Definition bounced_ok (r : option BounceResult) : bool :=
  match r with Some b => match br_Error b with None => true | _ => false end | None => false end.

Record dsnRecipient := mkDsn { dsn_Occurrence : string; dsn_Address : string; dsn_Diagnostic : string }.

#[global] Instance dsnRecipient_eq_dec : EqDecision dsnRecipient.
Proof. solve_decision. Defined.

Set Primitive Projections.
Record dsnHandoff := mkHandoff {
  ho_ID : string;
  ho_State : string;
  ho_Permanent : list dsnRecipient;
  ho_Temporary : list dsnRecipient;
  ho_Delivered : list dsnRecipient
}.
Unset Primitive Projections.

(** encoding/json on the two values the processor stores in annotations; decoding a
    list ignores the error, and leaves what was decoded. *)
Class Json := {
  encode_handoff : dsnHandoff -> string;
  decode_handoff : string -> option dsnHandoff;
  encode_ids : list string -> string;
  decode_ids : string -> list string
}.

Definition dsnHandoffAnnotation : string := "recipient_dsn_handoff_v2".
Definition recipientOccurrencesAnnotation : string := "recipient_occurrences_v1".

Definition annotation (msg : Message) (key : string) : string := default "" (m_Annotations msg !! key).

Definition recipientOccurrences `{J : Json} (msg : Message) : list string :=
  let ids := decode_ids (annotation msg recipientOccurrencesAnnotation) in
  if (length ids =? length (m_To msg))%nat then ids
  else imap (fun i _ => m_ID msg +:+ ":" +:+ pretty i) (m_To msg).

Definition nul_sep : string := String (chr 0) "".

Definition occurrenceList (l : list dsnRecipient) : string := Join (dsn_Occurrence <$> l) nul_sep.

Definition notifyNeverForOccurrence `{U : UnicodeTables} (ann : gmap string string) (r : dsnRecipient) : bool :=
  let value := match ann !! ("dsn_notify_occurrence:" +:+ dsn_Occurrence r) with
               | Some v => v
               | None => default "" (ann !! ("dsn_notify:" +:+ dsn_Address r))
               end in
  existsb (fun t => EqualFold (TrimSpace t) "NEVER") (Split value ","%char).

Definition dsn_annotation_kept (rs : list dsnRecipient) (key : string) : bool :=
  let allowed a := existsb (fun r => (dsn_Address r =? a)%string) rs in
  if HasPrefix key "dsn_notify:" then allowed (TrimPrefix key "dsn_notify:")
  else if HasPrefix key "dsn_orcpt:" then allowed (TrimPrefix key "dsn_orcpt:")
  else true.

Definition dsnAnnotationsForRecipients (ann : gmap string string) (rs : list dsnRecipient)
    : gmap string string :=
  filter (fun '(key, _) => dsn_annotation_kept rs key = true) ann.

Definition handoffID `{DG : Digest} (msg : Message) (permanent : list dsnRecipient) : string :=
  "dsn-" +:+ stake 32 (sha256_hex (m_ID msg +:+ nul_sep +:+ occurrenceList permanent)).

(** The loop of validateDSNHandoff over the three sets. *)
Fixpoint handoff_bound (expected : gmap string string) (seen : gset string) (l : list dsnRecipient)
    : result (gset string) :=
  match l with
  | [] => Ok seen
  | r :: l' =>
      if ((TrimSpace (dsn_Occurrence r) =? "")%string || (TrimSpace (dsn_Address r) =? "")%string
          || bool_decide (dsn_Occurrence r ∈ seen))%bool
      then Err "malformed or duplicate recipient occurrence"
      else if bool_decide (expected !! dsn_Occurrence r = Some (dsn_Address r))
      then handoff_bound expected ({[dsn_Occurrence r]} ∪ seen) l'
      else Err "recipient occurrence is not bound to current envelope"
  end.

Definition expected_occurrences `{J : Json} (msg : Message) : gmap string string :=
  foldl (fun m '(id, a) => <[id := a]> m) ∅ (zip (recipientOccurrences msg) (m_To msg)).

Definition validateDSNHandoff `{J : Json} `{DG : Digest} (msg : Message) (h : dsnHandoff) : result unit :=
  if (TrimSpace (ho_ID h) =? "")%string then Err "missing handoff ID"
  else if (negb (ho_State h =? "pending")%string && negb (ho_State h =? "complete")%string)%bool
  then Err "unknown handoff state"
  else match ho_Permanent h with
       | [] => Err "empty permanent occurrence set"
       | _ =>
           let expected := expected_occurrences msg in
           seen ← handoff_bound expected ∅ (ho_Permanent h ++ ho_Temporary h ++ ho_Delivered h);
           if negb (size seen =? size expected)%nat
           then Err "handoff sets do not partition current envelope"
           else if negb (ho_ID h =? handoffID msg (ho_Permanent h))%string
           then Err "handoff ID does not match permanent occurrence set"
           else Ok tt
       end.

(** ** The processor *)

Record bounce_call := mkBounce {
  bc_msg : Message; bc_reason : string; bc_id : option string; bc_result : option BounceResult
}.

Set Primitive Projections.
Record Processor (S : Type) := mkProcessor {
  pr_manager : Manager S;
  pr_processed : Z;
  pr_delivered : Z;
  pr_failed : Z;
  pr_retries : Z;
  pr_processing : gset string;
  pr_claims : claims;
  pr_bounces : list bounce_call;                      (** calls to the bounce engine *)
  pr_suppressed : list (string * string * string);    (** calls to RecordFailure *)
  pr_feedback : list string                           (** calls to RecordFeedbackReport *)
}.
Unset Primitive Projections.
Arguments mkProcessor {S}.
Arguments pr_manager {S}.
Arguments pr_processed {S}.
Arguments pr_delivered {S}.
Arguments pr_failed {S}.
Arguments pr_retries {S}.
Arguments pr_processing {S}.
Arguments pr_claims {S}.
Arguments pr_bounces {S}.
Arguments pr_suppressed {S}.
Arguments pr_feedback {S}.

(** One round: the clock, the configuration, and what the outside answers in it. *)
Record round := mkRound {
  rd_now : Z;
  rd_jitter : Z -> Z;
  rd_MaxRetries : Z;
  rd_retentionHours : Z;                              (** GetFailedQueueRetentionHours *)
  rd_workerID : string;
  rd_deliver : Message -> string -> option DeliveryResult * option delivery_error;
  rd_bounceEngine : option BounceEngine;
  rd_suppressor : bool;                               (** one is attached *)
  rd_feedbackRecorder : bool;                         (** and it reads feedback reports *)
  rd_feedbackAddresses : list string
}.

(** The recipients of one delivery by what became of them. *)
Record sorted_outcomes := mkSorted {
  so_delivered : list string;
  so_deliveredR : list dsnRecipient;
  so_temporary : list dsnRecipient;
  so_permanent : list dsnRecipient;
  so_first : option RecipientOutcome
}.

Definition no_outcomes : sorted_outcomes := mkSorted [] [] [] [] None.

Definition sort_outcome `{U : UnicodeTables} (ann : gmap string string) (acc : sorted_outcomes)
    (p : string * RecipientOutcome) : sorted_outcomes :=
  let '(occ, o) := p in
  let '(mkSorted d dR tR pR f) := acc in
  let r := mkDsn occ (ro_Recipient o) (ro_Diagnostic o) in
  match ro_Status o with
  | RecipientDelivered => mkSorted (d ++ [ro_Recipient o]) (dR ++ [r]) tR pR f
  | RecipientTemporaryFailure => mkSorted d dR (tR ++ [r]) pR f
  | RecipientPermanentFailure =>
      if notifyNeverForOccurrence ann r then mkSorted d (dR ++ [r]) tR pR f
      else mkSorted d dR tR (pR ++ [r]) (match f with None => Some o | _ => f end)
  | RecipientStatusOther _ => acc
  end.

Definition sort_outcomes `{U : UnicodeTables} (ann : gmap string string) (occ : list string)
    (outs : list RecipientOutcome) : sorted_outcomes :=
  foldl (sort_outcome ann) no_outcomes (zip occ outs).

Definition null_sender (from : string) : bool :=
  ((TrimSpace from =? "")%string || (TrimSpace from =? "<>")%string)%bool.

Definition strip_address `{U : UnicodeTables} (a : string) : string := ToLower (Trim (TrimSpace a) "<>").

Section Processor.
Context `{U : UnicodeTables} `{J : Json} `{DG : Digest} {S : Type} `{SB : StorageBackend S}.
Variable rd : round.

Abbreviation P := (M (Processor S)).

Definition on_manager {A} (m : M (Manager S) A) : P A :=
  fun p => let '(r, mg) := m (pr_manager p) in (r, p <| pr_manager := mg |>).

(** Errors that are only logged. *)
Definition logged {A} (m : P A) : P unit := attempt m ≫= fun _ => mret tt.

Definition store_update (msg : Message) : P unit := on_manager (on_store (sb_Update msg)).

Definition bounce_if_needed (be : BounceEngine) (msg : Message) (reason : string) : P (option BounceResult) :=
  let r := GenerateBounceIfNeeded be msg reason in
  modify (fun p => p <| pr_bounces ::= fun l => l ++ [mkBounce msg reason None r] |>) ≫= fun _ => mret r.

Definition generateBounce (be : BounceEngine) (msg : Message) (reason id : string) : P (option BounceResult) :=
  match GenerateBounceIdempotent be with
  | Some f =>
      let r := f msg reason id in
      modify (fun p => p <| pr_bounces ::= fun l => l ++ [mkBounce msg reason (Some id) r] |>) ≫= fun _ =>
      mret r
  | None => bounce_if_needed be msg reason
  end.

(** *** Ends *)

Definition moveToFailed (msg : Message) (reason : string) : P unit :=
  modify (fun p => p <| pr_failed ::= Z.add 1 |>) ≫= fun _ =>
  (match rd_bounceEngine rd with
   | Some be => bounce_if_needed be msg reason ≫= fun _ => mret tt
   | None => mret tt
   end) ≫= fun _ =>
  if rd_retentionHours rd =? 0 then logged (on_manager (DeleteMessage (rd_now rd) (m_ID msg)))
  else logged (on_manager (MoveMessage (rd_now rd) (rd_jitter rd) (m_ID msg) Failed reason)).

Definition handleDeliverySuccess (msg : Message) : P unit :=
  modify (fun p => p <| pr_delivered ::= Z.add 1 |>) ≫= fun _ =>
  logged (on_manager (AddAttempt (rd_now rd) (m_ID msg) "delivered" "")) ≫= fun _ =>
  logged (on_manager (DeleteMessage (rd_now rd) (m_ID msg))).

Definition handleDeliveryFailure (msg : Message) (err : delivery_error) : P unit :=
  let isTemporary := isTemporaryFailure (Some err) in
  modify (fun p => p <| pr_retries ::= Z.add 1 |>) ≫= fun _ =>
  logged (on_manager (AddAttempt (rd_now rd) (m_ID msg) "failed" (de_text err))) ≫= fun _ =>
  if negb isTemporary then moveToFailed msg ("Permanent failure: " +:+ de_text err)
  else if rd_MaxRetries rd <=? m_RetryCount msg then moveToFailed msg ("Max retries exceeded: " +:+ de_text err)
  else logged (on_manager (MoveMessage (rd_now rd) (rd_jitter rd) (m_ID msg) Deferred (de_text err))).

Definition observePartial (msg : Message) (delivered : list string) (temporary permanent : nat) : P unit :=
  match delivered with
  | [] => mret tt
  | _ => logged (on_manager (AddAttempt (rd_now rd) (m_ID msg) "partial"
           ("delivered=" +:+ pretty (length delivered) +:+ " temporary=" +:+ pretty temporary
            +:+ " permanent=" +:+ pretty permanent)))
  end.

Definition finalizeNoTemporary (msg : Message) (permanent : nat) : P unit :=
  modify (fun p => match permanent with
                   | O => p <| pr_delivered ::= Z.add 1 |>
                   | _ => p <| pr_failed ::= Z.add 1 |>
                   end) ≫= fun _ =>
  logged (on_manager (DeleteMessage (rd_now rd) (m_ID msg))).

(** *** Suppression and feedback *)

(** recordSuppressions: the last outcome of an address counts. *)
Definition recordSuppressions (permanent : list dsnRecipient) (outs : list RecipientOutcome) : P unit :=
  if negb (rd_suppressor rd) then mret tt
  else modify (fun p => p <| pr_suppressed ::= fun l => l ++
    ((fun r => let o := foldl (fun acc o => if (ro_Recipient o =? dsn_Address r)%string then o else acc)
                          (outcome "" (RecipientStatusOther "") "" "") outs in
               (dsn_Address r, ro_EnhancedStatusCode o,
                if (dsn_Diagnostic r =? "")%string then ro_Diagnostic o else dsn_Diagnostic r)) <$> permanent) |>).

Definition offerFeedbackReport (msg : Message) (content : string) : P unit :=
  if (bool_decide (rd_feedbackAddresses rd = []) || (0 <? m_RetryCount msg) || negb (rd_feedbackRecorder rd))%bool
  then mret tt
  else if existsb (fun a => existsb (String.eqb (strip_address a)) (rd_feedbackAddresses rd)) (m_To msg)
  then modify (fun p => p <| pr_feedback ::= fun l => l ++ [content] |>)
  else mret tt.

(** *** Recipient outcomes *)

(** The recipients left for a retry, with the keys they keep. *)
Definition reduced (msg : Message) (temporary : list dsnRecipient) : Message :=
  msg <| m_To := dsn_Address <$> temporary |>
      <| m_Annotations ::= fun ann =>
           delete dsnHandoffAnnotation
             (<[recipientOccurrencesAnnotation := encode_ids (dsn_Occurrence <$> temporary)]> ann) |>.

Definition annotated (msg : Message) (h : dsnHandoff) : Message :=
  msg <| m_Annotations ::= <[dsnHandoffAnnotation := encode_handoff h]> |>.

(** What the notification is about: the permanently failed recipients. *)
Definition failed_part (msg : Message) (permanent : list dsnRecipient) : Message :=
  msg <| m_To := dsn_Address <$> permanent |>
      <| m_Annotations := dsnAnnotationsForRecipients (m_Annotations msg) permanent |>.

Definition bounce_reason (first : option RecipientOutcome) (err : option delivery_error) : string :=
  let fallback := match err with Some e => de_text e | None => "permanent recipient delivery failure" end in
  match first with
  | Some o => if negb (ro_Diagnostic o =? "")%string then ro_Diagnostic o
              else if negb (ro_EnhancedStatusCode o =? "")%string then ro_EnhancedStatusCode o
              else fallback
  | None => fallback
  end.

(** Intent, notification, completion mark: [None] is an early return. *)
Definition hand_off (msg : Message) (be : BounceEngine) (so : sorted_outcomes) (err : option delivery_error)
    : P (option Message) :=
  let permanent := so_permanent so in
  let h := mkHandoff (handoffID msg permanent) "pending" permanent (so_temporary so) (so_deliveredR so) in
  r ← attempt (store_update (annotated msg h));
  match r with
  | Err _ => mret None
  | Ok _ =>
      b ← generateBounce be (failed_part msg permanent) (bounce_reason (so_first so) err) (ho_ID h);
      if negb (bounced_ok b) then mret None
      else
        let msg := annotated msg (h <| ho_State := "complete" |>) in
        r ← attempt (store_update msg);
        mret (match r with Err _ => None | Ok _ => Some msg end)
  end.

(** The end of handleRecipientOutcomes: nobody left to retry, or the envelope reduced. *)
Definition finish_outcomes (msg : Message) (so : sorted_outcomes) (err : option delivery_error) : P unit :=
  let temporary := so_temporary so in
  let permanent := so_permanent so in
  match temporary with
  | [] =>
      observePartial msg (so_delivered so) 0 (length permanent) ≫= fun _ =>
      finalizeNoTemporary msg (length permanent)
  | _ =>
      let msg := (reduced msg temporary) <| m_UpdatedAt := rd_now rd |> in
      r ← attempt (store_update msg);
      match r with
      | Err _ => mret tt
      | Ok _ =>
          observePartial msg (so_delivered so) (length temporary) (length permanent) ≫= fun _ =>
          handleDeliveryFailure msg (default (plain_error "temporary recipient delivery failure") err)
      end
  end.

Definition handleRecipientOutcomes (msg : Message) (res : DeliveryResult) (err : option delivery_error)
    : P unit :=
  let so := sort_outcomes (m_Annotations msg) (recipientOccurrences msg) (dr_RecipientOutcomes res) in
  if bool_decide (so_temporary so = [] /\ so_permanent so = []) then handleDeliverySuccess msg
  else
    recordSuppressions (so_permanent so) (dr_RecipientOutcomes res) ≫= fun _ =>
    next ← (if (bool_decide (so_permanent so = []) || null_sender (m_From msg))%bool then mret (Some msg)
            else match rd_bounceEngine rd with
                 | Some be => hand_off msg be so err
                 | None => mret (Some msg)
                 end);
    match next with
    | None => mret tt
    | Some msg => finish_outcomes msg so err
    end.

(** *** Resuming *)

Definition quarantineInvalidDSNHandoff (msg : Message) (e : string) : P unit :=
  logged (on_manager (MoveMessage (rd_now rd) (rd_jitter rd) (m_ID msg) Hold ("invalid DSN handoff: " +:+ e))).

(** The pending notification, again; [None] is an early return. *)
Definition resume_bounce (msg : Message) (be : BounceEngine) (h : dsnHandoff) : P (option Message) :=
  let reason := match ho_Permanent h with
                | r :: _ => if negb (dsn_Diagnostic r =? "")%string then dsn_Diagnostic r
                            else "permanent recipient delivery failure"
                | [] => "permanent recipient delivery failure"
                end in
  b ← generateBounce be (failed_part msg (ho_Permanent h)) reason (ho_ID h);
  if negb (bounced_ok b) then mret None
  else
    let msg := annotated msg (h <| ho_State := "complete" |>) in
    r ← attempt (store_update msg);
    mret (match r with Err _ => None | Ok _ => Some msg end).

(** resumeDSNHandoff; the result says whether there was one.  Without a bounce engine
    resuming a pending handoff is a nil dereference in the source. *)
Definition resumeDSNHandoff (msg : Message) : P bool :=
  let text := annotation msg dsnHandoffAnnotation in
  if (text =? "")%string then mret false
  else
    match decode_handoff text with
    | None => quarantineInvalidDSNHandoff msg "invalid JSON" ≫= fun _ => mret true
    | Some h =>
        match validateDSNHandoff msg h with
        | Err e => quarantineInvalidDSNHandoff msg e ≫= fun _ => mret true
        | Ok _ =>
            next ← (if (ho_State h =? "pending")%string
                    then match rd_bounceEngine rd with
                         | Some be => resume_bounce msg be h
                         | None => fail "nil pointer dereference"
                         end
                    else mret (Some msg));
            match next with
            | None => mret true
            | Some msg =>
                observePartial msg (dsn_Address <$> ho_Delivered h) (length (ho_Temporary h))
                  (length (ho_Permanent h)) ≫= fun _ =>
                match ho_Temporary h with
                | [] => finalizeNoTemporary msg (length (ho_Permanent h)) ≫= fun _ => mret true
                | _ =>
                    let msg := reduced msg (ho_Temporary h) in
                    r ← attempt (store_update msg);
                    match r with
                    | Err _ => mret true
                    | Ok _ => handleDeliveryFailure msg (plain_error "temporary recipient delivery failure")
                              ≫= fun _ => mret true
                    end
                end
            end
        end
    end.

(** *** One message *)

Definition process_body (msg : Message) : P unit :=
  resumed ← resumeDSNHandoff msg;
  if (resumed : bool) then mret tt
  else
    c ← attempt (on_manager (GetMessageContent (m_ID msg)));
    match c with
    | Err e =>
        still ← attempt (on_manager (GetMessage (m_ID msg)));
        match still with
        | Err _ => mret tt
        | Ok _ => moveToFailed msg ("Failed to read content: " +:+ e)
        end
    | Ok content =>
        offerFeedbackReport msg content ≫= fun _ =>
        let '(res, err) := rd_deliver rd msg content in
        let '(res, err) := normalizeDeliveryResult msg res err in
        handleRecipientOutcomes msg res err
    end.

(** processMessage with its deferred clean-up. *)
Definition processMessage (msg : Message) : P unit :=
  modify (fun p => p <| pr_processed ::= Z.add 1 |>) ≫= fun _ =>
  r ← attempt (process_body msg);
  modify (fun p => p <| pr_processing ::= fun l => l ∖ {[m_ID msg]} |>
                     <| pr_claims ::= fun cs => snd (ReleaseMessageClaim (m_ID msg) (rd_workerID rd) cs) |>) ≫= fun _ =>
  liftR r.

(** dispatch, for one message: whether a worker starts on it. *)
Definition dispatch (msg : Message) : P bool :=
  busy ← gets (fun p => bool_decide (m_ID msg ∈ pr_processing p));
  if (busy : bool) then mret false
  else modify (fun p => p <| pr_processing ::= union {[m_ID msg]} |>) ≫= fun _ => mret true.

(** *** Deferred messages and cleaning *)

Fixpoint move_ready (msgs : list Message) : P Z :=
  match msgs with
  | [] => mret 0
  | msg :: msgs' =>
      if (negb (m_NextRetry msg =? 0) && (m_NextRetry msg <? rd_now rd))%bool then
        r ← attempt (on_manager (MoveMessage (rd_now rd) (rd_jitter rd) (m_ID msg) Active "Retry time reached"));
        n ← move_ready msgs';
        mret (if is_ok r then n + 1 else n)
      else move_ready msgs'
  end.

Definition processDeferredMessages : P Z :=
  msgs ← on_manager (ListMessages Deferred);
  move_ready msgs.

(** One tick of processCleanup; [cleanupHours] is CleanupAge in hours. *)
Definition processCleanup (cleanupHours : Z) : P unit :=
  logged (on_manager (CleanupExpiredMessages cleanupHours)) ≫= fun _ =>
  modify (fun p => p <| pr_claims ::= forgetExpiredFileClaims (rd_now rd) |>).
End Processor.

(** ** Normalised outcomes *)

Definition outcomes_of (r : string) (l : list RecipientOutcome) : list RecipientOutcome :=
  filter (fun o => ro_Recipient o = r) l.

(** The outcomes the handler reported for a recipient, as far as they make sense. *)
Definition reported (r : string) (l : list RecipientOutcome) : list RecipientOutcome :=
  if (r =? "")%string then []
  else filter (fun o => ro_Recipient o = r /\ known_status (ro_Status o) = true) l.

Lemma by_recipient_spec to outs (by_ : gmap string (list RecipientOutcome)) r :
  (length (default [] (by_ !! r)) <= count_in r to)%nat ->
  default [] (by_recipient to outs by_ !! r)
  = take (count_in r to) (default [] (by_ !! r) ++ reported r outs).
Proof.
  revert by_. induction outs as [|o outs IH]; intros by_ Hl; cbn [by_recipient].
  { unfold reported. case_match; cbn; by rewrite app_nil_r, take_ge. }
  match goal with |- context [by_recipient to outs ?b] => set (by1 := b) end.
  assert (take (count_in r to) (default [] (by1 !! r) ++ reported r outs)
          = take (count_in r to) (default [] (by_ !! r) ++ reported r (o :: outs)) /\
          (length (default [] (by1 !! r)) <= count_in r to)%nat) as [E Hl1].
  2:{ by rewrite IH, E. }
  unfold by1, reported. rewrite filter_cons.
  destruct (decide (ro_Recipient o = r)) as [Hr|Hr].
  - rewrite Hr. destruct (r =? "")%string; cbn [orb]; [done|].
    destruct (count_in r to =? 0)%nat eqn:E0; cbn [orb].
    { apply Nat.eqb_eq in E0. rewrite E0 in *. by split. }
    destruct (count_in r to <=? length (default [] (by_ !! r)))%nat eqn:E1.
    { apply Nat.leb_le in E1. split; [|done]. by rewrite !take_app_le by lia. }
    apply Nat.leb_gt in E1. destruct (known_status (ro_Status o)) eqn:Ek.
    + rewrite decide_True by done. rewrite lookup_insert_eq. cbn [default]. unfold id. rewrite <- (assoc_L (++)).
      split; [done|]. rewrite length_app, Nat.add_comm. exact E1.
    + rewrite decide_False by (intros [? ?]; congruence). done.
  - rewrite decide_False by (by intros [? ?]). 
    repeat case_match; try done; by rewrite lookup_insert_ne.
Qed.

Definition well_filed (by_ : gmap string (list RecipientOutcome)) : Prop :=
  forall r, Forall (fun o => ro_Recipient o = r) (default [] (by_ !! r)).

Lemma assign_outcomes_spec to (by_ : gmap string (list RecipientOutcome)) r :
  well_filed by_ ->
  outcomes_of r (assign_outcomes to by_)
  = take (count_in r to) (default [] (by_ !! r))
    ++ replicate (count_in r to - length (default [] (by_ !! r))) (missing_outcome r).
Proof.
  revert by_. induction to as [|a to IH]; intros by_ Hw; [done|]. cbn [assign_outcomes].
  unfold count_in. rewrite filter_cons. pose proof (Hw a) as Ha.
  destruct (default [] (by_ !! a)) as [|o os] eqn:E.
  - unfold outcomes_of. rewrite filter_cons. cbn [ro_Recipient missing_outcome].
    destruct (decide (a = r)) as [->|Hne]; [|by apply IH].
    fold (outcomes_of r (assign_outcomes to by_)). rewrite IH, E by done. cbn. by rewrite take_nil, Nat.sub_0_r.
  - apply Forall_cons in Ha as [Ho Hos].
    assert (well_filed (<[a := os]> by_)) as Hw'.
    { intros r'. destruct (decide (r' = a)) as [->|]; [by rewrite lookup_insert_eq|].
      rewrite lookup_insert_ne by done. apply Hw. }
    unfold outcomes_of. rewrite filter_cons, Ho. fold (outcomes_of r (assign_outcomes to (<[a:=os]> by_))).
    destruct (decide (a = r)) as [->|Hne]; rewrite IH by done.
    + rewrite lookup_insert_eq, E. done.
    + by rewrite lookup_insert_ne.
Qed.

Lemma by_recipient_filed to outs : well_filed (by_recipient to outs ∅).
Proof.
  intros r. rewrite by_recipient_spec by (rewrite lookup_empty; cbn; lia). rewrite lookup_empty. cbn.
  apply Forall_take. unfold reported. case_match; [done|]. apply Forall_forall. intros o.
  by intros [[? _] _]%list_elem_of_filter.
Qed.

Lemma assign_outcomes_recipients to by_ :
  well_filed by_ -> ro_Recipient <$> assign_outcomes to by_ = to.
Proof.
  revert by_. induction to as [|a to IH]; intros by_ Hw; [done|]. cbn [assign_outcomes].
  pose proof (Hw a) as Ha. destruct (default [] (by_ !! a)) as [|o os]; cbn; [by rewrite IH|].
  apply Forall_cons in Ha as [-> Hos]. f_equal. apply IH.
  intros r'. destruct (decide (r' = a)) as [->|]; [by rewrite lookup_insert_eq|].
  rewrite lookup_insert_ne by done. apply Hw.
Qed.

(** The outcomes [normalizeDeliveryResult] gives the recipients [to]. *)
Definition assigned (to : list string) (given : list RecipientOutcome) : list RecipientOutcome :=
  assign_outcomes to (by_recipient to given ∅).

Lemma assigned_of to given r :
  let n := count_in r to in
  outcomes_of r (assigned to given)
  = take n (reported r given) ++ replicate (n - length (reported r given)) (missing_outcome r).
Proof.
  cbv zeta. unfold assigned. rewrite assign_outcomes_spec by apply by_recipient_filed.
  rewrite by_recipient_spec by (rewrite lookup_empty; cbn; lia). rewrite lookup_empty. cbn [default app].
  rewrite take_take, Nat.min_id, length_take. do 2 f_equal. lia.
Qed.

Lemma assigned_elem to given o :
  o ∈ assigned to given ->
  (o ∈ given /\ known_status (ro_Status o) = true) \/ o = missing_outcome (ro_Recipient o).
Proof.
  intros Ho. assert (o ∈ outcomes_of (ro_Recipient o) (assigned to given)) as Hr.
  { unfold outcomes_of. by apply list_elem_of_filter. }
  rewrite assigned_of in Hr. apply elem_of_app in Hr as [Hr|Hr].
  - left. apply elem_of_take in Hr as (i & Hr & _). apply list_elem_of_lookup_2 in Hr.
    unfold reported in Hr. case_match; [by apply elem_of_nil in Hr|].
    by apply list_elem_of_filter in Hr as [[_ ?] ?].
  - right. by apply elem_of_replicate in Hr as [-> _].
Qed.

(** Every recipient gets one outcome, and only a reported one is final: whatever
    the delivery handler returns, the normalised result has exactly one outcome per
    envelope recipient, in envelope order; for an address that occurs n times these are
    its first n meaningful reports, each used once, and temporary failures for the rest;
    and no error is left out: without one the handler claimed success. *)
Theorem normalizeDeliveryResult_spec (msg : Message) (res : option DeliveryResult)
    (err : option delivery_error) :
  let '(res', err') := normalizeDeliveryResult msg res err in
  let outs := dr_RecipientOutcomes res' in
  let given := from_option dr_RecipientOutcomes [] res in
  ro_Recipient <$> outs = m_To msg /\
  (forall r, let n := count_in r (m_To msg) in
     outcomes_of r outs = take n (reported r given) ++ replicate (n - length (reported r given)) (missing_outcome r)) /\
  dr_Error res' = err' /\
  (err' = None -> err = None /\ exists d, res = Some d /\ dr_Success d = true /\ dr_Error d = None).
Proof.
  unfold normalizeDeliveryResult. cbv zeta. cbn [dr_RecipientOutcomes dr_Error update].
  set (outs := dr_RecipientOutcomes (default _ res)).
  replace (from_option dr_RecipientOutcomes [] res) with outs by (by destruct res).
  split_and!.
  - apply assign_outcomes_recipients, by_recipient_filed.
  - intros r. apply assigned_of.
  - done.
  - destruct err; [done|]. destruct res as [d|]; cbn; [|done].
    destruct (dr_Error d) eqn:E; [done|]. destruct (dr_Success d) eqn:Es; [|done]. eauto 6.
Qed.

(** ** Nobody is forgotten *)

Section Accounts.
Context `{U : UnicodeTables} `{J : Json} `{DG : Digest} {S : Type} `{BL : BackendLaws S}.
Variable rd : round.

Definition store_of (p : Processor S) : S := mg_store (pr_manager p).

Lemma on_manager_wp {A} (m : M (Manager S) A) (Q : result A -> Processor S -> Prop) p :
  wp m (fun r mg => Q r (p <| pr_manager := mg |>)) (pr_manager p) -> wp (on_manager m) Q p.
Proof. unfold wp, on_manager. by destruct (m (pr_manager p)). Qed.

Lemma logged_wp {A} (m : M (Processor S) A) (Q : result unit -> Processor S -> Prop) p :
  wp m (fun _ p' => Q (Ok tt) p') p -> wp (logged m) Q p.
Proof. intros H. unfold logged. do 2 wp_step. exact H. Qed.

(** The bounce engine, where there is one, was asked to report this message.  What it
    answered is not part of this: [moveToFailed] logs the answer and goes on. *)
Definition asked_to_report (msg : Message) (calls : list bounce_call) : Prop :=
  match rd_bounceEngine rd with
  | Some _ => Exists (fun c => bc_msg c = msg) calls
  | None => True
  end.

(** How the processing of a message for recipients [to] may end: it is still queued for
    all of them, or it was given up, which the retention setting must allow and before
    which the engine was asked for a report. *)
Definition kept_or_given_up (msg : Message) (b : string) (calls : list bounce_call) (s : S) : Prop :=
  survives (m_ID msg) (m_To msg) b s \/
  (consumed (m_ID msg) s /\ rd_retentionHours rd = 0 /\ asked_to_report msg calls).

(** Between [p] and [p'] the bounce engine was called as [Q] says. *)
Definition bounced (Q : list bounce_call -> Prop) (p p' : Processor S) : Prop :=
  exists calls, pr_bounces p' = pr_bounces p ++ calls /\ Q calls.

Lemma bounced_none (Q : list bounce_call -> Prop) p p' :
  pr_bounces p' = pr_bounces p -> Q [] -> bounced Q p p'.
Proof. intros H ?. exists []. by rewrite app_nil_r. Qed.

Lemma moveToFailed_wp msg m b reason p :
  holds Active m b (store_of p) -> m_ID m = m_ID msg -> m_To m = m_To msg ->
  wp (moveToFailed rd msg reason) (fun r p' => r = Ok tt /\
    bounced (fun calls => kept_or_given_up msg b calls (store_of p')) p p') p.
Proof.
  intros H Hi Ht. unfold moveToFailed. do 2 wp_step.
  assert (forall p1 calls, store_of p1 = store_of p -> pr_bounces p1 = pr_bounces p ++ calls ->
    asked_to_report msg calls ->
    wp (if rd_retentionHours rd =? 0 then logged (on_manager (DeleteMessage (rd_now rd) (m_ID msg)))
        else logged (on_manager (MoveMessage (rd_now rd) (rd_jitter rd) (m_ID msg) Failed reason)))
       (fun r p' => r = Ok tt /\
          bounced (fun calls => kept_or_given_up msg b calls (store_of p')) p p') p1) as Hend.
  { intros p1 calls Hs Hb Hr. rewrite <- Hs in H. rewrite <- Hi.
    destruct (rd_retentionHours rd =? 0) eqn:E; apply logged_wp, on_manager_wp.
    - eapply wp_mono; [by apply (DeleteMessage_consumes (rd_now rd) Active m b)|]. cbv beta.
      intros r mg [_ Hm]. split; [done|]. exists calls. split; [done|]. apply Z.eqb_eq in E.
      rewrite Hi in Hm. destruct Hm as [Hm|[_ Hm]]; [by right|left].
      apply holds_survives in Hm. by rewrite Hi, Ht in Hm.
    - eapply wp_mono; [by apply (MoveMessage_survives (rd_now rd) (rd_jitter rd) Active m b)|]. cbv beta.
      intros r mg [Hm _]. split; [done|]. exists calls. split; [done|]. left. by rewrite Hi, Ht in Hm. }
  wp_step. destruct (rd_bounceEngine rd) as [be|] eqn:Eb.
  - unfold bounce_if_needed. do 2 wp_step. wp_step. wp_step. wp_step.
    apply (Hend _ [mkBounce msg reason None (GenerateBounceIfNeeded be msg reason)]); [done|done|].
    unfold asked_to_report. rewrite Eb. by left.
  - wp_step. apply (Hend _ []); [done|by rewrite app_nil_r|]. unfold asked_to_report. by rewrite Eb.
Qed.

Lemma AddAttempt_wp m b res e (Q : result unit -> Processor S -> Prop) p :
  holds Active m b (store_of p) ->
  (forall p' m', same_envelope m m' -> holds Active m' b (store_of p') ->
     pr_bounces p' = pr_bounces p -> Q (Ok tt) p') ->
  wp (logged (on_manager (AddAttempt (rd_now rd) (m_ID m) res e))) Q p.
Proof.
  intros H HQ. apply logged_wp, on_manager_wp. eapply wp_mono; [by apply (AddAttempt_held (rd_now rd))|].
  cbv beta. intros r mg [_ (m' & He & Hm)]. by eapply HQ.
Qed.

Lemma handleDeliveryFailure_wp msg m b err p :
  holds Active m b (store_of p) -> m_ID m = m_ID msg -> m_To m = m_To msg ->
  wp (handleDeliveryFailure rd msg err) (fun r p' => r = Ok tt /\
    bounced (fun calls => kept_or_given_up msg b calls (store_of p')) p p') p.
Proof.
  intros H Hi Ht. unfold handleDeliveryFailure. do 3 wp_step. rewrite <- Hi.
  eapply AddAttempt_wp; [exact H|]. intros p1 m1 (E1 & _ & E3 & _) H1 Hb1. cbn in Hb1.
  assert (forall reason, wp (moveToFailed rd msg reason) (fun r p' => r = Ok tt /\
            bounced (fun calls => kept_or_given_up msg b calls (store_of p')) p p') p1) as Hf.
  { intros reason. eapply wp_mono; [apply (moveToFailed_wp msg m1 b); [done|congruence|congruence]|].
    cbv beta. unfold bounced. by rewrite Hb1. }
  destruct (negb _); [apply Hf|]. destruct (_ <=? _); [apply Hf|].
  apply logged_wp, on_manager_wp. rewrite <- E1.
  eapply wp_mono; [by apply (MoveMessage_survives (rd_now rd) (rd_jitter rd) Active m1 b)|]. cbv beta.
  intros r mg [Hm _]. split; [done|]. apply bounced_none; [done|]. left.
  rewrite <- Hi, <- Ht, <- E1, <- E3. exact Hm.
Qed.

Lemma DeleteMessage_wp m b (Q : result unit -> Processor S -> Prop) p :
  holds Active m b (store_of p) ->
  (forall p', pr_bounces p' = pr_bounces p ->
     consumed (m_ID m) (store_of p') \/ survives (m_ID m) (m_To m) b (store_of p') -> Q (Ok tt) p') ->
  wp (logged (on_manager (DeleteMessage (rd_now rd) (m_ID m)))) Q p.
Proof.
  intros H HQ. apply logged_wp, on_manager_wp.
  eapply wp_mono; [by apply (DeleteMessage_consumes (rd_now rd) Active m b)|]. cbv beta.
  intros r mg [_ [Hm|[_ Hm]]]; apply HQ; try done; [by left|right]. exact (holds_survives _ _ _ _ Hm).
Qed.
Lemma observePartial_wp msg m b d t k (Q : result unit -> Processor S -> Prop) p :
  holds Active m b (store_of p) -> m_ID m = m_ID msg ->
  (forall p' m', same_envelope m m' -> holds Active m' b (store_of p') ->
     pr_bounces p' = pr_bounces p -> Q (Ok tt) p') ->
  wp (observePartial rd msg d t k) Q p.
Proof.
  intros H Hi HQ. unfold observePartial. destruct d; [wp_step; by apply (HQ p m)|].
  rewrite <- Hi. by eapply AddAttempt_wp.
Qed.

Lemma store_update_wp m m' b (Q : result unit -> Processor S -> Prop) p :
  holds Active m b (store_of p) -> m_ID m' = m_ID m -> m_QueueType m' = Active ->
  (forall r p', pr_bounces p' = pr_bounces p ->
     holds Active m' b (store_of p') \/ (is_ok r = false /\ holds Active m b (store_of p')) -> Q r p') ->
  wp (store_update m') Q p.
Proof.
  intros H Hi Hq HQ. unfold store_update. apply on_manager_wp, on_store_wp.
  eapply wp_mono; [by apply (law_Update Active m m' b)|]. cbv beta. intros r s Hs. by apply HQ.
Qed.

(** The engine accepted a report of these failures to the sender. *)
Definition engine_reported (msg : Message) (permanent : list dsnRecipient) (calls : list bounce_call) : Prop :=
  Exists (fun c => bounced_ok (bc_result c) = true /\ m_From (bc_msg c) = m_From msg /\
                   m_To (bc_msg c) = dsn_Address <$> permanent) calls.

(** The sender was told of the permanent failures, as far as there is one to tell. *)
Definition notified (msg : Message) (permanent : list dsnRecipient) (calls : list bounce_call) : Prop :=
  permanent = [] \/ null_sender (m_From msg) = true \/ rd_bounceEngine rd = None \/ engine_reported msg permanent calls.

Lemma generateBounce_wp be msg reason id (Q : result (option BounceResult) -> Processor S -> Prop) p :
  (forall p' c, store_of p' = store_of p -> pr_bounces p' = pr_bounces p ++ [c] -> bc_msg c = msg ->
     Q (Ok (bc_result c)) p') ->
  wp (generateBounce be msg reason id) Q p.
Proof.
  intros HQ. unfold generateBounce, bounce_if_needed.
  destruct (GenerateBounceIdempotent be) as [f|]; do 3 wp_step.
  - by apply (HQ _ (mkBounce msg reason (Some id) (f msg reason id))).
  - by apply (HQ _ (mkBounce msg reason None (GenerateBounceIfNeeded be msg reason))).
Qed.

(** An early return leaves the message for all its recipients; otherwise the sender
    has been told, and the message is stored as the processor goes on with it. *)
Definition handed_off (msg : Message) (b : string) (permanent : list dsnRecipient)
    (p : Processor S) (r : result (option Message)) (p' : Processor S) : Prop :=
  exists calls, pr_bounces p' = pr_bounces p ++ calls /\
  match r with
  | Ok None => survives (m_ID msg) (m_To msg) b (store_of p')
  | Ok (Some msg') =>
      engine_reported msg permanent calls /\ holds Active msg' b (store_of p') /\
      m_ID msg' = m_ID msg /\ m_To msg' = m_To msg
  | Err _ => False
  end.

Lemma hand_off_wp msg b be so err p :
  holds Active msg b (store_of p) ->
  wp (hand_off msg be so err) (handed_off msg b (so_permanent so) p) p.
Proof.
  intros H. pose proof (holds_queue _ _ _ _ H) as Hq. unfold hand_off, handed_off. do 2 wp_step.
  set (h := mkHandoff _ _ _ _ _). eapply store_update_wp; [exact H|done|done|].
  intros r p1 Hb1 Hs1. destruct r as [[]|e].
  2:{ wp_step. exists []. rewrite app_nil_r. split; [done|].
      destruct Hs1 as [Hs|[_ Hs]]; exact (holds_survives _ _ _ _ Hs). }
  destruct Hs1 as [Hs1|[? _]]; [|done]. wp_step. apply generateBounce_wp. intros p2 c Hs2 Hb2 Hc.
  rewrite <- Hs2 in Hs1. destruct (bounced_ok (bc_result c)) eqn:Eo; cbn [negb].
  2:{ wp_step. exists [c]. rewrite Hb2, Hb1. split; [done|]. exact (holds_survives _ _ _ _ Hs1). }
  do 2 wp_step. eapply store_update_wp; [exact Hs1|done|done|]. intros r p3 Hb3 Hs3. wp_step.
  exists [c]. rewrite Hb3, Hb2, Hb1. split; [done|]. destruct r as [[]|e].
  - destruct Hs3 as [Hs3|[? _]]; [|done]. split; [|by split]. left. by rewrite Hc.
  - destruct Hs3 as [Hs|[_ Hs]]; exact (holds_survives _ _ _ _ Hs).
Qed.

(** What may become of a message once its recipients' outcomes are known: it is still
    queued for all of them; or the sender was [told], and it is queued for those to
    retry, or gone when there is nobody to retry, or given up. *)
Definition accounted (msg : Message) (b : string) (told : list bounce_call -> Prop)
    (temporary : list dsnRecipient) (calls : list bounce_call) (s : S) : Prop :=
  survives (m_ID msg) (m_To msg) b s \/
  (told calls /\
   match temporary with
   | [] => consumed (m_ID msg) s
   | _ => survives (m_ID msg) (dsn_Address <$> temporary) b s \/
          (consumed (m_ID msg) s /\ rd_retentionHours rd = 0 /\
           match rd_bounceEngine rd with
           | Some _ => Exists (fun c => m_To (bc_msg c) = dsn_Address <$> temporary) calls
           | None => True
           end)
   end).

(** After the envelope was reduced and the attempt has failed. *)
Lemma given_up_accounted msg m1 b (told : list bounce_call -> Prop) t ts calls calls' s :
  m_ID m1 = m_ID msg -> m_To m1 = dsn_Address <$> (t :: ts) -> told (calls ++ calls') ->
  kept_or_given_up m1 b calls' s -> accounted msg b told (t :: ts) (calls ++ calls') s.
Proof.
  intros Hi Ht Hn Hk. unfold kept_or_given_up in Hk. rewrite Hi, Ht in Hk.
  right. split; [done|]. destruct Hk as [Hk|(Hk & Hr & Hrep)]; [by left|right].
  split; [done|]. split; [done|]. unfold asked_to_report in Hrep. destruct (rd_bounceEngine rd); [|done].
  apply Exists_app. right. eapply Exists_impl; [exact Hrep|]. cbv beta. by intros c ->.
Qed.

Lemma notified_app msg k calls calls' : notified msg k calls -> notified msg k (calls ++ calls').
Proof. intros [?|[?|[?|?]]]; unfold notified, engine_reported; rewrite ?Exists_app; auto. Qed.

Lemma finish_outcomes_wp msg msg' b so err calls p0 p :
  holds Active msg' b (store_of p) -> m_ID msg' = m_ID msg -> m_To msg' = m_To msg ->
  pr_bounces p = pr_bounces p0 ++ calls -> notified msg (so_permanent so) calls ->
  wp (finish_outcomes rd msg' so err) (fun r p' => r = Ok tt /\
    bounced (fun calls => accounted msg b (notified msg (so_permanent so)) (so_temporary so) calls (store_of p')) p0 p') p.
Proof.
  intros H Hi Ht Hb Hn. unfold finish_outcomes. pose proof (holds_queue _ _ _ _ H) as Hq.
  destruct (so_temporary so) as [|t ts] eqn:Et.
  - wp_step. eapply observePartial_wp; [exact H|done|]. intros p1 m1 (E1 & _ & E3 & _) H1 Hb1.
    unfold finalizeNoTemporary. do 2 wp_step. rewrite <- E1. eapply DeleteMessage_wp.
    { destruct (length (so_permanent so)); exact H1. }
    intros p2 Hb2 Hend. split; [done|]. exists calls. split.
    { rewrite Hb2, <- Hb, <- Hb1. by destruct (length (so_permanent so)). }
    rewrite E1, E3, Hi, Ht in Hend. unfold accounted. destruct Hend; auto.
  - cbv zeta. set (m1 := (reduced msg' (t :: ts)) <| m_UpdatedAt := rd_now rd |>).
    do 2 wp_step. eapply (store_update_wp msg' m1); [exact H|done|done|]. intros r p1 Hb1 Hs1.
    assert (m_ID m1 = m_ID msg) as Hi1 by exact Hi.
    destruct r as [[]|e].
    2:{ wp_step. split; [done|]. exists calls. split; [by rewrite Hb1|].
        destruct Hs1 as [Hs|[_ Hs]]; apply holds_survives in Hs; [right|left].
        - rewrite Hi1 in Hs. auto.
        - by rewrite Hi, Ht in Hs. }
    destruct Hs1 as [Hs1|[? _]]; [|done]. wp_step. eapply observePartial_wp; [exact Hs1|done|].
    intros p2 m2 (E1 & _ & E3 & _) H2 Hb2.
    eapply wp_mono; [apply (handleDeliveryFailure_wp m1 m2 b); [done|congruence|congruence]|]. cbv beta.
    intros r p3 [-> (calls' & Hb3 & Hk)]. split; [done|]. exists (calls ++ calls'). split.
    { by rewrite Hb3, Hb2, Hb1, Hb, (assoc_L (++)). }
    by eapply given_up_accounted; [exact Hi1|done|apply notified_app|].
Qed.

Lemma handleRecipientOutcomes_wp msg b res err p :
  holds Active msg b (store_of p) ->
  let so := sort_outcomes (m_Annotations msg) (recipientOccurrences msg) (dr_RecipientOutcomes res) in
  wp (handleRecipientOutcomes rd msg res err) (fun r p' => r = Ok tt /\
    bounced (fun calls => accounted msg b (notified msg (so_permanent so)) (so_temporary so) calls (store_of p')) p p') p.
Proof.
  intros H so. pose proof (holds_queue _ _ _ _ H) as Hq. unfold handleRecipientOutcomes. fold so.
  case_bool_decide as Hnone.
  - destruct Hnone as [Et Ek]. unfold handleDeliverySuccess. do 3 wp_step.
    eapply (AddAttempt_wp msg b); [exact H|]. intros p1 m1 (E1 & _ & E3 & _) H1 Hb1. rewrite <- E1.
    eapply DeleteMessage_wp; [exact H1|]. intros p2 Hb2 Hend. split; [done|].
    apply bounced_none; [by rewrite Hb2|]. rewrite E1, E3 in Hend. unfold accounted, notified.
    rewrite Et, Ek. destruct Hend; auto.
  - wp_step. assert (wp (recordSuppressions rd (so_permanent so) (dr_RecipientOutcomes res))
      (fun r p' => r = Ok tt /\ store_of p' = store_of p /\ pr_bounces p' = pr_bounces p) p) as Hsup.
    { unfold recordSuppressions. destruct (negb _); wp_step; done. }
    eapply wp_mono; [exact Hsup|]. cbv beta. intros r p1 (-> & Hs1 & Hb1). rewrite <- Hs1 in H.
    assert (notified msg (so_permanent so) [] ->
      wp (finish_outcomes rd msg so err) (fun r p' => r = Ok tt /\
        bounced (fun calls => accounted msg b (notified msg (so_permanent so)) (so_temporary so) calls (store_of p')) p p') p1) as Hfin.
    { intros Hn. by apply (finish_outcomes_wp msg msg b so err []); rewrite ?app_nil_r. }
    wp_step. destruct (bool_decide _ || _)%bool eqn:Eno.
    { wp_step. apply Hfin. apply orb_true_iff in Eno as [Hp%bool_decide_eq_true|Hnull]; [by left|by right; left]. }
    destruct (rd_bounceEngine rd) as [be|] eqn:Eb; [|wp_step; apply Hfin; by right; right; left].
    eapply wp_mono; [by apply (hand_off_wp msg b)|]. cbv beta. intros r p2 (calls & Hb2 & Hr).
    destruct r as [[msg'|]|]; [| |done].
    + destruct Hr as (Hn & H2 & Hi & Ht). apply (finish_outcomes_wp msg msg' b so err calls); try done.
      { by rewrite Hb2, Hb1. } by right; right; right.
    + wp_step. split; [done|]. exists calls. split; [by rewrite Hb2, Hb1|]. by left.
Qed.
End Accounts.

(** ** Every recipient is in one class *)

Definition named (r : dsnRecipient) : Prop :=
  TrimSpace (dsn_Occurrence r) <> "" /\ TrimSpace (dsn_Address r) <> "".

Definition key_of (r : dsnRecipient) : string * string := (dsn_Occurrence r, dsn_Address r).

Section Sorting.
Context `{U : UnicodeTables} `{J : Json}.

Definition dsn_of (x : string * RecipientOutcome) : dsnRecipient :=
  mkDsn (fst x) (ro_Recipient (snd x)) (ro_Diagnostic (snd x)).

Definition all_of (so : sorted_outcomes) : list dsnRecipient :=
  so_deliveredR so ++ so_temporary so ++ so_permanent so.

Lemma sort_outcome_all ann acc x :
  known_status (ro_Status (snd x)) = true -> all_of (sort_outcome ann acc x) ≡ₚ all_of acc ++ [dsn_of x].
Proof.
  destruct x as [occ o], acc as [d dR tR pR f]. unfold all_of, sort_outcome, dsn_of. cbn.
  destruct (ro_Status o); intros H; try done; [| |case_match]; cbn; solve_Permutation.
Qed.

Lemma sort_outcomes_all ann l acc :
  Forall (fun x => known_status (ro_Status (snd x)) = true) l ->
  all_of (foldl (sort_outcome ann) acc l) ≡ₚ all_of acc ++ (dsn_of <$> l).
Proof.
  revert acc. induction l as [|x l IH]; intros acc Hl; cbn; [by rewrite app_nil_r|].
  apply Forall_cons in Hl as [Hx Hl]. rewrite IH, sort_outcome_all by done. by rewrite <- (assoc_L (++)).
Qed.

(** What put a recipient into its class. *)
Definition rightly (ann : gmap string string) (l : list (string * RecipientOutcome)) (so : sorted_outcomes) : Prop :=
  Forall (fun r => exists x, x ∈ l /\ r = dsn_of x /\
            (ro_Status (snd x) = RecipientDelivered \/
             (ro_Status (snd x) = RecipientPermanentFailure /\ notifyNeverForOccurrence ann r = true)))
         (so_deliveredR so) /\
  Forall (fun r => exists x, x ∈ l /\ r = dsn_of x /\ ro_Status (snd x) = RecipientTemporaryFailure)
         (so_temporary so) /\
  Forall (fun r => exists x, x ∈ l /\ r = dsn_of x /\ ro_Status (snd x) = RecipientPermanentFailure /\
            notifyNeverForOccurrence ann r = false)
         (so_permanent so).

Lemma sort_outcome_rightly ann l acc x :
  x ∈ l -> rightly ann l acc -> rightly ann l (sort_outcome ann acc x).
Proof.
  intros Hx (H1 & H2 & H3). destruct x as [occ o], acc as [d dR tR pR f]. unfold sort_outcome.
  destruct (ro_Status o) eqn:Es; [| |destruct (notifyNeverForOccurrence ann _) eqn:En|done];
    (split_and!; cbn in *; [try done..]); apply Forall_app; (split; [done|]);
    (constructor; [|done]); exists (occ, o); auto.
Qed.

Lemma sort_outcomes_rightly ann occ outs :
  rightly ann (zip occ outs) (sort_outcomes ann occ outs).
Proof.
  unfold sort_outcomes. set (l := zip occ outs).
  assert (forall l0 acc, (forall x, x ∈ l0 -> x ∈ l) -> rightly ann l acc ->
            rightly ann l (foldl (sort_outcome ann) acc l0)) as H.
  { induction l0 as [|x l0 IH]; intros acc Hl Ha; [done|]. cbn. apply IH.
    - intros y Hy. apply Hl. by right.
    - apply sort_outcome_rightly; [apply Hl; by left|done]. }
  apply H; [done|]. by repeat split.
Qed.

Lemma recipientOccurrences_length msg : length (recipientOccurrences msg) = length (m_To msg).
Proof.
  unfold recipientOccurrences. destruct (_ =? _)%nat eqn:E; [by apply Nat.eqb_eq|]. apply length_imap.
Qed.

Lemma assigned_length msg given : length (assigned (m_To msg) given) = length (recipientOccurrences msg).
Proof.
  rewrite recipientOccurrences_length, <- (length_fmap ro_Recipient). f_equal.
  apply assign_outcomes_recipients, by_recipient_filed.
Qed.

(** What becomes of the recipients of [msg] when the handler reports [given]. *)
Definition sorted_from (msg : Message) (given : list RecipientOutcome) : sorted_outcomes :=
  sort_outcomes (m_Annotations msg) (recipientOccurrences msg) (assigned (m_To msg) given).

Lemma sorted_from_all msg given :
  all_of (sorted_from msg given) ≡ₚ dsn_of <$> zip (recipientOccurrences msg) (assigned (m_To msg) given).
Proof.
  unfold sorted_from, sort_outcomes. rewrite sort_outcomes_all; [done|]. apply Forall_forall.
  intros [i o] Hi%elem_of_zip_r. by destruct (assigned_elem _ _ _ Hi) as [[_ ?]| ->].
Qed.

Lemma sorted_from_keys msg given :
  key_of <$> all_of (sorted_from msg given) ≡ₚ zip (recipientOccurrences msg) (m_To msg).
Proof.
  rewrite sorted_from_all, <- list_fmap_compose.
  replace (zip (recipientOccurrences msg) (m_To msg))
    with (zip (recipientOccurrences msg) (ro_Recipient <$> assigned (m_To msg) given)).
  2:{ f_equal. apply assign_outcomes_recipients, by_recipient_filed. }
  generalize (assigned (m_To msg) given) as outs. generalize (recipientOccurrences msg) as occ.
  induction occ as [|i occ IH]; intros [|o outs]; try done. cbn. by rewrite IH.
Qed.
End Sorting.

(** C33 (every recipient is in one class, for a reason).  The recipients of a message are
    divided, occurrence by occurrence, into those done with, those to retry and those to
    report to the sender.  Done with are only recipients the handler reported as
    delivered, or as failed for good when the sender asked never to be told; reported to
    the sender only those it reported as failed for good; everybody else is retried. *)
Theorem recipients_partitioned `{U : UnicodeTables} `{J : Json} (msg : Message)
    (res : option DeliveryResult) (err : option delivery_error) :
  let '(res', _) := normalizeDeliveryResult msg res err in
  let given := from_option dr_RecipientOutcomes [] res in
  let so := sort_outcomes (m_Annotations msg) (recipientOccurrences msg) (dr_RecipientOutcomes res') in
  dsn_Address <$> all_of so ≡ₚ m_To msg /\
  dsn_Occurrence <$> all_of so ≡ₚ recipientOccurrences msg /\
  Forall (fun r => exists o, (o ∈ given) /\ ro_Recipient o = dsn_Address r /\
            (ro_Status o = RecipientDelivered \/
             (ro_Status o = RecipientPermanentFailure /\ notifyNeverForOccurrence (m_Annotations msg) r = true)))
         (so_deliveredR so) /\
  Forall (fun r => exists o, (o ∈ given) /\ ro_Recipient o = dsn_Address r /\
            ro_Status o = RecipientPermanentFailure /\ notifyNeverForOccurrence (m_Annotations msg) r = false)
         (so_permanent so).
Proof.
  unfold normalizeDeliveryResult. cbv zeta. cbn [dr_RecipientOutcomes update].
  set (given := dr_RecipientOutcomes (default _ res)).
  replace (from_option dr_RecipientOutcomes [] res) with given by (by destruct res).
  fold (assigned (m_To msg) given). fold (sorted_from msg given).
  pose proof (sorted_from_keys msg given) as Hk. pose proof (recipientOccurrences_length msg) as Hlen.
  assert (forall x, x ∈ zip (recipientOccurrences msg) (assigned (m_To msg) given) ->
    (snd x ∈ given) \/ ro_Status (snd x) = RecipientTemporaryFailure) as Hx.
  { intros [i o] Hi%elem_of_zip_r. destruct (assigned_elem _ _ _ Hi) as [[? _]| ->]; auto. }
  destruct (sort_outcomes_rightly (m_Annotations msg) (recipientOccurrences msg) (assigned (m_To msg) given))
    as (H1 & _ & H3). fold (sorted_from msg given) in H1, H3. split_and!.
  - rewrite <- (snd_zip (recipientOccurrences msg) (m_To msg)) by lia. by rewrite <- Hk, <- list_fmap_compose.
  - rewrite <- (fst_zip (recipientOccurrences msg) (m_To msg)) by lia. by rewrite <- Hk, <- list_fmap_compose.
  - eapply Forall_impl; [exact H1|]. cbv beta. intros r (x & Hin & -> & Hst). exists (snd x).
    destruct (Hx x Hin) as [?|Hm]; [done|]. rewrite Hm in Hst. destruct Hst as [?|[? _]]; done.
  - eapply Forall_impl; [exact H3|]. cbv beta. intros r (x & Hin & -> & Hst). exists (snd x).
    destruct (Hx x Hin) as [?|Hm]; [done|]. rewrite Hm in Hst. by destruct Hst.
Qed.

(** ** Rounds *)

Section Rounds.
Context `{U : UnicodeTables} `{J : Json} `{DG : Digest} {S : Type} `{BL : BackendLaws S}.
Variable rd : round.

(** The sender has been told of the failures a handoff lists: earlier, or now. *)
Definition told_by (msg : Message) (h : dsnHandoff) (calls : list bounce_call) : Prop :=
  ho_State h <> "pending" \/ engine_reported msg (ho_Permanent h) calls.

Lemma told_by_app msg h calls calls' : told_by msg h calls -> told_by msg h (calls ++ calls').
Proof. intros [?|?]; [by left|right]. unfold engine_reported. rewrite Exists_app. by left. Qed.

(** How a resumed handoff may end. *)
Definition resumed (msg : Message) (b : string) (h : dsnHandoff) (calls : list bounce_call) (s : S) : Prop :=
  accounted rd msg b (told_by msg h) (ho_Temporary h) calls s.

Lemma resume_bounce_wp msg b be h p :
  holds Active msg b (store_of p) -> ho_State h = "pending" ->
  wp (resume_bounce msg be h) (handed_off msg b (ho_Permanent h) p) p.
Proof.
  intros H Hst. pose proof (holds_queue _ _ _ _ H) as Hq. unfold resume_bounce, handed_off. wp_step.
  apply generateBounce_wp. intros p1 c Hs1 Hb1 Hc. rewrite <- Hs1 in H.
  destruct (bounced_ok (bc_result c)) eqn:Eo; cbn [negb].
  2:{ wp_step. exists [c]. split; [done|]. exact (holds_survives _ _ _ _ H). }
  do 2 wp_step. eapply store_update_wp; [exact H|done|done|]. intros r p2 Hb2 Hs2. wp_step.
  exists [c]. rewrite Hb2, Hb1. split; [done|]. destruct r as [[]|e].
  - destruct Hs2 as [Hs2|[? _]]; [|done]. split; [|by split]. left. by rewrite Hc.
  - destruct Hs2 as [Hs|[_ Hs]]; exact (holds_survives _ _ _ _ Hs).
Qed.

(** The part of resumeDSNHandoff after the notification. *)
Definition resume_rest (msg : Message) (h : dsnHandoff) : M (Processor S) bool :=
  observePartial rd msg (dsn_Address <$> ho_Delivered h) (length (ho_Temporary h))
    (length (ho_Permanent h)) ≫= fun _ =>
  match ho_Temporary h with
  | [] => finalizeNoTemporary rd msg (length (ho_Permanent h)) ≫= fun _ => mret true
  | _ =>
      let msg := reduced msg (ho_Temporary h) in
      r ← attempt (store_update msg);
      match r with
      | Err _ => mret true
      | Ok _ => handleDeliveryFailure rd msg (plain_error "temporary recipient delivery failure")
                ≫= fun _ => mret true
      end
  end.

Lemma resume_rest_wp msg msg' b h calls p0 p :
  holds Active msg' b (store_of p) -> m_ID msg' = m_ID msg -> m_To msg' = m_To msg ->
  pr_bounces p = pr_bounces p0 ++ calls -> told_by msg h calls ->
  wp (resume_rest msg' h) (fun r p' => r = Ok true /\
    bounced (fun calls => resumed msg b h calls (store_of p')) p0 p') p.
Proof.
  intros H Hi Ht Hb Hn. pose proof (holds_queue _ _ _ _ H) as Hq. unfold resume_rest, resumed. wp_step.
  eapply observePartial_wp; [exact H|done|]. intros p1 m1 (E1 & _ & E3 & E4 & _) H1 Hb1.
  destruct (ho_Temporary h) as [|t ts] eqn:Et.
  - wp_step. unfold finalizeNoTemporary. do 2 wp_step. rewrite <- E1. eapply DeleteMessage_wp.
    { destruct (length (ho_Permanent h)); exact H1. }
    intros p2 Hb2 Hend. wp_step. split; [done|]. exists calls. split.
    { rewrite Hb2, <- Hb, <- Hb1. by destruct (length (ho_Permanent h)). }
    rewrite E1, E3, Hi, Ht in Hend. unfold accounted. destruct Hend; auto.
  - cbv zeta. set (m2 := reduced msg' (t :: ts)). do 2 wp_step.
    assert (m_ID m2 = m_ID msg) as Hi2 by exact Hi.
    eapply (store_update_wp m1 m2); [exact H1|by rewrite E1|done|]. intros r p2 Hb2 Hs2. destruct r as [[]|e].
    2:{ wp_step. split; [done|]. exists calls. split; [by rewrite Hb2, Hb1|].
        destruct Hs2 as [Hs|[_ Hs]]; apply holds_survives in Hs; [right|left].
        - rewrite Hi2 in Hs. auto.
        - by rewrite E1, E3, Hi, Ht in Hs. }
    destruct Hs2 as [Hs2|[? _]]; [|done]. wp_step.
    eapply wp_mono; [by apply (handleDeliveryFailure_wp rd m2 m2 b)|]. cbv beta.
    intros r p3 [-> (calls' & Hb3 & Hk)]. wp_step. split; [done|]. exists (calls ++ calls'). split.
    { by rewrite Hb3, Hb2, Hb1, Hb, (assoc_L (++)). }
    by eapply given_up_accounted; [exact Hi2|done|apply told_by_app|].
Qed.

Lemma resume_rest_grows msg h b p :
  holds Active msg b (store_of p) -> wp (resume_rest msg h) (fun _ p' => bounced (fun _ => True) p p') p.
Proof.
  intros H. set (h' := h <| ho_State := "" |>). change (resume_rest msg h) with (resume_rest msg h').
  eapply wp_mono; [apply (resume_rest_wp msg msg b h' [] p p)|]; try done.
  - by rewrite app_nil_r.
  - by left.
  - cbv beta. intros r p' [_ (calls & Hb & _)]. by exists calls.
Qed.

Lemma resumeDSNHandoff_wp msg b p :
  holds Active msg b (store_of p) -> annotation msg dsnHandoffAnnotation <> "" ->
  (rd_bounceEngine rd <> None) ->
  wp (resumeDSNHandoff rd msg) (fun r p' => r = Ok true /\
    bounced (fun calls =>
      match decode_handoff (annotation msg dsnHandoffAnnotation) with
      | Some h => if is_ok (validateDSNHandoff msg h) then resumed msg b h calls (store_of p')
                  else survives (m_ID msg) (m_To msg) b (store_of p')
      | None => survives (m_ID msg) (m_To msg) b (store_of p')
      end) p p') p.
Proof.
  intros H Hne Hbe. unfold resumeDSNHandoff. rewrite (proj2 (String.eqb_neq _ _) Hne).
  assert (forall e, wp (quarantineInvalidDSNHandoff rd msg e ≫= fun _ => mret true) (fun r p' => r = Ok true /\
    bounced (fun _ => survives (m_ID msg) (m_To msg) b (store_of p')) p p') p) as Hq.
  { intros e. wp_step. unfold quarantineInvalidDSNHandoff. apply logged_wp, on_manager_wp.
    eapply wp_mono; [by apply (MoveMessage_survives (rd_now rd) (rd_jitter rd) Active msg b)|]. cbv beta.
    intros r mg [Hm _]. wp_step. split; [done|]. by apply bounced_none. }
  destruct (decode_handoff _) as [h|]; [|apply Hq].
  destruct (validateDSNHandoff msg h) as [[]|e]; cbn [is_ok]; [|apply Hq].
  wp_step. destruct (ho_State h =? "pending")%string eqn:Est.
  - apply String.eqb_eq in Est. destruct (rd_bounceEngine rd) as [be|]; [|done].
    eapply wp_mono; [by apply (resume_bounce_wp msg b)|]. cbv beta. intros r p1 (calls & Hb1 & Hr).
    destruct r as [[msg'|]|]; [| |done].
    + destruct Hr as (Hn & H1 & Hi & Ht). apply (resume_rest_wp msg msg' b h calls p p1); try done. by right.
    + wp_step. split; [done|]. exists calls. split; [done|]. by left.
  - apply String.eqb_neq in Est. wp_step. apply (resume_rest_wp msg msg b h [] p p); try done;
      [by rewrite app_nil_r|by left].
Qed.

(** The state a worker starts its work in, and what it does at the end. *)
Definition started (p : Processor S) : Processor S := p <| pr_processed ::= Z.add 1 |>.
Definition finished (msg : Message) (p : Processor S) : Processor S :=
  p <| pr_processing ::= fun l => l ∖ {[m_ID msg]} |>
    <| pr_claims ::= fun cs => snd (ReleaseMessageClaim (m_ID msg) (rd_workerID rd) cs) |>.

Lemma processMessage_split msg p :
  processMessage rd msg p
  = (fst (process_body rd msg (started p)), finished msg (snd (process_body rd msg (started p)))).
Proof.
  unfold processMessage, mbind, M_bind, attempt, modify, liftR. fold (started p).
  by destruct (process_body rd msg (started p)).
Qed.

Lemma finished_not_processing msg p : m_ID msg ∉ pr_processing (finished msg p).
Proof. cbn. clear. set_solver. Qed.

(** What the delivery handler says about the message, normalised and sorted. *)
Definition sorted_delivery (msg : Message) (content : string) : sorted_outcomes :=
  let '(res, err) := rd_deliver rd msg content in
  let '(res, err) := normalizeDeliveryResult msg res err in
  sort_outcomes (m_Annotations msg) (recipientOccurrences msg) (dr_RecipientOutcomes res).

Lemma process_body_wp msg b p :
  holds Active msg b (store_of p) -> annotation msg dsnHandoffAnnotation = "" ->
  let so := sorted_delivery msg b in
  wp (process_body rd msg) (fun r p' => r = Ok tt /\ bounced (fun calls =>
    accounted rd msg b (notified rd msg (so_permanent so)) (so_temporary so) calls (store_of p') \/
    kept_or_given_up rd msg b calls (store_of p')) p p') p.
Proof.
  intros H Hno so. unfold process_body. wp_step. unfold resumeDSNHandoff. rewrite Hno. cbn [String.eqb]. wp_step.
  do 2 wp_step. apply on_manager_wp, on_store_wp. eapply wp_mono; [by apply law_RetrieveContent|]. cbv beta.
  intros [c|e] s1 [H1 Hc].
  - rewrite (Hc c eq_refl). wp_step.
    set (p1 := p <| pr_manager := _ |>). assert (holds Active msg b (store_of p1)) as H1' by exact H1.
    assert (wp (offerFeedbackReport rd msg b) (fun r p' => r = Ok tt /\ store_of p' = store_of p1 /\
              pr_bounces p' = pr_bounces p1) p1) as Hof.
    { unfold offerFeedbackReport. repeat case_match; wp_step; done. }
    eapply wp_mono; [exact Hof|]. cbv beta. intros r p2 (-> & Hs2 & Hb2). rewrite <- Hs2 in H1'.
    unfold so, sorted_delivery. destruct (rd_deliver rd msg b) as [res0 err0].
    destruct (normalizeDeliveryResult msg res0 err0) as [res err].
    eapply wp_mono; [by apply (handleRecipientOutcomes_wp rd msg b res err)|]. cbv beta zeta.
    intros r p3 [-> (calls & Hb3 & Ha)]. split; [done|]. exists calls. rewrite Hb3, Hb2. split; [done|]. by left.
  - do 2 wp_step. apply on_manager_wp, on_store_wp. eapply wp_mono; [by apply law_Retrieve|]. cbv beta.
    intros [m'|e'] s2 [H2 _].
    + eapply wp_mono; [by apply (moveToFailed_wp rd msg msg b)|]. cbv beta.
      intros r p3 [-> (calls & Hb3 & Ha)]. split; [done|]. exists calls. split; [exact Hb3|]. by right.
    + wp_step. split; [done|]. apply bounced_none; [done|]. left. left. exact (holds_survives _ _ _ _ H2).
Qed.
End Rounds.

(** ** Handoffs *)

(** encoding/json gives strings back when they are UTF-8. *)
Definition handoff_utf8 (h : dsnHandoff) : Prop :=
  ValidString (ho_ID h) = true /\ ValidString (ho_State h) = true /\
  Forall (fun r => ValidString (dsn_Occurrence r) = true /\ ValidString (dsn_Address r) = true /\
                   ValidString (dsn_Diagnostic r) = true)
         (ho_Permanent h ++ ho_Temporary h ++ ho_Delivered h).

Class JsonLaws `{J : Json} : Prop := {
  json_handoff h : handoff_utf8 h -> decode_handoff (encode_handoff h) = Some h;
  json_nonempty h : encode_handoff h <> "";
  json_ids l : Forall (fun s => ValidString s = true) l -> decode_ids (encode_ids l) = l
}.

Section Handoffs.
Context `{U : UnicodeTables} `{J : Json} `{DG : Digest}.

Lemma handoff_bound_spec expected seen l s :
  handoff_bound expected seen l = Ok s <->
  Forall named l /\ NoDup (dsn_Occurrence <$> l) /\ (forall r, r ∈ l -> dsn_Occurrence r ∉ seen) /\
  Forall (fun r => expected !! dsn_Occurrence r = Some (dsn_Address r)) l /\
  s = list_to_set (dsn_Occurrence <$> l) ∪ seen.
Proof.
  revert seen. induction l as [|r l IH]; intros seen; cbn [handoff_bound fmap list_fmap list_to_set].
  { rewrite (left_id_L ∅ (∪)). split.
    - intros [= <-]. split_and!; try done; [constructor|]. intros ? []%elem_of_nil.
    - by intros (_ & _ & _ & _ & ->). }
  rewrite !Forall_cons, NoDup_cons. unfold named at 1.
  destruct (TrimSpace (dsn_Occurrence r) =? "")%string eqn:E1; cbn [orb].
  { apply String.eqb_eq in E1. split; [done|]. by intros [[[? _] _] _]. }
  destruct (TrimSpace (dsn_Address r) =? "")%string eqn:E2; cbn [orb].
  { apply String.eqb_eq in E2. split; [done|]. by intros [[[_ ?] _] _]. }
  apply String.eqb_neq in E1, E2. case_bool_decide as E3.
  { split; [done|]. intros (_ & _ & Hs & _). destruct (Hs r); [by left|done]. }
  case_bool_decide as E4; [|split; [done|]; by intros (_ & _ & _ & [? _] & _)].
  rewrite IH. split.
  - intros (H1 & H2 & H3 & H4 & ->). split_and!; try done.
    + intros Hin. apply list_elem_of_fmap in Hin as (r' & Er & Hr'). specialize (H3 r' Hr').
      rewrite Er in H3. clear -H3. set_solver.
    + intros r' [->|Hr']%elem_of_cons; [done|]. specialize (H3 r' Hr'). clear -H3. set_solver.
    + clear. set_solver.
  - intros ([_ H1] & [H2 H2'] & H3 & [_ H4] & ->). split_and!; try done.
    + intros r' Hr'. assert (dsn_Occurrence r' <> dsn_Occurrence r) as Hne.
      { intros Er. apply H2. rewrite <- Er. by apply list_elem_of_fmap_2. }
      specialize (H3 r' ltac:(by right)). clear -H3 Hne. set_solver.
    + clear. set_solver.
Qed.

(** The envelope as validateDSNHandoff sees it. *)
Lemma expected_spec msg id a :
  NoDup (recipientOccurrences msg) ->
  expected_occurrences msg !! id = Some a <-> ((id, a) ∈ zip (recipientOccurrences msg) (m_To msg)).
Proof.
  intros Hn. unfold expected_occurrences. pose proof (recipientOccurrences_length msg) as Hl.
  assert (NoDup (zip (recipientOccurrences msg) (m_To msg)).*1) as Hn' by (by rewrite fst_zip by lia).
  revert Hn'. generalize (zip (recipientOccurrences msg) (m_To msg)) as l. clear.
  assert (forall l (acc : gmap string string), NoDup l.*1 ->
    foldl (fun m '(i, x) => <[i := x]> m) acc l !! id = Some a <->
    ((id, a) ∈ l) \/ ((id ∉ l.*1) /\ acc !! id = Some a)) as H.
  { induction l as [|[i x] l IH]; intros acc Hn; cbn [foldl].
    - split; [intros; right; split; [by apply not_elem_of_nil|done]|by intros [[]%elem_of_nil|[_ ?]]].
    - apply NoDup_cons in Hn as [Hi Hn]. cbn in Hi. rewrite IH by done. rewrite elem_of_cons. cbn.
      rewrite not_elem_of_cons. destruct (decide (id = i)) as [->|Hne].
      + rewrite lookup_insert_eq. split.
        * intros [?|[_ [= <-]]]; auto.
        * intros [[[= <-]|?]|[[? _] _]]; auto; done.
      + rewrite lookup_insert_ne by done. split.
        * intros [?|[? ?]]; auto.
        * intros [[[= -> _]|?]|[[_ ?] ?]]; auto; done. }
  intros l Hn. rewrite H by done. rewrite lookup_empty. split; [by intros [?|[_ ?]]|by left].
Qed.
Lemma expected_size msg :
  NoDup (recipientOccurrences msg) -> size (expected_occurrences msg) = length (m_To msg).
Proof.
  intros Hn. pose proof (recipientOccurrences_length msg) as Hl.
  assert (dom (expected_occurrences msg) = list_to_set (recipientOccurrences msg)) as Hd.
  { apply set_eq. intros id. rewrite elem_of_dom, elem_of_list_to_set. unfold is_Some.
    setoid_rewrite expected_spec; [|done]. split.
    - intros [a Ha]. by apply elem_of_zip_l in Ha.
    - intros Hin. rewrite <- (fst_zip (recipientOccurrences msg) (m_To msg)) in Hin by lia.
      apply list_elem_of_fmap in Hin as ([i a] & -> & Hin). by exists a. }
  rewrite <- size_dom, Hd, size_list_to_set by done. done.
Qed.

Lemma seen_size (l : list dsnRecipient) :
  NoDup (dsn_Occurrence <$> l) -> size (list_to_set (dsn_Occurrence <$> l) ∪ ∅ : gset string) = length l.
Proof. intros Hn. rewrite (right_id_L ∅ (∪)), size_list_to_set by done. apply length_fmap. Qed.

Lemma handoff_accepted msg h :
  NoDup (recipientOccurrences msg) -> TrimSpace (ho_ID h) <> "" ->
  ho_State h = "pending" \/ ho_State h = "complete" -> ho_Permanent h <> [] ->
  ho_ID h = handoffID msg (ho_Permanent h) ->
  Forall named (ho_Permanent h ++ ho_Temporary h ++ ho_Delivered h) ->
  key_of <$> (ho_Permanent h ++ ho_Temporary h ++ ho_Delivered h) ≡ₚ zip (recipientOccurrences msg) (m_To msg) ->
  validateDSNHandoff msg h = Ok tt.
Proof.
  intros Hn Hid Hst Hp Hh Hnamed Hkeys. unfold validateDSNHandoff.
  rewrite (proj2 (String.eqb_neq _ _) Hid).
  replace (negb (ho_State h =? "pending")%string && negb (ho_State h =? "complete")%string)%bool with false
    by (by destruct Hst as [->| ->]).
  destruct (ho_Permanent h) as [|k ks] eqn:Ek; [done|]. rewrite <- Ek in *. clear Hp.
  set (l := ho_Permanent h ++ ho_Temporary h ++ ho_Delivered h) in *.
  pose proof (recipientOccurrences_length msg) as Hlen.
  assert (dsn_Occurrence <$> l ≡ₚ recipientOccurrences msg) as Hocc.
  { rewrite <- (fst_zip (recipientOccurrences msg) (m_To msg)) by lia. by rewrite <- Hkeys, <- list_fmap_compose. }
  assert (NoDup (dsn_Occurrence <$> l)) as Hnd by (by rewrite Hocc).
  assert (handoff_bound (expected_occurrences msg) ∅ l = Ok (list_to_set (dsn_Occurrence <$> l) ∪ ∅)) as Hb.
  { apply handoff_bound_spec. split; [done|]. split; [done|]. split; [intros; apply not_elem_of_empty|].
    split; [|done].
    apply Forall_forall. intros r Hr. apply expected_spec; [done|]. rewrite <- Hkeys.
    apply list_elem_of_fmap. by exists r. }
  rewrite Hb. cbn [mbind result_bind]. rewrite seen_size, expected_size by done.
  replace (length l) with (length (m_To msg)).
  2:{ rewrite <- Hlen, <- Hocc. apply length_fmap. }
  by rewrite Nat.eqb_refl, Hh, String.eqb_refl.
Qed.
End Handoffs.

Lemma process_body_resumed `{U : UnicodeTables} `{J : Json} `{DG : Digest} {S : Type} `{SB : StorageBackend S}
    (rd : round) msg (p p1 : Processor S) :
  resumeDSNHandoff rd msg p = (Ok true, p1) -> process_body rd msg p = (Ok tt, p1).
Proof. intros H. unfold process_body, mbind, M_bind. by rewrite H. Qed.

(** ** Properties of a round *)

(** C5 (no recipient is forgotten).  A worker processes a message that no handoff is
    pending for, and any call to the store may fail at any point, on any backend that
    keeps its contract.  Then the worker ends normally, the message is not marked as in
    process any more, and the message is still queued with its body for all its
    recipients; or the engine has accepted a report of the permanent failures (where there
    is an engine and a sender) and the message is queued for exactly the recipients to
    retry, or gone when there are none; or, only with a retention of zero, the message was
    deleted after the engine was asked to report the recipients that were left.  The
    engine's answer to that last request is not looked at ([given_up_unreported]). *)
Theorem processMessage_accounts `{U : UnicodeTables} `{J : Json} `{DG : Digest} {S : Type} `{BL : BackendLaws S}
    (rd : round) (msg : Message) (content : string) (p p' : Processor S) (r : result unit)
    (Hheld : holds Active msg content (store_of p)) (Hnew : annotation msg dsnHandoffAnnotation = "")
    (Hrun : processMessage rd msg p = (r, p')) :
  let so := sorted_delivery rd msg content in
  r = Ok tt /\ (m_ID msg ∉ pr_processing p') /\
  exists calls, pr_bounces p' = pr_bounces p ++ calls /\
    (accounted rd msg content (notified rd msg (so_permanent so)) (so_temporary so) calls (store_of p') \/
     kept_or_given_up rd msg content calls (store_of p')).
Proof.
  rewrite processMessage_split in Hrun. injection Hrun as <- <-.
  destruct (process_body_wp rd msg content (started p) Hheld Hnew) as [Hr (calls & Hc & Ha)].
  split; [exact Hr|]. split; [apply finished_not_processing|]. exists calls. by split.
Qed.

(** An interrupted handoff is not delivered again: whatever the delivery handler is, the
    worker does the same.  Whatever call fails, the message keeps all its recipients, or
    the handoff has been completed. *)
Lemma resumed_handoff_safe `{U : UnicodeTables} `{J : Json} `{DG : Digest} {S : Type} `{BL : BackendLaws S}
    (rd : round) (msg : Message) (content : string) (p p' : Processor S) (r : result unit)
    (Hheld : holds Active msg content (store_of p)) (Hhand : annotation msg dsnHandoffAnnotation <> "")
    (Hengine : rd_bounceEngine rd <> None) (Hrun : processMessage rd msg p = (r, p')) :
  (forall deliver, processMessage (mkRound (rd_now rd) (rd_jitter rd) (rd_MaxRetries rd) (rd_retentionHours rd)
     (rd_workerID rd) deliver (rd_bounceEngine rd) (rd_suppressor rd) (rd_feedbackRecorder rd)
     (rd_feedbackAddresses rd)) msg p = (r, p')) /\
  r = Ok tt /\ (m_ID msg ∉ pr_processing p') /\
  exists calls, pr_bounces p' = pr_bounces p ++ calls /\
    match decode_handoff (annotation msg dsnHandoffAnnotation) with
    | Some h => if is_ok (validateDSNHandoff msg h) then resumed rd msg content h calls (store_of p')
                else survives (m_ID msg) (m_To msg) content (store_of p')
    | None => survives (m_ID msg) (m_To msg) content (store_of p')
    end.
Proof.
  destruct (resumeDSNHandoff_wp rd msg content (started p) Hheld Hhand Hengine) as [Hr (calls & Hc & Ha)].
  destruct (resumeDSNHandoff rd msg (started p)) as [r1 p1] eqn:E. cbn [fst snd] in *. subst r1.
  rewrite processMessage_split, (process_body_resumed rd _ _ _ E) in Hrun. injection Hrun as <- <-. split.
  - intros deliver. rewrite processMessage_split.
    rewrite (process_body_resumed (mkRound _ _ _ _ _ deliver _ _ _ _) _ _ _ E). done.
  - split; [done|]. split; [apply finished_not_processing|]. exists calls. by split.
Qed.

(** What a valid handoff is.  A handoff that passes validation divides the current
    envelope: every recipient occurrence is in exactly one of its three sets, with its
    address; somebody failed for good; and its ID is derived from exactly these. *)
Theorem validateDSNHandoff_sound `{J : Json} `{DG : Digest} (msg : Message) (h : dsnHandoff)
    (Hocc : NoDup (recipientOccurrences msg)) (Hvalid : validateDSNHandoff msg h = Ok tt) :
  key_of <$> (ho_Permanent h ++ ho_Temporary h ++ ho_Delivered h)
    ≡ₚ zip (recipientOccurrences msg) (m_To msg) /\
  ho_Permanent h <> [] /\ ho_ID h = handoffID msg (ho_Permanent h) /\
  (ho_State h = "pending" \/ ho_State h = "complete").
Proof.
  unfold validateDSNHandoff in Hvalid. destruct (TrimSpace (ho_ID h) =? "")%string; [done|].
  destruct (_ && _)%bool eqn:Est; [done|]. destruct (ho_Permanent h) as [|k ks] eqn:Ek; [done|].
  rewrite <- Ek in *. set (l := ho_Permanent h ++ _) in *.
  destruct (handoff_bound _ ∅ l) as [seen|] eqn:Eb; [|done]. cbn [mbind result_bind] in Hvalid.
  apply handoff_bound_spec in Eb as (_ & Hnd & _ & Hbound & ->).
  rewrite seen_size, expected_size in Hvalid by done.
  destruct (length l =? length (m_To msg))%nat eqn:El; [|done]. apply Nat.eqb_eq in El. cbn [negb] in Hvalid.
  destruct (ho_ID h =? _)%string eqn:Eid; [|done]. apply String.eqb_eq in Eid. split_and!.
  - apply submseteq_length_Permutation.
    + apply NoDup_submseteq.
      * apply (NoDup_fmap_1 fst). by rewrite <- list_fmap_compose.
      * intros x Hx. apply list_elem_of_fmap in Hx as (r & -> & Hr). apply expected_spec; [done|].
        rewrite Forall_forall in Hbound. by apply Hbound.
    + rewrite length_zip, length_fmap, recipientOccurrences_length. lia.
  - by rewrite Ek.
  - done.
  - destruct (ho_State h =? "pending")%string eqn:E1; [left; by apply String.eqb_eq|].
    destruct (ho_State h =? "complete")%string eqn:E2; [right; by apply String.eqb_eq|done].
Qed.

(** C30 (a handoff can be resumed).  The handoff a worker stores, pending or complete, is
    found again by the next one: it decodes to itself and passes validation, as long as
    the occurrences are distinct, nothing is blank, and the strings are UTF-8. *)
Theorem handoff_resumes `{U : UnicodeTables} `{J : Json} {JL : JsonLaws} `{DG : Digest} (msg : Message)
    (res : option DeliveryResult) (err : option delivery_error) (state : string)
    (Hocc : NoDup (recipientOccurrences msg))
    (Hnamed : Forall (fun s => TrimSpace s <> "") (recipientOccurrences msg ++ m_To msg))
    (Hstate : state = "pending" \/ state = "complete") :
  let so := sort_outcomes (m_Annotations msg) (recipientOccurrences msg)
              (dr_RecipientOutcomes (fst (normalizeDeliveryResult msg res err))) in
  let h := mkHandoff (handoffID msg (so_permanent so)) state (so_permanent so) (so_temporary so)
             (so_deliveredR so) in
  so_permanent so <> [] -> handoff_utf8 h ->
  annotation (annotated msg h) dsnHandoffAnnotation <> "" /\
  decode_handoff (annotation (annotated msg h) dsnHandoffAnnotation) = Some h /\
  validateDSNHandoff (annotated msg h) h = Ok tt.
Proof.
  cbv zeta. unfold normalizeDeliveryResult. cbv zeta. cbn [dr_RecipientOutcomes update fst].
  set (given := dr_RecipientOutcomes (default _ res)).
  fold (assigned (m_To msg) given). fold (sorted_from msg given). set (so := sorted_from msg given).
  intros Hperm Hutf. set (h := mkHandoff _ _ _ _ _) in *.
  assert (annotation (annotated msg h) dsnHandoffAnnotation = encode_handoff h) as Ea.
  { unfold annotation, annotated. cbn. by rewrite lookup_insert_eq. }
  rewrite Ea. split; [apply json_nonempty|]. split; [by apply json_handoff|].
  assert (recipientOccurrences (annotated msg h) = recipientOccurrences msg) as Eo.
  { unfold recipientOccurrences, annotation, annotated. cbn. by rewrite lookup_insert_ne. }
  assert (ho_Permanent h ++ ho_Temporary h ++ ho_Delivered h ≡ₚ all_of so) as Hall.
  { unfold all_of. cbn. solve_Permutation. }
  pose proof (sorted_from_keys msg given) as Hk. fold so in Hk.
  apply handoff_accepted; rewrite ?Eo; try done; [|by rewrite Hall].
  rewrite Hall. apply Forall_forall. intros r Hr.
  assert (key_of r ∈ zip (recipientOccurrences msg) (m_To msg)) as Hz.
  { rewrite <- Hk. by apply list_elem_of_fmap_2. }
  rewrite Forall_forall in Hnamed. split; apply Hnamed, elem_of_app.
  - left. by apply elem_of_zip_l in Hz.
  - right. by apply elem_of_zip_r in Hz.
Qed.

(** ** Examples *)

(** An encoding that satisfies the laws: the bits of a number that codes the value. *)
#[global] Instance dsnRecipient_countable : Countable dsnRecipient.
Proof.
  refine (inj_countable' (fun r => (dsn_Occurrence r, dsn_Address r, dsn_Diagnostic r))
            (fun '(a, b, c) => mkDsn a b c) _). by intros [].
Defined.

#[global] Instance dsnHandoff_eq_dec : EqDecision dsnHandoff.
Proof. intros [? ? ? ? ?] [? ? ? ? ?]. solve_decision. Defined.

#[global] Instance dsnHandoff_countable : Countable dsnHandoff.
Proof.
  refine (inj_countable' (fun h => (ho_ID h, ho_State h, ho_Permanent h, ho_Temporary h, ho_Delivered h))
            (fun '(a, b, c, d, e) => mkHandoff a b c d e) _). by intros [].
Defined.

Fixpoint bits (p : positive) : string :=
  match p with
  | xH => "."
  | xO q => String "0"%char (bits q)
  | xI q => String "1"%char (bits q)
  end.

Fixpoint unbits (s : string) : option positive :=
  match s with
  | EmptyString => None
  | String c s' =>
      if Ascii.eqb c "."%char then Some xH
      else (if Ascii.eqb c "0"%char then xO else xI) <$> unbits s'
  end.

Lemma unbits_bits p : unbits (bits p) = Some p.
Proof. induction p as [q IH|q IH|]; cbn; by rewrite ?IH. Qed.

#[local] Instance bits_json : Json := {|
  encode_handoff h := bits (encode h);
  decode_handoff s := unbits s ≫= decode;
  encode_ids l := bits (encode l);
  decode_ids s := default [] (unbits s ≫= decode)
|}.

#[local] Instance bits_json_laws : JsonLaws.
Proof.
  split; cbn.
  - intros h _. rewrite unbits_bits. apply decode_encode.
  - intros h. by destruct (encode h).
  - intros l _. rewrite unbits_bits. cbn. by rewrite decode_encode.
Qed.

#[local] Instance toy_hash : Digest := fun s => s.
#[local] Existing Instance ascii_tables.
#[local] Instance files_at_5000 : StorageBackend Files := FileStorageBackend 5000.

Definition letter : Message :=
  (note "m1") <| m_To := ["bob@b.example"; "eve@c.example"; "dan@d.example"] |>.

(** Bob got it, eve's server says later, dan is unknown. *)
Definition mixed_delivery : DeliveryResult :=
  mkResult true None "" "" 0 ""
    [outcome "bob@b.example" RecipientDelivered "2.0.0" "";
     outcome "eve@c.example" RecipientTemporaryFailure "4.5.1" "greylisted";
     outcome "dan@d.example" RecipientPermanentFailure "5.1.1" "550 no such user"] "smtp".

Definition engine : BounceEngine :=
  mkBounceEngine (fun _ _ => Some (mkBounceResult true "b" None))
    (Some (fun _ _ id => Some (mkBounceResult true id None))).

Definition a_round : round :=
  mkRound 5000 (fun _ => 0) 13 72 "w1" (fun _ _ => (Some mixed_delivery, None)) (Some engine) true false [].

(** A processor whose store fails at call [n]. *)
Definition processor_on (n : nat) (msg : Message) : Processor Files :=
  mkProcessor (mkManager (failing n (snd (createMessageIfAbsent msg note_body empty_queue)))
                 (mkStats 1 0 0 0 5 1000) defaultRetrySchedule)
    0 0 0 0 {[m_ID msg]} ∅ [] [] [].

Lemma processMessage_accounts_witness :
  let p := processor_on 20 letter in
  let out := processMessage a_round letter p in
  let so := sorted_delivery a_round letter "hello" in
  (dsn_Address <$> so_temporary so = ["eve@c.example"] /\ dsn_Address <$> so_permanent so = ["dan@d.example"]) /\
  fst out = Ok tt /\ (m_ID letter ∉ pr_processing (snd out)) /\
  exists calls, pr_bounces (snd out) = pr_bounces p ++ calls /\
    (accounted a_round letter "hello" (notified a_round letter (so_permanent so)) (so_temporary so) calls
       (store_of (snd out)) \/
     kept_or_given_up a_round letter "hello" calls (store_of (snd out))).
Proof.
  split; [by vm_compute|].
  refine (processMessage_accounts a_round letter "hello" (processor_on 20 letter) _ _ _ _ (surjective_pairing _));
    [|by vm_compute].
  split; [by vm_compute|]. split; [done|]. split; [by vm_compute|]. intros [] ?; by vm_compute.
Defined.

(** With a retention of zero a message whose report cannot be queued is deleted all the
    same: its recipients are neither delivered, nor queued, nor reported. *)
Definition broken_engine : BounceEngine :=
  mkBounceEngine (fun _ _ => Some (mkBounceResult false "" (Some "queue down"))) None.
Definition refusing_round : round :=
  mkRound 5000 (fun _ => 0) 13 0 "w1" (fun _ _ => (None, Some (plain_error "550 no such user"))) (Some broken_engine) true false [].

Example given_up_unreported :
  let p' := snd (processMessage refusing_round letter (processor_on 40 letter)) in
  ((bounced_ok ∘ bc_result) <$> pr_bounces p') = [false] /\
  f_meta (store_of p') = ∅ /\ f_data (store_of p') = ∅.
Proof. by vm_compute. Qed.

(** The letter after a worker stopped between the intent and the notification. *)
Definition pending_handoff : dsnHandoff :=
  let so := sorted_from letter (dr_RecipientOutcomes mixed_delivery) in
  mkHandoff (handoffID letter (so_permanent so)) "pending" (so_permanent so) (so_temporary so) (so_deliveredR so).
Definition half_done : Message := annotated letter pending_handoff.

Lemma letter_occurrences : NoDup (recipientOccurrences letter).
Proof. apply (bool_decide_unpack _). by vm_compute. Qed.

Lemma validateDSNHandoff_sound_witness :
  let h := pending_handoff in
  key_of <$> (ho_Permanent h ++ ho_Temporary h ++ ho_Delivered h)
    ≡ₚ zip (recipientOccurrences letter) (m_To letter) /\
  ho_Permanent h <> [] /\ ho_ID h = handoffID letter (ho_Permanent h) /\
  (ho_State h = "pending" \/ ho_State h = "complete").
Proof. apply (validateDSNHandoff_sound letter pending_handoff letter_occurrences). by vm_compute. Defined.

Lemma handoff_resumes_witness :
  annotation half_done dsnHandoffAnnotation <> "" /\
  decode_handoff (annotation half_done dsnHandoffAnnotation) = Some pending_handoff /\
  validateDSNHandoff half_done pending_handoff = Ok tt.
Proof.
  refine (handoff_resumes letter (Some mixed_delivery) None "pending" letter_occurrences _ (or_introl eq_refl) _ _).
  - apply (bool_decide_unpack _). by vm_compute.
  - by vm_compute.
  - split; [by vm_compute|]. split; [by vm_compute|]. apply (bool_decide_unpack _). by vm_compute.
Defined.
