(* ===== verification/QueueLiveness.v ===== *)
(** * QueueLiveness: no message stays in the queue for ever (internal/queue: processor.go, manager.go)

    QueueProcessor.v shows that nothing is lost, whatever fails; this file shows that
    something happens when nothing fails.  [LiveBackend] is a store that answers;
    over it every run of a worker decides about its message, and in a fair execution of
    the workers and of the deferred-queue ticker every message reaches its end. *)

From stdpp Require Import sorting gmap.
From S2P Require Import Prelude GoStrings QueueStorage QueueManager QueueProcessor.

Open Scope string_scope.
Open Scope list_scope.
Open Scope Z_scope.

(** ** Stores that answer *)

(** What happens to the message [id] is not seen by the others. *)
Definition besides {S} `{BL : BackendLaws S} (id : string) (s s' : S) : Prop :=
  forall q m b, m_ID m <> id -> holds q m b s -> holds q m b s'.

#[export] Instance besides_preorder {S} `{BL : BackendLaws S} id : PreOrder (besides id).
Proof. split; [by intros s q m b|]. intros s s' s'' H1 H2 q m b Hne H. by apply H2, H1. Qed.

(** In a store that is ready, operations on the messages it holds succeed and leave it
    ready, and a queue lists what it holds. *)
Class LiveBackend (S : Type) `{BL : BackendLaws S} := {
  ready : S -> Prop;
  live_unique q q' m m' b b' s :
    holds q m b s -> holds q' m' b' s -> m_ID m = m_ID m' -> q = q' /\ m = m' /\ b = b';
  live_Retrieve q m b s : ready s -> holds q m b s -> sb_Retrieve (m_ID m) s = (Ok m, s);
  live_RetrieveContent q m b s : ready s -> holds q m b s -> sb_RetrieveContent (m_ID m) s = (Ok b, s);
  live_Update q m m' b s :
    ready s -> holds q m b s -> m_ID m' = m_ID m -> m_QueueType m' = q ->
    exists s', sb_Update m' s = (Ok tt, s') /\ ready s' /\ holds q m' b s' /\ besides (m_ID m) s s';
  live_Move q m b to s :
    ready s -> holds q m b s -> to <> q ->
    exists s', sb_Move (m_ID m) q to s = (Ok tt, s') /\ ready s' /\
      holds to (m <| m_QueueType := to |>) b s' /\ besides (m_ID m) s s';
  live_remove q m b s :
    ready s -> holds q m b s ->
    exists s', remove_stored m b s = (Ok tt, s') /\ ready s' /\ consumed (m_ID m) s' /\ besides (m_ID m) s s';
  live_List q s :
    ready s -> exists l, sb_List q s = (Ok l, s) /\ NoDup (m_ID <$> l) /\
      forall m, m ∈ l <-> exists b, holds q m b s
}.

Lemma wp_at {S A} (m : M S A) (Q : result A -> S -> Prop) s r s' : m s = (r, s') -> Q r s' -> wp m Q s.
Proof. unfold wp. by intros ->. Qed.

(** The operation at hand returns, as [tac] shows. *)
Ltac answer tac := eapply wp_at; [tac|]; cbv beta iota.

(** ** The manager *)

Section Manager.
Context `{U : UnicodeTables} {S : Type} `{LB : LiveBackend S}.
Variables (now : Z) (jitter : Z -> Z).

(** A manager with such a store and a retry schedule of delays. *)
Definition able (mg : Manager S) : Prop :=
  ready (mg_store mg) /\ Forall (Z.le 0) (mg_retrySchedule mg).

(** The manager is able still, and the other messages are as they were. *)
Definition tended (id : string) (mg mg' : Manager S) : Prop :=
  able mg' /\ besides id (mg_store mg) (mg_store mg').

Lemma AddAttempt_live q m b res e mg :
  able mg -> holds q m b (mg_store mg) ->
  wp (AddAttempt now (m_ID m) res e) (fun r mg' => r = Ok tt /\ tended (m_ID m) mg mg' /\
    exists m', same_envelope m m' /\ holds q m' b (mg_store mg')) mg.
Proof.
  intros [Hr Hs] H. unfold AddAttempt. wp_step. apply on_store_wp. answer ltac:(by eapply live_Retrieve).
  apply on_store_wp. cbv zeta. set (m1 := if (e =? "")%string then _ else _).
  assert (same_envelope m m1) as Hsame by (unfold m1; by destruct (e =? "")%string).
  destruct (live_Update q m m1 b (mg_store mg) Hr H) as (s' & E & Hr' & H' & Hb).
  { apply Hsame. } { destruct Hsame as (_ & _ & _ & -> & _). by eapply holds_queue. }
  answer ltac:(exact E). split; [done|]. split; [done|]. by exists m1.
Qed.

Lemma remove_consume m b mg s' :
  remove_stored m b (mg_store mg) = (Ok tt, s') -> consume m b mg = (Ok tt, mg <| mg_store := s' |>).
Proof.
  unfold remove_stored, consume, mbind, M_bind, attempt, werr, on_store, mret, M_ret.
  destruct sb_DeleteMessageWithTombstone as [f|]; [by intros ->|].
  destruct sb_RecordEnqueueTombstone as [f|]; [destruct (f m b (mg_store mg)) as [[[]|e] s1]; [|done]|]; cbn;
    (destruct (sb_Delete (m_ID m) _) as [[[]|e'] s2]; [|done]; cbn;
     destruct (sb_DeleteContent (m_ID m) s2) as [r s3]; by intros [= ->]).
Qed.

Lemma DeleteMessage_live q m b mg :
  able mg -> holds q m b (mg_store mg) ->
  wp (DeleteMessage now (m_ID m)) (fun r mg' => r = Ok tt /\ tended (m_ID m) mg mg' /\
    consumed (m_ID m) (mg_store mg')) mg.
Proof.
  intros [Hr Hs] H. unfold DeleteMessage. wp_step. apply werr_wp. answer ltac:(by eapply live_Retrieve).
  wp_step. apply werr_wp. answer ltac:(by eapply live_RetrieveContent).
  destruct (live_remove q m b (mg_store mg) Hr H) as (s' & E & Hr' & Hc & Hb).
  wp_step. answer ltac:(by apply remove_consume). unfold upd_stats. wp_step. by split_and!.
Qed.

Lemma MoveMessage_live q m b target reason mg :
  able mg -> holds q m b (mg_store mg) -> target <> q ->
  wp (MoveMessage now jitter (m_ID m) target reason) (fun r mg' => r = Ok tt /\ tended (m_ID m) mg mg' /\
    holds target (moved_message now jitter (mg_retrySchedule mg) target reason m) b (mg_store mg')) mg.
Proof.
  intros [Hr Hs] H Ht. unfold MoveMessage. wp_step. apply werr_wp. answer ltac:(by eapply live_Retrieve).
  do 2 wp_step. wp_step. apply werr_wp. rewrite (holds_queue _ _ _ _ H).
  destruct (live_Move q m b target (mg_store mg) Hr H Ht) as (s2 & E2 & Hr2 & H2 & Hb2).
  answer ltac:(exact E2). wp_step. apply werr_wp.
  destruct (moved_message_envelope now jitter (mg_retrySchedule mg) target reason m) as (Ei & _ & Eq).
  destruct (live_Update target _ (moved_message now jitter (mg_retrySchedule mg) target reason m) b s2 Hr2 H2 Ei Eq)
    as (s3 & E3 & Hr3 & H3 & Hb3).
  answer ltac:(exact E3). unfold upd_stats. wp_step.
  split; [done|]. split; [|done]. split; [done|]. etrans; [exact Hb2|exact Hb3].
Qed.

Lemma ListMessages_live q mg :
  able mg ->
  wp (ListMessages q) (fun r mg' => exists l, r = Ok l /\ able mg' /\ mg_store mg' = mg_store mg /\ NoDup (m_ID <$> l) /\
    forall m, m ∈ l <-> exists b, holds q m b (mg_store mg)) mg.
Proof.
  intros [Hr Hs]. destruct (live_List q (mg_store mg) Hr) as (l & E & Hn & Hl). unfold ListMessages.
  wp_step. apply werr_wp. answer ltac:(exact E). wp_step. exists (merge_sort list_before l).
  split; [done|]. split; [done|]. split; [done|]. pose proof (merge_sort_Permutation list_before l) as Hp. split.
  - by rewrite Hp.
  - intros m. by rewrite Hp.
Qed.
End Manager.

(** ** A worker decides *)

(** The text of an error is the reason of the move, and an empty reason is none. *)
Definition worded (err : option delivery_error) : Prop := from_option (fun e => de_text e <> "") True err.

(** A round that works: notifications can be queued, errors say something, the clock is
    past the zero time, which stands for no time, and the random part of a delay does not
    make it negative. *)
Record working (rd : round) : Prop := {
  wk_bounces : exists be, rd_bounceEngine rd = Some be /\
    (forall msg reason, bounced_ok (GenerateBounceIfNeeded be msg reason) = true) /\
    (forall f msg reason id, GenerateBounceIdempotent be = Some f -> bounced_ok (f msg reason id) = true);
  wk_worded msg content : let '(res, err) := rd_deliver rd msg content in
    worded err /\ worded (res ≫= dr_Error);
  wk_clock : 0 < rd_now rd;
  wk_jitter d : 0 <= d -> 0 <= d + rd_jitter rd d
}.

Section Worker.
Context `{U : UnicodeTables} `{J : Json} `{DG : Digest} {S : Type} `{LB : LiveBackend S}.
Variable rd : round.
Hypothesis Hw : working rd.

(** What a worker can make of message [m]: done with; given up; handed to the operator;
    or to be retried, one more time and not too often. *)
Definition decided (m : Message) (b : string) (s : S) : Prop :=
  consumed (m_ID m) s \/
  (exists m', m_ID m' = m_ID m /\ (holds Failed m' b s \/ holds Hold m' b s)) \/
  (exists m', m_ID m' = m_ID m /\ holds Deferred m' b s /\ m_RetryCount m < rd_MaxRetries rd /\
     m_RetryCount m' = m_RetryCount m + 1 /\ m_NextRetry m' <> 0).

(** What becomes of a message that could not be delivered, with all its recipients: given
    up, and kept as failed if there is a retention, or to be retried. *)
Definition given_up (m : Message) (b : string) (s : S) : Prop :=
  (rd_retentionHours rd = 0 /\ consumed (m_ID m) s) \/
  (exists m', m_ID m' = m_ID m /\ m_To m' = m_To m /\ holds Failed m' b s).
Definition undelivered (m : Message) (b : string) (s : S) : Prop :=
  given_up m b s \/
  (exists m', m_ID m' = m_ID m /\ m_To m' = m_To m /\ holds Deferred m' b s /\
     m_RetryCount m < rd_MaxRetries rd /\ m_RetryCount m' = m_RetryCount m + 1 /\ m_NextRetry m' <> 0).

Lemma undelivered_ext m m' b s :
  m_ID m = m_ID m' -> m_To m = m_To m' -> m_RetryCount m = m_RetryCount m' -> undelivered m b s -> undelivered m' b s.
Proof. unfold undelivered, given_up. by intros -> -> ->. Qed.

Lemma undelivered_decided m b s : undelivered m b s -> decided m b s.
Proof.
  intros [[[_ ?]|(m' & ? & _ & ?)]|(m' & ? & _ & ?)]; [by left|right; left; eauto|right; right; eauto].
Qed.

(** The end of a run: whoever is not [id] has seen nothing, and [P] is true of the store. *)
Definition ended_as (P : S -> Prop) (id : string) (p p' : Processor S) : Prop :=
  able (pr_manager p') /\ besides id (store_of p) (store_of p') /\ P (store_of p').

Definition ended (m : Message) (b : string) : Processor S -> Processor S -> Prop :=
  ended_as (decided m b) (m_ID m).

Lemma ended_as_from (P P' : S -> Prop) id p p1 p' :
  (forall s, P s -> P' s) -> besides id (store_of p) (store_of p1) -> ended_as P id p1 p' -> ended_as P' id p p'.
Proof. intros HP Hb (Hr & Hb' & Hd). split; [done|]. split; [|by apply HP]. etrans; [exact Hb|exact Hb']. Qed.

(** Nothing but counters and logs lies between the two processors of [E]. *)
Ltac same_manager E := unfold ended, ended_as, store_of in *; rewrite <- E in *.

Lemma ended_from m m' b p p1 p' :
  m_ID m' = m_ID m -> m_RetryCount m' = m_RetryCount m -> besides (m_ID m) (store_of p) (store_of p1) ->
  ended m' b p1 p' -> ended m b p p'.
Proof.
  intros Hi Hc Hb (Hr & Hb' & Hd). unfold ended, ended_as, decided in *. rewrite Hi, Hc in *.
  split; [done|]. split; [|done]. etrans; [exact Hb|exact Hb'].
Qed.

Lemma AddAttempt_then m b res e (Q : result unit -> Processor S -> Prop) p :
  able (pr_manager p) -> holds Active m b (store_of p) ->
  (forall p' m', same_envelope m m' -> able (pr_manager p') -> holds Active m' b (store_of p') ->
     besides (m_ID m) (store_of p) (store_of p') -> Q (Ok tt) p') ->
  wp (logged (on_manager (AddAttempt (rd_now rd) (m_ID m) res e))) Q p.
Proof.
  intros Hr H HQ. apply logged_wp, on_manager_wp. eapply wp_mono; [by apply (AddAttempt_live (rd_now rd) Active)|].
  cbv beta. intros r mg (_ & [Hr' Hb] & m' & He & Hm). by eapply HQ.
Qed.

Lemma store_update_then m m' b (Q : result unit -> Processor S -> Prop) p :
  able (pr_manager p) -> holds Active m b (store_of p) -> m_ID m' = m_ID m -> m_QueueType m' = Active ->
  (forall p', able (pr_manager p') -> holds Active m' b (store_of p') ->
     besides (m_ID m) (store_of p) (store_of p') -> pr_bounces p' = pr_bounces p -> Q (Ok tt) p') ->
  wp (store_update m') Q p.
Proof.
  intros [Hr Hs] H Hi Hq HQ. unfold store_update. apply on_manager_wp, on_store_wp.
  destruct (live_Update Active m m' b _ Hr H Hi Hq) as (s' & E & Hr' & H' & Hb). answer ltac:(exact E). by apply HQ.
Qed.

Lemma DeleteMessage_ends m b p :
  able (pr_manager p) -> holds Active m b (store_of p) ->
  wp (logged (on_manager (DeleteMessage (rd_now rd) (m_ID m)))) (fun r p' => r = Ok tt /\
    ended_as (consumed (m_ID m)) (m_ID m) p p') p.
Proof.
  intros Hr H. apply logged_wp, on_manager_wp. eapply wp_mono; [by apply (DeleteMessage_live (rd_now rd) Active m b)|].
  cbv beta. by intros r mg (_ & [Hr' Hb] & Hc).
Qed.

Lemma MoveMessage_ends m b q reason p :
  able (pr_manager p) -> holds Active m b (store_of p) -> q <> Active ->
  wp (logged (on_manager (MoveMessage (rd_now rd) (rd_jitter rd) (m_ID m) q reason)))
     (fun r p' => r = Ok tt /\
        ended_as (fun s => exists m', m_ID m' = m_ID m /\ m_To m' = m_To m /\ holds q m' b s) (m_ID m) p p') p.
Proof.
  intros Hr H Hq. apply logged_wp, on_manager_wp.
  eapply wp_mono; [by apply (MoveMessage_live (rd_now rd) (rd_jitter rd) Active m b q)|].
  cbv beta. intros r mg (_ & [Hr' Hb] & Hm). split; [done|]. split; [done|]. split; [done|].
  eexists. split_and!; [apply moved_message_envelope..|exact Hm].
Qed.

Lemma calculateNextRetry_later schedule n :
  Forall (Z.le 0) schedule -> calculateNextRetry (rd_now rd) (rd_jitter rd) schedule n <> 0.
Proof.
  intros Hs. unfold calculateNextRetry. cbv zeta.
  set (l := match schedule with [] => defaultRetrySchedule | _ => schedule end). set (i := Nat.min _ _).
  assert (0 <= nth i l 0) as Hd.
  { assert (Forall (Z.le 0) l) as Hl.
    { unfold l. destruct schedule; [|done]. unfold defaultRetrySchedule. repeat (constructor; [lia|]). constructor. }
    clearbody l i. revert i. induction Hl; intros [|i]; cbn; auto; lia. }
  pose proof (wk_clock rd Hw). pose proof (wk_jitter rd Hw _ Hd). lia.
Qed.

Lemma MoveMessage_defers m b reason p :
  able (pr_manager p) -> holds Active m b (store_of p) -> reason <> "" -> m_RetryCount m < rd_MaxRetries rd ->
  wp (logged (on_manager (MoveMessage (rd_now rd) (rd_jitter rd) (m_ID m) Deferred reason)))
     (fun r p' => r = Ok tt /\ ended_as (undelivered m b) (m_ID m) p p') p.
Proof.
  intros Hr H Hne Hlt. apply logged_wp, on_manager_wp.
  eapply wp_mono; [by apply (MoveMessage_live (rd_now rd) (rd_jitter rd) Active m b Deferred)|].
  cbv beta. intros r mg (_ & [Hr' Hb] & Hm). split; [done|]. split; [done|]. split; [done|]. right.
  eexists. split; [apply moved_message_envelope|]. split; [apply moved_message_envelope|]. split; [exact Hm|]. split; [done|].
  unfold moved_message. rewrite (proj2 (String.eqb_neq _ _) Hne). cbv zeta. split; [apply Z.add_comm|].
  apply calculateNextRetry_later, Hr.
Qed.

Lemma moveToFailed_ends msg m b reason p :
  able (pr_manager p) -> holds Active m b (store_of p) -> m_ID msg = m_ID m ->
  wp (moveToFailed rd msg reason) (fun r p' => r = Ok tt /\ ended_as (given_up m b) (m_ID m) p p') p.
Proof.
  intros Hr H Hi. unfold moveToFailed. do 2 wp_step. wp_step.
  assert (wp (match rd_bounceEngine rd with
              | Some be => bounce_if_needed be msg reason ≫= fun _ => mret tt
              | None => mret tt
              end) (fun r p' => r = Ok tt /\ pr_manager p' = pr_manager p) (p <| pr_failed ::= Z.add 1 |>)) as Hb.
  { destruct (rd_bounceEngine rd); [unfold bounce_if_needed|]; by repeat wp_step. }
  eapply wp_mono; [exact Hb|]. cbv beta. intros r p1 [-> E]. rewrite Hi. same_manager E.
  destruct (_ =? 0) eqn:Ez.
  - eapply wp_mono; [by apply (DeleteMessage_ends m b)|]. cbv beta. intros r' p2 [-> He]. split; [done|].
    eapply (ended_as_from _ _ _ p1); [|done|exact He]. intros s ?. left. by apply Z.eqb_eq in Ez.
  - eapply wp_mono; [by apply (MoveMessage_ends m b Failed)|]. cbv beta. intros r' p2 [-> He]. split; [done|].
    eapply (ended_as_from _ _ _ p1); [|done|exact He]. by right.
Qed.

Lemma handleDeliveryFailure_ends msg m b err p :
  able (pr_manager p) -> holds Active m b (store_of p) -> m_ID msg = m_ID m -> m_RetryCount msg = m_RetryCount m ->
  de_text err <> "" ->
  wp (handleDeliveryFailure rd msg err) (fun r p' => r = Ok tt /\ ended_as (undelivered m b) (m_ID m) p p') p.
Proof.
  intros Hr H Hi Hc Hne. unfold handleDeliveryFailure. do 3 wp_step. rewrite Hi.
  apply (AddAttempt_then m b); [done..|]. intros p1 m1 (E1 & _ & E3 & _ & E5 & _) Hr1 H1 Hb1.
  assert (forall s, undelivered m1 b s -> undelivered m b s) as Hsame by (intros s; by apply undelivered_ext).
  assert (forall (P : S -> Prop) (Q : M (Processor S) unit), (forall s, P s -> undelivered m1 b s) ->
            wp Q (fun r p' => r = Ok tt /\ ended_as P (m_ID m1) p1 p') p1 ->
            wp Q (fun r p' => r = Ok tt /\ ended_as (undelivered m b) (m_ID m) p p') p1) as Hend.
  { intros P Q HP HQ. eapply wp_mono; [exact HQ|]. cbv beta. intros r p2 [-> He]. split; [done|]. rewrite <- E1 in Hb1 |- *.
    eapply (ended_as_from P _ _ p p1); [by auto|done|done]. }
  assert (forall reason, wp (moveToFailed rd msg reason) (fun r p' => r = Ok tt /\ ended_as (undelivered m b) (m_ID m) p p') p1) as Hf.
  { intros reason. apply (Hend (given_up m1 b)); [by left|]. apply moveToFailed_ends; congruence. }
  destruct (negb _); [apply Hf|]. destruct (_ <=? _) eqn:El; [apply Hf|]. apply Z.leb_gt in El.
  apply (Hend (undelivered m1 b)); [done|]. rewrite <- E1. apply MoveMessage_defers; [done..|]. congruence.
Qed.

Lemma observePartial_then msg m b d t k (Q : result unit -> Processor S -> Prop) p :
  able (pr_manager p) -> holds Active m b (store_of p) -> m_ID msg = m_ID m ->
  (forall p' m', same_envelope m m' -> able (pr_manager p') -> holds Active m' b (store_of p') ->
     besides (m_ID m) (store_of p) (store_of p') -> Q (Ok tt) p') ->
  wp (observePartial rd msg d t k) Q p.
Proof.
  intros Hr H Hi HQ. unfold observePartial. destruct d; [wp_step; by apply (HQ p m)|]. rewrite Hi. by apply (AddAttempt_then m b).
Qed.

Lemma finalizeNoTemporary_ends msg m b k p :
  able (pr_manager p) -> holds Active m b (store_of p) -> m_ID msg = m_ID m ->
  wp (finalizeNoTemporary rd msg k) (fun r p' => r = Ok tt /\ ended_as (consumed (m_ID m)) (m_ID m) p p') p.
Proof.
  intros Hr H Hi. unfold finalizeNoTemporary. do 2 wp_step. rewrite Hi.
  match goal with |- wp _ _ ?x => set (p1 := x) end. assert (pr_manager p1 = pr_manager p) as E by (unfold p1; by destruct k).
  same_manager E. by apply (DeleteMessage_ends m b).
Qed.

Lemma handleDeliverySuccess_ends m b p :
  able (pr_manager p) -> holds Active m b (store_of p) ->
  wp (handleDeliverySuccess rd m) (fun r p' => r = Ok tt /\ ended m b p p') p.
Proof.
  intros Hr H. unfold handleDeliverySuccess. do 3 wp_step. apply (AddAttempt_then m b); [done..|].
  intros p1 m1 (E1 & _ & _ & _ & E5 & _) Hr1 H1 Hb1. rewrite <- E1. eapply wp_mono; [by apply (DeleteMessage_ends m1 b)|].
  cbv beta. intros r p2 [-> He]. split; [done|]. rewrite E1 in He.
  eapply (ended_as_from _ _ _ p p1); [|done|exact He]. by left.
Qed.

Lemma generateBounce_works be msg reason id (Q : result (option BounceResult) -> Processor S -> Prop) p :
  rd_bounceEngine rd = Some be ->
  (forall p' r, pr_manager p' = pr_manager p -> bounced_ok r = true ->
     (exists c, pr_bounces p' = pr_bounces p ++ [c] /\ bc_result c = r /\ bc_msg c = msg) -> Q (Ok r) p') ->
  wp (generateBounce be msg reason id) Q p.
Proof.
  intros Hbe HQ. destruct (wk_bounces rd Hw) as (be' & E & H1 & H2). assert (be' = be) as -> by congruence.
  unfold generateBounce, bounce_if_needed. destruct (GenerateBounceIdempotent be) as [f|] eqn:Ef;
    do 3 wp_step; apply HQ; eauto.
Qed.

(** The notification goes through: the message is held still, marked as notified. *)
Lemma hand_off_then m be so err b (Q : result (option Message) -> Processor S -> Prop) p :
  rd_bounceEngine rd = Some be -> able (pr_manager p) -> holds Active m b (store_of p) ->
  (forall p' m', m_ID m' = m_ID m -> m_RetryCount m' = m_RetryCount m -> able (pr_manager p') ->
     holds Active m' b (store_of p') -> besides (m_ID m) (store_of p) (store_of p') -> Q (Ok (Some m')) p') ->
  wp (hand_off m be so err) Q p.
Proof.
  intros Hbe Hr H HQ. pose proof (holds_queue _ _ _ _ H) as Hq. unfold hand_off. do 2 wp_step.
  eapply (store_update_then m); [done..|]. intros p1 Hr1 H1 Hb1 _. cbv beta iota. wp_step.
  apply generateBounce_works; [done|]. intros p2 r E2 Hok _. rewrite Hok. cbv beta iota zeta. cbn [negb]. do 2 wp_step.
  same_manager E2. eapply (store_update_then (annotated m _)); [done..|]. intros p3 Hr3 H3 Hb3 _.
  wp_step. apply HQ; try done. by etrans.
Qed.

Lemma finish_outcomes_ends m so err b p :
  able (pr_manager p) -> holds Active m b (store_of p) -> worded err ->
  wp (finish_outcomes rd m so err) (fun r p' => r = Ok tt /\ ended m b p p') p.
Proof.
  intros Hr H Hwd. pose proof (holds_queue _ _ _ _ H) as Hq. unfold finish_outcomes. destruct (so_temporary so) as [|t ts] eqn:Et.
  - wp_step. apply (observePartial_then m m b); [done..|]. intros p1 m1 (E1 & _ & _ & _ & E5 & _) Hr1 H1 Hb1.
    eapply wp_mono; [by apply (finalizeNoTemporary_ends m m1 b)|]. cbv beta. intros r p2 [-> He]. split; [done|].
    rewrite E1 in He. eapply (ended_as_from _ _ _ p p1); [|done|exact He]. by left.
  - cbv zeta. do 2 wp_step. set (m' := _ <| m_UpdatedAt := _ |>).
    apply (store_update_then m m' b); [done..|]. intros p1 Hr1 H1 Hb1 _. cbv beta iota.
    wp_step. apply (observePartial_then m' m' b); [done..|]. intros p2 m2 (E1 & _ & _ & _ & E5 & _) Hr2 H2 Hb2.
    eapply wp_mono; [apply (handleDeliveryFailure_ends m' m2 b); [done..|]; by destruct err|]. cbv beta.
    intros r p3 [-> He]. split; [done|]. rewrite E1 in He. eapply (ended_as_from _ _ _ p p2); [|by etrans|exact He].
    intros s Hu. apply undelivered_decided in Hu. unfold decided in *. by rewrite E1, E5 in Hu.
Qed.

Lemma handleRecipientOutcomes_ends m res err b p :
  able (pr_manager p) -> holds Active m b (store_of p) -> worded err ->
  wp (handleRecipientOutcomes rd m res err) (fun r p' => r = Ok tt /\ ended m b p p') p.
Proof.
  intros Hr H Hwd. unfold handleRecipientOutcomes. cbv zeta.
  set (so := sort_outcomes _ _ _). case_bool_decide; [by apply handleDeliverySuccess_ends|].
  wp_step. assert (wp (recordSuppressions rd (so_permanent so) (dr_RecipientOutcomes res))
                     (fun r p' => r = Ok tt /\ pr_manager p' = pr_manager p) p) as Hs.
  { unfold recordSuppressions. destruct (negb _); by wp_step. }
  eapply wp_mono; [exact Hs|]. cbv beta. intros r p1 [-> E1]. same_manager E1. wp_step.
  destruct (wk_bounces rd Hw) as (be & Ebe & _). rewrite Ebe.
  destruct (_ || _)%bool; [wp_step; by apply finish_outcomes_ends|].
  apply (hand_off_then m be so err b); [done..|]. intros p2 m2 Hi Hc Hr2 H2 Hb2. cbv beta iota.
  eapply wp_mono; [by apply finish_outcomes_ends|]. cbv beta. intros r p3 [-> He]. split; [done|].
  by eapply ended_from.
Qed.

(** On hold with all its recipients. *)
Definition on_hold (m : Message) (b : string) (s : S) : Prop :=
  exists m', m_ID m' = m_ID m /\ m_To m' = m_To m /\ holds Hold m' b s.

Lemma quarantine_ends m b e p :
  able (pr_manager p) -> holds Active m b (store_of p) ->
  wp (quarantineInvalidDSNHandoff rd m e ≫= fun _ => mret true) (fun r p' => r = Ok true /\
    ended_as (on_hold m b) (m_ID m) p p') p.
Proof.
  intros Hr H. wp_step. unfold quarantineInvalidDSNHandoff. eapply wp_mono; [by apply (MoveMessage_ends m b Hold)|].
  cbv beta. intros r p' [-> He]. by wp_step.
Qed.

Lemma resume_bounce_then m be h b (Q : result (option Message) -> Processor S -> Prop) p :
  rd_bounceEngine rd = Some be -> able (pr_manager p) -> holds Active m b (store_of p) ->
  (forall p' m', m_ID m' = m_ID m -> m_To m' = m_To m -> m_RetryCount m' = m_RetryCount m -> able (pr_manager p') ->
     holds Active m' b (store_of p') -> besides (m_ID m) (store_of p) (store_of p') ->
     bounced (engine_reported m (ho_Permanent h)) p p' -> Q (Ok (Some m')) p') ->
  wp (resume_bounce m be h) Q p.
Proof.
  intros Hbe Hr H HQ. pose proof (holds_queue _ _ _ _ H) as Hq. unfold resume_bounce. cbv zeta. wp_step.
  apply generateBounce_works; [done|]. intros p2 r E2 Hok Hb. rewrite Hok. cbn [negb]. do 2 wp_step.
  same_manager E2. eapply (store_update_then m); [done..|]. intros p3 Hr3 H3 Hb3 Hbs3.
  wp_step. apply HQ; try done. destruct Hb as (c & Eb & Hc & Hm). exists [c]. split; [by rewrite Hbs3|].
  left. by rewrite Hc, Hm.
Qed.

(** What a resumed handoff makes of the message: gone when there is nobody to retry,
    else on as an undelivered message to those. *)
Definition completed (m : Message) (h : dsnHandoff) (b : string) (s : S) : Prop :=
  match ho_Temporary h with
  | [] => consumed (m_ID m) s
  | _ => undelivered (m <| m_To := dsn_Address <$> ho_Temporary h |>) b s
  end.

Lemma resume_rest_ends m m1 h b p p1 :
  m_ID m1 = m_ID m -> m_RetryCount m1 = m_RetryCount m -> able (pr_manager p1) ->
  holds Active m1 b (store_of p1) -> besides (m_ID m) (store_of p) (store_of p1) ->
  wp (resume_rest rd m1 h) (fun r p' => r = Ok true /\ ended_as (completed m h b) (m_ID m) p p') p1.
Proof.
  intros Hi Hc Hr1 H1 Hb1. pose proof (holds_queue _ _ _ _ H1) as Hq. unfold resume_rest, completed. rewrite <- Hi in *.
  wp_step. apply (observePartial_then m1 m1 b); [done..|]. intros p2 m2 (E1 & _ & _ & E4 & E5 & _) Hr2 H2 Hb2.
  assert (besides (m_ID m1) (store_of p) (store_of p2)) as Hb by (by etrans). destruct (ho_Temporary h) as [|t ts].
  - wp_step. eapply wp_mono; [by apply (finalizeNoTemporary_ends m1 m2 b)|]. cbv beta. intros r p3 [-> He]. wp_step.
    split; [done|]. rewrite E1 in He. by eapply ended_as_from; [|exact Hb|exact He].
  - do 2 wp_step. eapply (store_update_then m2); [done|done|done|done|]. intros p3 Hr3 H3 Hb3 _. cbv beta iota.
    wp_step. eapply wp_mono; [by eapply handleDeliveryFailure_ends|]. cbv beta. intros r p4 [-> He]. wp_step. split; [done|].
    rewrite E1 in Hb3. eapply ended_as_from; [|by etrans|exact He]. intros s. by apply undelivered_ext.
Qed.

(** What becomes of a message with a handoff. *)
Definition resumed_end (m : Message) (b : string) (s : S) : Prop :=
  match decode_handoff (annotation m dsnHandoffAnnotation) with
  | Some h => if is_ok (validateDSNHandoff m h) then completed m h b s else on_hold m b s
  | None => on_hold m b s
  end.

(** The notification a pending handoff stands for. *)
Definition resumed_report (m : Message) (p p' : Processor S) : Prop :=
  forall h, decode_handoff (annotation m dsnHandoffAnnotation) = Some h -> is_ok (validateDSNHandoff m h) = true ->
    ho_State h = "pending" -> bounced (engine_reported m (ho_Permanent h)) p p'.

Lemma resumeDSNHandoff_ends m b p :
  able (pr_manager p) -> holds Active m b (store_of p) -> annotation m dsnHandoffAnnotation <> "" ->
  wp (resumeDSNHandoff rd m) (fun r p' => r = Ok true /\ ended_as (resumed_end m b) (m_ID m) p p' /\ resumed_report m p p') p.
Proof.
  intros Hr H Hne. unfold resumeDSNHandoff, resumed_end, resumed_report. cbv zeta. rewrite (proj2 (String.eqb_neq _ _) Hne).
  destruct (decode_handoff _) as [h|].
  2:{ eapply wp_mono; [by apply (quarantine_ends m b)|]. cbv beta. intros r p' [-> He]. by split_and!. }
  destruct (validateDSNHandoff m h) as [u|e] eqn:Ev; cbn [is_ok].
  2:{ eapply wp_mono; [by apply (quarantine_ends m b)|]. cbv beta. intros r p' [-> He]. split_and!; [done..|].
      intros h' [= <-]. by rewrite Ev. }
  destruct (wk_bounces rd Hw) as (be & Ebe & _).
  assert (forall m1 p1 (R : Processor S -> Prop), holds Active m1 b (store_of p1) -> m_ID m1 = m_ID m -> m_To m1 = m_To m ->
    m_RetryCount m1 = m_RetryCount m -> able (pr_manager p1) -> besides (m_ID m) (store_of p) (store_of p1) ->
    (forall p', bounced (fun _ => True) p1 p' -> R p') ->
    wp (resume_rest rd m1 h) (fun r p' => r = Ok true /\ ended_as (completed m h b) (m_ID m) p p' /\ R p') p1) as Hrest.
  { intros m1 p1 R H1 Hi Ht Hc Hr1 Hb1 HR. pose proof (resume_rest_ends m m1 h b p p1 Hi Hc Hr1 H1 Hb1) as Hl.
    pose proof (resume_rest_grows rd m1 h b p1 H1) as Hs. unfold wp in *. destruct (resume_rest rd m1 h p1). naive_solver. }
  wp_step. destruct (ho_State h =? "pending")%string eqn:Ep.
  - rewrite Ebe. apply (resume_bounce_then m be h b); [done..|]. intros p1 m1 Hi Ht Hc Hr1 H1 Hb1 Hrep. cbv beta iota.
    apply Hrest; try done. intros p' (calls' & Hb' & _) h' [= <-] _ _. destruct Hrep as (calls & Hb & Hrep).
    exists (calls ++ calls'). rewrite Hb', Hb, (assoc_L (++)). split; [done|]. apply Exists_app. by left.
  - wp_step. apply Hrest; try done. intros p' _ h' [= <-] _ E. by rewrite E in Ep.
Qed.

Lemma resumed_end_decided m b s : resumed_end m b s -> decided m b s.
Proof.
  assert (on_hold m b s -> decided m b s) as Hh.
  { intros (m' & ? & _ & ?). right; left. eauto. }
  unfold resumed_end, completed. destruct (decode_handoff _) as [h|]; [|done]. destruct (is_ok _); [|done].
  destruct (ho_Temporary h); [by left|]. intros Hu%undelivered_decided. exact Hu.
Qed.

Lemma normalized_worded m content :
  let '(res, err) := rd_deliver rd m content in worded (snd (normalizeDeliveryResult m res err)).
Proof.
  pose proof (wk_worded rd Hw m content) as H. destruct (rd_deliver rd m content) as [res err]. destruct H as [H1 H2].
  unfold normalizeDeliveryResult. cbn [snd]. destruct err as [e|]; [done|].
  unfold worded in *. destruct res as [d|]; [|done]. cbn in *. revert H2. generalize (dr_Error d) as o. intros [e|] H2; [done|]. by destruct (dr_Success d).
Qed.

Lemma processMessage_ends m b p :
  able (pr_manager p) -> holds Active m b (store_of p) ->
  fst (processMessage rd m p) = Ok tt /\ ended m b p (snd (processMessage rd m p)).
Proof.
  intros Hr H. rewrite processMessage_split. cbn [fst snd].
  assert (wp (process_body rd m) (fun r p' => r = Ok tt /\ ended m b (started p) p') (started p)) as Hb; [|exact Hb].
  destruct (decide (annotation m dsnHandoffAnnotation = "")) as [En|Hne].
  2:{ unfold process_body. wp_step. eapply wp_mono; [by apply (resumeDSNHandoff_ends m b (started p))|]. cbv beta.
      intros r p1 (-> & He & _). wp_step. split; [done|]. eapply ended_as_from; [|done|exact He]. apply resumed_end_decided. }
  unfold process_body, resumeDSNHandoff. rewrite En. change ("" =? "")%string with true. cbv zeta iota. do 4 wp_step. apply on_manager_wp, on_store_wp.
  answer ltac:(exact (live_RetrieveContent Active m b _ (proj1 Hr) H)). wp_step.
  match goal with |- wp _ _ ?x => set (p1 := x) end. assert (pr_manager p1 = pr_manager p) as E by done.
  assert (wp (offerFeedbackReport rd m b) (fun r p' => r = Ok tt /\ pr_manager p' = pr_manager p1) p1) as Hof.
  { unfold offerFeedbackReport. repeat case_match; by wp_step. }
  eapply wp_mono; [exact Hof|]. cbv beta. intros r p2 [-> E2]. pose proof (normalized_worded m b) as Hwd.
  destruct (rd_deliver rd m b) as [res0 err0]. destruct (normalizeDeliveryResult m res0 err0) as [res err].
  assert (pr_manager p2 = pr_manager p) as E3 by (by rewrite E2, E). change (ended m b (started p)) with (ended m b p).
  clear E E2 Hof. clearbody p1. same_manager E3.
  by apply handleRecipientOutcomes_ends.
Qed.
End Worker.

(** C29 (an interrupted handoff is finished, not delivered again).  A worker with a bounce
    engine takes an active message that carries a handoff.  Whatever the delivery handler
    is, it does the same.  Whatever call fails, the message keeps all its recipients, or
    the handoff is completed and the recipients to retry are queued or given up.  When the
    store answers and the engine reports: a handoff that does not decode or validate puts
    the message on hold with all its recipients; a valid one has its failures reported to
    the sender, if that was pending, and then the message is gone when nobody is left to
    retry, and else it is deferred, or given up, with exactly the recipients to retry. *)
Theorem resumed_handoff_accounts `{U : UnicodeTables} `{J : Json} `{DG : Digest} {S : Type} `{LB : LiveBackend S}
    (rd : round) (msg : Message) (content : string) (p p' : Processor S) (r : result unit)
    (Hheld : holds Active msg content (store_of p)) (Hhand : annotation msg dsnHandoffAnnotation <> "")
    (Hengine : rd_bounceEngine rd <> None) (Hrun : processMessage rd msg p = (r, p')) :
  (forall deliver, processMessage (mkRound (rd_now rd) (rd_jitter rd) (rd_MaxRetries rd) (rd_retentionHours rd)
     (rd_workerID rd) deliver (rd_bounceEngine rd) (rd_suppressor rd) (rd_feedbackRecorder rd)
     (rd_feedbackAddresses rd)) msg p = (r, p')) /\
  r = Ok tt /\ (m_ID msg ∉ pr_processing p') /\
  (exists calls, pr_bounces p' = pr_bounces p ++ calls /\
    match decode_handoff (annotation msg dsnHandoffAnnotation) with
    | Some h => if is_ok (validateDSNHandoff msg h) then resumed rd msg content h calls (store_of p')
                else survives (m_ID msg) (m_To msg) content (store_of p')
    | None => survives (m_ID msg) (m_To msg) content (store_of p')
    end) /\
  (working rd -> able (pr_manager p) ->
     resumed_end rd msg content (store_of p') /\ resumed_report msg p p').
Proof.
  destruct (resumed_handoff_safe rd msg content p p' r Hheld Hhand Hengine Hrun) as (H1 & H2 & H3 & H4).
  split_and!; [done..|]. intros Hw Hr.
  destruct (resumeDSNHandoff_ends rd Hw msg content (started p) Hr Hheld Hhand) as (Ht & He & Hrep).
  destruct (resumeDSNHandoff rd msg (started p)) as [r1 p1] eqn:E. cbn [fst snd] in *. subst r1.
  rewrite processMessage_split, (process_body_resumed rd _ _ _ E) in Hrun. injection Hrun as _ <-.
  split; [apply He|exact Hrep].
Qed.

(** ** The ticker wakes what is due *)

Section Ticker.
Context `{U : UnicodeTables} {S : Type} `{LB : LiveBackend S}.
Variable rd : round.

Definition due (m : Message) : bool := (negb (m_NextRetry m =? 0) && (m_NextRetry m <? rd_now rd))%bool.

(** What a pass over [msgs] makes of a message that is held. *)
Definition woken (msgs : list Message) (s s' : S) : Prop :=
  forall q m b, holds q m b s ->
    if bool_decide (m_ID m ∈ m_ID <$> msgs /\ due m = true)
    then exists m', m_ID m' = m_ID m /\ m_RetryCount m' = m_RetryCount m /\ holds Active m' b s'
    else holds q m b s'.

Lemma moved_to_active sched now jitter reason m :
  m_RetryCount (moved_message now jitter sched Active reason m) = m_RetryCount m.
Proof. unfold moved_message. by destruct (_ =? "")%string. Qed.

Lemma move_ready_live msgs p :
  able (pr_manager p) -> NoDup (m_ID <$> msgs) ->
  Forall (fun m => exists b, holds Deferred m b (store_of p)) msgs ->
  wp (move_ready rd msgs) (fun r p' => is_ok r = true /\ able (pr_manager p') /\ woken msgs (store_of p) (store_of p')) p.
Proof.
  revert p. induction msgs as [|h msgs IH]; intros p Hr Hn Hd; cbn [move_ready].
  { wp_step. split; [done|]. split; [done|]. intros q m b H. rewrite bool_decide_false; [done|]. cbn. by intros [[]%elem_of_nil _]. }
  rewrite fmap_cons in Hn. apply NoDup_cons in Hn as [Hh Hn]. apply Forall_cons in Hd as [[bh Hb] Hd]. fold (due h).
  destruct (due h) eqn:Edue.
  - wp_step. apply wp_attempt, on_manager_wp.
    eapply wp_mono; [by apply (MoveMessage_live (rd_now rd) (rd_jitter rd) Deferred h bh Active)|]. cbv beta.
    intros r mg (-> & [Hr1 Hb1] & Hm). wp_step. set (p1 := p <| pr_manager := mg |>).
    assert (forall m, m ∈ msgs -> m_ID m <> m_ID h) as Hne.
    { intros m Hin He. apply Hh. exact (eq_ind _ (fun x => x ∈ m_ID <$> msgs) (list_elem_of_fmap_2 m_ID _ _ Hin) _ He). }
    eapply wp_mono; [apply (IH p1); [done|done|]|].
    { rewrite Forall_forall in Hd |- *. intros m Hin. destruct (Hd m Hin) as [b H]. exists b. apply Hb1; auto. }
    cbv beta. intros [n|e] p2 (Hok & Hr2 & Hwk); [|done]. cbv beta iota. wp_step. split; [done|]. split; [done|].
    intros q m b H. destruct (decide (m_ID m = m_ID h)) as [He|Hi].
    + destruct (live_unique _ _ _ _ _ _ _ H Hb He) as (-> & -> & ->). rewrite bool_decide_true by (split; [by left|done]).
      specialize (Hwk Active _ bh Hm). rewrite bool_decide_false in Hwk.
      2:{ rewrite (proj1 (moved_message_envelope _ _ _ _ _ _)). by intros [? _]. }
      eexists. split_and!; [..|exact Hwk]; [apply moved_message_envelope|apply moved_to_active].
    + specialize (Hwk q m b (Hb1 q m b Hi H)).
      assert (bool_decide (m_ID m ∈ m_ID <$> h :: msgs /\ due m = true) = bool_decide (m_ID m ∈ m_ID <$> msgs /\ due m = true)) as ->; [|done].
      apply bool_decide_ext. rewrite fmap_cons, elem_of_cons. tauto.
  - eapply wp_mono; [by apply IH|]. cbv beta. intros r p2 (Hok & Hr2 & Hwk). split; [done|]. split; [done|].
    intros q m b H. specialize (Hwk q m b H).
    assert (bool_decide (m_ID m ∈ m_ID <$> h :: msgs /\ due m = true) = bool_decide (m_ID m ∈ m_ID <$> msgs /\ due m = true)) as ->; [|done].
    apply bool_decide_ext. rewrite fmap_cons, elem_of_cons. split; [|tauto]. intros [[He|?] ?]; [|tauto].
    destruct (live_unique _ _ _ _ _ _ _ H Hb He) as (_ & -> & _). congruence.
Qed.

Lemma processDeferredMessages_live p :
  able (pr_manager p) ->
  wp (processDeferredMessages rd) (fun r p' => is_ok r = true /\ able (pr_manager p') /\
    forall q m b, holds q m b (store_of p) ->
      if bool_decide (q = Deferred /\ due m = true)
      then exists m', m_ID m' = m_ID m /\ m_RetryCount m' = m_RetryCount m /\ holds Active m' b (store_of p')
      else holds q m b (store_of p')) p.
Proof.
  intros Hr. unfold processDeferredMessages. wp_step. apply on_manager_wp.
  eapply wp_mono; [by apply (ListMessages_live Deferred)|]. cbv beta. intros r mg (l & -> & Ha & Es & Hn & Hl).
  set (p1 := p <| pr_manager := mg |>). assert (store_of p1 = store_of p) as E by exact Es. cbv beta iota.
  assert (forall m, m ∈ l <-> exists b, holds Deferred m b (store_of p)) as Hl' by exact Hl. clear Hl. rewrite <- E in *.
  eapply wp_mono; [apply (move_ready_live l p1); [done|done|]|].
  { apply Forall_forall. intros m Hin. by apply Hl'. }
  cbv beta. intros r p2 (Hok & Hr2 & Hwk). split; [done|]. split; [done|]. intros q m b H. specialize (Hwk q m b H).
  assert (bool_decide (q = Deferred /\ due m = true) = bool_decide (m_ID m ∈ m_ID <$> l /\ due m = true)) as ->; [|done].
  apply bool_decide_ext. rewrite list_elem_of_fmap. split.
  - intros [-> ?]. split; [|done]. exists m. rewrite Hl'. eauto.
  - intros [(m' & Hi & Hin) ?]. apply Hl' in Hin as [b' H']. by destruct (live_unique _ _ _ _ _ _ _ H H' Hi) as [-> _].
Qed.
End Ticker.

(** ** Fair executions *)

Inductive label :=
  | Work (rd : round) (msg : Message)      (** a worker on a message of the active queue *)
  | Tick (rd : round)                      (** processDeferredMessages *)
  | Elsewhere.                             (** anything that leaves the queued messages alone *)

Definition works_on (id : string) (l : label) : bool :=
  match l with Work _ msg => (m_ID msg =? id)%string | _ => false end.

Section Executions.
Context `{U : UnicodeTables} `{J : Json} `{DG : Digest} {S : Type} `{LB : LiveBackend S}.
Variable MaxRetries : Z.

Inductive step : label -> Processor S -> Processor S -> Prop :=
  | step_Work rd msg b p :
      working rd -> rd_MaxRetries rd = MaxRetries -> holds Active msg b (store_of p) ->
      step (Work rd msg) p (snd (processMessage rd msg p))
  | step_Tick rd p : step (Tick rd) p (snd (processDeferredMessages rd p))
  | step_Elsewhere p p' :
      able (pr_manager p') -> (forall q m b, holds q m b (store_of p) -> holds q m b (store_of p')) ->
      step Elsewhere p p'.

Lemma step_ready l p p' : step l p p' -> able (pr_manager p) -> able (pr_manager p').
Proof.
  intros [rd msg b q Hw _ H|rd q|q q' H _] Hr; [| |done].
  - by destruct (processMessage_ends rd Hw msg b q Hr H) as [_ [? _]].
  - by destruct (processDeferredMessages_live rd q Hr) as [_ [? _]].
Qed.

(** A message that is not worked on stays active. *)
Lemma step_keeps_active l p p' m b :
  step l p p' -> able (pr_manager p) -> holds Active m b (store_of p) -> works_on (m_ID m) l = false ->
  holds Active m b (store_of p').
Proof.
  intros [rd msg b' q Hw _ H|rd q|q q' _ H] Hr Hm Hl; [| |by apply H].
  - destruct (processMessage_ends rd Hw msg b' q Hr H) as [_ (_ & Hb & _)]. apply String.eqb_neq in Hl. by apply Hb.
  - destruct (processDeferredMessages_live rd q Hr) as (_ & _ & H). specialize (H Active m b Hm).
    by rewrite bool_decide_false in H by (by intros [? _]).
Qed.

Lemma step_decides l p p' m b :
  step l p p' -> able (pr_manager p) -> holds Active m b (store_of p) -> works_on (m_ID m) l = true ->
  exists rd, rd_MaxRetries rd = MaxRetries /\ decided rd m b (store_of p').
Proof.
  intros [rd msg b' q Hw HM H|rd q|q q' _ H] Hr Hm Hl; [|done..]. apply String.eqb_eq in Hl.
  destruct (live_unique _ _ _ _ _ _ _ H Hm Hl) as (_ & -> & ->).
  destruct (processMessage_ends rd Hw m b q Hr H) as [_ (_ & _ & Hd)]. by exists rd.
Qed.

(** A deferred message stays so until a tick after its time, which wakes it. *)
Lemma step_deferred l p p' m b :
  step l p p' -> able (pr_manager p) -> holds Deferred m b (store_of p) ->
  (holds Deferred m b (store_of p') /\ forall rd, l = Tick rd -> due rd m = false) \/
  (exists m', m_ID m' = m_ID m /\ m_RetryCount m' = m_RetryCount m /\ holds Active m' b (store_of p')).
Proof.
  intros [rd msg b' q Hw _ H|rd q|q q' _ H] Hr Hm; [| |left; split; [by apply H|done]].
  - left. split; [|done]. destruct (processMessage_ends rd Hw msg b' q Hr H) as [_ (_ & Hb & _)]. apply Hb; [|done].
    intros He. by destruct (live_unique _ _ _ _ _ _ _ Hm H He).
  - destruct (processDeferredMessages_live rd q Hr) as (_ & _ & H). specialize (H Deferred m b Hm).
    case_bool_decide as Hd; [by right|]. left. split; [done|]. intros rd' [= <-]. destruct (due rd m); [|done]. by destruct Hd.
Qed.

Variables (e : nat -> Processor S) (ev : nat -> label).
Hypothesis Hrun : forall i, step (ev i) (e i) (e (Datatypes.S i)).
Hypothesis Hready : able (pr_manager (e 0%nat)).
(** Workers come to every active message, and the ticker ticks after every retry time. *)
Hypothesis Hwork : forall i m b, holds Active m b (store_of (e i)) ->
  exists j, (i <= j)%nat /\ works_on (m_ID m) (ev j) = true.
Hypothesis Htick : forall i m b, holds Deferred m b (store_of (e i)) ->
  exists j rd, (i <= j)%nat /\ ev j = Tick rd /\ m_NextRetry m < rd_now rd.

Lemma always_ready i : able (pr_manager (e i)).
Proof. induction i as [|i IH]; [done|]. by eapply step_ready. Qed.

Lemma active_decided i m b :
  holds Active m b (store_of (e i)) ->
  exists j rd, (i <= j)%nat /\ rd_MaxRetries rd = MaxRetries /\ decided rd m b (store_of (e j)).
Proof.
  intros H. destruct (Hwork i m b H) as (j & Hij & Hj). remember (j - i)%nat as n eqn:En.
  revert i H Hij En. induction n as [|n IH]; intros i H Hij En.
  - assert (i = j) as -> by lia. destruct (step_decides _ _ _ m b (Hrun j) (always_ready j) H Hj) as (rd & HM & Hd).
    exists (Datatypes.S j), rd. split; [lia|done].
  - destruct (works_on (m_ID m) (ev i)) eqn:Ei.
    + destruct (step_decides _ _ _ m b (Hrun i) (always_ready i) H Ei) as (rd & HM & Hd).
      exists (Datatypes.S i), rd. split; [lia|done].
    + destruct (IH (Datatypes.S i)) as (k & rd & Hk & HM & Hd); [|lia|lia|exists k, rd; split; [lia|done]].
      by eapply step_keeps_active; [apply Hrun|apply always_ready|..].
Qed.

Lemma deferred_woken i m b :
  holds Deferred m b (store_of (e i)) -> m_NextRetry m <> 0 ->
  exists j m', (i <= j)%nat /\ m_ID m' = m_ID m /\ m_RetryCount m' = m_RetryCount m /\
    holds Active m' b (store_of (e j)).
Proof.
  intros H Hz. destruct (Htick i m b H) as (j & rd & Hij & Hj & Hlt). remember (j - i)%nat as n eqn:En.
  revert i H Hij En. induction n as [|n IH]; intros i H Hij En;
    (destruct (step_deferred _ _ _ m b (Hrun i) (always_ready i) H) as [[Hk Hno]|(m' & ? & ? & ?)];
     [|exists (Datatypes.S i), m'; split; [lia|done]]).
  - assert (i = j) as -> by lia. specialize (Hno rd Hj). unfold due in Hno. apply andb_false_iff in Hno.
    destruct Hno as [Hno|Hno]; bool_facts; [done|lia].
  - destruct (IH (Datatypes.S i) Hk) as (k & m' & ? & ?); [lia|lia|]. exists k, m'. split; [lia|done].
Qed.

(** C6 (liveness). Every message leaves the queue.  Take any execution of workers, ticks of the
    deferred queue and other activity over a store that answers, in which a worker comes
    to every active message and the ticker ticks after every retry time.  In each round
    the delivery handler reports what it likes, but its errors have a text, and the
    round is [working]: there is a bounce engine whose notifications are all queued, the
    clock is past zero, and the jitter makes no delay negative.  Then a message that is
    active at some point is, at some later point, done with for good, or in the failed or
    the hold queue. *)
Theorem every_message_ends i m b :
  holds Active m b (store_of (e i)) ->
  exists j, (i <= j)%nat /\
    (consumed (m_ID m) (store_of (e j)) \/
     exists m', m_ID m' = m_ID m /\ (holds Failed m' b (store_of (e j)) \/ holds Hold m' b (store_of (e j)))).
Proof.
  remember (Z.to_nat (MaxRetries - m_RetryCount m)) as n eqn:En. revert i m En.
  induction n as [n IH] using lt_wf_ind. intros i m -> H.
  destruct (active_decided i m b H) as (j & rd & Hij & HM & [Hc|[Hf|(m' & Hi & Hd & Hlt & Hcnt & Hz)]]).
  - exists j. split; [done|]. by left.
  - exists j. split; [done|]. by right.
  - destruct (deferred_woken j m' b Hd Hz) as (k & m'' & Hjk & Hi' & Hcnt' & Ha).
    destruct (IH (Z.to_nat (MaxRetries - m_RetryCount m''))) with (i := k) (m := m'') as (l & Hkl & Hl); [lia|done|done|].
    exists l. split; [lia|]. assert (m_ID m'' = m_ID m) as E by congruence.
    destruct Hl as [Hl|(x & Ex & Hl)]; [left; exact (eq_ind _ (fun y => consumed y _) Hl _ E)|right].
    exists x. split; [congruence|done].
Qed.
End Executions.

(** ** The file store answers *)

Section Files.
Context `{DG : Digest}.
Variable now : Z.
#[local] Existing Instance FileStorageBackend.

Lemma unlink_meta_run fs q id :
  healthy_store fs ->
  unlink_meta q id fs = match f_meta fs !! (q, id) with
                        | Some _ => (Ok tt, fs <| f_meta ::= delete (q, id) |>)
                        | None => (Err ErrNotExist, fs)
                        end.
Proof.
  intros Hh. unfold unlink_meta. rewrite (bind_run _ _ _ _ _ (fault_run fs Hh _)).
  unfold mbind, M_bind, get. by destruct (f_meta fs !! (q, id)).
Qed.

Lemma Delete_run fs q id x :
  healthy_store fs -> validateMessageID id = Ok tt -> f_meta fs !! (q, id) = Some x ->
  (forall q', q' <> q -> f_meta fs !! (q', id) = None) ->
  Delete id fs = (Ok tt, fs <| f_meta ::= delete (q, id) |>).
Proof.
  intros Hh Hid Hq Ho. unfold Delete. rewrite (bind_run _ _ fs tt fs) by (unfold liftR; by rewrite Hid).
  generalize (all_queues q). generalize queueTypes. induction l as [|q' qs IH]; intros Hin; [by apply elem_of_nil in Hin|].
  cbn [delete_in]. unfold deleteInQueue.
  assert (forall r fs', unlink_meta q' id fs = (r, fs') -> healthy_store fs' ->
    (liftR (validateMessageID id) ≫= fun _ => wrap "failed to delete message file: " (unlink_meta q' id) ≫= fun _ =>
     fault "failed to sync queue directory") fs
    = (match r with Ok u => Ok tt | Err e => Err ("failed to delete message file: " +:+ e) end, fs')) as Hd.
  { intros r fs' E Hh'. unfold mbind, M_bind, liftR, wrap. rewrite Hid, E. destruct r as [[]|e]; [by rewrite fault_run|done]. }
  rewrite (unlink_meta_run fs q' id Hh) in Hd. destruct (decide (q' = q)) as [->|Hne].
  - rewrite Hq in Hd. by rewrite (attempt_run _ _ _ _ _ (Hd _ _ eq_refl Hh)).
  - rewrite (Ho q' Hne) in Hd. rewrite (attempt_run _ _ _ _ _ (Hd _ _ eq_refl Hh)).
    change (not_exist _) with true. cbv iota. apply IH. by apply elem_of_cons in Hin as [<-|?].
Qed.

Lemma DeleteContent_run fs id b :
  healthy_store fs -> validateMessageID id = Ok tt -> f_data fs !! id = Some b ->
  DeleteContent id fs = (Ok tt, fs <| f_data ::= delete id |>).
Proof.
  intros Hh Hid Hd. unfold DeleteContent. rewrite (bind_run _ _ fs tt fs) by (unfold liftR; by rewrite Hid).
  assert (unlink_data id fs = (Ok tt, fs <| f_data ::= delete id |>)) as E.
  { unfold unlink_data. rewrite (bind_run _ _ _ _ _ (fault_run fs Hh _)). unfold mbind, M_bind, get. by rewrite Hd. }
  rewrite (attempt_run _ _ _ _ _ E). apply fault_run. unfold healthy_store in *. exact Hh.
Qed.

Lemma DeleteMessageWithTombstone_run fs q m b :
  healthy_store fs -> file_holds q m b fs ->
  DeleteMessageWithTombstone now m b fs
  = (Ok tt, (marked now m b fs) <| f_meta ::= delete (q, m_ID m) |> <| f_data ::= delete (m_ID m) |>).
Proof.
  intros Hh [(Hid & Ht & Hd) (Hq & Hm & Ho)]. unfold DeleteMessageWithTombstone, EnsureDirectories, acquireEnqueueLock.
  do 2 rewrite (bind_run _ _ _ _ _ (fault_run fs Hh _)).
  assert (recordEnqueueTombstoneLocked now m b fs = (Ok tt, marked now m b fs)) as E.
  { unfold recordEnqueueTombstoneLocked, write_tomb, wrap, mbind, M_bind, gets, modify. rewrite (fault_run fs Hh).
    exact (fault_run (marked now m b fs) Hh _). }
  rewrite (bind_run _ _ _ _ _ E).
  rewrite (attempt_run _ _ _ _ _ (Delete_run (marked now m b fs) q (m_ID m) (Some m) Hh Hid Hm Ho)).
  apply (DeleteContent_run ((marked now m b fs) <| f_meta ::= delete (q, m_ID m) |>) (m_ID m) b); [|done|exact Hd]. unfold healthy_store in *. exact Hh.
Qed.

(** Nothing fails, and every metadata file is a message that is held. *)
Definition file_ready (fs : Files) : Prop :=
  healthy_store fs /\
  forall q id x, f_meta fs !! (q, id) = Some x -> exists m b, x = Some m /\ m_ID m = id /\ file_holds q m b fs.

(** Only files of message [id] have changed. *)
Definition touched (id : string) (fs fs' : Files) : Prop :=
  f_faults fs' = f_faults fs /\
  forall id', id' <> id -> (forall q, f_meta fs' !! (q, id') = f_meta fs !! (q, id')) /\
    f_data fs' !! id' = f_data fs !! id' /\ f_tomb fs' !! id' = f_tomb fs !! id'.

Lemma touched_besides id fs fs' q m b :
  touched id fs fs' -> m_ID m <> id -> file_holds q m b fs -> file_holds q m b fs'.
Proof.
  intros [_ Ht] Hne [(Hid & Htb & Hd) (Hq & Hm & Ho)]. destruct (Ht (m_ID m) Hne) as (E1 & E2 & E3).
  unfold file_holds, live, only_in. rewrite E2, E3, E1. split; [done|]. split; [done|]. split; [done|].
  intros q' Hq'. rewrite E1. by apply Ho.
Qed.

Lemma touched_ready id fs fs' :
  touched id fs fs' -> file_ready fs ->
  (forall q x, f_meta fs' !! (q, id) = Some x -> exists m b, x = Some m /\ m_ID m = id /\ file_holds q m b fs') ->
  file_ready fs'.
Proof.
  intros Ht [Hh Hr] Hid. split; [unfold healthy_store; by rewrite (proj1 Ht)|]. intros q id' x Hx.
  destruct (decide (id' = id)) as [->|Hne]; [by apply Hid|]. rewrite (proj1 (proj2 Ht id' Hne)) in Hx.
  destruct (Hr q id' x Hx) as (m & b & -> & <- & H). exists m, b. split_and!; [done|done|]. by eapply touched_besides.
Qed.

Lemma held_ready q m b fs fs' :
  touched (m_ID m) fs fs' -> file_ready fs -> file_holds q m b fs' -> file_ready fs'.
Proof.
  intros Ht Hr H. eapply touched_ready; [done..|]. intros q' x Hx. destruct (decide (q' = q)) as [->|Hne].
  - exists m, b. split_and!; [|done|done]. destruct H as [_ (_ & Hm & _)]. congruence.
  - destruct H as [_ (_ & _ & Ho)]. by rewrite Ho in Hx.
Qed.

Lemma listAt_ready q fs ids :
  healthy_store fs -> Forall (fun id => exists m b, m_ID m = id /\ file_holds q m b fs) ids ->
  exists l, listAt q ids fs = (Ok l, fs) /\ m_ID <$> l = ids /\ Forall (fun m => exists b, file_holds q m b fs) l.
Proof.
  intros Hh. induction 1 as [|id ids (m & b & <- & H) _ (l & El & Hl & Fl)]; [by exists []|].
  pose proof H as [(Hid & Ht & Hd) (Hq & Hm & Ho)]. exists (m :: l). cbn [listAt].
  rewrite (bind_run _ _ fs tt fs) by (unfold liftR; by rewrite Hid).
  rewrite (attempt_run _ _ _ _ _ (read_meta_run fs Hh q (m_ID m))), Hm. cbn [found].
  rewrite (bind_run _ _ fs m fs) by (unfold liftR; subst q; by rewrite decodeMessage_stored).
  rewrite (bind_run _ _ _ _ _ El). cbn. rewrite Hl. split_and!; [done|done|]. constructor; [by exists b|done].
Qed.

Lemma visible_ready q fs l :
  healthy_store fs -> Forall (fun m => exists b, file_holds q m b fs) l -> visible l fs = (Ok l, fs).
Proof.
  intros Hh. induction 1 as [|m l (b & [(_ & Ht & _) _]) _ IH]; [done|]. cbn [visible].
  rewrite (attempt_run _ _ _ _ _ (suppressConsumed_run fs m Hh Ht)). by rewrite (bind_run _ _ _ _ _ IH).
Qed.

Lemma file_List_ready q fs :
  file_ready fs -> exists l, List_ q fs = (Ok l, fs) /\ NoDup (m_ID <$> l) /\
    forall m, m ∈ l <-> exists b, file_holds q m b fs.
Proof.
  intros [Hh Hr]. destruct (listAt_ready q fs (queue_ids q fs) Hh) as (l & El & Hl & Fl).
  { apply Forall_forall. intros id [x Hx]%queue_ids_elem. destruct (Hr q id x Hx) as (m & b & _ & ? & ?). eauto. }
  exists l. unfold List_. rewrite (bind_run _ _ _ _ _ (fault_run fs Hh _)).
  rewrite (bind_run (gets (queue_ids q)) _ fs (queue_ids q fs) fs eq_refl), (bind_run _ _ _ _ _ El).
  split; [by eapply visible_ready|]. split; [rewrite Hl; apply queue_ids_nodup|]. intros m. split.
  - intros Hin. rewrite Forall_forall in Fl. by apply Fl.
  - intros [b H]. assert (m_ID m ∈ m_ID <$> l) as Hin.
    { rewrite Hl. apply queue_ids_elem. exists (Some m). apply H. }
    apply list_elem_of_fmap in Hin as (m' & Hi & Hin). rewrite Forall_forall in Fl. destruct (Fl m' Hin) as [b' H'].
    destruct H as [_ (_ & Hm & _)], H' as [_ (_ & Hm' & _)]. assert (Some (Some m) = Some (Some m')) as [= ->]; [|done].
    rewrite <- Hm, <- Hm'. do 2 f_equal. exact Hi.
Qed.

Lemma file_Update_ready q m m' b fs :
  file_ready fs -> file_holds q m b fs -> m_ID m' = m_ID m -> m_QueueType m' = q ->
  exists fs', Update_ m' fs = (Ok tt, fs') /\ touched (m_ID m) fs fs' /\ file_holds q m' b fs'.
Proof.
  intros [Hh _] H Hi Hq. pose proof H as [(Hid & _) _]. pose proof (file_Update q m m' b fs H Hi Hq) as Hu.
  unfold Update_ in *. rewrite <- Hi in Hid. pose proof (Store_run fs Hh m' Hid) as E.
  pose proof (wp_run _ _ _ _ _ Hu E) as [H'|[? _]]; [|done]. eexists. split; [exact E|]. split; [|done].
  split; [done|]. intros id' Hne. split_and!; [|done|done]. intros q'. cbn. apply lookup_insert_ne. congruence.
Qed.

Lemma file_Move_ready q m b to fs :
  file_ready fs -> file_holds q m b fs -> to <> q ->
  exists fs', Move (m_ID m) q to fs = (Ok tt, fs') /\ touched (m_ID m) fs fs' /\ file_holds to (m <| m_QueueType := to |>) b fs'.
Proof.
  intros [Hh _] H Hto. pose proof H as [(Hid & _) (Hq & Hm & _)]. subst q. pose proof (file_Move _ m b to fs H Hto) as Hu.
  assert (Move (m_ID m) (m_QueueType m) to fs
          = (Ok tt, fs <| f_meta ::= <[(to, m_ID m) := Some (m <| m_QueueType := to |>)]> |>
                       <| f_meta ::= delete (m_QueueType m, m_ID m) |>)) as E.
  { unfold Move. rewrite (bind_run _ _ fs tt fs) by (unfold liftR; by rewrite Hid).
    rewrite (bind_run _ _ fs m fs) by (unfold wrap; by rewrite readMessageAt_run, Hm, decodeMessage_stored).
    unfold write_meta. unfold mbind, M_bind, modify. rewrite (fault_run fs Hh). unfold wrap.
    rewrite unlink_meta_run by exact Hh. cbn. by rewrite lookup_insert_ne, Hm by congruence. }
  pose proof (wp_run _ _ _ _ _ Hu E) as H'. eexists. split; [exact E|]. split; [|exact H'].
  split; [done|]. intros id' Hne. split_and!; [|done|done]. intros q'. cbn.
  rewrite lookup_delete_ne by congruence. apply lookup_insert_ne. congruence.
Qed.

Lemma file_remove_ready q m b fs :
  file_ready fs -> file_holds q m b fs ->
  exists fs', DeleteMessageWithTombstone now m b fs = (Ok tt, fs') /\ touched (m_ID m) fs fs' /\ file_ready fs' /\
    file_consumed (m_ID m) fs'.
Proof.
  intros Hr H. pose proof Hr as [Hh _]. eexists. split; [by apply (DeleteMessageWithTombstone_run fs q)|].
  match goal with |- touched _ _ ?f /\ _ => set (fs' := f) end.
  assert (touched (m_ID m) fs fs') as Ht.
  { split; [done|]. intros id' Hne. cbn. split_and!; [intros q'; apply lookup_delete_ne; congruence| |];
      [apply lookup_delete_ne|apply lookup_insert_ne]; congruence. }
  split; [done|]. split.
  - eapply touched_ready; [done..|]. intros q' x Hx. cbn in Hx. exfalso. destruct (decide (q' = q)) as [->|Hne].
    + by rewrite lookup_delete_eq in Hx.
    + rewrite lookup_delete_ne in Hx by congruence. destruct H as [_ (_ & _ & Ho)]. by rewrite Ho in Hx.
  - do 2 eexists. apply lookup_insert_eq.
Qed.

#[export] Instance FileLiveBackend : LiveBackend (BL := FileBackendLaws now) Files.
Proof.
  refine {| ready := file_ready : Files -> Prop |}.
  - intros q q' m m' b b' fs [(_ & _ & Hd) (_ & Hm & Ho)] [(_ & _ & Hd') (_ & Hm' & Ho')] Hi. rewrite <- Hi in *.
    destruct (decide (q = q')) as [->|Hne]; [|by rewrite Ho in Hm' by done]. split_and!; congruence.
  - intros q m b fs [Hh _] [(Hid & Ht & _) Hq]. by eapply Retrieve_run.
  - intros q m b fs [Hh _] [(Hid & _ & Hd) _]. cbn. unfold RetrieveContent, mbind, M_bind, liftR, wrap.
    by rewrite Hid, (read_data_run fs Hh), Hd.
  - intros q m m' b fs Hr H Hi Hq. destruct (file_Update_ready q m m' b fs Hr H Hi Hq) as (fs' & E & Ht & H').
    exists fs'. split_and!; [done| |done|].
    + rewrite <- Hi in Ht. by eapply held_ready.
    + intros q1 m1 b1 Hne. by eapply touched_besides.
  - intros q m b to fs Hr H Hto. destruct (file_Move_ready q m b to fs Hr H Hto) as (fs' & E & Ht & H').
    exists fs'. split_and!; [done| |done|].
    + by apply (held_ready to (m <| m_QueueType := to |>) b fs).
    + intros q1 m1 b1 Hne. by eapply touched_besides.
  - intros q m b fs Hr H. destruct (file_remove_ready q m b fs Hr H) as (fs' & E & Ht & Hr' & Hc).
    exists fs'. split_and!; [done..|]. intros q1 m1 b1 Hne. by eapply touched_besides.
  - apply file_List_ready.
Defined.
End Files.

(** ** An execution: refused twice, then given up *)

Section Demo.
#[local] Existing Instance bits_json.
#[local] Existing Instance toy_hash.
#[local] Existing Instance ascii_tables.
#[local] Instance live_files : StorageBackend Files := FileStorageBackend 5000.
#[local] Instance live_laws : BackendLaws Files := FileBackendLaws 5000.
#[local] Instance live_live : LiveBackend Files := FileLiveBackend 5000.

Definition busy_round (now : Z) : round :=
  mkRound now (fun _ => 0) 1 72 "w1" (fun _ _ => (None, Some (plain_error "451 try again later"))) (Some engine) false false [].

Definition stored_as (q : QueueType) (p : Processor Files) : Message :=
  match f_meta (store_of p) !! (q, "m1") with Some (Some m) => m | _ => letter end.

Definition course_0 : Processor Files :=
  mkProcessor (mkManager (snd (createMessageIfAbsent letter note_body empty_queue)) (mkStats 1 0 0 0 5 1000) [])
    0 0 0 0 {["m1"]} ∅ [] [] [].
Definition course_1 : Processor Files := snd (processMessage (busy_round 5000) letter course_0).
Definition course_2 : Processor Files := snd (processDeferredMessages (busy_round 9000) course_1).
Definition course_3 : Processor Files := snd (processMessage (busy_round 9001) (stored_as Active course_2) course_2).

Definition course (i : nat) : Processor Files :=
  match i with O => course_0 | 1%nat => course_1 | 2%nat => course_2 | _ => course_3 end.
Definition course_labels (i : nat) : label :=
  match i with
  | O => Work (busy_round 5000) letter
  | 1%nat => Tick (busy_round 9000)
  | 2%nat => Work (busy_round 9001) (stored_as Active course_2)
  | _ => Elsewhere
  end.

Lemma busy_works now : 0 < now -> working (busy_round now).
Proof.
  intros Hn. split; [|done|done|cbn; lia]. exists engine. split; [done|]. split; [done|]. by intros f msg reason id [= <-].
Qed.

(** The store has this one message. *)
Definition sole (q : QueueType) (m : Message) (p : Processor Files) : Prop :=
  f_meta (store_of p) = {[ (q, "m1") := Some m ]} /\ file_holds q m "hello" (store_of p).

Lemma sole_held q m p q' m' b : sole q m p -> holds q' m' b (store_of p) -> q' = q /\ m' = m.
Proof.
  intros [E _] [_ (_ & Hm & _)]. rewrite E in Hm. apply lookup_singleton_Some in Hm as [[= -> _] [= ->]]. done.
Qed.

Lemma sole_able q m p :
  m_ID m = "m1" -> healthy_store (store_of p) -> mg_retrySchedule (pr_manager p) = [] -> sole q m p -> able (pr_manager p).
Proof.
  intros Hi Hh Hs [E H]. split; [|by rewrite Hs]. split; [done|]. intros q' id x Hx.
  pose proof (eq_trans (eq_sym (f_equal (lookup (q', id)) E)) Hx) as Hl.
  apply lookup_singleton_Some in Hl as [[= <- <-] <-]. by exists m, "hello".
Qed.

Lemma course_sole :
  sole Active letter course_0 /\ sole Deferred (stored_as Deferred course_1) course_1 /\
  sole Active (stored_as Active course_2) course_2 /\ sole Failed (stored_as Failed course_3) course_3.
Proof.
  unfold sole, file_holds, live, only_in. split_and!; try by vm_compute.
  all: intros [] ?; try done; by vm_compute.
Qed.

Lemma course_runs i : step 1 (course_labels i) (course i) (course (S i)).
Proof.
  destruct course_sole as ((_ & H0) & _ & (_ & H2) & H3).
  destruct i as [|[|[|i]]]; cbn [course course_labels].
  - exact (step_Work 1 (busy_round 5000) letter "hello" course_0 (busy_works 5000 ltac:(lia)) eq_refl H0).
  - exact (step_Tick 1 (busy_round 9000) course_1).
  - exact (step_Work 1 (busy_round 9001) _ "hello" course_2 (busy_works 9001 ltac:(lia)) eq_refl H2).
  - apply step_Elsewhere; [|done]. refine (sole_able Failed (stored_as Failed course_3) course_3 _ _ _ H3); vm_compute; reflexivity.
Qed.

Lemma every_message_ends_witness :
  holds Active letter "hello" (store_of (course 0)) /\
  exists j, (0 <= j)%nat /\
    (consumed (m_ID letter) (store_of (course j)) \/
     exists m', m_ID m' = m_ID letter /\
       (holds Failed m' "hello" (store_of (course j)) \/ holds Hold m' "hello" (store_of (course j)))).
Proof.
  destruct course_sole as (H0 & H1 & H2 & H3). split; [apply H0|].
  apply (every_message_ends 1 course course_labels course_runs).
  - refine (sole_able Active letter course_0 _ _ _ H0); vm_compute; reflexivity.
  - intros [|[|[|i]]] m b H; cbn [course] in H.
    + exists O. split; [done|]. apply (sole_held _ _ _ _ _ _ H0) in H as [_ ->]. by vm_compute.
    + by apply (sole_held _ _ _ _ _ _ H1) in H as [? _].
    + exists 2%nat. split; [done|]. apply (sole_held _ _ _ _ _ _ H2) in H as [_ ->]. by vm_compute.
    + by apply (sole_held _ _ _ _ _ _ H3) in H as [? _].
  - intros [|[|[|i]]] m b H; cbn [course] in H.
    + by apply (sole_held _ _ _ _ _ _ H0) in H as [? _].
    + exists 1%nat, (busy_round 9000). split; [done|]. split; [done|].
      apply (sole_held _ _ _ _ _ _ H1) in H as [_ ->]. by vm_compute.
    + by apply (sole_held _ _ _ _ _ _ H2) in H as [? _].
    + by apply (sole_held _ _ _ _ _ _ H3) in H as [? _].
  - apply H0.
Defined.

(** The letter whose worker stopped between the intent and the notification. *)
Definition interrupted : Processor Files :=
  mkProcessor (mkManager (snd (createMessageIfAbsent half_done note_body empty_queue)) (mkStats 1 0 0 0 5 1000) [])
    0 0 0 0 {["m1"]} ∅ [] [] [].

Lemma interrupted_sole : sole Active half_done interrupted.
Proof. unfold sole, file_holds, live, only_in. split_and!; try by vm_compute. intros [] ?; try done; by vm_compute. Qed.

Lemma resumed_handoff_accounts_witness :
  let rd := busy_round 5000 in
  let out := processMessage rd half_done interrupted in
  (exists h, decode_handoff (annotation half_done dsnHandoffAnnotation) = Some h /\
             validateDSNHandoff half_done h = Ok tt /\ ho_State h = "pending") /\
  (forall deliver, processMessage (mkRound (rd_now rd) (rd_jitter rd) (rd_MaxRetries rd) (rd_retentionHours rd)
     (rd_workerID rd) deliver (rd_bounceEngine rd) (rd_suppressor rd) (rd_feedbackRecorder rd)
     (rd_feedbackAddresses rd)) half_done interrupted = (fst out, snd out)) /\
  fst out = Ok tt /\ (m_ID half_done ∉ pr_processing (snd out)) /\
  (exists calls, pr_bounces (snd out) = pr_bounces interrupted ++ calls /\
    match decode_handoff (annotation half_done dsnHandoffAnnotation) with
    | Some h => if is_ok (validateDSNHandoff half_done h)
                then resumed rd half_done "hello" h calls (store_of (snd out))
                else survives (m_ID half_done) (m_To half_done) "hello" (store_of (snd out))
    | None => survives (m_ID half_done) (m_To half_done) "hello" (store_of (snd out))
    end) /\
  (working rd -> able (pr_manager interrupted) ->
     resumed_end rd half_done "hello" (store_of (snd out)) /\ resumed_report half_done interrupted (snd out)) /\
  working rd /\ able (pr_manager interrupted).
Proof.
  cbv zeta. split; [exists pending_handoff; by vm_compute|].
  assert (holds Active half_done "hello" (store_of interrupted)) as Hheld by apply interrupted_sole.
  destruct (resumed_handoff_accounts (busy_round 5000) half_done "hello" interrupted _ _ Hheld
    ltac:(by vm_compute) ltac:(by vm_compute) (surjective_pairing _)) as (H1 & H2 & H3 & H4 & H5).
  split_and!; [exact H1|exact H2|exact H3|exact H4|exact H5|by apply busy_works|].
  refine (sole_able Active half_done interrupted _ _ _ interrupted_sole); vm_compute; reflexivity.
Defined.
End Demo.
