(* ===== verification/SharedState.v ===== *)
(** * SharedState: what the nodes of a cluster tell each other

    Models internal/queue/shared_state.go: the throttle state of a destination and how
    two views of it are merged, the [SharedState] interface the shaper and the sending
    pools use, the guard that skips a failing store, and the Valkey implementation with
    its Lua scripts.

    Instants are nanoseconds; the zero [time.Time] is 0, before every instant the clock
    gives. *)

From stdpp Require Import gmap.
From S2P Require Import Prelude GoStrings GoMath.

Set Primitive Projections.

Definition penaltyDecay : Z := 15 * Minute.
Definition sharedCooldown : Z := 10 * Second.
Definition sharedSyncInterval : Z := 5 * Second.

Record ThrottleState := mkThrottle {
  DeferUntil : Z;
  Penalty : Z;
  PenaltyDecayAt : Z
}.
Definition no_throttle : ThrottleState := mkThrottle 0 0 0.

(** A penalty as it is at [now]: one level less for each decay period that has ended. *)
Definition normalized (now : Z) (t : ThrottleState) : ThrottleState :=
  if ((0 <? Penalty t) && negb (now <? PenaltyDecayAt t))%bool then
    let steps := 1 + (now - PenaltyDecayAt t) / penaltyDecay in
    let p := Penalty t - steps in
    if p <=? 0 then mkThrottle (DeferUntil t) 0 0
    else mkThrottle (DeferUntil t) p (PenaltyDecayAt t + steps * penaltyDecay)
  else t.

Definition expiry (t : ThrottleState) : Z :=
  if 0 <? Penalty t then
    let e := PenaltyDecayAt t + (Penalty t - 1) * penaltyDecay in
    if DeferUntil t <? e then e else DeferUntil t
  else DeferUntil t.

(** ** The interface *)

Class SharedStore (S : Type) := {
  TakeWarmup : Z -> string -> Z -> S -> result (bool * Z) * S;   (* day, address, allowed *)
  RefundWarmup : Z -> string -> S -> result unit * S;
  WarmupSent : Z -> string -> S -> result Z * S;
  MergeThrottle : Z -> string -> ThrottleState -> S -> result ThrottleState * S;
  Throttle : string -> S -> result ThrottleState * S
}.

(** ** The guard: after an error the store is left alone for a while *)

Record sharedGuard := mkGuard { skipUntil : Z; failing : bool }.
Definition newSharedGuard : sharedGuard := mkGuard 0 false.

Definition available (now : Z) (g : sharedGuard) : bool := negb (now <? skipUntil g).
Definition guard_fail (now : Z) (_ : sharedGuard) : sharedGuard := mkGuard (now + sharedCooldown) true.
Definition guard_ok (g : sharedGuard) : sharedGuard := mkGuard (skipUntil g) false.

(** ** Penalties decay like a clock

    What is left of a penalty depends on [now] alone, not on when it was looked at. *)

(** Levels in force at [now]. *)
Definition level (now : Z) (t : ThrottleState) : Z := Penalty (normalized now t).

Lemma penaltyDecay_pos : 0 < penaltyDecay.
Proof. done. Qed.

Lemma normalized_defer now t : DeferUntil (normalized now t) = DeferUntil t.
Proof. unfold normalized. by repeat case_match. Qed.

Lemma level_bounds now t : 0 <= Penalty t -> 0 <= level now t <= Penalty t.
Proof.
  intros Hp. unfold level, normalized. case_match eqn:E; [|lia]. bool_facts. cbv zeta.
  assert (0 <= (now - PenaltyDecayAt t) / penaltyDecay)
    by (apply Z.div_pos; [lia|exact penaltyDecay_pos]).
  case_match; bool_facts; cbn; lia.
Qed.

Lemma normalized_future now t :
  0 <= Penalty t -> 0 < Penalty (normalized now t) -> now < PenaltyDecayAt (normalized now t).
Proof.
  intros H0. unfold normalized. case_match eqn:E.
  - bool_facts. cbv zeta. case_match; bool_facts; cbn; [lia|]. intros _.
    pose proof (Z.mul_succ_div_gt (now - PenaltyDecayAt t) penaltyDecay penaltyDecay_pos).
    lia.
  - intros Hp. apply andb_false_iff in E as [E|E]; bool_facts; lia.
Qed.

(** Looking at [now] and again at [later] is looking at [later]. *)
Lemma normalized_twice now later t :
  0 <= Penalty t -> now <= later -> normalized later (normalized now t) = normalized later t.
Proof.
  intros Hp Hle. pose proof penaltyDecay_pos as Hd.
  unfold normalized at 2. case_match eqn:E; [|done]. bool_facts. cbv zeta.
  set (q := (now - PenaltyDecayAt t) / penaltyDecay) in *.
  assert (0 <= q) as Hq by (apply Z.div_pos; lia).
  set (ql := (later - PenaltyDecayAt t) / penaltyDecay).
  assert (q <= ql) as Hql by (apply Z.div_le_mono; lia).
  unfold normalized at 2. rewrite (proj2 (Z.ltb_lt 0 (Penalty t))) by lia.
  rewrite (proj2 (Z.ltb_ge later (PenaltyDecayAt t))) by lia. cbn [andb negb]. cbv zeta. fold ql.
  case_match eqn:E1; bool_facts.
  { unfold normalized. cbn. by rewrite (proj2 (Z.leb_le _ 0)) by lia. }
  unfold normalized. cbn [Penalty PenaltyDecayAt DeferUntil].
  rewrite (proj2 (Z.ltb_lt 0 _)) by lia. cbn [andb].
  assert ((later - (PenaltyDecayAt t + (1 + q) * penaltyDecay)) / penaltyDecay = ql - (1 + q)) as Ed.
  { unfold ql. replace (later - (PenaltyDecayAt t + (1 + q) * penaltyDecay))
      with (later - PenaltyDecayAt t + (- (1 + q)) * penaltyDecay) by lia.
    rewrite Z.div_add by lia. lia. }
  destruct (Z.ltb_spec later (PenaltyDecayAt t + (1 + q) * penaltyDecay)) as [Hl|Hl]; cbn [negb].
  - assert (ql = q) as ->.
    { assert (ql < 1 + q); [|lia]. apply Z.div_lt_upper_bound; lia. }
    by rewrite (proj2 (Z.leb_gt _ 0)) by lia.
  - rewrite Ed. replace (Penalty t - (1 + q) - (1 + (ql - (1 + q)))) with (Penalty t - (1 + ql)) by lia.
    case_match; [done|]. f_equal. lia.
Qed.

(** ** The Valkey store

    The server is outside the repository: [Redis] has the commands the scripts call and
    [RedisLaws] what their documentation says of them.  Lua computes in doubles, which
    are exact on the integers below 2^53 the scripts see (counts and milliseconds). *)
Class Redis (R : Type) := {
  redis_GET : string -> R -> option Z;
  redis_INCR : string -> R -> R;
  redis_DECR : string -> R -> R;
  redis_HMGET : string -> R -> option Z * option Z * option Z;
  redis_HSET : string -> Z -> Z -> Z -> R -> R;
  redis_EXPIRE : string -> Z -> R -> R;        (* seconds *)
  redis_PTTL : string -> R -> Z;               (* milliseconds; negative without an expiry *)
  redis_PEXPIRE : string -> Z -> R -> R        (* milliseconds *)
}.

Definition redis_count {R} `{!Redis R} (k : string) (r : R) : Z := default 0 (redis_GET k r).

Class RedisLaws (R : Type) `{!Redis R} : Prop := {
  redis_incr : forall k r, redis_GET k (redis_INCR k r) = Some (redis_count k r + 1);
  redis_incr_ne : forall k k' r, k <> k' -> redis_GET k' (redis_INCR k r) = redis_GET k' r;
  redis_decr : forall k r, redis_GET k (redis_DECR k r) = Some (redis_count k r - 1);
  redis_decr_ne : forall k k' r, k <> k' -> redis_GET k' (redis_DECR k r) = redis_GET k' r;
  redis_hset : forall k a b c r, redis_HMGET k (redis_HSET k a b c r) = (Some a, Some b, Some c);
  redis_hset_get : forall k k' a b c r, redis_GET k' (redis_HSET k a b c r) = redis_GET k' r;
  redis_expire : forall k k' n r, redis_GET k' (redis_EXPIRE k n r) = redis_GET k' r;
  redis_expire_h : forall k k' n r, redis_HMGET k' (redis_EXPIRE k n r) = redis_HMGET k' r;
  redis_pexpire : forall k k' n r, redis_GET k' (redis_PEXPIRE k n r) = redis_GET k' r;
  redis_pexpire_h : forall k k' n r, redis_HMGET k' (redis_PEXPIRE k n r) = redis_HMGET k' r
}.

(** *** The scripts *)

Section Scripts.
Context {R : Type} `{!Redis R}.

Definition takeWarmupScript (k : string) (cap ttl : Z) (r : R) : Z * Z * R :=
  let n := redis_count k r in
  if ((0 <=? cap) && (cap <=? n))%bool then (0, n, r)
  else
    let r := redis_INCR k r in
    let n := redis_count k r in
    let r := if n =? 1 then redis_EXPIRE k ttl r else r in
    (1, n, r).

Definition refundWarmupScript (k : string) (r : R) : R :=
  if 0 <? redis_count k r then redis_DECR k r else r.

Definition lua_norm (now decay p da : Z) : Z * Z :=
  if ((0 <? p) && (da <=? now))%bool then
    let steps := 1 + (now - da) / decay in
    let p := p - steps in
    let da := da + steps * decay in
    if p <=? 0 then (0, 0) else (p, da)
  else (p, da).

Definition mergeThrottleScript (k : string) (ndu np0 nda0 now decay ttl : Z) (r : R) :
    Z * Z * Z * R :=
  let '(c1, c2, c3) := redis_HMGET k r in
  let du := default 0 c1 in
  let '(p, da) := lua_norm now decay (default 0 c2) (default 0 c3) in
  let '(np, nda) := lua_norm now decay np0 nda0 in
  let du := if du <? ndu then ndu else du in
  let '(p, da) := if ((p <? np) || ((np =? p) && (da <? nda)))%bool then (np, nda) else (p, da) in
  let r := redis_HSET k du p da r in
  (du, p, da, if redis_PTTL k r <? ttl then redis_PEXPIRE k ttl r else r).
End Scripts.

Definition unixMilli (t : Z) : Z := t / Millisecond.
Definition fromMilli (ms : Z) : Z := if ms <=? 0 then 0 else ms * Millisecond.

(** The rendering of a day in a key ([2006-01-02]). *)
Class DayNames := day_name : Z -> string.
Class DayNamesLaws `{!DayNames} : Prop :=
  warmup_keys_differ : forall d d' a a',
    day_name d +:+ ":" +:+ a = day_name d' +:+ ":" +:+ a' -> d = d' /\ a = a'.

(** What becomes of a call: it is answered, it does not reach the server, or the server
    has run it when the answer is lost. *)
Inductive call_fate := Answered | Unreached | Unanswered.

(** The store with what the network will do. *)
Record ValkeyState {R : Type} := mkValkeyState {
  prefix : string;
  server : R;
  faults : list call_fate
}.
Arguments ValkeyState : clear implicits.
Arguments mkValkeyState {R}.

Section Store.
Context {R : Type} `{!Redis R, !DayNames}.
Implicit Type v : ValkeyState R.

Definition warmupKey v (day : Z) (addr : string) : string :=
  prefix v +:+ "warmup:" +:+ (day_name day +:+ ":" +:+ addr).

(** The separator of a shaping key, a NUL byte, is written as a bar. *)
Definition throttleKey v (key : string) : string :=
  prefix v +:+ "throttle:" +:+ map_bytes (fun c => if Ascii.eqb c (chr 0) then "|"%char else c) key.

Definition warmupTTL : Z := 48 * Hour.

(** Run [f] on the server, as the network allows. *)
Definition on_server {A} (f : R -> A * R) : ValkeyState R -> result A * ValkeyState R := fun v =>
  match faults v with
  | Unreached :: l => (Err "valkey: connection failed", v <| faults := l |>)
  | Unanswered :: l => let '(_, r) := f (server v) in
                       (Err "valkey: context deadline exceeded", v <| server := r |> <| faults := l |>)
  | l => let '(a, r) := f (server v) in
         (Ok a, v <| server := r |> <| faults := tail l |>)
  end.

Definition valkey_store : SharedStore (ValkeyState R) := {|
  TakeWarmup day addr allowed v :=
    on_server (fun r => let '(t, n, r) := takeWarmupScript (warmupKey v day addr) allowed
                                            (whole_seconds warmupTTL) r in
                        ((t =? 1, n), r)) v;
  RefundWarmup day addr v :=
    on_server (fun r => (tt, refundWarmupScript (warmupKey v day addr) r)) v;
  WarmupSent day addr v :=
    on_server (fun r => (redis_count (warmupKey v day addr) r, r)) v;
  MergeThrottle now key st v :=
    let ttl := if expiry st - now <? Second then Second else expiry st - now in
    on_server (fun r =>
      let '(du, p, da, r) :=
        mergeThrottleScript (throttleKey v key) (unixMilli (DeferUntil st)) (Penalty st)
          (unixMilli (PenaltyDecayAt st)) (unixMilli now) (penaltyDecay / Millisecond)
          (ttl / Millisecond) r in
      (mkThrottle (fromMilli du) p (fromMilli da), r)) v;
  Throttle key v :=
    on_server (fun r => let '(du, p, da) := redis_HMGET (throttleKey v key) r in
                        (mkThrottle (fromMilli (default 0 du)) (default 0 p)
                                    (fromMilli (default 0 da)), r)) v
|}.
#[global] Existing Instance valkey_store.
End Store.

(** ** The script decays like the code

    The script works in milliseconds of the caller's clock, the Go code in nanoseconds;
    on states that were stored (whole milliseconds) they agree. *)
Lemma unixMilli_le now da : (da <=? unixMilli now) = (da * Millisecond <=? now).
Proof.
  unfold unixMilli, Millisecond. apply eq_true_iff_eq. rewrite !Z.leb_le.
  split; intros H; [|apply Z.div_le_lower_bound; lia].
  pose proof (Z.mul_div_le now 1000000). lia.
Qed.

(** The penalty decay written in the Lua script of the shared store and
    the one written in Go compute the same penalty and the same next decay, for every
    clock reading and every state as the store keeps it, although one counts in whole
    milliseconds and the other in nanoseconds: nodes and store never disagree about what
    is left of a penalty. *)
Theorem lua_norm_is_normalized now du p da :
  let t := mkThrottle du p (da * Millisecond) in
  lua_norm (unixMilli now) (penaltyDecay / Millisecond) p da
  = (Penalty (normalized now t), unixMilli (PenaltyDecayAt (normalized now t))).
Proof.
  cbv zeta. unfold lua_norm, normalized. cbn [Penalty PenaltyDecayAt DeferUntil].
  rewrite unixMilli_le.
  replace (negb (now <? da * Millisecond)) with (da * Millisecond <=? now)
    by (rewrite <- Z.leb_antisym; done).
  assert (forall x, unixMilli (x * Millisecond) = x) as Hum
    by (intros x; unfold unixMilli; by apply Z.div_mul).
  case_match eqn:E; [|cbn [Penalty PenaltyDecayAt]; by rewrite Hum]. bool_facts. cbv zeta.
  assert ((unixMilli now - da) / (penaltyDecay / Millisecond)
          = (now - da * Millisecond) / penaltyDecay) as ->.
  { change penaltyDecay with (Millisecond * (penaltyDecay / Millisecond)) at 2.
    rewrite <- Z.div_div by done. f_equal. unfold unixMilli.
    replace (now - da * Millisecond) with (now + (- da) * Millisecond) by lia.
    rewrite Z.div_add by done. lia. }
  set (q := (now - da * Millisecond) / penaltyDecay).
  case_match; cbn [Penalty PenaltyDecayAt]; [done|]. f_equal.
  rewrite <- (Hum (da + (1 + q) * (penaltyDecay / Millisecond))). f_equal.
  change penaltyDecay with (900000 * Millisecond). rewrite Z.div_mul by done. lia.
Qed.

(** What the script stores is at least what either side said: no merge shortens a pause
    or lightens a penalty. *)
Lemma mergeThrottleScript_join {R} `{!Redis R} k ndu np nda now decay ttl (r : R) :
  let '(du, p, _, _) := mergeThrottleScript k ndu np nda now decay ttl r in
  let '(c1, c2, c3) := redis_HMGET k r in
  default 0 c1 <= du /\ ndu <= du /\
  (lua_norm now decay (default 0 c2) (default 0 c3)).1 <= p /\
  (lua_norm now decay np nda).1 <= p.
Proof.
  unfold mergeThrottleScript. destruct (redis_HMGET k r) as [[c1 c2] c3].
  destruct (lua_norm now decay (default 0 c2) _) as [p da].
  destruct (lua_norm now decay np nda) as [p' da']. cbn.
  destruct ((p <? p') || ((p' =? p) && (da <? da')))%bool eqn:E.
  - apply orb_true_iff in E. split_and!; repeat case_match; destruct E; bool_facts; lia.
  - bool_facts. split_and!; repeat case_match; bool_facts; lia.
Qed.

(** ** What a client may rely on

    [warm_count day addr s] is what the store has counted for an address on a day. *)
Class SharedStoreLaws (S : Type) `{!SharedStore S} := {
  warm_count : Z -> string -> S -> Z;
  take_counted : forall d a allowed s b n s', TakeWarmup d a allowed s = (Ok (b, n), s') ->
    (b = true -> (allowed < 0 \/ warm_count d a s < allowed) /\
                 warm_count d a s' = warm_count d a s + 1) /\
    (b = false -> 0 <= allowed <= warm_count d a s /\ warm_count d a s' = warm_count d a s);
  take_failed : forall d a allowed s e s', TakeWarmup d a allowed s = (Err e, s') ->
    warm_count d a s' = warm_count d a s \/
    ((allowed < 0 \/ warm_count d a s < allowed) /\ warm_count d a s' = warm_count d a s + 1);
  take_other : forall d a allowed s r s' d' a', TakeWarmup d a allowed s = (r, s') ->
    (d', a') <> (d, a) -> warm_count d' a' s' = warm_count d' a' s;
  refund_counted : forall d a s s', RefundWarmup d a s = (Ok tt, s') ->
    warm_count d a s' = if 0 <? warm_count d a s then warm_count d a s - 1 else warm_count d a s;
  refund_failed : forall d a s e s', RefundWarmup d a s = (Err e, s') ->
    warm_count d a s' = warm_count d a s \/
    (0 < warm_count d a s /\ warm_count d a s' = warm_count d a s - 1);
  refund_other : forall d a s r s' d' a', RefundWarmup d a s = (r, s') ->
    (d', a') <> (d, a) -> warm_count d' a' s' = warm_count d' a' s;
  throttle_keeps_warmup : forall key s r s', Throttle key s = (r, s') ->
    forall d a, warm_count d a s' = warm_count d a s;
  merge_keeps_warmup : forall now key st s r s', MergeThrottle now key st s = (r, s') ->
    forall d a, warm_count d a s' = warm_count d a s
}.

Lemma string_app_inj_l (p a b : string) : p +:+ a = p +:+ b -> a = b.
Proof. induction p as [|c p IH]; cbn; [done|]. intros [= H]. auto. Qed.

Section StoreLaws.
Context {R : Type} `{!Redis R, !RedisLaws R} {DN : DayNames} {DNL : DayNamesLaws}.
Implicit Type v : ValkeyState R.

Definition valkey_count (day : Z) (addr : string) v : Z :=
  redis_count (warmupKey v day addr) (server v).

(** The counts of the other days and addresses are as they were. *)
Definition warm_kept (d : Z) (a : string) v v' : Prop :=
  forall d' a', (d', a') <> (d, a) -> valkey_count d' a' v' = valkey_count d' a' v.

Lemma on_server_inv {A} (f : R -> A * R) v r v' :
  on_server f v = (r, v') ->
  prefix v' = prefix v /\
  match r with
  | Ok a => f (server v) = (a, server v')
  | Err _ => server v' = server v \/ exists a, f (server v) = (a, server v')
  end.
Proof.
  unfold on_server. destruct (faults v) as [|[] l];
    try (destruct (f (server v)) as [a q] eqn:E); intros [= <- <-]; split; cbn; eauto.
Qed.

Lemma warmupKey_inj v v' d a d' a' :
  prefix v = prefix v' -> warmupKey v d a = warmupKey v' d' a' -> d = d' /\ a = a'.
Proof.
  unfold warmupKey. intros -> H. by apply string_app_inj_l, string_app_inj_l, warmup_keys_differ in H.
Qed.

Lemma warmupKey_ne v d a d' a' : (d', a') <> (d, a) -> warmupKey v d a <> warmupKey v d' a'.
Proof. intros Hne H. apply warmupKey_inj in H as [-> ->]; done. Qed.

(** The count after a call, read from the server state [r] the call left. *)
Lemma valkey_count_at v v' r d a :
  prefix v' = prefix v -> r = server v' -> valkey_count d a v' = redis_count (warmupKey v d a) r.
Proof. intros Hp ->. unfold valkey_count, warmupKey. by rewrite Hp. Qed.

Lemma valkey_count_eq v v' d a :
  prefix v' = prefix v -> server v' = server v -> valkey_count d a v' = valkey_count d a v.
Proof. intros Hp Hs. by apply valkey_count_at. Qed.

Lemma valkey_count_same v v' r d a :
  prefix v' = prefix v -> r = server v' ->
  redis_GET (warmupKey v d a) r = redis_GET (warmupKey v d a) (server v) ->
  valkey_count d a v' = valkey_count d a v.
Proof.
  intros Hp Hs Hg. rewrite (valkey_count_at v v' r d a Hp Hs).
  unfold redis_count. rewrite Hg. done.
Qed.

Lemma takeWarmupScript_spec k cap ttl (r : R) t n r' :
  takeWarmupScript k cap ttl r = (t, n, r') ->
  (t = 1 /\ (cap < 0 \/ redis_count k r < cap) /\ redis_count k r' = redis_count k r + 1
   \/ t = 0 /\ 0 <= cap <= redis_count k r /\ r' = r) /\
  forall k', k' <> k -> redis_GET k' r' = redis_GET k' r.
Proof.
  unfold takeWarmupScript. destruct ((0 <=? cap) && (cap <=? redis_count k r))%bool eqn:E.
  - intros [= <- <- <-]. bool_facts. split; [right; split_and!; lia || done|done].
  - intros [= <- <- <-]. split.
    + left. split; [done|]. split.
      * apply andb_false_iff in E as [E|E]; bool_facts; lia.
      * unfold redis_count at 1. case_match; rewrite ?redis_expire, redis_incr; done.
    + intros k' Hne. case_match; rewrite ?redis_expire; by rewrite redis_incr_ne.
Qed.

(** What a call leaves, whether its answer came or not, if it reached the server. *)
Lemma on_server_cases {A} (f : R -> A * R) v r v' :
  on_server f v = (r, v') ->
  prefix v' = prefix v /\ (server v' = server v \/ exists a, f (server v) = (a, server v')).
Proof. intros H. apply on_server_inv in H as [Hp H]. split; [done|]. destruct r; eauto. Qed.

Lemma take_on_server v d a allowed r v' :
  TakeWarmup d a allowed v = (r, v') ->
  warm_kept d a v v' /\ (valkey_count d a v' = valkey_count d a v \/
    (allowed < 0 \/ valkey_count d a v < allowed) /\ valkey_count d a v' = valkey_count d a v + 1).
Proof.
  cbn. intros H. apply on_server_cases in H as [Hp H]. destruct H as [H|[x H]].
  { split; [intros d' a' _|left]; by apply valkey_count_eq. }
  destruct (takeWarmupScript _ _ _ _) as [[t m] q] eqn:E. injection H as _ Hq.
  apply takeWarmupScript_spec in E as [E E']. split.
  - intros d' a' Hne. apply (valkey_count_same v v' q); [done..|]. apply E'. intros Hk.
    by apply (warmupKey_ne v _ _ _ _ Hne).
  - rewrite (valkey_count_at v v' q d a Hp Hq). destruct E as [(-> & Hc & Hn)|(-> & Hc & ->)]; auto.
Qed.

Lemma refund_on_server v d a r v' :
  RefundWarmup d a v = (r, v') ->
  warm_kept d a v v' /\ (valkey_count d a v' = valkey_count d a v \/
    0 < valkey_count d a v /\ valkey_count d a v' = valkey_count d a v - 1).
Proof.
  cbn. intros H. apply on_server_cases in H as [Hp H]. destruct H as [H|[x H]].
  { split; [intros d' a' _|left]; by apply valkey_count_eq. }
  injection H as _ Hq. unfold refundWarmupScript in Hq. split.
  - intros d' a' Hne. apply (valkey_count_same v v' _ d' a' Hp Hq). case_match; [|done].
    rewrite redis_decr_ne; [done|]. by apply warmupKey_ne.
  - rewrite (valkey_count_at v v' _ d a Hp Hq). unfold valkey_count. case_match; bool_facts; [|by left].
    right. split; [done|]. unfold redis_count at 1. by rewrite redis_decr.
Qed.

#[local] Obligation Tactic := idtac.
#[global] Program Instance valkey_store_laws : SharedStoreLaws (ValkeyState R) :=
  {| warm_count := valkey_count |}.
Next Obligation.
  intros d a allowed v b n v' H. cbn in H. apply on_server_inv in H as [Hp H].
  destruct (takeWarmupScript _ _ _ _) as [[t m] q] eqn:E. injection H as Hb _ Hq.
  apply takeWarmupScript_spec in E as [E _]. rewrite (valkey_count_at v v' q d a Hp Hq).
  destruct E as [(-> & Hc & Hn)|(-> & Hc & ->)]; subst b; by split.
Qed.
Next Obligation. intros d a allowed v e v' H. by apply take_on_server in H as [_ H]. Qed.
Next Obligation. intros d a allowed v r v' d' a' H Hne. apply take_on_server in H as [H _]. by apply H. Qed.
Next Obligation.
  intros d a v v' H. apply on_server_inv in H as [Hp H]. injection H as Hq.
  rewrite (valkey_count_at v v' _ d a Hp Hq). unfold refundWarmupScript, valkey_count.
  case_match; [|done]. unfold redis_count at 1. by rewrite redis_decr.
Qed.
Next Obligation. intros d a v e v' H. by apply refund_on_server in H as [_ H]. Qed.
Next Obligation. intros d a v r v' d' a' H Hne. apply refund_on_server in H as [H _]. by apply H. Qed.
Next Obligation.
  intros key v r v' H d a. apply on_server_cases in H as [Hp H]. destruct H as [H|[x H]]; [by apply valkey_count_eq|].
  destruct (redis_HMGET _ _) as [[? ?] ?]. injection H as _ Hq. by apply (valkey_count_same v v' _ d a Hp Hq).
Qed.
Next Obligation.
  intros now key st v r v' H d a. apply on_server_cases in H as [Hp H]. destruct H as [H|[x H]]; [by apply valkey_count_eq|].
  destruct (mergeThrottleScript _ _ _ _ _ _ _ _) as [[[du p] da] q] eqn:E. injection H as _ Hq.
  apply (valkey_count_same v v' q d a Hp Hq). revert E. unfold mergeThrottleScript.
  destruct (redis_HMGET _ _) as [[? ?] ?].
  repeat case_match; intros [= _ _ _ <-]; by rewrite ?redis_pexpire, redis_hset_get.
Qed.
End StoreLaws.

(** *** A server and day names for examples *)

Record toy_redis := mkToy { toy_counts : gmap string Z; toy_hashes : gmap string (Z * Z * Z) }.

#[global] Instance toy_redis_ops : Redis toy_redis := {|
  redis_GET k r := toy_counts r !! k;
  redis_INCR k r := mkToy (<[k := default 0 (toy_counts r !! k) + 1]> (toy_counts r)) (toy_hashes r);
  redis_DECR k r := mkToy (<[k := default 0 (toy_counts r !! k) - 1]> (toy_counts r)) (toy_hashes r);
  redis_HMGET k r := match toy_hashes r !! k with
                     | Some (a, b, c) => (Some a, Some b, Some c)
                     | None => (None, None, None)
                     end;
  redis_HSET k a b c r := mkToy (toy_counts r) (<[k := (a, b, c)]> (toy_hashes r));
  redis_EXPIRE _ _ r := r; redis_PTTL _ _ := -1; redis_PEXPIRE _ _ r := r
|}.

#[global] Instance toy_redis_laws : RedisLaws toy_redis.
Proof.
  split; cbn; intros; rewrite ?lookup_insert_eq, ?lookup_insert_ne by done; done.
Qed.

Fixpoint bits (p : positive) : string :=
  match p with xH => "" | xO q => String "0" (bits q) | xI q => String "1" (bits q) end.
#[global] Instance toy_days : DayNames := fun d =>
  match d with Z0 => "0" | Zpos p => String "+" (bits p) | Zneg p => String "-" (bits p) end.

Lemma bits_differ p q a b : bits p +:+ ":" +:+ a = bits q +:+ ":" +:+ b -> p = q /\ a = b.
Proof.
  revert q. induction p as [p IH|p IH|]; intros [q|q|]; cbn; try done.
  - intros [= H]. apply IH in H as [-> ->]. done.
  - intros [= H]. apply IH in H as [-> ->]. done.
  - intros H. by apply (string_app_inj_l ":") in H as ->.
Qed.

#[global] Instance toy_days_laws : DayNamesLaws.
Proof.
  intros [|p|p] [|q|q] a b; unfold day_name, toy_days; cbn; try done.
  - intros H. by apply (string_app_inj_l "0:") in H as ->.
  - intros [= H]. apply bits_differ in H as [-> ->]. done.
  - intros [= H]. apply bits_differ in H as [-> ->]. done.
Qed.

Definition toy_store : ValkeyState toy_redis := mkValkeyState "elemta:delivery:" (mkToy ∅ ∅) [].
