(* ===== verification/Shaper.v ===== *)
(** * Shaper: pacing deliveries to one destination

    Models internal/queue/shaper.go and the provider keys of internal/queue/providers.go:
    the table of destinations with its eviction, the reservation of a send time, the
    connection slots, the reports that pause a destination or cut its rate, and the
    exchange of throttles with other nodes through a [SharedStore].

    [AcquireWithLimits] waits twice (for its send time and for a slot) without the lock;
    it is modelled as the two actions it makes under the lock, [reserve] and
    [take_slot], and the release of the slot.  A channel is an entry of [s_chans], so
    that a worker keeps the channel it was given even if the destination has been
    evicted and seen again.  A nil shaper limits nothing and is not modelled. *)

From stdpp Require Import gmap.
From S2P Require Import Prelude GoStrings GoMath SharedState.

Set Primitive Projections.

Record ShapingConfig := mkShaping {
  MaxConnectionsPerDomain : Z;
  MaxMessagesPerMinute : Z;
  BackoffInitial : Z;
  BackoffMax : Z
}.

Definition DefaultShapingConfig : ShapingConfig := mkShaping 10 0 (30 * Second) (30 * Minute).

Record domainState := mkDomain {
  slots : option nat;          (* the channel, none for no limit *)
  nextSend : Z;
  deferUntil : Z;
  failures : Z;
  lastUsed : Z;
  rate : Z;
  throttledRate : Z;
  penalty : Z;
  penaltyDecayAt : Z;
  throttled : Z;
  delivered : Z;
  deferred : Z;
  bounced : Z
}.

Record Limits := mkShapingLimits {
  lim_MaxConnections : Z;
  lim_MaxMessagesPerMinute : Z;
  lim_ThrottledMessagesPerMinute : Z
}.

(** A buffered channel of tokens: its capacity and how many it holds. *)
Record channel := mkChan { ch_cap : Z; ch_len : Z }.

Record Shaper := mkShaper {
  s_config : ShapingConfig;
  s_domains : gmap string domainState;
  s_chans : list channel;
  s_guard : option sharedGuard;
  s_synced : gmap string Z
}.

Definition NewShaper (c : ShapingConfig) : Shaper :=
  let c := if BackoffInitial c <=? 0
           then c <| BackoffInitial := BackoffInitial DefaultShapingConfig |> else c in
  let c := if BackoffMax c <? BackoffInitial c then c <| BackoffMax := BackoffInitial c |> else c in
  mkShaper c ∅ [] None ∅.

Definition DefaultThrottledRate : Z := 60.
Definition maxPenalty : Z := 4.
Definition maxTrackedDomains : nat := Z.to_nat 10000.
Definition idleEvictionAge : Z := Hour.

(** ** The table *)

Definition chan_len (s : Shaper) (c : option nat) : Z :=
  match c with
  | Some i => match s_chans s !! i with Some ch => ch_len ch | None => 0 end
  | None => 0
  end.

(** What eviction keeps: a destination that is paused, in use, or used recently. *)
Definition evict_keeps (now : Z) (s : Shaper) (st : domainState) : bool :=
  ((now <? deferUntil st) || (0 <? chan_len s (slots st))
   || negb (idleEvictionAge <? now - lastUsed st))%bool.

Definition evictIdleLocked (now : Z) (s : Shaper) : Shaper :=
  s <| s_domains ::= filter (fun kv => evict_keeps now s (snd kv) = true) |>.

Definition fresh_domain (now : Z) (c : option nat) : domainState :=
  mkDomain c 0 0 0 now 0 0 0 0 0 0 0 0.

Definition stateForLimits (domain : string) (now : Z) (limits : option Limits) (s : Shaper) :
    domainState * Shaper :=
  match s_domains s !! domain with
  | Some st =>
      let st := st <| lastUsed := now |> in
      (st, s <| s_domains ::= <[domain := st]> |>)
  | None =>
      let s := if (maxTrackedDomains <=? size (s_domains s))%nat then evictIdleLocked now s else s in
      let maxConn :=
        match limits with
        | Some l => if 0 <? lim_MaxConnections l then lim_MaxConnections l
                    else MaxConnectionsPerDomain (s_config s)
        | None => MaxConnectionsPerDomain (s_config s)
        end in
      if 0 <? maxConn then
        let st := fresh_domain now (Some (length (s_chans s))) in
        (st, s <| s_chans ::= fun l => l ++ [mkChan maxConn 0] |>
               <| s_domains ::= <[domain := st]> |>)
      else
        let st := fresh_domain now None in
        (st, s <| s_domains ::= <[domain := st]> |>)
  end.

Definition stateFor (domain : string) (now : Z) (s : Shaper) : domainState * Shaper :=
  stateForLimits domain now None s.

Definition put (domain : string) (st : domainState) (s : Shaper) : Shaper :=
  s <| s_domains ::= <[domain := st]> |>.

(** ** Rates *)

Definition effectiveRate (c : ShapingConfig) (st : domainState) : Z :=
  let r := if 0 <? rate st then rate st else MaxMessagesPerMinute c in
  if penalty st =? 0 then r
  else
    let t := if throttledRate st <=? 0 then DefaultThrottledRate else throttledRate st in
    let r := if ((r <=? 0) || (t <? r))%bool then t else r in
    let r := Z.shiftr r (penalty st - 1) in
    if r <? 1 then 1 else r.

Definition sendInterval (c : ShapingConfig) (st : domainState) : Z :=
  let r := effectiveRate c st in if r <=? 0 then 0 else go_div Minute r.

(** ** Throttles of other nodes *)

Definition mergeShared (remote : ThrottleState) (now : Z) (st : domainState) : domainState :=
  let remote := normalized now remote in
  let st := if deferUntil st <? DeferUntil remote
            then st <| deferUntil := DeferUntil remote |> else st in
  if penalty st <? Penalty remote
  then st <| penalty := Penalty remote |> <| penaltyDecayAt := PenaltyDecayAt remote |> else st.

(** ** Acquiring *)

Definition decayed (now : Z) (st : domainState) : domainState :=
  if ((0 <? penalty st) && negb (now <? penaltyDecayAt st))%bool
  then st <| penalty ::= fun p => p - 1 |> <| penaltyDecayAt := now + penaltyDecay |> else st.

Definition with_limits (limits : option Limits) (st : domainState) : domainState :=
  match limits with
  | Some l => st <| rate := lim_MaxMessagesPerMinute l |>
                 <| throttledRate := lim_ThrottledMessagesPerMinute l |>
  | None => st
  end.

Definition with_remote (remote : option ThrottleState) (now : Z) (st : domainState) : domainState :=
  match remote with Some r => mergeShared r now st | None => st end.

(** [AcquireWithLimits] while it holds the lock: how long to wait before the send, and
    the channel to take a slot of. *)
Definition reserve (now : Z) (domain : string) (limits : option Limits)
    (remote : option ThrottleState) : M Shaper (Z * option nat) := fun s =>
  let '(st, s) := stateForLimits domain now limits s in
  let st := decayed now (with_remote remote now (with_limits limits st)) in
  if now <? deferUntil st
  then (Err "destination is backing off after a deferral", put domain st s)
  else
    let interval := sendInterval (s_config s) st in
    let '(wait, st) :=
      if 0 <? interval then
        let wait := if now <? nextSend st then nextSend st - now else 0 in
        let base := if nextSend st <? now then now else nextSend st in
        (wait, st <| nextSend := base + interval |>)
      else (0, st) in
    (Ok (wait, slots st), put domain st s).

(** Taking a slot: [None] when the channel is full and the worker has to wait. *)
Definition take_slot (c : option nat) (s : Shaper) : option Shaper :=
  match c with
  | None => Some s
  | Some i =>
      match s_chans s !! i with
      | Some ch => if ch_len ch <? ch_cap ch
                   then Some (s <| s_chans ::= <[i := mkChan (ch_cap ch) (ch_len ch + 1)]> |>)
                   else None
      | None => None
      end
  end.

(** The release function [AcquireWithLimits] returned. *)
Definition release_slot (c : option nat) (s : Shaper) : Shaper :=
  match c with
  | None => s
  | Some i =>
      match s_chans s !! i with
      | Some ch => s <| s_chans ::= <[i := mkChan (ch_cap ch) (ch_len ch - 1)]> |>
      | None => s
      end
  end.

(** ** Reports *)

(** [for i := 1; i < failures && backoff < max; i++ { backoff *= 2 }] *)
Fixpoint double_until (n : nat) (backoff max : Z) : Z :=
  match n with
  | O => backoff
  | S n' => if backoff <? max then double_until n' (wrap64 (backoff * 2)) max else backoff
  end.

Definition backoff_for (initial max failures : Z) : Z :=
  let b := double_until (Z.to_nat (failures - 1)) initial max in
  if max <? b then max else b.

Definition ReportSuccess (now : Z) (domain : string) (s : Shaper) : Shaper :=
  let '(st, s) := stateFor domain now s in
  put domain (st <| failures := 0 |> <| deferUntil := 0 |> <| delivered ::= Z.succ |>) s.

Definition ReportRecipientDeferral (now : Z) (domain : string) (s : Shaper) : Shaper :=
  let '(st, s) := stateFor domain now s in put domain (st <| deferred ::= Z.succ |>) s.

Definition ReportPermanentFailure (now : Z) (domain : string) (s : Shaper) : Shaper :=
  let '(st, s) := stateFor domain now s in put domain (st <| bounced ::= Z.succ |>) s.

Definition ReportDeferral (now : Z) (domain : string) (s : Shaper) : Z * Shaper :=
  let '(st, s) := stateFor domain now s in
  let st := st <| failures ::= Z.succ |> <| deferred ::= Z.succ |> in
  let b := backoff_for (BackoffInitial (s_config s)) (BackoffMax (s_config s)) (failures st) in
  (b, put domain (st <| deferUntil := now + b |>) s).

Definition reportThrottleLocal (now : Z) (domain : string) (initial max : Z) (s : Shaper) :
    Z * ThrottleState * Shaper :=
  let '(st, s) := stateFor domain now s in
  let st := st <| failures ::= Z.succ |> <| deferred ::= Z.succ |> <| throttled ::= Z.succ |> in
  let st := if penalty st <? maxPenalty then st <| penalty ::= Z.succ |> else st in
  let st := st <| penaltyDecayAt := now + penaltyDecay |> in
  let b := backoff_for initial max (failures st) in
  let st := if deferUntil st <? now + b then st <| deferUntil := now + b |> else st in
  (b, mkThrottle (deferUntil st) (penalty st) (penaltyDecayAt st), put domain st s).

Definition throttle_bounds (c : ShapingConfig) (initial max : Z) : Z * Z :=
  let initial := if initial <=? 0 then BackoffInitial c else initial in
  (initial, if max <? initial then initial else max).

(** ** Provider keys (providers.go) *)

Definition shapingKeySep : ascii := chr 0.
Definition providerKeyPrefix : string := "provider:".

Definition providerOfKey (domain : string) : string :=
  if HasPrefix domain providerKeyPrefix then TrimPrefix domain providerKeyPrefix else "".

(** Only the throttles of a provider are shared between nodes. *)
Definition sharedKey (key : string) : bool :=
  let '(domain, _, _) := Cut key shapingKeySep in negb (providerOfKey domain =? "")%string.

(** ** With the shared store *)

Section Shared.
Context {S : Type} `{!SharedStore S}.

Definition SetSharedState (s : Shaper) : Shaper :=
  s <| s_guard := Some newSharedGuard |> <| s_synced := ∅ |>.

Definition fetchShared (now : Z) (key : string) (w : Shaper * S) :
    option ThrottleState * (Shaper * S) :=
  let '(s, store) := w in
  if negb (sharedKey key) then (None, w)
  else match s_guard s with
  | None => (None, w)
  | Some g =>
      if match s_synced s !! key with
         | Some last => now - last <? sharedSyncInterval
         | None => false
         end
      then (None, w)
      else
        let synced := if (maxTrackedDomains <=? size (s_synced s))%nat then ∅ else s_synced s in
        let s := s <| s_synced := <[key := now]> synced |> in
        if negb (available now g) then (None, (s, store))
        else match Throttle key store with
             | (Err _, store) => (None, (s <| s_guard := Some (guard_fail now g) |>, store))
             | (Ok st, store) => (Some st, (s <| s_guard := Some (guard_ok g) |>, store))
             end
  end.

Definition publishShared (now : Z) (key : string) (st : ThrottleState) (w : Shaper * S) :
    Shaper * S :=
  let '(s, store) := w in
  if negb (sharedKey key) then w
  else match s_guard s with
  | None => w
  | Some g =>
      if negb (available now g) then w
      else match MergeThrottle now key st store with
           | (Err _, store) => (s <| s_guard := Some (guard_fail now g) |>, store)
           | (Ok merged, store) =>
               let s := s <| s_guard := Some (guard_ok g) |> in
               let s := match s_domains s !! key with
                        | Some d => put key (mergeShared merged now d) s
                        | None => s
                        end in
               (s <| s_synced ::= <[key := now]> |>, store)
           end
  end.

(** [AcquireWithLimits] up to the wait. *)
Definition acquire_reserve (now : Z) (domain : string) (limits : option Limits)
    (w : Shaper * S) : result (Z * option nat) * (Shaper * S) :=
  let '(remote, (s, store)) := fetchShared now domain w in
  let '(r, s) := reserve now domain limits remote s in
  (r, (s, store)).

Definition BackingOff (now : Z) (domain : string) (w : Shaper * S) : option Z * (Shaper * S) :=
  let '(remote, (s, store)) := fetchShared now domain w in
  match s_domains s !! domain with
  | None =>
      match remote with
      | Some r => if now <? DeferUntil r then (Some (DeferUntil r - now), (s, store))
                  else (None, (s, store))
      | None => (None, (s, store))
      end
  | Some st =>
      let st := with_remote remote now st in
      let s := put domain st s in
      if now <? deferUntil st then (Some (deferUntil st - now), (s, store)) else (None, (s, store))
  end.

Definition ReportThrottle (now : Z) (domain : string) (initial max : Z) (w : Shaper * S) :
    Z * (Shaper * S) :=
  let '(s, store) := w in
  let '(initial, max) := throttle_bounds (s_config s) initial max in
  let '(b, snap, s) := reportThrottleLocal now domain initial max s in
  (b, publishShared now domain snap (s, store)).

(** ** Histories

    Everything that happens to a shaper, each under its lock. *)
Inductive operation :=
| OpAcquire (domain : string) (limits : option Limits)
| OpTakeSlot (c : option nat)
| OpRelease (c : option nat)
| OpBackingOff (domain : string)
| OpSuccess (domain : string)
| OpThrottle (domain : string) (initial max : Z)
| OpDeferral (domain : string)
| OpRecipientDeferral (domain : string)
| OpPermanentFailure (domain : string)
| OpOther (store : S).       (* another node uses the store *)

Definition perform (now : Z) (o : operation) (w : Shaper * S) : Shaper * S :=
  let '(s, store) := w in
  match o with
  | OpAcquire d l => snd (acquire_reserve now d l w)
  | OpTakeSlot c => (default s (take_slot c s), store)
  | OpRelease c => (release_slot c s, store)
  | OpBackingOff d => snd (BackingOff now d w)
  | OpSuccess d => (ReportSuccess now d s, store)
  | OpThrottle d i m => snd (ReportThrottle now d i m w)
  | OpDeferral d => (snd (ReportDeferral now d s), store)
  | OpRecipientDeferral d => (ReportRecipientDeferral now d s, store)
  | OpPermanentFailure d => (ReportPermanentFailure now d s, store)
  | OpOther store' => (s, store')
  end.

(** A history with the times of its operations, which do not decrease. *)
Fixpoint history (now : Z) (ops : list (Z * operation)) (w : Shaper * S) : Shaper * S :=
  match ops with
  | [] => w
  | (t, o) :: ops' => history (Z.max now t) ops' (perform (Z.max now t) o w)
  end.

End Shared.

(** ** The backoff *)

Lemma double_until_spec n : forall b max,
  0 < b -> max <= 2 ^ 62 ->
  Z.min max (double_until n b max) = Z.min max (b * 2 ^ Z.of_nat n).
Proof.
  induction n as [|n IH]; intros b max Hb Hm; cbn [double_until].
  - by rewrite Z.mul_1_r.
  - rewrite Nat2Z.inj_succ, Z.pow_succ_r by lia.
    pose proof (Z.pow_pos_nonneg 2 (Z.of_nat n) ltac:(lia) ltac:(lia)).
    case_match; bool_facts.
    + rewrite wrap64_id by (unfold int64_ok, two63; lia).
      rewrite IH by lia. f_equal. lia.
    + rewrite !Z.min_l by nia. done.
Qed.

(** The doubling loop is the closed form: [initial * 2^(failures-1)], at most [max]. *)
Lemma backoff_for_spec initial max f :
  0 < initial <= max -> max <= 2 ^ 62 -> 1 <= f ->
  backoff_for initial max f = Z.min max (initial * 2 ^ (f - 1)).
Proof.
  intros Hi Hm Hf. unfold backoff_for. cbv zeta.
  pose proof (double_until_spec (Z.to_nat (f - 1)) initial max ltac:(lia) Hm) as H.
  rewrite Z2Nat.id in H by lia. rewrite <- H.
  case_match; bool_facts; [by rewrite Z.min_l by lia|by rewrite Z.min_r by lia].
Qed.

Lemma backoff_for_bounds initial max f :
  0 < initial <= max -> max <= 2 ^ 62 -> 1 <= f -> initial <= backoff_for initial max f <= max.
Proof.
  intros Hi Hm Hf. rewrite backoff_for_spec by done.
  pose proof (Z.pow_pos_nonneg 2 (f - 1) ltac:(lia) ltac:(lia)). nia.
Qed.

(** ** Rates are positive and penalties only slow down *)

Lemma effectiveRate_penalised c st :
  0 < penalty st -> 1 <= effectiveRate c st <= Z.max 1 (if throttledRate st <=? 0
                                                        then DefaultThrottledRate else throttledRate st).
Proof.
  intros Hp. unfold effectiveRate. cbv zeta. rewrite (proj2 (Z.eqb_neq _ 0)) by lia.
  set (t := if throttledRate st <=? 0 then DefaultThrottledRate else throttledRate st).
  set (r0 := if 0 <? rate st then rate st else MaxMessagesPerMinute c).
  assert (0 < t) by (unfold t, DefaultThrottledRate; case_match; bool_facts; lia).
  set (r := if ((r0 <=? 0) || (t <? r0))%bool then t else r0).
  assert (0 < r <= t) as Hr.
  { unfold r. case_match eqn:E; [lia|]. bool_facts. lia. }
  assert (0 <= Z.shiftr r (penalty st - 1) <= r) as Hs.
  { rewrite Z.shiftr_div_pow2 by lia.
    pose proof (Z.pow_pos_nonneg 2 (penalty st - 1) ltac:(lia) ltac:(lia)).
    split; [apply Z.div_pos; lia|]. apply Z.div_le_upper_bound; nia. }
  case_match; bool_facts; lia.
Qed.

(** ** Following one destination through the table *)

(** What eviction may drop, and nothing else touches. *)
Definition at_domain (d : string) (P : domainState -> Prop) (s : Shaper) : Prop :=
  exists st, s_domains s !! d = Some st /\ P st.

Lemma at_domain_put d P st s : P st -> at_domain d P (put d st s).
Proof. intros H. exists st. split; [apply lookup_insert_eq|done]. Qed.

Lemma at_domain_put_ne d d' P st s : d <> d' -> at_domain d P s -> at_domain d P (put d' st s).
Proof. intros Hne (st' & H & HP). exists st'. split; [|done]. cbn. by rewrite lookup_insert_ne. Qed.

(** Fetching a state: the destination itself is only marked as used; any other stays
    unless it may be evicted. *)
Lemma stateForLimits_self d now lim s st s' (P : domainState -> Prop) :
  at_domain d P s -> stateForLimits d now lim s = (st, s') ->
  (exists st0, P st0 /\ st = st0 <| lastUsed := now |>) /\ s_config s' = s_config s.
Proof.
  intros (st0 & Hl & HP). unfold stateForLimits. rewrite Hl. intros [= <- <-]. split; [|done].
  by exists st0.
Qed.

Lemma stateForLimits_other d d' now lim s st s' (P : domainState -> Prop) :
  d <> d' -> at_domain d P s -> stateForLimits d' now lim s = (st, s') ->
  at_domain d P s' \/ exists st0, P st0 /\ evict_keeps now s st0 = false.
Proof.
  intros Hne (st0 & Hl & HP). unfold stateForLimits.
  destruct (s_domains s !! d') as [st1|] eqn:Hl'.
  { intros [= <- <-]. left. exists st0. split; [|done]. cbn. by rewrite lookup_insert_ne. }
  destruct (evict_keeps now s st0) eqn:Ek; [|intros _; right; eauto].
  assert (s_domains (if (maxTrackedDomains <=? size (s_domains s))%nat
                     then evictIdleLocked now s else s) !! d = Some st0) as Hs.
  { case_match; [|done]. cbn. apply map_lookup_filter_Some. by split. }
  intros H. left. exists st0. split; [|done].
  destruct (0 <? _); injection H as <- <-; cbn; by rewrite lookup_insert_ne.
Qed.

Lemma stateForLimits_at d now lim s st s' :
  stateForLimits d now lim s = (st, s') -> s_domains s' !! d = Some st /\ lastUsed st = now.
Proof.
  unfold stateForLimits. destruct (s_domains s !! d) as [st0|] eqn:Hl.
  - intros [= <- <-]. split; [apply lookup_insert_eq|done].
  - destruct (0 <? _); intros [= <- <-]; (split; [apply lookup_insert_eq|done]).
Qed.

(** ** A pause holds *)

(** [d] is paused until [T] at least. *)
Definition paused (d : string) (T : Z) : Shaper -> Prop := at_domain d (fun st => T <= deferUntil st).

Lemma paused_stateFor d T d' now lim s st s' :
  now < T -> paused d T s -> stateForLimits d' now lim s = (st, s') ->
  paused d T s' /\ (d' = d -> T <= deferUntil st).
Proof.
  intros Hn Hp H. destruct (decide (d' = d)) as [->|Hne].
  - destruct (stateForLimits_self _ _ _ _ _ _ _ Hp H) as [(st0 & HP & ->) _].
    destruct (stateForLimits_at _ _ _ _ _ _ H) as [Hl _]. split; [|done]. by eexists.
  - split; [|done]. destruct (stateForLimits_other d d' now lim s st s' _ ltac:(done) Hp H)
      as [?|(st0 & HP & Hk)]; [done|].
    unfold evict_keeps in Hk. rewrite (proj2 (Z.ltb_lt now _)) in Hk by lia. done.
Qed.

(** A report that reads the state of [d'] and writes it back without shortening the
    pause of [d]. *)
Lemma paused_update d T d' now lim s st s' st' :
  now < T -> paused d T s -> stateForLimits d' now lim s = (st, s') ->
  (d' = d -> deferUntil st <= deferUntil st') -> paused d T (put d' st' s').
Proof.
  intros Hn Hp H Hle. destruct (paused_stateFor _ _ _ _ _ _ _ _ Hn Hp H) as [Hp' Hd].
  destruct (decide (d' = d)) as [->|Hne]; [|by apply at_domain_put_ne].
  apply at_domain_put. specialize (Hd eq_refl). specialize (Hle eq_refl). lia.
Qed.

Lemma mergeShared_mono r now st :
  deferUntil st <= deferUntil (mergeShared r now st) /\
  penalty st <= penalty (mergeShared r now st) /\
  nextSend (mergeShared r now st) = nextSend st /\ lastUsed (mergeShared r now st) = lastUsed st.
Proof. unfold mergeShared. repeat case_match; bool_facts; cbn in *; lia. Qed.

(** What happens to a state before the lock is asked about it. *)
Definition prepared (now : Z) (limits : option Limits) (remote : option ThrottleState)
    (st : domainState) : domainState := decayed now (with_remote remote now (with_limits limits st)).

Lemma prepared_mono now limits remote st :
  deferUntil st <= deferUntil (prepared now limits remote st) /\
  nextSend (prepared now limits remote st) = nextSend st /\
  lastUsed (prepared now limits remote st) = lastUsed st.
Proof.
  unfold prepared, decayed, with_remote, with_limits.
  destruct remote as [r|], limits as [l|]; cbn;
    try (pose proof (mergeShared_mono r now st)); try (pose proof (mergeShared_mono r now
      (st <| rate := lim_MaxMessagesPerMinute l |>
          <| throttledRate := lim_ThrottledMessagesPerMinute l |>))); cbn in *;
    repeat case_match; cbn; lia.
Qed.

Lemma at_domain_ext d P s s' : s_domains s' = s_domains s -> at_domain d P s -> at_domain d P s'.
Proof. intros E (st & H & HP). exists st. split; [|done]. by rewrite E. Qed.

Section Pause.
Context {S : Type} `{!SharedStore S}.
Implicit Types (w : Shaper * S) (d : string).

Lemma fetchShared_domains now key w r w' :
  fetchShared now key w = (r, w') ->
  s_domains (fst w') = s_domains (fst w) /\ s_config (fst w') = s_config (fst w) /\
  s_chans (fst w') = s_chans (fst w).
Proof.
  destruct w as [s store]. unfold fetchShared.
  destruct (negb (sharedKey key)); [by intros [= <- <-]|].
  destruct (s_guard s) as [g|]; [|by intros [= <- <-]].
  destruct (match s_synced s !! key with Some _ => _ | None => _ end); [by intros [= <- <-]|].
  destruct (negb (available now g)); [by intros [= <- <-]|].
  destruct (Throttle key store) as [[st|e] store']; by intros [= <- <-].
Qed.

Lemma publishShared_at d P now key st w :
  (forall r x, P x -> P (mergeShared r now x)) ->
  at_domain d P (fst w) -> at_domain d P (fst (publishShared now key st w)).
Proof.
  intros HP H. destruct w as [s store]. unfold publishShared.
  destruct (negb (sharedKey key)); [done|]. destruct (s_guard s) as [g|]; [|done].
  destruct (negb (available now g)); [done|].
  destruct (MergeThrottle now key st store) as [[m|e] store']; [|done].
  cbn [fst]. cbn in H.
  match goal with |- at_domain _ _ (?x <| s_synced ::= _ |>) =>
    assert (at_domain d P x) as Hx; [|by revert Hx; apply at_domain_ext] end.
  destruct H as (y & Hy & Py).
  match goal with |- at_domain _ _ (match ?m with _ => _ end) => destruct m as [dst|] eqn:Ed end.
  - destruct (decide (key = d)) as [->|Hne].
    + apply at_domain_put. pose proof (eq_trans (eq_sym Hy) Ed) as E. injection E as <-. by apply HP.
    + apply at_domain_put_ne; [congruence|]. by exists y.
  - by exists y.
Qed.

(** [reserve] prepares the state and then only moves the next send time. *)
Lemma reserve_state now d lim remote s r s' :
  reserve now d lim remote s = (r, s') ->
  exists st0 s0 st, stateForLimits d now lim s = (st0, s0) /\ s' = put d st s0 /\
    let pre := prepared now lim remote st0 in
    deferUntil st = deferUntil pre /\ lastUsed st = lastUsed pre /\
    nextSend pre <= nextSend st /\
    (is_ok r = false <-> now < deferUntil pre) /\
    sendInterval (s_config s0) st = sendInterval (s_config s0) pre /\
    match r with
    | Ok (wait, _) => 0 < sendInterval (s_config s0) pre ->
        now + wait = Z.max now (nextSend pre) /\
        nextSend st = now + wait + sendInterval (s_config s0) pre
    | Err _ => st = pre
    end.
Proof.
  unfold reserve. destruct (stateForLimits d now lim s) as [st0 s0] eqn:Es.
  change (decayed now (with_remote remote now (with_limits lim st0)))
    with (prepared now lim remote st0).
  destruct (prepared now lim remote st0) as [sl ns du f lu ra tr pe pd th de df bo] eqn:Epre.
  cbn [deferUntil nextSend]. destruct (now <? du) eqn:Ed; bool_facts.
  - intros [= <- <-]. exists st0, s0, (prepared now lim remote st0). rewrite Epre. cbn.
    split_and!; try done; lia || (split; done).
  - destruct (0 <? sendInterval (s_config s0) _) eqn:Ei; bool_facts; intros [= <- <-].
    + exists st0, s0, ((prepared now lim remote st0)
        <| nextSend := (if ns <? now then now else ns)
                       + sendInterval (s_config s0) (prepared now lim remote st0) |>).
      rewrite Epre. cbn. split_and!; try done; try (split; [done|lia]).
      * repeat case_match; bool_facts; lia.
      * intros _. repeat case_match; bool_facts; lia.
    + exists st0, s0, (prepared now lim remote st0). rewrite Epre. cbn.
      split_and!; try done; try lia; split; done || lia.
Qed.

(** The operations that may end a pause of [d] early: a delivery that succeeded, and a
    plain deferral, which sets the pause anew. *)
Definition keeps_pause d (o : @operation S) : bool :=
  match o with
  | OpSuccess d' | OpDeferral d' => negb (d' =? d)%string
  | _ => true
  end.

Lemma paused_perform d T now o w :
  now < T -> keeps_pause d o = true -> paused d T (fst w) -> paused d T (fst (perform now o w)).
Proof.
  intros Hn Hk Hp. destruct w as [s store]. cbn in Hp.
  destruct o as [d' l|c|c|d'|d'|d' i m|d'|d'|d'|st']; cbn [perform keeps_pause] in *.
  - unfold acquire_reserve. destruct (fetchShared now d' (s, store)) as [remote [s1 st1]] eqn:Ef.
    apply fetchShared_domains in Ef as (E1 & _). cbn in E1.
    destruct (reserve now d' l remote s1) as [r s2] eqn:Er. cbn.
    apply reserve_state in Er as (st0 & s0 & st & Es & -> & Hd & _).
    eapply paused_update; [done| |exact Es|].
    + by apply (at_domain_ext _ _ s).
    + intros _. rewrite Hd. apply prepared_mono.
  - cbn. unfold take_slot. by repeat case_match.
  - cbn. unfold release_slot. by repeat case_match.
  - unfold BackingOff. destruct (fetchShared now d' (s, store)) as [remote [s1 st1]] eqn:Ef.
    apply fetchShared_domains in Ef as (E1 & _). cbn in E1.
    assert (paused d T s1) as Hp1 by (by apply (at_domain_ext _ _ s)).
    destruct (s_domains s1 !! d') as [st|] eqn:Hl.
    + assert (paused d T (put d' (with_remote remote now st) s1)) as Hq.
      { destruct (decide (d' = d)) as [->|Hne]; [|by apply at_domain_put_ne].
        apply at_domain_put. destruct Hp1 as (y & Hy & Py).
        pose proof (eq_trans (eq_sym Hy) Hl) as E. injection E as <-.
        unfold with_remote. destruct remote; [|done].
        etrans; [exact Py|]. apply mergeShared_mono. }
      by destruct (now <? _).
    + destruct remote; [|done]. by destruct (now <? _).
  - unfold ReportSuccess, stateFor. destruct (stateForLimits d' now None s) as [st s1] eqn:Es.
    bool_facts. cbn. by eapply paused_update.
  - unfold ReportThrottle. destruct (throttle_bounds (s_config s) i m) as [i' m'].
    unfold reportThrottleLocal, stateFor. destruct (stateForLimits d' now None s) as [st s1] eqn:Es.
    cbn [fst snd]. apply publishShared_at.
    { intros r x Px. etrans; [exact Px|]. apply mergeShared_mono. }
    cbn [fst]. eapply paused_update; [done|done|exact Es|]. intros _.
    repeat case_match; bool_facts; cbn in *; lia.
  - unfold ReportDeferral, stateFor. destruct (stateForLimits d' now None s) as [st s1] eqn:Es.
    bool_facts. cbn. by eapply paused_update.
  - unfold ReportRecipientDeferral, stateFor.
    destruct (stateForLimits d' now None s) as [st s1] eqn:Es. by eapply paused_update.
  - unfold ReportPermanentFailure, stateFor.
    destruct (stateForLimits d' now None s) as [st s1] eqn:Es. by eapply paused_update.
  - done.
Qed.

Fixpoint end_time (now : Z) (ops : list (Z * @operation S)) : Z :=
  match ops with [] => now | (t, _) :: ops' => end_time (Z.max now t) ops' end.

Lemma end_time_le ops : forall now, now <= end_time now ops.
Proof.
  induction ops as [|[t o] ops IH]; intros now; cbn; [lia|]. specialize (IH (Z.max now t)). lia.
Qed.

Lemma paused_history d T ops : forall now w,
  forallb (fun o => keeps_pause d (snd o)) ops = true -> end_time now ops < T ->
  paused d T (fst w) -> paused d T (fst (history now ops w)).
Proof.
  induction ops as [|[t o] ops IH]; intros now w; cbn [history forallb end_time snd]; [done|].
  intros [Ho Hops]%andb_true_iff He Hp. apply IH; [done|done|].
  pose proof (end_time_le ops (Z.max now t)). apply paused_perform; [lia|done|done].
Qed.

Lemma ReportDeferral_pauses now d s b s' :
  ReportDeferral now d s = (b, s') -> paused d (now + b) s'.
Proof.
  unfold ReportDeferral, stateFor. destruct (stateForLimits d now None s) as [st s1].
  intros [= <- <-]. apply at_domain_put. cbn. lia.
Qed.

Lemma reportThrottleLocal_pauses now d i m s b snap s' :
  reportThrottleLocal now d i m s = (b, snap, s') -> paused d (now + b) s'.
Proof.
  unfold reportThrottleLocal, stateFor. destruct (stateForLimits d now None s) as [st s1].
  intros [= <- _ <-]. apply at_domain_put. repeat case_match; bool_facts; cbn in *; lia.
Qed.

Lemma ReportThrottle_pauses now d i m w b w' :
  ReportThrottle now d i m w = (b, w') -> paused d (now + b) (fst w').
Proof.
  destruct w as [s store]. unfold ReportThrottle.
  destruct (throttle_bounds (s_config s) i m) as [i' m'].
  destruct (reportThrottleLocal now d i' m' s) as [[b' snap] s1] eqn:E. intros H.
  pose proof (f_equal fst H) as Hb. pose proof (f_equal snd H) as Hw. cbn [fst snd] in Hb, Hw. subst b w'.
  apply (publishShared_at d (fun st => now + b' <= deferUntil st)).
  - intros r x Px. etrans; [exact Px|]. apply mergeShared_mono.
  - exact (reportThrottleLocal_pauses _ _ _ _ _ _ _ _ E).
Qed.

(** C25 (safety). A pause is respected: once a destination has deferred or throttled us for
    [b], every attempt to reserve a send to it before the pause is over is refused,
    whatever else happens to the shaper meanwhile (other destinations, evictions when
    the table is full, throttles of other nodes, a failing store), unless a delivery to
    it succeeded or it deferred us again. *)
Theorem pause_respected d t0 b w0 w1 ops t lim :
  (exists i m, ReportThrottle t0 d i m w0 = (b, w1)) \/
    (ReportDeferral t0 d (fst w0) = (b, fst w1)) ->
  forallb (fun o => keeps_pause d (snd o)) ops = true ->
  end_time t0 ops <= t < t0 + b ->
  is_ok (fst (acquire_reserve t d lim (history t0 ops w1))) = false.
Proof.
  intros Hr Hops Ht.
  assert (paused d (t0 + b) (fst w1)) as Hp.
  { destruct Hr as [(i & m & H)|H]; [by eapply ReportThrottle_pauses|by eapply ReportDeferral_pauses]. }
  pose proof (paused_history d (t0 + b) ops t0 w1 Hops ltac:(lia) Hp) as Hq.
  destruct (history t0 ops w1) as [s store]. cbn in Hq. unfold acquire_reserve.
  destruct (fetchShared t d (s, store)) as [remote [s1 st1]] eqn:Ef.
  apply fetchShared_domains in Ef as (E1 & _). cbn in E1.
  destruct (reserve t d lim remote s1) as [r s2] eqn:Er. cbn.
  apply reserve_state in Er as (st0 & s0 & st & Es & _ & _ & _ & _ & Hr' & _).
  apply Hr'. assert (paused d (t0 + b) s1) as Hp1 by (by apply (at_domain_ext _ _ s)).
  destruct (paused_stateFor d (t0 + b) d t lim s1 st0 s0 ltac:(lia) Hp1 Es) as [_ Hd].
  specialize (Hd eq_refl). pose proof (prepared_mono t lim remote st0). lia.
Qed.
End Pause.

(** A destination throttles us for ten minutes; a minute later it is still paused. *)
Definition demo_shaper : Shaper := SetSharedState (NewShaper DefaultShapingConfig).
Definition demo_throttle : Z * (Shaper * ValkeyState toy_redis) :=
  ReportThrottle (1000 * Second) "provider:gmail" (10 * Minute) (2 * Hour) (demo_shaper, toy_store).
Lemma pause_respected_witness :
  fst demo_throttle = 10 * Minute /\
  is_ok (fst (acquire_reserve (1060 * Second) "provider:gmail" None
    (history (1000 * Second) [(1001 * Second, OpPermanentFailure "provider:gmail")]
       (snd demo_throttle)))) = false.
Proof.
  assert (fst demo_throttle = 10 * Minute) as Hb by (by vm_compute). split; [done|].
  apply (pause_respected "provider:gmail" (1000 * Second) (fst demo_throttle)
           (demo_shaper, toy_store)); [|done|rewrite Hb; by vm_compute].
  left. exists (10 * Minute), (2 * Hour). apply surjective_pairing.
Defined.

(** On a node of its own, a plain deferral of another worker replaces the long pause of a
    throttle by a short one, although a throttle takes care never to shorten a pause. *)
Example deferral_shortens_throttle :
  let w0 := (NewShaper DefaultShapingConfig, toy_store) in
  let '(_, w1) := ReportThrottle (1000 * Second) "provider:gmail" (10 * Minute) (2 * Hour) w0 in
  is_ok (fst (acquire_reserve (1100 * Second) "provider:gmail" None w1)) = false /\
  is_ok (fst (acquire_reserve (1100 * Second) "provider:gmail" None
    (history (1000 * Second) [(1001 * Second, OpDeferral "provider:gmail")] w1))) = true.
Proof. vm_compute. done. Qed.

(** ** Sends are spaced *)

Section Spacing.
Context {S : Type} `{!SharedStore S}.
Implicit Types (w : Shaper * S) (d : string).

(** The next send to [d] is not before [T]: either [T] has passed, or the table still
    says so and will not forget before [T]. *)
Definition spaced d (T now : Z) (s : Shaper) : Prop :=
  T <= now \/ at_domain d (fun st => T <= nextSend st /\ lastUsed st <= now /\
                                     T <= lastUsed st + idleEvictionAge) s.

Lemma spaced_ext d T now s s' : s_domains s' = s_domains s -> spaced d T now s -> spaced d T now s'.
Proof. intros E [H|H]; [by left|right]. by apply (at_domain_ext _ _ s). Qed.

Lemma spaced_later d T now now' s : now <= now' -> spaced d T now s -> spaced d T now' s.
Proof.
  intros Hle [H|(st & Hl & H1 & H2 & H3)]; [left; lia|right]. exists st. split; [done|]. lia.
Qed.

(** An operation that reads a state and writes it back with the same or a later next
    send time. *)
Lemma spaced_update d T d' now lim s st s' st' :
  spaced d T now s -> stateForLimits d' now lim s = (st, s') ->
  (d' = d -> nextSend st <= nextSend st' /\ lastUsed st' = lastUsed st) ->
  spaced d T now (put d' st' s').
Proof.
  intros [H|Hs] Es Hm; [by left|]. destruct (decide (d' = d)) as [->|Hne].
  - destruct (stateForLimits_self _ _ _ _ _ _ _ Hs Es) as [(st0 & (H1 & H2 & H3) & ->) _].
    destruct (Hm eq_refl) as [Hn Hu]. right. apply at_domain_put. rewrite Hu. cbn in *. lia.
  - destruct (stateForLimits_other d d' now lim s st s' _ ltac:(done) Hs Es)
      as [Hk|(st0 & (H1 & H2 & H3) & Hk)].
    + right. by apply at_domain_put_ne.
    + left. unfold evict_keeps in Hk. bool_facts. lia.
Qed.

Lemma publishShared_spaced d T now key st w :
  spaced d T now (fst w) -> spaced d T now (fst (publishShared now key st w)).
Proof.
  intros [H|H]; [by left|right]. apply publishShared_at; [|done].
  intros r x (H1 & H2 & H3). pose proof (mergeShared_mono r now x) as (_ & _ & -> & ->). done.
Qed.

Lemma spaced_perform d T now o w : spaced d T now (fst w) -> spaced d T now (fst (perform now o w)).
Proof.
  intros Hp. destruct w as [s store]. cbn in Hp.
  destruct o as [d' l|c|c|d'|d'|d' i m|d'|d'|d'|st']; cbn [perform].
  - unfold acquire_reserve. destruct (fetchShared now d' (s, store)) as [remote [s1 st1]] eqn:Ef.
    apply fetchShared_domains in Ef as (E1 & _). cbn in E1.
    destruct (reserve now d' l remote s1) as [r s2] eqn:Er. cbn.
    apply reserve_state in Er as (st0 & s0 & st & Es & -> & _ & Hu & Hn & _).
    eapply spaced_update; [|exact Es|].
    + by apply (spaced_ext _ _ _ s).
    + intros _. pose proof (prepared_mono now l remote st0). lia.
  - cbn. unfold take_slot. by repeat case_match.
  - cbn. unfold release_slot. by repeat case_match.
  - unfold BackingOff. destruct (fetchShared now d' (s, store)) as [remote [s1 st1]] eqn:Ef.
    apply fetchShared_domains in Ef as (E1 & _). cbn in E1.
    assert (spaced d T now s1) as Hp1 by (by apply (spaced_ext _ _ _ s)).
    destruct (s_domains s1 !! d') as [st|] eqn:Hl.
    + assert (spaced d T now (put d' (with_remote remote now st) s1)) as Hq.
      { destruct Hp1 as [?|Hp1]; [by left|right].
        destruct (decide (d' = d)) as [->|Hne]; [|by apply at_domain_put_ne].
        apply at_domain_put. destruct Hp1 as (y & Hy & Py).
        pose proof (eq_trans (eq_sym Hy) Hl) as E. injection E as <-.
        unfold with_remote. destruct remote as [r|]; [|done].
        by pose proof (mergeShared_mono r now y) as (_ & _ & -> & ->). }
      by destruct (now <? _).
    + destruct remote; [|done]. by destruct (now <? _).
  - unfold ReportSuccess, stateFor. destruct (stateForLimits d' now None s) as [st s1] eqn:Es.
    cbn. by eapply spaced_update.
  - unfold ReportThrottle. destruct (throttle_bounds (s_config s) i m) as [i' m'].
    destruct (reportThrottleLocal now d' i' m' s) as [[b snap] s1] eqn:E. cbn [snd].
    apply publishShared_spaced. cbn [fst]. revert E.
    unfold reportThrottleLocal, stateFor. destruct (stateForLimits d' now None s) as [st s0] eqn:Es.
    intros [= _ _ <-]. eapply spaced_update; [done|exact Es|]. intros _. by repeat case_match.
  - unfold ReportDeferral, stateFor. destruct (stateForLimits d' now None s) as [st s1] eqn:Es.
    cbn. by eapply spaced_update.
  - unfold ReportRecipientDeferral, stateFor.
    destruct (stateForLimits d' now None s) as [st s1] eqn:Es. by eapply spaced_update.
  - unfold ReportPermanentFailure, stateFor.
    destruct (stateForLimits d' now None s) as [st s1] eqn:Es. by eapply spaced_update.
  - done.
Qed.

Lemma spaced_history d T ops : forall now w,
  spaced d T now (fst w) -> spaced d T (end_time now ops) (fst (history now ops w)).
Proof.
  induction ops as [|[t o] ops IH]; intros now w H; cbn [history end_time]; [done|].
  apply IH, spaced_perform. eapply spaced_later; [|exact H]. lia.
Qed.

(** The pace [d] is held to, from its entry in the table. *)
Definition pace d (s : Shaper) : Z :=
  match s_domains s !! d with Some st => sendInterval (s_config s) st | None => 0 end.

Lemma acquire_reserve_paces d lim now w wait c w' :
  acquire_reserve now d lim w = (Ok (wait, c), w') -> 0 < pace d (fst w') ->
  (forall T, spaced d T now (fst w) -> T <= now + wait) /\
  (now + wait + pace d (fst w') <= now + idleEvictionAge ->
   spaced d (now + wait + pace d (fst w')) now (fst w')).
Proof.
  unfold acquire_reserve. destruct w as [s store].
  destruct (fetchShared now d (s, store)) as [remote [s1 st1]] eqn:Ef.
  apply fetchShared_domains in Ef as (E1 & _). cbn in E1.
  destruct (reserve now d lim remote s1) as [r s2] eqn:Er. intros [= -> <-]. cbn [fst].
  apply reserve_state in Er as (st0 & s0 & st & Es & -> & _ & Hu & _ & _ & Hi & Hw).
  destruct (stateForLimits_at _ _ _ _ _ _ Es) as [_ Hlast].
  pose proof (prepared_mono now lim remote st0) as (_ & Hns & Hlu).
  assert (pace d (put d st s0) = sendInterval (s_config s0) st) as Ep.
  { unfold pace. cbn. by rewrite lookup_insert_eq. }
  rewrite Ep, Hi. intros Hpos. destruct (Hw Hpos) as [Hwait Hnext]. split.
  - intros T HT. apply (spaced_ext _ _ _ _ s1) in HT; [|done].
    destruct HT as [HT|HT]; [lia|].
    destruct (stateForLimits_self _ _ _ _ _ _ _ HT Es) as [(y & (H1 & _) & Ey) _].
    assert (nextSend st0 = nextSend y) by (by rewrite Ey). lia.
  - intros Hle. right. apply at_domain_put. rewrite Hu, Hlu, Hlast. lia.
Qed.

(** C26 (safety). Sends to one destination are spaced: when two sends to it are reserved, at
    whatever later time and after whatever other operations of the shaper, the second is
    planned at least one interval of the rate then in force after the first, as long as
    the first send and its interval lie within the hour for which the table remembers an
    unused destination, and the destination has a rate limit at both reservations. *)
Theorem sends_spaced d lim t1 w0 wait1 c1 w1 ops lim' t2 wait2 c2 w2 :
  acquire_reserve t1 d lim w0 = (Ok (wait1, c1), w1) -> 0 < pace d (fst w1) ->
  wait1 + pace d (fst w1) <= idleEvictionAge ->
  end_time t1 ops <= t2 ->
  acquire_reserve t2 d lim' (history t1 ops w1) = (Ok (wait2, c2), w2) -> 0 < pace d (fst w2) ->
  t1 + wait1 + pace d (fst w1) <= t2 + wait2.
Proof.
  intros H1 Hp1 Hle Ht H2 Hp2.
  destruct (acquire_reserve_paces d lim t1 w0 wait1 c1 w1 H1 Hp1) as [_ Hs].
  destruct (acquire_reserve_paces d lim' t2 _ wait2 c2 w2 H2 Hp2) as [Hn _].
  apply Hn. eapply spaced_later; [exact Ht|]. apply spaced_history, Hs. lia.
Qed.
End Spacing.

(** Two sends under 30 messages a minute, half a second apart: planned two seconds
    apart. *)
Definition demo_paced : Shaper := NewShaper (DefaultShapingConfig <| MaxMessagesPerMinute := 30 |>).
Definition demo_first : result (Z * option nat) * (Shaper * ValkeyState toy_redis) :=
  acquire_reserve (1000 * Second) "example.com" None (demo_paced, toy_store).
Definition demo_second : result (Z * option nat) * (Shaper * ValkeyState toy_redis) :=
  acquire_reserve (1000 * Second + 500 * Millisecond) "example.com" None (snd demo_first).

Lemma sends_spaced_witness :
  pace "example.com" (fst (snd demo_first)) = 2 * Second /\
  1000 * Second + 0 + 2 * Second <= 1000 * Second + 500 * Millisecond + 1500 * Millisecond.
Proof.
  assert (pace "example.com" (fst (snd demo_first)) = 2 * Second) as E by (by vm_compute).
  split; [done|]. rewrite <- E.
  apply (sends_spaced "example.com" None (1000 * Second) (demo_paced, toy_store) 0 (Some O)
           (snd demo_first) [] None (1000 * Second + 500 * Millisecond) (1500 * Millisecond)
           (Some O) (snd demo_second)); by vm_compute.
Defined.

(** ** Slots *)

(** A slot is only taken while the channel has room. *)
Lemma take_slot_bound i s s' ch :
  s_chans s !! i = Some ch -> take_slot (Some i) s = Some s' ->
  exists ch', s_chans s' !! i = Some ch' /\ (ch_len ch' = ch_len ch + 1 /\ ch_len ch' <= ch_cap ch').
Proof.
  intros Hl. unfold take_slot. rewrite Hl. case_match; [|done]. intros [= <-]. bool_facts.
  eexists. split; [cbn; apply list_lookup_insert_eq; by eapply lookup_lt_Some|]. cbn. lia.
Qed.
