(* ===== verification/Pools.v ===== *)
(** * Pools: sending addresses and their warm-up allowance

    Models internal/queue/pools.go: which pool a sender belongs to, the daily cap of an
    address and how much of it is released by now, and the choice of a source address
    with its reservation and refund, on one node or against the counts of a
    [SharedStore].

    A day is its number since the epoch (the code keeps its rendering as a date, which
    is one to one); the state file is an argument of [NewPoolRouter].

    In [cluster_step] a reservation is one step of its node.  On a node's own counts the
    code holds the lock throughout; against the store it holds it only around each change
    of the counts, so that two reservations of one node that straddle midnight can also
    interleave, and the later day's count is then reset ([late_take_resets]). *)

From stdpp Require Import gmap.
From Stdlib Require Import SpecFloat.
From S2P Require Import Prelude GoStrings GoNet GoMath SharedState.

Set Primitive Projections.

Definition Day_ : Z := 24 * Hour.
Definition day_of (now : Z) : Z := now / Day_.
Definition midnight (now : Z) : Z := day_of now * Day_.

(** [Time.Sub], which saturates. *)
Definition Sub (t u : Z) : Z := Z.max (- 2 ^ 63) (Z.min (2 ^ 63 - 1) (t - u)).

(** ** Floats of the pacing formula *)

(** [Duration.Hours()] *)
Definition Hours (d : Z) : float64 :=
  f64_add (f64_of_Z (Z.quot d Hour)) (f64_div (f64_of_Z (Z.rem d Hour)) (f64_of_Z Hour)).

(** [int(f)] and [int(math.Ceil(f))] of a finite float. *)
Definition f64_trunc (f : float64) : Z :=
  match f with
  | S754_finite s m e =>
      let v := if 0 <=? e then Zpos m * 2 ^ e else Zpos m / 2 ^ (- e) in
      if s then - v else v
  | _ => 0
  end.
Definition f64_ceil (f : float64) : Z :=
  match f with
  | S754_finite false m e =>
      if 0 <=? e then Zpos m * 2 ^ e else (Zpos m + 2 ^ (- e) - 1) / 2 ^ (- e)
  | S754_finite true m e => if 0 <=? e then - (Zpos m * 2 ^ e) else - (Zpos m / 2 ^ (- e))
  | _ => 0
  end.

(** ** Data *)

Record sourceIP := mkSource {
  src_pool : string;
  src_ip : IP;
  src_addr : string;
  src_helo : string;
  src_start : option Z        (* none when the address is warm *)
}.

Record sendingPool := mkPool {
  sp_name : string;
  sp_ips : list sourceIP;
  sp_schedule : list Z;
  sp_next : nat
}.

Record ipUsage := mkUsage { u_Day : Z; u_Sent : Z }.

Record PoolRouter := mkRouter {
  r_pools : gmap string sendingPool;
  byAddress : gmap string string;
  byDomain : gmap string string;
  bySubdomain : gmap string string;
  defaultPool : string;
  r_shared : option sharedGuard;
  usage : gmap string ipUsage;
  dirty : bool
}.

(** ** Caps *)

Definition dailyCap (p : sendingPool) (src : sourceIP) (now : Z) : Z :=
  match src_start src with
  | None => -1
  | Some start =>
      if (length (sp_schedule p) =? 0)%nat then -1
      else
        let day := f64_trunc (f64_div (Hours (Sub (midnight now) start)) (f64_of_Z 24)) in
        let day := if day <? 0 then 0 else day in
        if Z.of_nat (length (sp_schedule p)) <=? day then -1
        else nth (Z.to_nat day) (sp_schedule p) 0
  end.

Definition allowedSoFar (p : sendingPool) (src : sourceIP) (now : Z) : Z :=
  let limit := dailyCap p src now in
  if limit <? 0 then -1
  else
    let fraction := f64_add (f64_div (Hours (now - midnight now)) (f64_of_Z 24)) (f64_ratio 1 24) in
    let allowed := f64_ceil (f64_mul (f64_of_Z limit) fraction) in
    if limit <? allowed then limit else allowed.

(** ** Routing a sender *)

(** The most specific parent domain that is listed. *)
Fixpoint walk_up (table : gmap string string) (d : string) : option string :=
  match d with
  | EmptyString => None
  | String c d' =>
      if Ascii.eqb c "." then
        match table !! d' with Some n => Some n | None => walk_up table d' end
      else walk_up table d'
  end.

Section Router.
Context `{U : UnicodeTables}.

Definition poolFor (r : PoolRouter) (sender : string) : string :=
  let sender := ToLower (Trim (TrimSpace sender) "<>") in
  if (sender =? "")%string then defaultPool r
  else match byAddress r !! sender with
  | Some n => n
  | None =>
      match LastIndexByte sender "@" with
      | None => defaultPool r
      | Some at_ =>
          let domain := sdrop (S at_) sender in
          match byDomain r !! domain with
          | Some n => n
          | None => default (defaultPool r) (walk_up (bySubdomain r) domain)
          end
      end
  end.
End Router.

(** ** Reservations *)

(** Today's usage of an address; a count of another day is reset. *)
Definition usageLocked (addr : string) (day : Z) (r : PoolRouter) : ipUsage * PoolRouter :=
  let u := default (mkUsage day 0) (usage r !! addr) in
  let u := if u_Day u =? day then u else mkUsage day 0 in
  (u, r <| usage ::= <[addr := u]> |>).

(** What the returned release function closes over, and whether it has run. *)
Record ticket := mkTicket {
  t_src : sourceIP;
  t_day : Z;
  t_stored : bool;        (* counted in the shared store too *)
  t_refunded : bool
}.

Definition poolCapacityError (name : string) : string :=
  "sending pool has no warmup allowance left: pool " +:+ String DQUOTE (name +:+ String DQUOTE "").

(** [pool.ips[(pool.next+i)%len]] for i = 0, 1, ... with i. *)
Definition candidates (p : sendingPool) : list (nat * sourceIP) :=
  omap (fun i => (fun src => (i, src)) <$> sp_ips p !! ((sp_next p + i) mod length (sp_ips p))%nat)
       (seq 0 (length (sp_ips p))).

(** Count one send of the i-th candidate and move the cursor behind it. *)
Definition count_send (name : string) (p : sendingPool) (i : nat) (src : sourceIP) (day : Z)
    (r : PoolRouter) : PoolRouter :=
  let '(u, r) := usageLocked (src_addr src) day r in
  r <| r_pools ::= <[name := p <| sp_next := ((sp_next p + i + 1) mod length (sp_ips p))%nat |>]> |>
    <| usage ::= <[src_addr src := mkUsage (u_Day u) (u_Sent u + 1)]> |>
    <| dirty := true |>.

(** The loop of [acquire] on one node's own counts. *)
Fixpoint acquire_local (name : string) (p : sendingPool) (now : Z)
    (cs : list (nat * sourceIP)) (r : PoolRouter) : result ticket * PoolRouter :=
  match cs with
  | [] => (Err (poolCapacityError name), r)
  | (i, src) :: cs' =>
      let day := day_of now in
      let allowed := allowedSoFar p src now in
      let '(u, r) := usageLocked (src_addr src) day r in
      if ((0 <=? allowed) && (allowed <=? u_Sent u))%bool
      then acquire_local name p now cs' r
      else (Ok (mkTicket src day false false), count_send name p i src day r)
  end.

Section Acquire.
Context {S : Type} `{!SharedStore S}.

(** [take(i, c, localCap)] of [acquireShared]. *)
Definition take_local (name : string) (p : sendingPool) (i : nat) (src : sourceIP) (allowed day : Z)
    (localCap : bool) (r : PoolRouter) : bool * PoolRouter :=
  let '(u, r) := usageLocked (src_addr src) day r in
  if (localCap && (0 <=? allowed) && (allowed <=? u_Sent u))%bool then (false, r)
  else (true, count_send name p i src day r).

(** The loop of [acquireShared] over the candidates chosen at its start. *)
Fixpoint acquire_shared (name : string) (p : sendingPool) (now : Z) (cs : list (nat * sourceIP))
    (w : PoolRouter * S) : result ticket * (PoolRouter * S) :=
  match cs with
  | [] => (Err (poolCapacityError name), w)
  | (i, src) :: cs' =>
      let '(r, store) := w in
      let day := day_of now in
      let allowed := allowedSoFar p src now in
      let fallback r store :=
        match take_local name p i src allowed day true r with
        | (true, r) => (Ok (mkTicket src day false false), (r, store))
        | (false, r) => acquire_shared name p now cs' (r, store)
        end in
      if allowed <? 0 then
        (Ok (mkTicket src day false false),
         (snd (take_local name p i src allowed day false r), store))
      else match r_shared r with
      | None => fallback r store
      | Some g =>
          if negb (available now g) then fallback r store
          else match TakeWarmup day (src_addr src) allowed store with
               | (Err _, store) => fallback (r <| r_shared := Some (guard_fail now g) |>) store
               | (Ok (taken, _), store) =>
                   let r := r <| r_shared := Some (guard_ok g) |> in
                   if taken then
                     (Ok (mkTicket src day true false),
                      (snd (take_local name p i src allowed day false r), store))
                   else acquire_shared name p now cs' (r, store)
               end
      end
  end.

Definition reserved (t : result ticket) : result (option ticket) :=
  match t with Ok t => Ok (Some t) | Err e => Err e end.

Definition acquire `{U : UnicodeTables} (now : Z) (sender : string) (w : PoolRouter * S) :
    result (option ticket) * (PoolRouter * S) :=
  let '(r, store) := w in
  let name := poolFor r sender in
  if (name =? "")%string then (Ok None, w)
  else match r_pools r !! name with
  | None => (Ok None, w)       (* NewPoolRouter leaves no such name *)
  | Some p =>
      match r_shared r with
      | Some _ =>
          let '(t, w) := acquire_shared name p now (candidates p) w in (reserved t, w)
      | None =>
          let '(t, r) := acquire_local name p now (candidates p) r in (reserved t, (r, store))
      end
  end.

(** [localRefund]: once, and only against the day it was taken from. *)
Definition localRefund (t : ticket) (r : PoolRouter) : PoolRouter :=
  if t_refunded t then r
  else match usage r !! src_addr (t_src t) with
  | Some cur =>
      if ((u_Day cur =? t_day t) && (0 <? u_Sent cur))%bool
      then r <| usage ::= <[src_addr (t_src t) := mkUsage (u_Day cur) (u_Sent cur - 1)]> |>
             <| dirty := true |>
      else r
  | None => r
  end.

(** The release function of a reservation: [localRefund], or [sharedRefund]. *)
Definition refund (now : Z) (t : ticket) (w : PoolRouter * S) : ticket * (PoolRouter * S) :=
  let '(r, store) := w in
  if t_refunded t then (t, w)
  else
    let r := localRefund t r in
    let t' := t <| t_refunded := true |> in
    if negb (t_stored t) then (t', (r, store))
    else match r_shared r with
    | None => (t', (r, store))
    | Some g =>
        if negb (available now g) then (t', (r, store))
        else match RefundWarmup (t_day t) (src_addr (t_src t)) store with
             | (Err _, store) => (t', (r <| r_shared := Some (guard_fail now g) |>, store))
             | (Ok _, store) => (t', (r <| r_shared := Some (guard_ok g) |>, store))
             end
    end.
End Acquire.

(** Counts carried over a reload, for the addresses still configured. *)
Definition configured (r : PoolRouter) (addr : string) : bool :=
  match ParseIP (TrimSpace addr) with
  | None => false
  | Some ip => existsb (fun kp => existsb (fun src => String.eqb (src_addr src) (IP_String ip))
                                          (sp_ips (snd kp))) (map_to_list (r_pools r))
  end.

Definition setShared (g : option sharedGuard) (r : PoolRouter) : PoolRouter := r <| r_shared := g |>.

Definition adoptUsage (old : PoolRouter) (r : PoolRouter) : PoolRouter :=
  let carried := filter (fun ku => configured r (fst ku) = true) (usage old) in
  r <| usage := carried ∪ usage r |>
    <| dirty := (dirty r || negb (size carried =? 0)%nat)%bool |>.

(** ** Caps are kept *)

Lemma allowedSoFar_le_cap p src now :
  0 <= allowedSoFar p src now -> 0 <= dailyCap p src now /\ allowedSoFar p src now <= dailyCap p src now.
Proof.
  unfold allowedSoFar. cbv zeta. destruct (dailyCap p src now <? 0) eqn:E; bool_facts; [lia|].
  case_match; bool_facts; lia.
Qed.

Lemma allowedSoFar_uncapped p src now : dailyCap p src now < 0 -> allowedSoFar p src now = -1.
Proof. intros H. unfold allowedSoFar. cbv zeta. by rewrite (proj2 (Z.ltb_lt _ 0)). Qed.

Lemma allowedSoFar_capped p src now :
  0 <= dailyCap p src now -> allowedSoFar p src now <= dailyCap p src now.
Proof.
  intros H. unfold allowedSoFar. cbv zeta. rewrite (proj2 (Z.ltb_ge _ 0)) by done.
  case_match; bool_facts; lia.
Qed.

Lemma Hours_nonneg d : 0 <= d -> nonneg (Hours d).
Proof.
  intros H. unfold Hours. apply f64_add_nonneg; [|apply f64_div_nonneg];
    apply f64_of_Z_nonneg; [apply Z.quot_pos; done || lia|apply Z.rem_nonneg; done|done].
Qed.

Lemma f64_ceil_nonneg f : nonneg f -> 0 <= f64_ceil f.
Proof.
  unfold nonneg. destruct f as [| | |[] m e]; cbn; try done. intros _.
  case_match; bool_facts.
  - pose proof (Z.pow_nonneg 2 e ltac:(lia)). nia.
  - pose proof (Z.pow_pos_nonneg 2 (- e) ltac:(lia) ltac:(lia)). apply Z.div_pos; lia.
Qed.

(** A capped address is never taken for an uncapped one. *)
Lemma allowedSoFar_nonneg p src now : 0 <= dailyCap p src now -> 0 <= allowedSoFar p src now.
Proof.
  intros H. unfold allowedSoFar. cbv zeta. rewrite (proj2 (Z.ltb_ge _ 0)) by done.
  assert (0 <= now - midnight now).
  { unfold midnight, day_of. pose proof (Z.mul_div_le now Day_ ltac:(done)). lia. }
  case_match; [done|]. apply f64_ceil_nonneg, f64_mul_nonneg; [by apply f64_of_Z_nonneg|].
  apply f64_add_nonneg; [|by vm_compute].
  apply f64_div_nonneg; [by apply Hours_nonneg|by apply f64_of_Z_nonneg].
Qed.

Lemma candidates_in p i src : (i, src) ∈ candidates p -> src ∈ sp_ips p.
Proof.
  unfold candidates. rewrite list_elem_of_omap. intros (j & _ & H).
  apply fmap_Some in H as (x & Hx & [= -> ->]). by eapply list_elem_of_lookup_2.
Qed.

(** Reservations for an address on a day that were not refunded, all of them and those
    counted in the store. *)
Definition is_for (D : Z) (a : string) (t : ticket) : bool :=
  (negb (t_refunded t) && (t_day t =? D) && (src_addr (t_src t) =? a)%string)%bool.
Definition open_tickets (D : Z) (a : string) (ts : list ticket) : Z :=
  zsum (fun t => if is_for D a t then 1 else 0) ts.
Definition stored_tickets (D : Z) (a : string) (ts : list ticket) : Z :=
  zsum (fun t => if (is_for D a t && t_stored t)%bool then 1 else 0) ts.
Definition loose_tickets (D : Z) (a : string) (ts : list ticket) : Z :=
  zsum (fun t => if (is_for D a t && negb (t_stored t))%bool then 1 else 0) ts.

(** A node: its router, the release functions it has handed out, and those of routers that
    a reload has replaced since. *)
Record node := mkNode { n_router : PoolRouter; n_tickets : list ticket; n_old : list ticket }.
Definition all_tickets (n : node) : list ticket := n_tickets n ++ n_old n.

Section Cluster.
Context {S : Type} `{!SharedStore S, !SharedStoreLaws S} `{U : UnicodeTables}.

Record cluster := mkCluster { c_nodes : list node; c_store : S; c_now : Z }.

(** Nodes act in any order; the clock does not go back.  [fit now old next] is what is
    known of a router that replaces [old] on a reload. *)
Inductive cluster_step (fit : Z -> PoolRouter -> PoolRouter -> Prop) : cluster -> cluster -> Prop :=
| cl_acquire i n now sender r ro r' store store' ns t0 :
    (* a reservation, or the error that there is none left *)
    ns !! i = Some n -> t0 <= now -> ro = n_router n ->
    acquire now sender (ro, store) = (r, (r', store')) ->
    cluster_step fit (mkCluster ns store t0)
      (mkCluster (<[i := mkNode r' (match r with Ok (Some t) => t :: n_tickets n
                                             | _ => n_tickets n end) (n_old n)]> ns) store' now)
| cl_refund i n j now t t' ro r' store store' ns t0 :
    ns !! i = Some n -> t0 <= now -> ro = n_router n -> n_tickets n !! j = Some t ->
    refund now t (ro, store) = (t', (r', store')) ->
    cluster_step fit (mkCluster ns store t0)
      (mkCluster (<[i := mkNode r' (<[j := t']> (n_tickets n)) (n_old n)]> ns) store' now)
| cl_refund_old i n j now t t' ro r' store store' ns t0 :
    (* into a router that nobody uses any more *)
    ns !! i = Some n -> t0 <= now -> n_old n !! j = Some t ->
    refund now t (ro, store) = (t', (r', store')) ->
    cluster_step fit (mkCluster ns store t0)
      (mkCluster (<[i := mkNode (n_router n) (n_tickets n) (<[j := t']> (n_old n))]> ns) store' now)
| cl_setShared i n g store ns t0 :
    ns !! i = Some n ->
    cluster_step fit (mkCluster ns store t0)
      (mkCluster (<[i := mkNode (setShared g (n_router n)) (n_tickets n) (n_old n)]> ns) store t0)
| cl_reload i n next g now store ns t0 :
    ns !! i = Some n -> t0 <= now -> fit now (n_router n) next ->
    cluster_step fit (mkCluster ns store t0)
      (mkCluster (<[i := mkNode (adoptUsage (n_router n) (setShared g next)) [] (all_tickets n)]> ns) store now).

(** What all nodes agree on: the cap of an address on a day. *)
Context (cap : Z -> string -> Z).
Definition agrees (r : PoolRouter) : Prop :=
  forall name p, r_pools r !! name = Some p ->
  forall src now, src ∈ sp_ips p -> dailyCap p src now = cap (day_of now) (src_addr src).

(** The books of one address: what is open today has been counted. *)
Definition book (now : Z) (a : string) (ts : list ticket) (ou : option ipUsage) : Prop :=
  match ou with
  | None => forall D, open_tickets D a ts = 0
  | Some u =>
      u_Day u <= day_of now /\ 0 <= u_Sent u /\ open_tickets (u_Day u) a ts <= u_Sent u /\
      forall D, u_Day u < D -> open_tickets D a ts = 0
  end.

(** The books of a router, and what was reserved on them alone is within the cap. *)
Definition balanced (now : Z) (ts : list ticket) (r : PoolRouter) : Prop :=
  (forall a, book now a ts (usage r !! a)) /\
  (forall D a, 0 <= cap D a -> loose_tickets D a ts <= cap D a).

Lemma book_usageLocked now a ts r a' u r' :
  book now a ts (usage r !! a) -> usageLocked a' (day_of now) r = (u, r') ->
  book now a ts (usage r' !! a) /\
  (a' = a -> u_Day u = day_of now /\ usage r' !! a = Some u) /\
  r_pools r' = r_pools r /\ r_shared r' = r_shared r.
Proof.
  intros Hb. unfold usageLocked. intros [= <- <-]. cbn.
  destruct (decide (a' = a)) as [->|Hne]; [|by rewrite lookup_insert_ne].
  rewrite lookup_insert_eq. destruct (usage r !! a) as [u|] eqn:El; cbn.
  - destruct Hb as (H1 & H2 & H3 & H5). destruct (Z.eqb_spec (u_Day u) (day_of now)) as [E|E].
    + by split_and!.
    + cbn. split; [|done]. split_and!; try lia.
      * rewrite H5 by lia. lia.
      * intros D HD. apply H5. lia.
  - rewrite Z.eqb_refl. cbn. split; [|done]. split_and!; try lia.
    + rewrite (Hb _). lia.
    + intros D _. apply Hb.
Qed.

Lemma book_ext now a ts ts' ou :
  (forall D, open_tickets D a ts' = open_tickets D a ts) -> book now a ts ou -> book now a ts' ou.
Proof. intros E. destruct ou as [u|]; cbn; [rewrite E|]; setoid_rewrite E; done. Qed.

Lemma open_cons D a t ts :
  open_tickets D a (t :: ts) = (if is_for D a t then 1 else 0) + open_tickets D a ts.
Proof. done. Qed.

Lemma open_nonneg D a ts : 0 <= open_tickets D a ts.
Proof. apply zsum_nonneg. intros t. by case_match. Qed.

(** A router whose pools differ from [r]'s only in the cursors. *)
Definition same_pools (r r' : PoolRouter) : Prop :=
  forall name p', r_pools r' !! name = Some p' ->
  exists p, r_pools r !! name = Some p /\ sp_ips p' = sp_ips p /\ sp_schedule p' = sp_schedule p.

Lemma same_pools_refl r : same_pools r r.
Proof. intros name p H. by exists p. Qed.

Lemma same_pools_trans r1 r2 r3 : same_pools r1 r2 -> same_pools r2 r3 -> same_pools r1 r3.
Proof.
  intros H1 H2 name p3 H3. destruct (H2 _ _ H3) as (p2 & E2 & A & B).
  destruct (H1 _ _ E2) as (p1 & E1 & C & D). exists p1. split; [done|]. split; congruence.
Qed.

Lemma same_pools_eq r r' : r_pools r' = r_pools r -> same_pools r r'.
Proof. intros E name p H. rewrite E in H. by exists p. Qed.

Lemma agrees_same r r' : same_pools r r' -> agrees r -> agrees r'.
Proof.
  intros Hs Ha name p' Hp src now Hin. destruct (Hs _ _ Hp) as (p & E & Ei & Es).
  rewrite Ei in Hin. rewrite <- (Ha name p E src now Hin). unfold dailyCap. by rewrite Es.
Qed.

Lemma usageLocked_rest a d r u r' :
  usageLocked a d r = (u, r') -> r_pools r' = r_pools r /\ r_shared r' = r_shared r.
Proof. unfold usageLocked. by intros [= <- <-]. Qed.

Lemma count_send_rest name p i src day r :
  r_pools r !! name = Some p ->
  same_pools r (count_send name p i src day r) /\
  r_shared (count_send name p i src day r) = r_shared r.
Proof.
  intros Hp. unfold count_send. destruct (usageLocked (src_addr src) day r) as [u r1] eqn:E.
  apply usageLocked_rest in E as [E1 E2]. split; [|done]. intros name' p' H. cbn in H.
  rewrite E1 in H. destruct (decide (name = name')) as [<-|D].
  - rewrite lookup_insert_eq in H. injection H as <-. by exists p.
  - rewrite lookup_insert_ne in H by done. by exists p'.
Qed.

Lemma is_for_new src day b D a :
  is_for D a (mkTicket src day b false) = bool_decide (D = day /\ a = src_addr src).
Proof.
  unfold is_for. cbn. destruct (Z.eqb_spec day D) as [->|N]; cbn.
  - destruct (String.eqb_spec (src_addr src) a) as [->|N]; case_bool_decide; naive_solver.
  - case_bool_decide; naive_solver.
Qed.

Lemma loose_cons D a t ts :
  loose_tickets D a (t :: ts) = (if (is_for D a t && negb (t_stored t))%bool then 1 else 0) + loose_tickets D a ts.
Proof. done. Qed.

Lemma loose_le_open D a ts : loose_tickets D a ts <= open_tickets D a ts.
Proof. apply zsum_le. intros t. destruct (is_for D a t), (t_stored t); cbn; lia. Qed.

(** One more send keeps the books of every address; if it is not counted in the store, the
    allowance must not be used up. *)
Lemma count_send_books now name p i src ts r b :
  let day := day_of now in
  balanced now ts r ->
  (b = false -> 0 <= cap day (src_addr src) ->
   forall u r1, usageLocked (src_addr src) day r = (u, r1) -> u_Sent u < cap day (src_addr src)) ->
  balanced now (mkTicket src day b false :: ts) (count_send name p i src day r).
Proof.
  intros day [Hb Hc] Hroom. subst day. unfold count_send.
  destruct (usageLocked (src_addr src) (day_of now) r) as [u r1] eqn:Eu.
  specialize (fun Hb H => Hroom Hb H u r1 eq_refl).
  destruct (book_usageLocked now (src_addr src) ts r _ u r1 (Hb _) Eu) as (Hbu & Hu & _).
  destruct (Hu eq_refl) as [Hday Hlook]. rewrite Hlook in Hbu. destruct Hbu as (_ & B2 & B3 & B5).
  rewrite Hday in *. split.
  - intros a. cbn. destruct (decide (src_addr src = a)) as [<-|D].
    + rewrite lookup_insert_eq. unfold book. cbn.
      rewrite open_cons, is_for_new.
      rewrite bool_decide_eq_true_2 by done. split_and!; try lia.
      intros D HD. rewrite open_cons, is_for_new. rewrite bool_decide_eq_false_2 by lia.
      rewrite B5 by done. lia.
    + rewrite lookup_insert_ne by done.
      destruct (book_usageLocked now a ts r (src_addr src) u r1 (Hb a) Eu) as (Hba & _).
      assert (forall D, open_tickets D a (mkTicket src (day_of now) b false :: ts)
                        = open_tickets D a ts) as E.
      { intros D'. rewrite open_cons, is_for_new.
        rewrite bool_decide_eq_false_2; [lia|]. naive_solver. }
      exact (book_ext now a _ _ _ E Hba).
  - intros D a H0. rewrite loose_cons, is_for_new. case_bool_decide as Ed; [|cbn; by apply Hc].
    destruct Ed as [-> ->]. destruct b; cbn; [by apply Hc|]. specialize (Hroom eq_refl H0).
    pose proof (loose_le_open (day_of now) (src_addr src) ts). lia.
Qed.

Lemma usageLocked_twice a d r u r1 u' r2 :
  usageLocked a d r = (u, r1) -> usageLocked a d r1 = (u', r2) -> u' = u.
Proof.
  unfold usageLocked. intros [= <- <-] [= <- _]. cbn. rewrite lookup_insert_eq. cbn.
  destruct (u_Day (default _ (usage r !! a)) =? d) eqn:E; [by rewrite E|]. cbn. by rewrite Z.eqb_refl.
Qed.

Lemma usageLocked_balanced now ts a r u r1 :
  balanced now ts r -> usageLocked a (day_of now) r = (u, r1) -> balanced now ts r1.
Proof. intros [Hb Hc] Eu. split; [|done]. intros b. by eapply book_usageLocked. Qed.

Lemma acquire_local_books now name p ts cs : forall r res r',
  r_pools r !! name = Some p ->
  (forall i src, (i, src) ∈ cs -> dailyCap p src now = cap (day_of now) (src_addr src)) ->
  balanced now ts r -> acquire_local name p now cs r = (res, r') ->
  same_pools r r' /\ r_shared r' = r_shared r /\
  balanced now (match res with Ok t => t :: ts | Err _ => ts end) r'.
Proof.
  induction cs as [|[i src] cs IH]; intros r res r' Hp Hd Hb; cbn [acquire_local].
  { intros [= <- <-]. split_and!; try done. apply same_pools_refl. }
  destruct (usageLocked (src_addr src) (day_of now) r) as [u r1] eqn:Eu.
  destruct (usageLocked_rest _ _ _ _ _ Eu) as [Ep Es].
  pose proof (usageLocked_balanced _ _ _ _ _ _ Hb Eu) as Hb1.
  destruct ((0 <=? allowedSoFar p src now) && (allowedSoFar p src now <=? u_Sent u))%bool eqn:Ea.
  - intros H. destruct (IH r1 res r') as (I1 & I2 & I3); try done.
    + by rewrite Ep.
    + intros j s Hj. apply (Hd j). set_solver.
    + split; [|split; [congruence|exact I3]].
      eapply same_pools_trans; [|done]. by apply same_pools_eq.
  - intros [= <- <-]. destruct (count_send_rest name p i src (day_of now) r1) as [C1 C2];
      [by rewrite Ep|].
    split; [eapply same_pools_trans; [|exact C1]; by apply same_pools_eq|].
    split; [congruence|]. apply count_send_books; [done|].
    intros _ H0 u' r2 Eu'. rewrite <- (Hd i) in * by set_solver.
    pose proof (allowedSoFar_nonneg p src now H0). pose proof (allowedSoFar_capped p src now H0).
    rewrite (usageLocked_twice _ _ _ _ _ _ _ Eu Eu').
    apply andb_false_iff in Ea as [Ea|Ea]; bool_facts; lia.
Qed.

(** [take] against the books: what is not counted in the store was checked against them,
    or the address is not capped. *)
Lemma take_local_books now name p i src lc stored ts r b r' :
  dailyCap p src now = cap (day_of now) (src_addr src) ->
  (stored = false -> 0 <= allowedSoFar p src now -> lc = true) -> balanced now ts r ->
  take_local name p i src (allowedSoFar p src now) (day_of now) lc r = (b, r') ->
  balanced now (if b then mkTicket src (day_of now) stored false :: ts else ts) r'.
Proof.
  intros Hd Hs Hb. unfold take_local. destruct (usageLocked (src_addr src) (day_of now) r) as [u r1] eqn:Eu.
  pose proof (usageLocked_balanced _ _ _ _ _ _ Hb Eu) as Hb1.
  destruct (lc && _ && _)%bool eqn:Ea; intros [= <- <-]; [done|].
  apply count_send_books; [done|]. intros Hst H0 u' r2 Eu'. rewrite <- Hd in *.
  pose proof (allowedSoFar_nonneg p src now H0). pose proof (allowedSoFar_capped p src now H0).
  rewrite (usageLocked_twice _ _ _ _ _ _ _ Eu Eu'). rewrite (Hs Hst) in Ea by done. cbn in Ea.
  apply andb_false_iff in Ea as [Ea|Ea]; bool_facts; lia.
Qed.

Lemma acquire_shared_books now name p ts cs : forall r store res r' store',
  (forall i src, (i, src) ∈ cs -> dailyCap p src now = cap (day_of now) (src_addr src)) ->
  balanced now ts r -> acquire_shared name p now cs (r, store) = (res, (r', store')) ->
  balanced now (match res with Ok t => t :: ts | Err _ => ts end) r'.
Proof.
  induction cs as [|[i src] cs IH]; intros r store res r' store' Hd Hb; cbn [acquire_shared].
  { by intros [= <- <- <-]. }
  assert (dailyCap p src now = cap (day_of now) (src_addr src)) as Hds by (apply (Hd i); set_solver).
  assert (forall i0 src0, (i0, src0) ∈ cs -> dailyCap p src0 now = cap (day_of now) (src_addr src0)) as Hd'.
  { intros i0 src0 Hin. apply (Hd i0). set_solver. }
  assert (forall stored rX stX, (stored = false -> allowedSoFar p src now < 0) -> balanced now ts rX ->
    (Ok (mkTicket src (day_of now) stored false),
     (snd (take_local name p i src (allowedSoFar p src now) (day_of now) false rX), stX)) = (res, (r', store')) ->
    balanced now (match res with Ok t => t :: ts | Err _ => ts end) r') as Htake.
  { intros stored rX stX Hs HbX. destruct (take_local _ _ _ _ _ _ false rX) as [b r1] eqn:Et.
    assert (b = true) as -> by (unfold take_local in Et; destruct (usageLocked _ _ rX); by injection Et).
    intros [= <- <- <-]. eapply (take_local_books now name p i src false stored ts rX true r1); [done| |done|done].
    intros H. specialize (Hs H). lia. }
  assert (forall rX stX, balanced now ts rX ->
    match take_local name p i src (allowedSoFar p src now) (day_of now) true rX with
    | (true, r1) => (Ok (mkTicket src (day_of now) false false), (r1, stX))
    | (false, r1) => acquire_shared name p now cs (r1, stX)
    end = (res, (r', store')) ->
    balanced now (match res with Ok t => t :: ts | Err _ => ts end) r') as Hfall.
  { intros rX stX HbX. destruct (take_local _ _ _ _ _ _ true rX) as [b r1] eqn:Et.
    pose proof (take_local_books now name p i src true false ts rX b r1 Hds ltac:(done) HbX Et) as Hb1.
    destruct b; [by intros [= <- <- <-]|]. by apply IH. }
  destruct (allowedSoFar p src now <? 0) eqn:Ea; bool_facts; [by apply Htake|].
  destruct (r_shared r) as [g|]; [|by apply Hfall]. destruct (negb (available now g)); [by apply Hfall|].
  destruct (TakeWarmup _ _ _ store) as [[[[] n]|e] st1]; [by apply Htake|by apply IH|by apply Hfall].
Qed.

Lemma acquire_local_unstored now name p cs : forall r t r',
  acquire_local name p now cs r = (Ok t, r') -> t_stored t = false.
Proof.
  induction cs as [|[i src] cs IH]; intros r t r'; cbn; [done|].
  destruct (usageLocked (src_addr src) (day_of now) r) as [u r1].
  case_match; [apply IH|]. by intros [= <- _].
Qed.

(** *** Refunds *)

Lemma open_insert D a ts j t t' :
  ts !! j = Some t -> t_refunded t' = true ->
  open_tickets D a (<[j := t']> ts) = open_tickets D a ts - (if is_for D a t then 1 else 0).
Proof.
  intros Hj Ht. unfold open_tickets. rewrite (zsum_insert _ _ _ _ _ Hj).
  assert (is_for D a t' = false) as -> by (unfold is_for; by rewrite Ht). lia.
Qed.

Lemma localRefund_rest t r : r_pools (localRefund t r) = r_pools r /\ r_shared (localRefund t r) = r_shared r.
Proof. unfold localRefund. by repeat case_match. Qed.

Lemma loose_insert D a ts j t t' :
  ts !! j = Some t -> t_refunded t' = true -> loose_tickets D a (<[j := t']> ts) <= loose_tickets D a ts.
Proof.
  intros Hj Ht. unfold loose_tickets. rewrite (zsum_insert _ _ _ _ _ Hj).
  assert (is_for D a t' = false) as -> by (unfold is_for; by rewrite Ht). cbn. case_match; lia.
Qed.

Lemma book_less now a ts ts' ou :
  (forall D, open_tickets D a ts' <= open_tickets D a ts) -> book now a ts ou -> book now a ts' ou.
Proof.
  intros H. pose proof (fun D => open_nonneg D a ts') as Hn. destruct ou as [u|]; cbn.
  - intros (B1 & B2 & B3 & B5). specialize (H (u_Day u)) as Hu. split_and!; [done|done|lia|].
    intros D HD. specialize (B5 D HD). specialize (H D). specialize (Hn D). lia.
  - intros B D. specialize (B D). specialize (H D). specialize (Hn D). lia.
Qed.

(** A release that the router does not see. *)
Lemma balanced_released now ts j t t' r :
  ts !! j = Some t -> t_refunded t' = true -> balanced now ts r -> balanced now (<[j := t']> ts) r.
Proof.
  intros Hj Ht [Hb Hc]. split.
  - intros a. eapply book_less; [|exact (Hb a)]. intros D. rewrite (open_insert D a ts j t t') by done. case_match; lia.
  - intros D a H0. pose proof (loose_insert D a ts j t t' Hj Ht). specialize (Hc D a H0). lia.
Qed.

Lemma localRefund_books now ts j t r :
  ts !! j = Some t -> balanced now ts r ->
  balanced now (<[j := t <| t_refunded := true |>]> ts) (localRefund t r).
Proof.
  intros Hj Hbal. pose proof (balanced_released now ts j t (t <| t_refunded := true |>) r Hj eq_refl Hbal) as [Hb' Hc'].
  split; [|done]. destruct Hbal as [Hb _]. set (ts' := <[j := _]> ts) in *.
  assert (forall D a, open_tickets D a ts' = open_tickets D a ts - (if is_for D a t then 1 else 0)) as E.
  { intros D a. by apply open_insert. }
  assert (forall D a, 0 <= open_tickets D a ts') as Hnn by (intros; apply open_nonneg).
  clearbody ts'. intros a. specialize (Hb a). specialize (Hb' a).
  unfold localRefund. destruct (t_refunded t) eqn:Er; [done|].
  destruct (usage r !! src_addr (t_src t)) as [cur|] eqn:El; [|done].
  destruct ((u_Day cur =? t_day t) && (0 <? u_Sent cur))%bool eqn:Ec; [|done].
  cbn. destruct (decide (src_addr (t_src t) = a)) as [<-|Hne]; [|by rewrite lookup_insert_ne].
  bool_facts. rewrite lookup_insert_eq. rewrite El in Hb. destruct Hb as (B1 & B2 & B3 & B5).
  assert (forall D, is_for D (src_addr (t_src t)) t = (t_day t =? D)) as Hfor.
  { intros D. unfold is_for. rewrite Er, String.eqb_refl. cbn. apply andb_true_r. }
  unfold book. cbn. split_and!; try lia.
  - rewrite E, Hfor. rewrite (proj2 (Z.eqb_eq (t_day t) (u_Day cur))) by done. lia.
  - intros D HD. specialize (B5 D HD). specialize (Hnn D (src_addr (t_src t))). rewrite E in *. case_match; lia.
Qed.

(** *** The shared counts *)

Definition stored_for (D : Z) (a : string) (t : ticket) : bool := (is_for D a t && t_stored t)%bool.

Definition within_cap (store : S) : Prop :=
  forall D a, 0 <= cap D a -> warm_count D a store <= cap D a.

(** What a reservation adds to the count of [a] on [D]. *)
Definition added (D : Z) (a : string) (res : result ticket) : Z :=
  match res with Ok t => if stored_for D a t then 1 else 0 | Err _ => 0 end.

Lemma take_local_rest name p i src allowed day lc r b r' :
  r_pools r !! name = Some p -> take_local name p i src allowed day lc r = (b, r') ->
  same_pools r r' /\ r_shared r' = r_shared r /\ (lc = true -> b = false -> r_pools r' = r_pools r).
Proof.
  intros Hp. unfold take_local. destruct (usageLocked (src_addr src) day r) as [u r1] eqn:Eu.
  destruct (usageLocked_rest _ _ _ _ _ Eu) as [Ep Es].
  case_match; intros [= <- <-].
  - split_and!; [by apply same_pools_eq|done|done].
  - destruct (count_send_rest name p i src day r1) as [C1 C2]; [by rewrite Ep|].
    split_and!; [|congruence|done]. eapply same_pools_trans; [|exact C1]. by apply same_pools_eq.
Qed.

Lemma stored_for_new src day b D a :
  stored_for D a (mkTicket src day b false) = (bool_decide (D = day /\ a = src_addr src) && b)%bool.
Proof. unfold stored_for. by rewrite is_for_new. Qed.

(** [TakeWarmup] with what the code allows: the count of the address goes up by one when
    the unit was taken, and possibly when the answer is lost; nothing else changes, and
    the cap holds. *)
Lemma take_within p src now store r store' :
  dailyCap p src now = cap (day_of now) (src_addr src) -> 0 <= allowedSoFar p src now ->
  within_cap store ->
  TakeWarmup (day_of now) (src_addr src) (allowedSoFar p src now) store = (r, store') ->
  within_cap store' /\
  forall D a, warm_count D a store
    + match r with
      | Ok (true, _) => if bool_decide (D = day_of now /\ a = src_addr src) then 1 else 0
      | _ => 0
      end <= warm_count D a store'.
Proof.
  intros Hd Ha Hw Ht. destruct (allowedSoFar_le_cap p src now Ha) as [Hc0 Hc].
  set (d := day_of now) in *. set (x := src_addr src) in *.
  assert (forall D a, (D, a) <> (d, x) -> warm_count D a store' = warm_count D a store) as Hother.
  { intros D a. by apply (take_other _ _ _ _ _ _ _ _ Ht). }
  assert (warm_count d x store' = warm_count d x store /\ (match r with Ok (true, _) => False | _ => True end) \/
          warm_count d x store < allowedSoFar p src now /\ warm_count d x store' = warm_count d x store + 1) as Hx.
  { destruct r as [[[|] n]|e].
    - destruct (take_counted _ _ _ _ _ _ _ Ht) as [H _]. destruct (H eq_refl) as [[?|?] ?]; [lia|by right].
    - destruct (take_counted _ _ _ _ _ _ _ Ht) as [_ H]. destruct (H eq_refl) as [_ ?]. by left.
    - destruct (take_failed _ _ _ _ _ _ Ht) as [?|[[?|?] ?]]; [by left|lia|by right]. }
  split.
  - intros D a H0. specialize (Hw D a H0). destruct (decide ((D, a) = (d, x))) as [[= -> ->]|Hne].
    + destruct Hx as [[-> _]|[? ->]]; lia.
    + by rewrite Hother.
  - intros D a. destruct (decide ((D, a) = (d, x))) as [[= -> ->]|Hne].
    + rewrite bool_decide_eq_true_2 by done. destruct Hx as [[-> Hr]|[_ ->]]; destruct r as [[[] ?]|]; done || lia.
    + rewrite Hother by done. rewrite bool_decide_eq_false_2 by naive_solver. destruct r as [[[] ?]|]; lia.
Qed.

Lemma acquire_shared_store now name p cs : forall r store res r' store',
  r_pools r !! name = Some p ->
  (forall i src, (i, src) ∈ cs -> dailyCap p src now = cap (day_of now) (src_addr src)) ->
  within_cap store ->
  acquire_shared name p now cs (r, store) = (res, (r', store')) ->
  same_pools r r' /\ within_cap store' /\
  forall D a, warm_count D a store + added D a res <= warm_count D a store'.
Proof.
  induction cs as [|[i src] cs IH]; intros r store res r' store' Hp Hd Hw; cbn [acquire_shared].
  { intros [= <- <- <-]. split_and!; try done; [apply same_pools_refl|]. intros; cbn; lia. }
  assert (dailyCap p src now = cap (day_of now) (src_addr src)) as Hds by (apply (Hd i); set_solver).
  assert (forall i0 src0, (i0, src0) ∈ cs -> dailyCap p src0 now = cap (day_of now) (src_addr src0)) as Hd'.
  { intros i0 src0 Hin. apply (Hd i0). set_solver. }
  assert (forall stored rX stX, r_pools rX = r_pools r -> within_cap stX ->
    (forall D a, warm_count D a store + added D a (Ok (mkTicket src (day_of now) stored false)) <= warm_count D a stX) ->
    (Ok (mkTicket src (day_of now) stored false),
     (snd (take_local name p i src (allowedSoFar p src now) (day_of now) false rX), stX)) = (res, (r', store')) ->
    same_pools r r' /\ within_cap store' /\
    forall D a, warm_count D a store + added D a res <= warm_count D a store') as Htake.
  { intros stored rX stX EpX HwX HcX. destruct (take_local _ _ _ _ _ _ false rX) as [b r1] eqn:Et.
    destruct (take_local_rest _ _ _ _ _ _ _ _ _ _ ltac:(by rewrite EpX) Et) as (T1 & _ & _).
    intros [= <- <- <-]. split_and!; [|done|done]. eapply same_pools_trans; [|exact T1]. by apply same_pools_eq. }
  assert (forall rX stX, r_pools rX = r_pools r -> within_cap stX ->
    (forall D a, warm_count D a store <= warm_count D a stX) ->
    match take_local name p i src (allowedSoFar p src now) (day_of now) true rX with
    | (true, r1) => (Ok (mkTicket src (day_of now) false false), (r1, stX))
    | (false, r1) => acquire_shared name p now cs (r1, stX)
    end = (res, (r', store')) ->
    same_pools r r' /\ within_cap store' /\
    forall D a, warm_count D a store + added D a res <= warm_count D a store') as Hfall.
  { intros rX stX EpX HwX HcX.
    destruct (take_local name p i src _ _ true rX) as [[|] r1] eqn:Et;
      destruct (take_local_rest _ _ _ _ _ _ _ _ _ _ ltac:(by rewrite EpX) Et) as (T1 & T2 & T3).
    - intros [= <- <- <-]. split_and!; [|done|].
      + eapply same_pools_trans; [|exact T1]. by apply same_pools_eq.
      + intros D a. cbn. rewrite stored_for_new, andb_false_r. specialize (HcX D a). lia.
    - intros H. specialize (T3 eq_refl eq_refl).
      destruct (IH r1 stX res r' store') as (I1 & I3 & I4); try done.
      { by rewrite T3, EpX. }
      split_and!; [|done|intros D a; specialize (I4 D a); specialize (HcX D a); lia].
      eapply same_pools_trans; [|exact I1]. apply same_pools_eq. congruence. }
  assert (forall D a, warm_count D a store + added D a (Ok (mkTicket src (day_of now) false false)) <= warm_count D a store)
    as Hloose by (intros D a; cbn; rewrite stored_for_new, andb_false_r; lia).
  destruct (allowedSoFar p src now <? 0) eqn:Ea; bool_facts; [by apply Htake|].
  destruct (r_shared r) as [g|] eqn:Eg; [|by apply Hfall].
  destruct (negb (available now g)); [by apply Hfall|].
  destruct (TakeWarmup (day_of now) (src_addr src) (allowedSoFar p src now) store)
    as [[[taken n]|e] st1] eqn:Ew;
    destruct (take_within _ _ _ _ _ _ Hds Ea Hw Ew) as [W1 W2].
  - destruct taken.
    + apply Htake; [done|done|]. intros D a. specialize (W2 D a). cbn. by rewrite stored_for_new, andb_true_r.
    + intros H. destruct (IH (r <| r_shared := Some (guard_ok g) |>) st1 res r' store') as (I1 & I3 & I4); try done.
      split_and!; [|done|intros D a; specialize (I4 D a); specialize (W2 D a); lia].
      eapply same_pools_trans; [|exact I1]. by apply same_pools_eq.
  - apply Hfall; [done|done|]. intros D a. specialize (W2 D a). lia.
Qed.

(** *** The cluster *)

Lemma book_later t0 now a ts ou : t0 <= now -> book t0 a ts ou -> book now a ts ou.
Proof.
  intros Hle. destruct ou as [u|]; cbn; [|done]. intros (B1 & B). split; [|done].
  assert (day_of t0 <= day_of now) by (by apply Z.div_le_mono). lia.
Qed.

Lemma balanced_later t0 now ts r : t0 <= now -> balanced t0 ts r -> balanced now ts r.
Proof. intros Hle [Hb Hc]. split; [|done]. intros a. by eapply book_later. Qed.

Definition stored_on (D : Z) (a : string) (n : node) : Z := stored_tickets D a (all_tickets n).
Definition node_balanced (now : Z) (n : node) : Prop := balanced now (all_tickets n) (n_router n).

Record cluster_ok (c : cluster) : Prop := {
  ok_nodes : forall i n, c_nodes c !! i = Some n -> agrees (n_router n) /\ node_balanced (c_now c) n;
  ok_cap : within_cap (c_store c);
  ok_stored : forall D a, zsum (stored_on D a) (c_nodes c) <= warm_count D a (c_store c)
}.

(** One node's step, from the point of view of the others. *)
Lemma cluster_ok_node ns store store' t0 now i n n' :
  ns !! i = Some n -> t0 <= now -> cluster_ok (mkCluster ns store t0) ->
  agrees (n_router n') -> node_balanced now n' -> within_cap store' ->
  (forall D a, stored_on D a n' - stored_on D a n <= warm_count D a store' - warm_count D a store) ->
  cluster_ok (mkCluster (<[i := n']> ns) store' now).
Proof.
  intros Hi Hle [Hn Hc Hs] Ha Hb Hw Hd. cbn in *. split; cbn; [|done|].
  - intros j m Hj. apply list_lookup_insert_Some in Hj as [(-> & <- & _)|(Hne & Hj)]; [done|].
    destruct (Hn j m Hj). split; [done|]. by eapply balanced_later.
  - intros D a. rewrite (zsum_insert _ _ _ _ _ Hi). specialize (Hs D a). specialize (Hd D a). lia.
Qed.

Lemma acquire_ok now sender ts r store res r' store' :
  agrees r -> balanced now ts r -> within_cap store ->
  acquire now sender (r, store) = (res, (r', store')) ->
  let ts' := match res with Ok (Some t) => t :: ts | _ => ts end in
  agrees r' /\ balanced now ts' r' /\ within_cap store' /\
  forall D a, stored_tickets D a ts' - stored_tickets D a ts <= warm_count D a store' - warm_count D a store.
Proof.
  intros Ha Hb Hw. unfold acquire.
  destruct (poolFor r sender =? "")%string; [intros [= <- <- <-]; split_and!; done || lia|].
  destruct (r_pools r !! poolFor r sender) as [p|] eqn:Ep; [|intros [= <- <- <-]; split_and!; done || lia].
  set (name := poolFor r sender) in *.
  assert (forall i src, (i, src) ∈ candidates p -> dailyCap p src now = cap (day_of now) (src_addr src)) as Hd.
  { intros i src Hin. eapply Ha; [exact Ep|]. by eapply candidates_in. }
  destruct (r_shared r) as [g|].
  - destruct (acquire_shared name p now (candidates p) (r, store)) as [x [rX stX]] eqn:Es.
    intros [= <- <- <-].
    destruct (acquire_shared_store now name p _ _ _ _ _ _ Ep Hd Hw Es) as (A1 & A3 & A4).
    pose proof (acquire_shared_books now name p ts _ _ _ _ _ _ Hd Hb Es) as A5.
    split_and!; [by eapply agrees_same|by destruct x|done|]. intros D a. specialize (A4 D a). unfold stored_tickets.
    destruct x as [t|e]; cbn in *; rewrite ?zsum_cons; unfold stored_for in A4; lia.
  - destruct (acquire_local name p now (candidates p) r) as [x rX] eqn:El.
    intros [= <- <- <-].
    destruct (acquire_local_books now name p _ _ _ _ _ Ep Hd Hb El) as (A1 & A2 & A3).
    split_and!; [by eapply agrees_same|by destruct x|done|]. intros D a. unfold stored_tickets.
    destruct x as [t|e]; cbn; [|lia]. rewrite zsum_cons.
    rewrite (acquire_local_unstored _ _ _ _ _ _ _ El), andb_false_r. lia.
Qed.

(** What a release does to the store, whichever router it belongs to. *)
Lemma refund_store now ts j t r store t' r' store' :
  within_cap store -> ts !! j = Some t -> refund now t (r, store) = (t', (r', store')) ->
  t' = t <| t_refunded := true |> /\ within_cap store' /\
  forall D a, stored_tickets D a (<[j := t']> ts) - stored_tickets D a ts <= warm_count D a store' - warm_count D a store.
Proof.
  intros Hw Hj. set (tr := t <| t_refunded := true |>).
  assert (forall D a, stored_tickets D a (<[j := tr]> ts) - stored_tickets D a ts = - (if stored_for D a t then 1 else 0)) as Hst.
  { intros D a. unfold stored_tickets. rewrite (zsum_insert _ _ _ _ _ Hj).
    assert (is_for D a tr = false) as -> by done. unfold stored_for. cbn. lia. }
  assert (forall D a, stored_tickets D a (<[j := tr]> ts) - stored_tickets D a ts <= warm_count D a store - warm_count D a store)
    as Hsame by (intros D a; rewrite Hst; case_match; lia).
  unfold refund. destruct (t_refunded t) eqn:Er.
  { intros [= <- <- <-]. assert (t = tr) as Et by (unfold tr; destruct t; cbn in Er; by subst).
    rewrite <- Et in Hsame. by split_and!. }
  generalize (localRefund t r). intros rl. destruct (negb (t_stored t)) eqn:Et; [by intros [= <- <- <-]|].
  destruct (r_shared rl) as [g|]; [|by intros [= <- <- <-]].
  destruct (negb (available now g)); [by intros [= <- <- <-]|].
  destruct (RefundWarmup (t_day t) (src_addr (t_src t)) store) as [x st1] eqn:Ew. intros H.
  assert (t' = tr /\ store' = st1) as [-> ->] by (destruct x; by injection H as <- <- <-).
  assert (forall D a, warm_count D a st1 = warm_count D a store \/
     warm_count D a st1 = warm_count D a store - 1 /\ stored_for D a t = true) as Hwc.
  { intros D a. destruct (decide ((D, a) = (t_day t, src_addr (t_src t)))) as [[= -> ->]|Hne].
    - assert (stored_for (t_day t) (src_addr (t_src t)) t = true) as ->.
      { unfold stored_for, is_for. rewrite Er, Z.eqb_refl, String.eqb_refl. by destruct (t_stored t). }
      destruct x as [[]|e].
      + pose proof (refund_counted _ _ _ _ Ew) as Hc. case_match; [by right|by left].
      + destruct (refund_failed _ _ _ _ _ Ew) as [?|[_ ?]]; [by left|by right].
    - left. by eapply refund_other. }
  split_and!; [done| |].
  - intros D a H0. specialize (Hw D a H0). destruct (Hwc D a) as [->|[-> _]]; lia.
  - intros D a. rewrite Hst. destruct (Hwc D a) as [->|[-> E]]; [destruct (stored_for D a t); lia|]. rewrite E. lia.
Qed.

Lemma refund_books now ts j t r store t' r' store' :
  agrees r -> balanced now ts r -> ts !! j = Some t -> refund now t (r, store) = (t', (r', store')) ->
  t' = t <| t_refunded := true |> -> agrees r' /\ balanced now (<[j := t']> ts) r'.
Proof.
  intros Ha Hb Hj H ->. unfold refund in H. destruct (t_refunded t) eqn:Er.
  { injection H as Ht <- _. rewrite <- Ht. by rewrite list_insert_id. }
  destruct (localRefund_rest t r) as [Lp _]. pose proof (localRefund_books now ts j t r Hj Hb) as Hl.
  assert (agrees (localRefund t r)) as Har by (eapply agrees_same; [|exact Ha]; by apply same_pools_eq).
  revert Hl Har H. generalize (localRefund t r). intros rl Hl Har.
  destruct (negb (t_stored t)); [by intros [= <- _]|]. destruct (r_shared rl) as [g|]; [|by intros [= <- _]].
  destruct (negb (available now g)); [by intros [= <- _]|].
  destruct (RefundWarmup _ _ store) as [[]]; by intros [= <- _].
Qed.

(** What a reload must keep for the counts to be carried over: the caps, and every address
    that has been counted; the counts the new router comes with are not of the future. *)
Definition carries_over (now : Z) (old next : PoolRouter) : Prop :=
  agrees next /\ (forall a, is_Some (usage old !! a) -> configured next a = true) /\
  (forall a u, usage next !! a = Some u -> u_Day u <= day_of now /\ 0 <= u_Sent u).

Lemma reload_books now ts old next g :
  carries_over now old next -> balanced now ts old -> balanced now ts (adoptUsage old (setShared g next)).
Proof.
  intros (_ & Hc & Hu) [Hb Hl]. split; [|done]. intros a. specialize (Hb a).
  change (usage (adoptUsage old (setShared g next)))
    with (filter (fun ku => configured next (fst ku) = true) (usage old) ∪ usage next).
  rewrite lookup_union, map_lookup_filter. destruct (usage old !! a) as [u|] eqn:E; cbn.
  - rewrite option_guard_True by (apply Hc; eauto). by destruct (usage next !! a).
  - destruct (usage next !! a) as [u|] eqn:E'; [|exact Hb]. cbn in Hb |- *. destruct (Hu a u E').
    split_and!; [done|done|by rewrite Hb|]. intros D _. apply Hb.
Qed.

Lemma agrees_setShared g r : agrees r -> agrees (setShared g r).
Proof. intros H. exact H. Qed.

Lemma cluster_step_ok c c' : cluster_step carries_over c c' -> cluster_ok c -> cluster_ok c'.
Proof.
  intros [i n now sender r ro r' store store' ns t0 Hi Hle -> H
         |i n j now t t' ro r' store store' ns t0 Hi Hle -> Hj H
         |i n j now t t' ro r' store store' ns t0 Hi Hle Hj H
         |i n g store ns t0 Hi|i n next g now store ns t0 Hi Hle Hfit] Hc;
    destruct (ok_nodes _ Hc i n Hi) as [Ha Hb]; pose proof (ok_cap _ Hc) as Hw; cbn in Hb, Hw.
  - apply (balanced_later _ now) in Hb; [|done].
    destruct (acquire_ok _ _ _ _ _ _ _ _ Ha Hb Hw H) as (A1 & A2 & A3 & A4).
    eapply cluster_ok_node; [done|done|done|done| |done|].
    + unfold node_balanced, all_tickets. cbn. by destruct r as [[t|]|].
    + intros D a. specialize (A4 D a). unfold stored_on, all_tickets. cbn. by destruct r as [[t|]|].
  - apply (balanced_later _ now) in Hb; [|done].
    assert (all_tickets n !! j = Some t) as Hj' by (by apply lookup_app_l_Some).
    destruct (refund_store _ _ _ _ _ _ _ _ _ Hw Hj' H) as (A1 & A2 & A3).
    destruct (refund_books _ _ _ _ _ _ _ _ _ Ha Hb Hj' H A1) as [A4 A5].
    assert (<[j := t']> (n_tickets n) ++ n_old n = <[j := t']> (all_tickets n)) as E.
    { symmetry. apply insert_app_l. by eapply lookup_lt_Some. }
    eapply cluster_ok_node; [done|done|done|done| |done|].
    + unfold node_balanced, all_tickets. cbn. by rewrite E.
    + intros D a. unfold stored_on at 1, all_tickets at 1. cbn. rewrite E. apply A3.
  - apply (balanced_later _ now) in Hb; [|done].
    assert (all_tickets n !! (length (n_tickets n) + j)%nat = Some t) as Hj'.
    { unfold all_tickets. rewrite lookup_app_r by lia. by replace (_ + j - _)%nat with j by lia. }
    destruct (refund_store _ _ _ _ _ _ _ _ _ Hw Hj' H) as (A1 & A2 & A3).
    assert (n_tickets n ++ <[j := t']> (n_old n) = <[(length (n_tickets n) + j)%nat := t']> (all_tickets n)) as E.
    { symmetry. unfold all_tickets. by rewrite insert_app_r. }
    eapply cluster_ok_node; [done|done|done|done| |done|].
    + unfold node_balanced, all_tickets. cbn. rewrite E. eapply balanced_released; [done|by rewrite A1|done].
    + intros D a. unfold stored_on at 1, all_tickets at 1. cbn. rewrite E. apply A3.
  - eapply cluster_ok_node; [done|done|done|exact Ha|exact Hb|done|]. intros D a. change (stored_on D a (mkNode _ _ _)) with (stored_on D a n). lia.
  - apply (balanced_later _ now) in Hb; [|done].
    eapply cluster_ok_node; [done|done|done| | |done|].
    + destruct Hfit as [Hf _]. exact (agrees_setShared g next Hf).
    + exact (reload_books now _ _ _ g Hfit Hb).
    + intros D a. change (stored_on D a (mkNode _ _ _)) with (stored_on D a n). lia.
Qed.

(** C23 (safety). How far an address can send beyond its daily warm-up cap.  Over any
    interleaving of whole reservations (see [late_take_resets] for what finer steps do
    around midnight), releases, reloads that keep the configured addresses and switching
    the shared store on and off, by any number of nodes, with calls to the store failing
    before or after they took effect: the reservations of an address on a day that
    the store has counted and that were not released stay within its cap over all nodes
    together; and on each node those made on its own counts alone, without a store or
    while it could not be asked, stay within the cap too.  So an outage costs at most one
    further cap per node. *)
Theorem warmup_cap_kept rs store t0 c :
  Forall agrees rs -> Forall (fun r => usage r = ∅) rs ->
  (forall D a, warm_count D a store = 0) ->
  rtc (cluster_step carries_over) (mkCluster ((fun r => mkNode r [] []) <$> rs) store t0) c ->
  forall D a, 0 <= cap D a ->
  zsum (fun n => stored_tickets D a (all_tickets n)) (c_nodes c) <= cap D a /\
  forall i n, c_nodes c !! i = Some n -> loose_tickets D a (all_tickets n) <= cap D a.
Proof.
  intros Ha Hu Hw Hr D a H0.
  destruct (rtc_keeps _ _ cluster_step_ok _ _ Hr) as [Hn Hc Hs].
  - split; cbn.
    + intros i n Hi. rewrite list_lookup_fmap in Hi. apply fmap_Some in Hi as (r & Hi & ->). cbn.
      rewrite Forall_lookup in Ha, Hu. split; [by eapply Ha|]. split; [|done].
      intros b. cbn. rewrite (Hu i r Hi), lookup_empty. done.
    + intros D' a' H'. by rewrite Hw.
    + intros D' a'. rewrite Hw. apply Z.eq_le_incl, zsum_zero. intros n Hin.
      apply list_elem_of_fmap in Hin as (r & -> & _). done.
  - split; [etrans; [apply Hs|by apply Hc]|]. intros i n Hi.
    destruct (Hn i n Hi) as [_ [_ Hl]]. by apply Hl.
Qed.
End Cluster.

(** ** Building a router *)

Record PoolIPConfig := mkPoolIP { ipc_Address : string; ipc_Helo : string; ipc_WarmupStart : string }.
Record PoolConfig := mkPoolConfig {
  pc_Name : string;
  pc_Senders : list string;
  pc_IPs : list PoolIPConfig;
  pc_WarmupSchedule : list Z
}.
Record PoolsConfig := mkPoolsConfig { Pools : list PoolConfig; DefaultPool : string }.

(** [time.Parse("2006-01-02", s)]: the day number of a civil date. *)
Definition is_leap (y : Z) : bool :=
  ((y mod 4 =? 0) && (negb (y mod 100 =? 0) || (y mod 400 =? 0)))%bool.
Definition days_in_month (y m : Z) : Z :=
  if m =? 2 then (if is_leap y then 29 else 28)
  else if ((m =? 4) || (m =? 6) || (m =? 9) || (m =? 11))%bool then 30 else 31.
Definition days_from_civil (y m d : Z) : Z :=
  let y := if m <=? 2 then y - 1 else y in
  let era := y / 400 in
  let yoe := y - era * 400 in
  let doy := (153 * (m + (if 2 <? m then -3 else 9)) + 2) / 5 + d - 1 in
  let doe := yoe * 365 + yoe / 4 - yoe / 100 + doy in
  era * 146097 + doe - 719468.

Definition parse_date (s : string) : option Z :=
  if negb (String.length s =? 10)%nat then None
  else
    let sep i := match first_byte (sdrop i s) with Some "-"%char => true | _ => false end in
    if negb (sep 4%nat && sep 7%nat) then None
    else
      match parse_uint (stake 4 s), parse_uint (stake 2 (sdrop 5 s)), parse_uint (sdrop 8 s) with
      | Some y, Some m, Some d =>
          if ((1 <=? m) && (m <=? 12) && (1 <=? d) && (d <=? days_in_month y m))%bool
          then Some (days_from_civil y m d * Day_) else None
      | _, _, _ => None
      end.

(** The date whose time is the zero time, for which [IsZero] holds. *)
Definition zero_time : Z := days_from_civil 1 1 1 * Day_.

Example parse_date_epoch : parse_date "1970-01-01" = Some 0.
Proof. reflexivity. Qed.
Example parse_date_leap : (parse_date "2024-02-29", parse_date "2023-02-29") = (Some (19782 * Day_), None).
Proof. reflexivity. Qed.

Definition IsUnspecified (ip : IP) : bool :=
  match to4 ip with
  | Some q => forallb (Z.eqb 0) q
  | None => forallb (Z.eqb 0) ip
  end.

Section Build.
Context `{U : UnicodeTables}.

Fixpoint build_ips (name : string) (schedule : list Z) (ipcs : list PoolIPConfig)
    (owner : gmap string string) : result (list sourceIP * gmap string string) :=
  match ipcs with
  | [] => Ok ([], owner)
  | ipc :: ipcs' =>
      match ParseIP (TrimSpace (ipc_Address ipc)) with
      | None => Err (name +:+ ": not an IP address")
      | Some ip =>
          if IsUnspecified ip then Err (name +:+ ": the unspecified address")
          else
            let addr := IP_String ip in
            if bool_decide (is_Some (owner !! addr)) then Err (addr +:+ " is in two pools")
            else
              let start :=
                if (ipc_WarmupStart ipc =? "")%string then Ok None
                else match parse_date (TrimSpace (ipc_WarmupStart ipc)) with
                     | None => Err (name +:+ ": warmup_start is not a date")
                     | Some d => if (length schedule =? 0)%nat
                                 then Err (name +:+ ": a warmup_start without a warmup_schedule")
                                 else Ok (if d =? zero_time then None else Some d)
                     end in
              match start with
              | Err e => Err e
              | Ok st =>
                  match build_ips name schedule ipcs' (<[addr := name]> owner) with
                  | Err e => Err e
                  | Ok (l, owner') =>
                      Ok (mkSource name ip addr (TrimSpace (ipc_Helo ipc)) st :: l, owner')
                  end
              end
      end
  end.

(** A table entry for one pool; an entry of another pool is an error. *)
Definition claim (key name : string) (table : gmap string string) : result (gmap string string) :=
  match table !! key with
  | Some prev => if (prev =? name)%string then Ok (<[key := name]> table)
                 else Err ("sender claimed by both " +:+ prev +:+ " and " +:+ name)
  | None => Ok (<[key := name]> table)
  end.

Fixpoint build_senders (name : string) (ss : list string) (r : PoolRouter) : result PoolRouter :=
  match ss with
  | [] => Ok r
  | s :: ss' =>
      let s := ToLower (TrimSpace s) in
      let r' :=
        if (s =? "")%string then Ok r
        else if Contains s "@" then
          t ← claim s name (byAddress r); Ok (r <| byAddress := t |>)
        else if HasPrefix s "." then
          t ← claim (TrimPrefix s ".") name (bySubdomain r); Ok (r <| bySubdomain := t |>)
        else
          t ← claim s name (byDomain r); Ok (r <| byDomain := t |>) in
      match r' with Ok r => build_senders name ss' r | Err e => Err e end
  end.

Fixpoint build_pools (pcs : list PoolConfig) (owner : gmap string string) (r : PoolRouter) :
    result PoolRouter :=
  match pcs with
  | [] => Ok r
  | pc :: pcs' =>
      let name := TrimSpace (pc_Name pc) in
      if (name =? "")%string then Err "a pool has no name"
      else if bool_decide (is_Some (r_pools r !! name)) then Err (name +:+ " is defined twice")
      else if (length (pc_IPs pc) =? 0)%nat then Err (name +:+ " has no ips")
      else if negb (forallb (fun limit => 0 <? limit) (pc_WarmupSchedule pc))
      then Err (name +:+ ": every day needs a positive cap")
      else match build_ips name (pc_WarmupSchedule pc) (pc_IPs pc) owner with
           | Err e => Err e
           | Ok (ips, owner') =>
               let p := mkPool name ips (pc_WarmupSchedule pc) 0 in
               match build_senders name (pc_Senders pc) (r <| r_pools ::= <[name := p]> |>) with
               | Err e => Err e
               | Ok r => build_pools pcs' owner' r
               end
           end
  end.

(** The state file is read by the caller: [saved] is what it held. *)
Definition NewPoolRouter (cfg : PoolsConfig) (saved : gmap string ipUsage) :
    result (option PoolRouter) :=
  if (length (Pools cfg) =? 0)%nat then
    if (DefaultPool cfg =? "")%string then Ok None
    else Err "default_pool names a pool, but no pools are configured"
  else match build_pools (Pools cfg) ∅ (mkRouter ∅ ∅ ∅ ∅ "" None ∅ false) with
  | Err e => Err e
  | Ok r =>
      if (DefaultPool cfg =? "")%string then Ok (Some (r <| usage := saved |>))
      else if bool_decide (is_Some (r_pools r !! DefaultPool cfg))
      then Ok (Some (r <| defaultPool := DefaultPool cfg |> <| usage := saved |>))
      else Err "default_pool is not a defined pool"
  end.
End Build.

(** ** Routers are well formed *)

Definition routes_to (r : PoolRouter) (table : gmap string string) : Prop :=
  map_Forall (fun _ name => is_Some (r_pools r !! name)) table.

Definition well_formed_pool (name : string) (p : sendingPool) : Prop :=
  name <> "" /\ sp_ips p <> [] /\ Forall (fun limit => 0 < limit) (sp_schedule p) /\
  Forall (fun src => src_pool src = name /\ (is_Some (src_start src) -> sp_schedule p <> [])) (sp_ips p) /\
  NoDup (src_addr <$> sp_ips p).

Record well_formed (r : PoolRouter) : Prop := {
  wf_pools : map_Forall well_formed_pool (r_pools r);
  wf_disjoint : forall n1 n2 p1 p2 s1 s2, r_pools r !! n1 = Some p1 -> r_pools r !! n2 = Some p2 ->
    s1 ∈ sp_ips p1 -> s2 ∈ sp_ips p2 -> src_addr s1 = src_addr s2 -> n1 = n2;
  wf_address : routes_to r (byAddress r);
  wf_domain : routes_to r (byDomain r);
  wf_subdomain : routes_to r (bySubdomain r);
  wf_default : defaultPool r = "" \/ is_Some (r_pools r !! defaultPool r)
}.

Section WellFormed.
Context `{U : UnicodeTables}.

Lemma build_ips_spec name schedule ipcs : forall owner l owner',
  build_ips name schedule ipcs owner = Ok (l, owner') ->
  length l = length ipcs /\ NoDup (src_addr <$> l) /\
  Forall (fun src => src_pool src = name /\ (is_Some (src_start src) -> schedule <> [])) l /\
  (forall src, src ∈ l -> owner !! src_addr src = None /\ owner' !! src_addr src = Some name) /\
  owner ⊆ owner'.
Proof.
  induction ipcs as [|ipc ipcs IH]; cbn; intros owner l owner'.
  { intros [= <- <-]. split_and!; try done; [apply NoDup_nil_2|set_solver]. }
  destruct (ParseIP _) as [ip|]; [|done]. destruct (IsUnspecified ip); [done|].
  case_bool_decide as Ho; [done|]. apply eq_None_not_Some in Ho.
  set (st := if (ipc_WarmupStart ipc =? "")%string then _ else _).
  assert (forall x, st = Ok x -> is_Some x -> schedule <> []) as Hst.
  { unfold st. intros x. repeat case_match; intros [= <-] [? [=]]; by destruct schedule. }
  destruct st as [start|]; [|done].
  destruct (build_ips _ _ _ _) as [[l' ow]|] eqn:E; [|done]. intros [= <- <-].
  apply IH in E as (E1 & E2 & E3 & E4 & E5).
  assert (owner ⊆ ow) as Hs.
  { etrans; [|exact E5]. by apply insert_subseteq. }
  split_and!; [cbn; lia| | | |done].
  - cbn. apply NoDup_cons. split; [|done]. intros Hin.
    apply list_elem_of_fmap in Hin as (src & Heq & Hin). apply E4 in Hin as [Hin _].
    by apply lookup_insert_None in Hin as [_ Hin].
  - constructor; [|done]. split; [done|]. by apply Hst.
  - intros src. rewrite list_elem_of_In. intros [<-|Hin]; cbn.
    + split; [done|]. eapply lookup_weaken; [|exact E5]. apply lookup_insert_eq.
    + apply list_elem_of_In in Hin. apply E4 in Hin as [Hn Hso]. split; [|done].
      by apply lookup_insert_None in Hn as [? _].
Qed.

Lemma claim_routes key name t t' (r : PoolRouter) :
  claim key name t = Ok t' -> is_Some (r_pools r !! name) -> routes_to r t -> routes_to r t'.
Proof.
  unfold claim. intros H Hn Ht. enough (t' = <[key := name]> t) as -> by (by apply map_Forall_insert_2).
  repeat case_match; by simplify_eq.
Qed.

Lemma build_senders_spec name ss : forall r r',
  build_senders name ss r = Ok r' -> is_Some (r_pools r !! name) ->
  routes_to r (byAddress r) -> routes_to r (byDomain r) -> routes_to r (bySubdomain r) ->
  r_pools r' = r_pools r /\ defaultPool r' = defaultPool r /\
  routes_to r (byAddress r') /\ routes_to r (byDomain r') /\ routes_to r (bySubdomain r').
Proof.
  induction ss as [|s ss IH]; cbn [build_senders]; intros r r' H Hn H1 H2 H3; [by simplify_eq|].
  set (s' := ToLower (TrimSpace s)) in *.
  destruct (s' =? "")%string; [by apply IH|].
  destruct (Contains s' "@"); [|destruct (HasPrefix s' ".")];
    match goal with H : context [claim ?k name ?t] |- _ =>
      destruct (claim k name t) as [t'|] eqn:Ec; cbn in H; [|done] end;
    apply (claim_routes _ _ _ _ r) in Ec; try done;
    apply IH in H; done.
Qed.
(** What the tables of the owners say while the pools are being built. *)
Record building (owner : gmap string string) (r : PoolRouter) : Prop := {
  b_wf : well_formed r;
  b_owner : forall name p src, r_pools r !! name = Some p -> src ∈ sp_ips p ->
    owner !! src_addr src = Some name
}.

Lemma routes_to_grow (r r' : PoolRouter) t :
  routes_to r t -> (forall n, is_Some (r_pools r !! n) -> is_Some (r_pools r' !! n)) -> routes_to r' t.
Proof. intros H Hg k n Hk. apply Hg. by apply (H k). Qed.

Lemma building_add name ips schedule owner owner' r :
  building owner r -> r_pools r !! name = None -> well_formed_pool name (mkPool name ips schedule 0) ->
  (forall src, src ∈ ips -> owner !! src_addr src = None /\ owner' !! src_addr src = Some name) ->
  owner ⊆ owner' ->
  building owner' (r <| r_pools ::= <[name := mkPool name ips schedule 0]> |>).
Proof.
  intros [[W1 W2 W3 W4 W5 W6] Ho] Hnew Hp Hi Hs.
  assert (forall n, is_Some (r_pools r !! n) ->
    is_Some (<[name := mkPool name ips schedule 0]> (r_pools r) !! n)) as Hg.
  { intros n H. rewrite lookup_insert_is_Some'. by right. }
  assert (forall n p src, <[name := mkPool name ips schedule 0]> (r_pools r) !! n = Some p ->
    src ∈ sp_ips p -> owner' !! src_addr src = Some n) as Hown.
  { intros n p src Hn Hin. apply lookup_insert_Some in Hn as [[<- <-]|[_ Hn]]; [by apply Hi|].
    eapply lookup_weaken; [|exact Hs]. by eapply Ho. }
  split; [split|]; cbn; try done.
  - by apply map_Forall_insert_2.
  - intros n1 n2 p1 p2 s1 s2 H1 H2 I1 I2 He.
    pose proof (Hown _ _ _ H1 I1) as A. rewrite He in A. rewrite (Hown _ _ _ H2 I2) in A. congruence.
  - by eapply routes_to_grow.
  - by eapply routes_to_grow.
  - by eapply routes_to_grow.
  - destruct W6 as [W6|W6]; [by left|right; by apply Hg].
Qed.

Lemma well_formed_retable (r r' : PoolRouter) :
  well_formed r -> r_pools r' = r_pools r -> defaultPool r' = defaultPool r ->
  routes_to r (byAddress r') -> routes_to r (byDomain r') -> routes_to r (bySubdomain r') ->
  well_formed r'.
Proof.
  intros [W1 W2 W3 W4 W5 W6] Ep Ed H1 H2 H3. unfold routes_to in *.
  split; unfold routes_to; rewrite ?Ep, ?Ed; done.
Qed.

Lemma build_pools_spec pcs : forall owner r r',
  build_pools pcs owner r = Ok r' -> building owner r -> exists owner', building owner' r'.
Proof.
  induction pcs as [|pc pcs IH]; cbn [build_pools]; intros owner r r' H Hb; [simplify_eq; eauto|].
  set (name := TrimSpace (pc_Name pc)) in *.
  destruct (name =? "")%string eqn:En; [done|]. apply String.eqb_neq in En.
  case_bool_decide as Hd; [done|]. apply eq_None_not_Some in Hd.
  destruct (length (pc_IPs pc) =? 0)%nat eqn:El; [done|]. apply Nat.eqb_neq in El.
  destruct (forallb _ _) eqn:Ef; cbn in H; [|done].
  destruct (build_ips _ _ _ _) as [[ips ow]|] eqn:Ei; [|done].
  destruct (build_senders _ _ _) as [r1|] eqn:Es; [|done].
  apply build_ips_spec in Ei as (I1 & I2 & I3 & I4 & I5).
  assert (well_formed_pool name (mkPool name ips (pc_WarmupSchedule pc) 0)) as Hp.
  { split_and!; cbn; [done|by intros ->|..|done|done].
    apply Forall_forall. intros z Hz. apply list_elem_of_In in Hz.
    rewrite forallb_forall in Ef. specialize (Ef z Hz). lia. }
  pose proof (building_add _ _ _ _ _ _ Hb Hd Hp I4 I5) as Hb1. destruct Hb1 as [Hw Ho].
  apply build_senders_spec in Es as (S1 & S2 & S3 & S4 & S5); [|cbn; rewrite lookup_insert_eq; eauto|apply Hw..].
  eapply IH; [exact H|]. split; [by eapply well_formed_retable|]. by rewrite S1.
Qed.

Lemma NewPoolRouter_well_formed cfg saved r :
  NewPoolRouter cfg saved = Ok (Some r) -> well_formed r.
Proof.
  unfold NewPoolRouter. case_match; [by case_match|].
  destruct (build_pools _ _ _) as [r0|] eqn:Eb; [|done].
  apply build_pools_spec in Eb as [ow [Hw _]].
  2: { split; [split|]; cbn; try apply map_Forall_empty; try done; by left. }
  destruct Hw as [W1 W2 W3 W4 W5 W6]. case_match; [intros [= <-]; by split|].
  case_bool_decide; [|done]. intros [= <-]. split; cbn; try done. by right.
Qed.

(** The pool of a sender, if any, is one of the router's. *)
Lemma poolFor_defined r sender :
  well_formed r -> poolFor r sender = "" \/ is_Some (r_pools r !! poolFor r sender).
Proof.
  intros [W1 W2 W3 W4 W5 W6]. unfold poolFor. case_match; [done|].
  destruct (byAddress r !! _) as [n|] eqn:Ea; [right; by eapply W3|].
  destruct (LastIndexByte _ _); [|done].
  destruct (byDomain r !! _) as [n0|] eqn:Ed; [right; by eapply W4|].
  destruct (walk_up _ _) as [n1|] eqn:Ew; [|done]. right. cbn.
  revert Ew. generalize (sdrop (Datatypes.S n) (ToLower (Trim (TrimSpace sender) "<>"))) as d.
  induction d as [|c d IH]; cbn; [done|]. destruct (Ascii.eqb c "."); [|done].
  destruct (bySubdomain r !! d) as [n2|] eqn:Es; [|done]. intros [= <-]. by eapply W5.
Qed.
End WellFormed.

(** *** ... and stay so *)

Definition frame (r : PoolRouter) :=
  ((fun p => (sp_ips p, sp_schedule p)) <$> r_pools r, byAddress r, byDomain r, bySubdomain r,
   defaultPool r).

Lemma frame_lookup r r' name p' :
  frame r' = frame r -> r_pools r' !! name = Some p' ->
  exists p, r_pools r !! name = Some p /\ sp_ips p' = sp_ips p /\ sp_schedule p' = sp_schedule p.
Proof.
  intros H Hp. pose proof (f_equal (fun f => fst (fst (fst (fst f))) !! name) H) as Hf.
  cbn in Hf. rewrite !lookup_fmap, Hp in Hf. cbn in Hf.
  destruct (r_pools r !! name) as [p|]; cbn in Hf; [|done]. simplify_eq. eauto.
Qed.

Lemma frame_pools r r' name :
  frame r' = frame r -> is_Some (r_pools r !! name) -> is_Some (r_pools r' !! name).
Proof. intros H [p Hp]. destruct (frame_lookup r' r name p (eq_sym H) Hp) as (? & ? & _). eauto. Qed.

Lemma well_formed_frame r r' : frame r' = frame r -> well_formed r -> well_formed r'.
Proof.
  intros H [W1 W2 W3 W4 W5 W6]. pose proof (frame_lookup r r') as Hl. pose proof (frame_pools r r') as Hg.
  pose proof H as [= Hp Ha Hd Hs Hf]. split.
  - intros name p' Hn. destruct (Hl _ _ H Hn) as (p & Hq & Ei & Es).
    unfold well_formed_pool. rewrite Ei, Es. by apply W1.
  - intros n1 n2 p1 p2 s1 s2 H1 H2. destruct (Hl _ _ H H1) as (q1 & G1 & -> & _).
    destruct (Hl _ _ H H2) as (q2 & G2 & -> & _). by apply (W2 n1 n2 q1 q2).
  - rewrite Ha. apply (routes_to_grow r); eauto.
  - rewrite Hd. apply (routes_to_grow r); eauto.
  - rewrite Hs. apply (routes_to_grow r); eauto.
  - rewrite Hf. destruct W6; [by left|right; eauto].
Qed.

Lemma pool_still r r' name p :
  r_pools r' = r_pools r -> r_pools r !! name = Some p -> r_pools r' !! name = Some p.
Proof. by intros ->. Qed.

Lemma frame_usageLocked a d r u r' :
  usageLocked a d r = (u, r') -> frame r' = frame r /\ r_pools r' = r_pools r.
Proof. unfold usageLocked. by intros [= <- <-]. Qed.

Lemma frame_count_send name p i src day r :
  r_pools r !! name = Some p -> frame (count_send name p i src day r) = frame r.
Proof.
  intros Hp. unfold count_send, usageLocked, frame. cbn. rewrite fmap_insert.
  rewrite insert_id; [done|]. rewrite lookup_fmap.
  exact (f_equal (fmap (fun p => (sp_ips p, sp_schedule p))) Hp).
Qed.

Lemma frame_acquire_local name p now cs : forall r res r',
  r_pools r !! name = Some p -> acquire_local name p now cs r = (res, r') -> frame r' = frame r.
Proof.
  induction cs as [|[i src] cs IH]; intros r res r' Hp; cbn [acquire_local]; [by intros [= <- <-]|].
  destruct (usageLocked _ _ r) as [u r1] eqn:Eu. apply frame_usageLocked in Eu as [Ef Eq].
  rewrite <- Ef. pose proof (pool_still _ _ _ _ Eq Hp). case_match; [by apply IH|].
  intros [= <- <-]. by apply frame_count_send.
Qed.

Section Stay.
Context {S : Type} `{!SharedStore S} `{U : UnicodeTables}.

Lemma frame_take_local name p i src allowed day lc r b r' :
  r_pools r !! name = Some p -> take_local name p i src allowed day lc r = (b, r') ->
  frame r' = frame r /\ (b = false -> r_pools r' = r_pools r).
Proof.
  intros Hp. unfold take_local. destruct (usageLocked _ _ r) as [u r1] eqn:Eu.
  apply frame_usageLocked in Eu as [Ef Eq]. case_match; intros [= <- <-]; [done|].
  split; [|done]. rewrite <- Ef. apply frame_count_send. by eapply pool_still.
Qed.

Lemma frame_acquire_shared name p now cs : forall r store res r' store',
  r_pools r !! name = Some p ->
  acquire_shared name p now cs (r, store) = (res, (r', store')) -> frame r' = frame r.
Proof.
  induction cs as [|[i src] cs IH]; intros r store res r' store' Hp; cbn [acquire_shared];
    [by intros [= <- <- <-]|].
  assert (forall lc rr st, r_pools rr = r_pools r -> frame rr = frame r ->
    match take_local name p i src (allowedSoFar p src now) (day_of now) lc rr with
    | (true, r) => (Ok (mkTicket src (day_of now) false false), (r, st))
    | (false, r) => acquire_shared name p now cs (r, st)
    end = (res, (r', store')) -> frame r' = frame r) as Hfall.
  { intros lc rr st Ep Ef. destruct (take_local _ _ _ _ _ _ _ rr) as [b rx] eqn:Et.
    pose proof (pool_still _ _ _ _ Ep Hp) as Hq.
    apply frame_take_local in Et as [Fx Gx]; [|done]. destruct b; [intros [= <- <- <-]; by etrans|].
    intros H. apply IH in H; [by do 2 etrans|]. eapply pool_still; [by apply Gx|done]. }
  assert (forall lc rr (t : ticket) st, r_pools rr = r_pools r -> frame rr = frame r ->
    (Ok t, (snd (take_local name p i src (allowedSoFar p src now) (day_of now) lc rr), st))
      = (res, (r', store')) -> frame r' = frame r) as Htake.
  { intros lc rr t st Ep Ef. destruct (take_local _ _ _ _ _ _ _ rr) as [b rx] eqn:Et.
    apply frame_take_local in Et as [Fx _]; [|by eapply pool_still]. intros [= <- <- <-]. by etrans. }
  case_match; [by apply Htake|]. destruct (r_shared r) as [g|]; [|by apply Hfall].
  case_match; [by apply Hfall|].
  destruct (TakeWarmup _ _ _ _) as [[[taken ?]|e] st]; [|by apply Hfall].
  destruct taken; [by apply Htake|]. intros Hx. apply IH in Hx; done.
Qed.

Lemma frame_acquire now sender r store res r' store' :
  acquire now sender (r, store) = (res, (r', store')) -> frame r' = frame r.
Proof.
  unfold acquire. case_match; [by intros [= <- <- <-]|].
  destruct (r_pools r !! poolFor r sender) as [p|] eqn:Ep; [|by intros [= <- <- <-]].
  destruct (r_shared r).
  - destruct (acquire_shared _ _ _ _ _) as [t [r1 st1]] eqn:E. intros [= <- <- <-].
    by eapply frame_acquire_shared.
  - destruct (acquire_local _ _ _ _ _) as [t r1] eqn:E. intros [= <- <- <-].
    by eapply frame_acquire_local.
Qed.

Lemma frame_refund now t r store t' r' store' :
  refund now t (r, store) = (t', (r', store')) -> frame r' = frame r.
Proof.
  unfold refund. destruct (t_refunded t); [by intros [= <- <- <-]|].
  assert (frame (localRefund t r) = frame r) as <- by (unfold localRefund; by repeat case_match).
  generalize (localRefund t r) as r1. intros r1. destruct (negb (t_stored t)); [by intros [= <- <- <-]|].
  destruct (r_shared r1) as [g|]; [|by intros [= <- <- <-]].
  destruct (negb (available now g)); [by intros [= <- <- <-]|].
  destruct (RefundWarmup _ _ _) as [[?|?] ?]; by intros [= <- <- <-].
Qed.

(** A reservation is of an address of the sender's pool. *)
Lemma acquire_local_source name p now cs : forall r t r',
  acquire_local name p now cs r = (Ok t, r') -> t_src t ∈ snd <$> cs.
Proof.
  induction cs as [|[i src] cs IH]; intros r t r'; cbn [acquire_local]; [done|].
  destruct (usageLocked _ _ r) as [u r1]. case_match; [intros Hx; right; by eapply IH|].
  intros [= <- <-]. by left.
Qed.

Lemma acquire_shared_source name p now cs : forall w t w',
  acquire_shared name p now cs w = (Ok t, w') -> t_src t ∈ snd <$> cs.
Proof.
  induction cs as [|[i src] cs IH]; intros w t w'; cbn [acquire_shared]; [by destruct w|].
  destruct w as [r store].
  repeat case_match; intros Hx; simplify_eq; try (by left); right; by eapply IH.
Qed.

Lemma candidates_source p : snd <$> candidates p ⊆ sp_ips p.
Proof.
  intros s Hs. unfold candidates in Hs. apply list_elem_of_fmap in Hs as ([i s'] & -> & Hs).
  apply list_elem_of_omap in Hs as (j & _ & Hj). cbn.
  destruct (sp_ips p !! _) as [s2|] eqn:E; [|done]. injection Hj as _ <-. by eapply list_elem_of_lookup_2.
Qed.

Lemma acquire_source_of now sender r store t w' :
  acquire now sender (r, store) = (Ok (Some t), w') ->
  exists p, r_pools r !! poolFor r sender = Some p /\ t_src t ∈ sp_ips p.
Proof.
  unfold acquire. destruct (_ =? _)%string; [done|]. destruct (r_pools r !! _) as [p|] eqn:E; [|done].
  intros H. exists p. split; [done|]. apply candidates_source. destruct (r_shared r).
  - destruct (acquire_shared _ _ _ _ _) as [[t'|] w1] eqn:Ea; cbn in H; simplify_eq; by eapply acquire_shared_source.
  - destruct (acquire_local _ _ _ _ _) as [[t'|] w1] eqn:Ea; cbn in H; simplify_eq; by eapply acquire_local_source.
Qed.

Lemma acquire_none now sender r store w' :
  acquire now sender (r, store) = (Ok None, w') ->
  poolFor r sender = "" \/ r_pools r !! poolFor r sender = None.
Proof.
  unfold acquire. destruct (_ =? _)%string eqn:E0; [left; by apply String.eqb_eq|].
  destruct (r_pools r !! _) as [p|] eqn:E; [|by right]. destruct (r_shared r).
  - destruct (acquire_shared _ _ _ _ _) as [[t'|] w1]; done.
  - destruct (acquire_local _ _ _ _ _) as [[t'|] w1]; done.
Qed.

Lemma poolFor_frame r r' sender : frame r' = frame r -> poolFor r' sender = poolFor r sender.
Proof.
  unfold frame. intros H. injection H as _ Ha Hd Hs Hf. unfold poolFor.
  by rewrite Ha, Hd, Hs, Hf.
Qed.

(** A router of a node is one that was built, but for cursors, counts and the guard. *)
Lemma cluster_step_frame fit c c' : cluster_step fit c c' -> forall i n',
  c_nodes c' !! i = Some n' ->
  exists n, c_nodes c !! i = Some n /\
    (frame (n_router n') = frame (n_router n) \/
     exists now next, fit now (n_router n) next /\ frame (n_router n') = frame next).
Proof.
  intros [i n now sender r ro r' store store' ns t0 Hi Hle -> H
         |i n j now t t' ro r' store store' ns t0 Hi Hle -> Hj H
         |i n j now t t' ro r' store store' ns t0 Hi Hle Hj H
         |i n g store ns t0 Hi|i n next g now store ns t0 Hi Hle Hfit] k m Hk; cbn in *;
    apply list_lookup_insert_Some in Hk as [(-> & <- & _)|(_ & Hk)]; eauto; exists n; (split; [done|]); cbn.
  - left. by eapply frame_acquire.
  - left. by eapply frame_refund.
  - right. by exists now, next.
Qed.

(** Whatever configuration [NewPoolRouter] accepts. *)
Definition any_config (_ : Z) (_ next : PoolRouter) : Prop :=
  exists cfg saved, NewPoolRouter cfg saved = Ok (Some next).

(** C40 (type). A router that [NewPoolRouter] accepts is well formed, and a node's router is so
    over any interleaving of reservations (on the node's own counts or the store's),
    releases, switching the shared store on and off, and reloads with any configuration
    that is accepted: its pools are named, have distinct addresses and positive caps, no
    address is in two pools, every sender table and the default lead to a pool of the
    router, and so every sender has a pool of the router or none, which is what [acquire]
    relies on when it uses the pool without a check. *)
Theorem routers_well_formed cfgs rs (store : S) t0 c :
  Forall2 (fun '(cfg, saved) r => NewPoolRouter cfg saved = Ok (Some r)) cfgs rs ->
  rtc (cluster_step any_config) (mkCluster ((fun r => mkNode r [] []) <$> rs) store t0) c ->
  forall i n, c_nodes c !! i = Some n ->
  well_formed (n_router n) /\
  forall sender, poolFor (n_router n) sender = "" \/
                 is_Some (r_pools (n_router n) !! poolFor (n_router n) sender).
Proof.
  intros Hb Hr i n Hi. enough (well_formed (n_router n)) as Hw.
  { split; [done|]. intros sender. by apply poolFor_defined. }
  revert i n Hi.
  apply (rtc_keeps (cluster_step any_config) (fun c => forall i n, c_nodes c !! i = Some n -> well_formed (n_router n))
           ) with (2 := Hr).
  - intros c1 c2 Hs Hw i n' Hi. destruct (cluster_step_frame _ _ _ Hs _ _ Hi) as (n & Hn & [Hf|(now & next & (cfg & saved & Hnew) & Hf)]).
    + eapply well_formed_frame; [exact Hf|eauto].
    + eapply well_formed_frame; [exact Hf|]. by eapply NewPoolRouter_well_formed.
  - cbn. intros i n. rewrite list_lookup_fmap. intros Hi. apply fmap_Some in Hi as (r & Hi & ->).
    destruct (Forall2_lookup_r _ _ _ _ _ Hb Hi) as ([cfg saved] & _ & Hn).
    by eapply NewPoolRouter_well_formed.
Qed.
End Stay.

(** The cap of an address under a router's configuration. *)
Definition owners (r : PoolRouter) : list (sendingPool * sourceIP) :=
  map_to_list (r_pools r) ≫= (fun kp => (fun src => (snd kp, src)) <$> sp_ips (snd kp)).
Definition configured_cap (r : PoolRouter) (D : Z) (a : string) : Z :=
  match find (fun ps => src_addr (snd ps) =? a)%string (owners r) with
  | Some (p, src) => dailyCap p src (D * Day_)
  | None => -1
  end.

Lemma dailyCap_day p src now : dailyCap p src (day_of now * Day_) = dailyCap p src now.
Proof.
  unfold dailyCap, midnight.
  assert (day_of (day_of now * Day_) = day_of now) as -> by (apply Z.div_mul; done). done.
Qed.

Lemma owners_spec r p src :
  (p, src) ∈ owners r <-> exists name, r_pools r !! name = Some p /\ src ∈ sp_ips p.
Proof.
  unfold owners. rewrite list_elem_of_bind. split.
  - intros ([name q] & Hin & Hq). apply elem_of_map_to_list in Hq.
    apply list_elem_of_fmap in Hin as (s & [= -> ->] & Hin). eauto.
  - intros (name & Hp & Hin). exists (name, p). cbn. split.
    + apply list_elem_of_fmap. eauto.
    + by apply elem_of_map_to_list.
Qed.

Lemma well_formed_source r n1 n2 p1 p2 s1 s2 :
  well_formed r -> r_pools r !! n1 = Some p1 -> r_pools r !! n2 = Some p2 ->
  s1 ∈ sp_ips p1 -> s2 ∈ sp_ips p2 -> src_addr s1 = src_addr s2 -> p1 = p2 /\ s1 = s2.
Proof.
  intros W H1 H2 I1 I2 He. pose proof (wf_disjoint _ W _ _ _ _ _ _ H1 H2 I1 I2 He) as <-.
  assert (p1 = p2) as <- by congruence. split; [done|].
  destruct (wf_pools _ W _ _ H1) as (_ & _ & _ & _ & Hnd).
  apply list_elem_of_lookup in I1 as [i I1]. apply list_elem_of_lookup in I2 as [j I2].
  assert (i = j) as <-; [|congruence].
  eapply NoDup_lookup; [exact Hnd|..]; rewrite list_lookup_fmap.
  - exact (f_equal (fmap src_addr) I1).
  - etrans; [exact (f_equal (fmap src_addr) I2)|]. cbn. f_equal. by symmetry.
Qed.

(** Nodes that run one configuration agree on the caps. *)
Lemma well_formed_agrees r r' :
  well_formed r -> frame r' = frame r -> agrees (configured_cap r) r'.
Proof.
  intros W Hf name p' Hp src now Hin. destruct (frame_lookup _ _ _ _ Hf Hp) as (p & Hq & Ei & Es).
  rewrite Ei in Hin. unfold configured_cap.
  destruct (find _ (owners r)) as [[q s]|] eqn:E.
  - apply find_some in E as [E He]. apply String.eqb_eq in He. apply list_elem_of_In in E.
    apply owners_spec in E as (n' & Hn & Hs).
    destruct (well_formed_source _ _ _ _ _ _ _ W Hq Hn Hin Hs (eq_sym He)) as [<- <-].
    rewrite dailyCap_day. unfold dailyCap. by rewrite Es.
  - exfalso. assert ((p, src) ∈ owners r) as Ho by (apply owners_spec; eauto).
    apply list_elem_of_In in Ho. pose proof (find_none _ _ E _ Ho) as Hx. cbn in Hx.
    by rewrite String.eqb_refl in Hx.
Qed.

(** Schedules of a cluster, to run one. *)
Inductive cluster_command := RunAcquire (i : nat) (now : Z) (sender : string)
                           | RunRefund (i j : nat) (now : Z)
                           | RunSetShared (i : nat) (g : option sharedGuard)
                           | RunReload (i : nat) (next : PoolRouter) (g : option sharedGuard) (now : Z).

Section Schedules.
Context {S : Type} `{!SharedStore S} `{U : UnicodeTables}.

Definition obey (k : cluster_command) (c : cluster) : option (@cluster S) :=
  match k with
  | RunAcquire i now sender =>
      n ← c_nodes c !! i;
      if negb (c_now c <=? now) then None
      else let '(r, (r', store')) := acquire now sender (n_router n, c_store c) in
           Some (mkCluster (<[i := mkNode r' (match r with Ok (Some t) => t :: n_tickets n
                                                        | _ => n_tickets n end) (n_old n)]> (c_nodes c)) store' now)
  | RunRefund i j now =>
      n ← c_nodes c !! i; t ← n_tickets n !! j;
      if negb (c_now c <=? now) then None
      else let '(t', (r', store')) := refund now t (n_router n, c_store c) in
           Some (mkCluster (<[i := mkNode r' (<[j := t']> (n_tickets n)) (n_old n)]> (c_nodes c)) store' now)
  | RunSetShared i g =>
      n ← c_nodes c !! i;
      Some (mkCluster (<[i := mkNode (setShared g (n_router n)) (n_tickets n) (n_old n)]> (c_nodes c)) (c_store c) (c_now c))
  | RunReload i next g now =>
      n ← c_nodes c !! i;
      if negb (c_now c <=? now) then None
      else Some (mkCluster (<[i := mkNode (adoptUsage (n_router n) (setShared g next)) [] (all_tickets n)]> (c_nodes c))
                   (c_store c) now)
  end.

Fixpoint obey_all (ks : list cluster_command) (c : cluster) : option (@cluster S) :=
  match ks with [] => Some c | k :: ks' => c' ← obey k c; obey_all ks' c' end.

Definition fitting (fit : Z -> PoolRouter -> PoolRouter -> Prop) (k : cluster_command) : Prop :=
  match k with RunReload _ next _ now => forall old, fit now old next | _ => True end.

Lemma cluster_obey_all_reach fit ks : Forall (fitting fit) ks ->
  forall c c', obey_all ks c = Some c' -> rtc (cluster_step fit) c c'.
Proof.
  induction 1 as [|k ks Hf _ IH]; cbn [obey_all]; intros c c'; [intros [= <-]; apply rtc_refl|].
  intros H. apply bind_Some in H as (c1 & Hk & H). eapply rtc_l; [|by apply IH].
  destruct c as [ns store t0], k as [i now sender|i j now|i g|i next g now]; cbn [obey c_nodes c_now c_store] in Hk.
  - apply bind_Some in Hk as (n & Hi & Hk). destruct (t0 <=? now) eqn:E; cbn [negb] in Hk; [|done].
    destruct (acquire _ _ _) as [r [r' st']] eqn:Ea. apply Some_inj in Hk as <-.
    by eapply cl_acquire; [..|exact Ea]; [|lia|].
  - apply bind_Some in Hk as (n & Hi & Hk). apply bind_Some in Hk as (t & Hj & Hk).
    destruct (t0 <=? now) eqn:E; cbn [negb] in Hk; [|done].
    destruct (refund _ _ _) as [t' [r' st']] eqn:Ea. apply Some_inj in Hk as <-.
    by eapply cl_refund; [..|exact Ea]; [|lia| |].
  - apply bind_Some in Hk as (n & Hi & Hk). apply Some_inj in Hk as <-. by apply cl_setShared.
  - apply bind_Some in Hk as (n & Hi & Hk). destruct (t0 <=? now) eqn:E; cbn [negb] in Hk; [|done].
    apply Some_inj in Hk as <-. apply cl_reload; [done|lia|apply Hf].
Qed.
End Schedules.

(** *** Two nodes with one warming address *)

Definition demo_config : PoolsConfig :=
  mkPoolsConfig
    [mkPoolConfig "news" [".example.com"; "Offers@Example.org"]
       [mkPoolIP "192.0.2.10" "out10.example.com" "1970-01-01"] [2; 4]] "".
Definition demo_router : PoolRouter :=
  match NewPoolRouter (U := ascii_tables) demo_config ∅ with
  | Ok (Some r) => r
  | _ => mkRouter ∅ ∅ ∅ ∅ "" None ∅ false
  end.
Definition demo_shared : PoolRouter := demo_router <| r_shared := Some newSharedGuard |>.
Definition demo_cluster (rs : list PoolRouter) : @cluster (ValkeyState toy_redis) :=
  mkCluster ((fun r => mkNode r [] []) <$> rs) toy_store 0.

(** Two take the allowance of the day, a third is refused, and a refund makes room. *)
Definition demo_run : list cluster_command :=
  [RunAcquire 0 (13 * Hour) "a@x.example.com"; RunAcquire 1 (13 * Hour) "offers@example.org";
   RunAcquire 1 (14 * Hour) "b@x.example.com"; RunRefund 0 0 (15 * Hour);
   RunAcquire 1 (16 * Hour) "b@x.example.com"].

Example demo_run_result :
  (fun c => ((fun n => (length (n_tickets n), stored_on 0 "192.0.2.10" n)) <$> c_nodes c,
             valkey_count 0 "192.0.2.10" (c_store c)))
    <$> obey_all (U := ascii_tables) demo_run (demo_cluster [demo_shared; demo_shared])
  = Some ([(1%nat, 0); (2%nat, 2)], 2).
Proof. vm_compute. reflexivity. Qed.

Lemma frame_shared r g : frame (r <| r_shared := g |>) = frame r.
Proof. done. Qed.

Lemma usage_shared r g : usage (r <| r_shared := g |>) = usage r.
Proof. done. Qed.

Lemma demo_router_built : NewPoolRouter (U := ascii_tables) demo_config ∅ = Ok (Some demo_router).
Proof. vm_compute. reflexivity. Qed.

(** The store cannot be asked: each node takes the allowance of the day on its own counts,
    and together they send twice the cap. *)
Definition outage_run : list cluster_command :=
  [RunAcquire 0 (13 * Hour) "a@x.example.com"; RunAcquire 0 (14 * Hour) "b@x.example.com";
   RunAcquire 0 (15 * Hour) "c@x.example.com"; RunAcquire 1 (16 * Hour) "a@x.example.com";
   RunAcquire 1 (17 * Hour) "b@x.example.com"].
Definition outage : @cluster (ValkeyState toy_redis) :=
  mkCluster ((fun r => mkNode r [] []) <$> [demo_shared; demo_shared])
    (toy_store <| faults := replicate 10 Unreached |>) 0.

Example outage_sends_a_cap_per_node :
  (fun c => loose_tickets 0 "192.0.2.10" ∘ all_tickets <$> c_nodes c)
    <$> obey_all (U := ascii_tables) outage_run outage
  = Some [2; 2].
Proof. vm_compute. reflexivity. Qed.

(** A send of yesterday that is counted after a send of today starts today's count again:
    the lock is not held from the moment the day was looked up. *)
Example late_take_resets :
  let a := "192.0.2.10" in
  let today := snd (take_local "news" (mkPool "news" [] [2; 4] 0) 0
                      (mkSource "news" [192; 0; 2; 10] a "" None) 2 1 true demo_shared) in
  let late := snd (take_local "news" (mkPool "news" [] [2; 4] 0) 0
                     (mkSource "news" [192; 0; 2; 10] a "" None) 2 0 false today) in
  u_Sent (fst (usageLocked a 1 today)) = 1 /\ u_Sent (fst (usageLocked a 1 late)) = 0.
Proof. by vm_compute. Qed.

Lemma warmup_cap_kept_witness :
  match obey_all (U := ascii_tables) demo_run (demo_cluster [demo_shared; demo_shared]) with
  | Some c => zsum (fun n => stored_tickets 0 "192.0.2.10" (all_tickets n)) (c_nodes c) <= 2
  | None => False
  end.
Proof.
  destruct (obey_all _ _) as [c|] eqn:E; [|by vm_compute in E].
  apply (warmup_cap_kept (U := ascii_tables) (configured_cap demo_router)
           [demo_shared; demo_shared] toy_store 0 c).
  - apply (Forall_replicate _ 2), well_formed_agrees, frame_shared.
    exact (NewPoolRouter_well_formed _ _ _ demo_router_built).
  - apply (Forall_replicate _ 2). etrans; [apply usage_shared|by vm_compute].
  - intros D a. cbn. unfold valkey_count, redis_count. cbn. by rewrite lookup_empty.
  - eapply cluster_obey_all_reach; [|exact E]. repeat constructor.
  - by vm_compute.
Defined.

(** The store is switched on, and the configuration is read again. *)
Definition reload_run : list cluster_command :=
  RunSetShared 0 (Some newSharedGuard) :: demo_run ++
  [RunReload 1 demo_router (Some newSharedGuard) (17 * Hour); RunAcquire 1 (18 * Hour) "b@x.example.com"].

Lemma routers_well_formed_witness :
  match obey_all (U := ascii_tables) reload_run (demo_cluster [demo_router; demo_router]) with
  | Some c => Forall (fun n => well_formed (n_router n)) (c_nodes c)
  | None => False
  end.
Proof.
  destruct (obey_all _ _) as [c|] eqn:E; [|by vm_compute in E].
  apply Forall_lookup. intros i n Hi.
  apply (routers_well_formed (U := ascii_tables) [(demo_config, ∅); (demo_config, ∅)]
           [demo_router; demo_router] toy_store 0 c) with (i := i).
  - apply Forall2_cons. split; [exact demo_router_built|].
    apply Forall2_cons. split; [exact demo_router_built|apply Forall2_nil_2].
  - eapply cluster_obey_all_reach; [|exact E].
    repeat (constructor; [first [exact I|intros old; exists demo_config, ∅; exact demo_router_built]|]). constructor.
  - exact Hi.
Defined.
