(* ===== verification/Providers.v ===== *)
(** * Providers: mailbox providers behind a destination (internal/queue: providers.go)

    A destination whose most preferred mail server belongs to a known provider is shaped
    under that provider.  The profiles and their overrides, the match by server name with
    its memo, the keys of the shaper, and what a temporary reply says about the sender.

    The memo holds the profile itself where the code holds a pointer to it; profiles do
    not change after [NewProviderRouter]. *)

From stdpp Require Import gmap pretty.
From S2P Require Import Prelude GoStrings GoMath SharedState Shaper Pools QueueProcessor.

Set Primitive Projections.

Record ProviderConfig := mkProviderConfig {
  pvc_Name : string;
  pvc_Disabled : bool;
  pvc_MXSuffixes : list string;
  pvc_MaxConnections : Z;
  pvc_MaxMessagesPerMinute : Z;
  pvc_ThrottledMessagesPerMinute : Z;
  pvc_ThrottleSignals : list string;
  pvc_RecipientSignals : list string;
  pvc_ThrottleBackoff : Z;
  pvc_ThrottleBackoffMax : Z
}.

Record provider := mkProvider {
  pv_name : string;
  pv_mxSuffixes : list string;
  pv_limits : Limits;
  pv_throttleSignals : list string;
  pv_recipientSignals : list string;
  pv_backoff : Z;
  pv_backoffMax : Z
}.

Definition no_limits : Limits := mkShapingLimits 0 0 0.

Definition builtinProviders : list provider :=
  [mkProvider "gmail" ["google.com"; "googlemail.com"] no_limits
     ["4.7.28"; "unusual rate of unsolicited mail"; "temporarily rate limited"]
     ["receiving mail at a rate"; "4.2.2"] (10 * Minute) (2 * Hour);
   mkProvider "yahoo" ["yahoodns.net"] no_limits
     ["[tss04]"; "[tss09]"; "temporarily deferred due to unexpected volume";
      "temporarily deferred due to user complaints"]
     ["4.2.2"] (15 * Minute) (4 * Hour);
   mkProvider "microsoft" ["protection.outlook.com"] no_limits
     ["4.7.650"; "rp-001"; "rp-002"; "rp-003"; "4.7.500"; "rate limited due to ip reputation"]
     ["4.2.2"] (10 * Minute) (2 * Hour)].

Definition genericRecipientSignals : list string := ["4.2.2"].

Record ProviderRouter := mkProviderRouter {
  providers : list provider;
  pv_byDomain : gmap string provider
}.

Definition maxProviderMemo : nat := Z.to_nat 10000.

(** A mail server of a domain, [net.MX]. *)
Record MX := mkMX { mx_Host : string; mx_Pref : Z }.

Section Providers.
Context `{U : UnicodeTables}.

Definition normalizeHost (h : string) : string :=
  TrimPrefix (TrimSuffix (ToLower (TrimSpace h)) ".") ".".

(** ** The profiles *)

Fixpoint normalize_suffixes (name : string) (l : list string) : result (list string) :=
  match l with
  | [] => Ok []
  | sfx :: l' =>
      if (normalizeHost sfx =? "")%string
      then Err ("provider " +:+ name +:+ " has an empty mx_suffixes entry")
      else match normalize_suffixes name l' with
           | Ok r => Ok (normalizeHost sfx :: r)
           | Err e => Err e
           end
  end.

(** Signals in lower case, without the empty ones. *)
Definition signals (l : list string) : list string :=
  filter (fun s => negb (s =? "")%string = true) ((fun s => ToLower (TrimSpace s)) <$> l).

Definition or_keep (v old : Z) : Z := if 0 <? v then v else old.

(** One override applied to a profile. *)
Definition override (oc : ProviderConfig) (p : provider) : result provider :=
  let suffixes :=
    if (length (pvc_MXSuffixes oc) =? 0)%nat then Ok (pv_mxSuffixes p)
    else normalize_suffixes (pv_name p) (pvc_MXSuffixes oc) in
  match suffixes with
  | Err e => Err e
  | Ok sfx =>
      if existsb (fun v => v <? 0)
           [pvc_MaxConnections oc; pvc_MaxMessagesPerMinute oc; pvc_ThrottledMessagesPerMinute oc;
            pvc_ThrottleBackoff oc; pvc_ThrottleBackoffMax oc]
      then Err ("provider " +:+ pv_name p +:+ ": a setting is negative")
      else
        let l := pv_limits p in
        Ok (mkProvider (pv_name p) sfx
              (mkShapingLimits (or_keep (pvc_MaxConnections oc) (lim_MaxConnections l))
                 (or_keep (pvc_MaxMessagesPerMinute oc) (lim_MaxMessagesPerMinute l))
                 (or_keep (pvc_ThrottledMessagesPerMinute oc) (lim_ThrottledMessagesPerMinute l)))
              (pv_throttleSignals p ++ signals (pvc_ThrottleSignals oc))
              (pv_recipientSignals p ++ signals (pvc_RecipientSignals oc))
              (if 0 <? pvc_ThrottleBackoff oc then wrap64 (pvc_ThrottleBackoff oc * Second)
               else pv_backoff p)
              (if 0 <? pvc_ThrottleBackoffMax oc then wrap64 (pvc_ThrottleBackoffMax oc * Second)
               else pv_backoffMax p))
  end.

(** The state of the loop over the overrides: profiles by name, the order they came in,
    and the names seen and disabled. *)
Record profiles := mkProfiles {
  pf_byName : gmap string provider;
  pf_order : list string;
  pf_disabled : gset string;
  pf_seen : gset string
}.

Definition builtin_profiles : profiles :=
  mkProfiles (list_to_map ((fun p => (pv_name p, p)) <$> builtinProviders))
             (pv_name <$> builtinProviders) ∅ ∅.

Definition add_override (oc : ProviderConfig) (pf : profiles) : result profiles :=
  let name := ToLower (TrimSpace (pvc_Name oc)) in
  if (name =? "")%string then Err "a provider has no name"
  else if bool_decide (name ∈ pf_seen pf) then Err ("provider " +:+ name +:+ " is configured twice")
  else
    let pf := pf <| pf_seen ::= fun s => {[name]} ∪ s |> in
    if pvc_Disabled oc then Ok (pf <| pf_disabled ::= fun s => {[name]} ∪ s |>)
    else
      let base :=
        match pf_byName pf !! name with
        | Some p => Ok (p, pf)
        | None =>
            if (length (pvc_MXSuffixes oc) =? 0)%nat
            then Err ("provider " +:+ name +:+ " needs mx_suffixes")
            else Ok (mkProvider name [] no_limits [] [] 0 0, pf <| pf_order ::= fun l => l ++ [name] |>)
        end in
      match base with
      | Err e => Err e
      | Ok (p, pf) =>
          match override oc p with
          | Err e => Err e
          | Ok p' => Ok (pf <| pf_byName ::= <[name := p']> |>)
          end
      end.

Fixpoint add_overrides (ocs : list ProviderConfig) (pf : profiles) : result profiles :=
  match ocs with
  | [] => Ok pf
  | oc :: ocs' => match add_override oc pf with Ok pf => add_overrides ocs' pf | Err e => Err e end
  end.

(** No suffix belongs to two profiles. *)
Fixpoint own_suffixes (name : string) (l : list string) (owner : gmap string string) :
    result (gmap string string) :=
  match l with
  | [] => Ok owner
  | sfx :: l' =>
      match owner !! sfx with
      | Some prev => Err ("mx suffix " +:+ sfx +:+ " is claimed by both " +:+ prev +:+ " and " +:+ name)
      | None => own_suffixes name l' (<[sfx := name]> owner)
      end
  end.

Fixpoint enabled_profiles (pf : profiles) (order : list string) (owner : gmap string string) :
    result (list provider) :=
  match order with
  | [] => Ok []
  | name :: order' =>
      if bool_decide (name ∈ pf_disabled pf) then enabled_profiles pf order' owner
      else match pf_byName pf !! name with
      | None => enabled_profiles pf order' owner       (* every name of the order is there *)
      | Some p =>
          match own_suffixes name (pv_mxSuffixes p) owner with
          | Err e => Err e
          | Ok owner =>
              match enabled_profiles pf order' owner with
              | Err e => Err e
              | Ok l => Ok (p :: l)
              end
          end
      end
  end.

Definition NewProviderRouter (enabled : bool) (overrides : list ProviderConfig) :
    result (option ProviderRouter) :=
  if negb enabled then Ok None
  else match add_overrides overrides builtin_profiles with
  | Err e => Err e
  | Ok pf =>
      match enabled_profiles pf (pf_order pf) ∅ with
      | Err e => Err e
      | Ok l =>
          if bool_decide (set_Forall (fun n => is_Some (pf_byName pf !! n)) (pf_disabled pf))
          then Ok (Some (mkProviderRouter l ∅))
          else Err "a provider is disabled but is not a built-in or configured provider"
      end
  end.

(** ** Matching *)

Definition suffix_matches (host sfx : string) : bool :=
  ((host =? sfx)%string || HasSuffix host ("." +:+ sfx))%bool.

Definition find_provider (ps : list provider) (host : string) : option provider :=
  find (fun p => existsb (suffix_matches host) (pv_mxSuffixes p)) ps.

Definition matchMX (domain : string) (mx : list MX) (r : option ProviderRouter) :
    option provider * option ProviderRouter :=
  match r with
  | None => (None, None)
  | Some r =>
      let found := match mx with
                   | [] => None
                   | m :: _ => find_provider (providers r) (normalizeHost (mx_Host m))
                   end in
      match found with
      | None => (None, Some (r <| pv_byDomain ::= delete domain |>))
      | Some p =>
          let memo := if (maxProviderMemo <=? size (pv_byDomain r))%nat then ∅ else pv_byDomain r in
          (Some p, Some (r <| pv_byDomain := <[domain := p]> memo |>))
      end
  end.

Definition known (domain : string) (r : option ProviderRouter) : option provider :=
  r ≫= fun r => pv_byDomain r !! domain.

(** ** Keys *)

Definition providerKey (p : provider) : string := providerKeyPrefix +:+ pv_name p.

Definition destinationKey (p : option provider) (domain : string) : string :=
  match p with None => domain | Some p => providerKey p end.

Definition shapingKey (src : option sourceIP) (domain : string) : string :=
  match src with
  | None => domain
  | Some src => domain +:+ String shapingKeySep (src_addr src)
  end.

(** ** Reading a deferral *)

Inductive deferralKind := deferralGeneric | deferralThrottle | deferralRecipient.

Definition containsAny (s : string) (subs : list string) : bool :=
  existsb (fun sub => (negb (sub =? "")%string && Contains s sub)%bool) subs.

Definition allDigits (s : string) : bool := (negb (s =? "")%string && forall_bytes is_digit s)%bool.

Definition isReplyText (s : string) : bool :=
  let s := TrimSpace s in
  ((3 <=? String.length s)%nat
   && match first_byte s with Some c => (Ascii.eqb c "4" || Ascii.eqb c "5")%bool | None => false end
   && allDigits (stake 3 s))%bool.

Definition replyText (e : delivery_error) : string :=
  match de_reply e with
  | Some code => FormatInt code +:+ " " +:+ de_msg e
  | None => de_text e
  end.

(** The replies a failure is read from. *)
Definition deferral_replies (err : option delivery_error) (outcomes : list RecipientOutcome) :
    list string :=
  let own := omap (fun o => if (bool_decide (ro_Status o = RecipientTemporaryFailure)
                                && negb (ro_Diagnostic o =? "")%string)%bool
                            then Some (ToLower (ro_Diagnostic o)) else None) outcomes in
  match own, err with
  | [], Some e => [ToLower (replyText e)]
  | l, _ => l
  end.

Definition classifyDeferral (p : option provider) (err : option delivery_error)
    (outcomes : list RecipientOutcome) : deferralKind :=
  let replies := deferral_replies err outcomes in
  match replies with
  | [] => deferralGeneric
  | _ =>
      if match p with
         | Some p => existsb (fun r => containsAny r (pv_throttleSignals p)) replies
         | None => false
         end
      then deferralThrottle
      else
        let rs := match p with Some p => pv_recipientSignals p | None => genericRecipientSignals end in
        if forallb (fun r => isReplyText r && containsAny r rs)%bool replies
        then deferralRecipient else deferralGeneric
  end.

(** ** What is known after a lookup *)

Lemma matchMX_known domain mx r p r' :
  matchMX domain mx r = (p, r') -> known domain r' = p /\
  (providers <$> r') = (providers <$> r).
Proof.
  unfold matchMX, known. destruct r as [r|]; [|by intros [= <- <-]].
  destruct (match mx with [] => None | m :: _ => _ end) as [q|]; intros [= <- <-]; cbn.
  - by rewrite lookup_insert_eq.
  - by rewrite lookup_delete_eq.
Qed.

(** The memo is bounded. *)
Lemma matchMX_bounded domain mx r :
  (size (pv_byDomain r) <= maxProviderMemo)%nat ->
  match snd (matchMX domain mx (Some r)) with
  | Some r' => (size (pv_byDomain r') <= maxProviderMemo)%nat
  | None => True
  end.
Proof.
  intros Hs. unfold matchMX. destruct (match mx with [] => None | m :: _ => _ end); cbn -[maxProviderMemo].
  - set (memo := if (_ <=? _)%nat then _ else _).
    assert (size memo < maxProviderMemo)%nat as Hm.
    { unfold memo. destruct (maxProviderMemo <=? size (pv_byDomain r))%nat eqn:E.
      - rewrite map_size_empty. unfold maxProviderMemo. lia.
      - by apply Nat.leb_gt in E. }
    rewrite map_size_insert. destruct (memo !! domain); cbn -[maxProviderMemo]; lia.
  - rewrite map_size_delete. destruct (pv_byDomain r !! domain); cbn -[maxProviderMemo]; lia.
Qed.

(** A provider's key is not the key of a domain, since no domain has a colon. *)
Lemma destinationKey_distinct p domain domain' :
  exists_byte (Ascii.eqb ":") domain' = false ->
  destinationKey (Some p) domain <> destinationKey None domain'.
Proof.
  cbn. unfold providerKey, providerKeyPrefix. intros H E. rewrite <- E in H.
  cbn in H. discriminate.
Qed.

(** What each verdict rests on. *)
Lemma classifyDeferral_throttle p err outs :
  classifyDeferral p err outs = deferralThrottle <->
  exists q r sig, p = Some q /\ r ∈ deferral_replies err outs /\ sig ∈ pv_throttleSignals q /\
                  sig <> "" /\ Contains r sig = true.
Proof.
  unfold classifyDeferral. set (rs := deferral_replies err outs). split.
  - destruct rs as [|r0 rs'] eqn:Er; [done|]. destruct p as [q|]; [|by case_match].
    destruct (existsb _ _) eqn:E; [|by case_match]. intros _.
    apply existsb_exists in E as (r & Hr & Hs). apply existsb_exists in Hs as (sig & Hsig & Hc).
    apply andb_true_iff in Hc as [Hn Hc]. exists q, r, sig. rewrite !list_elem_of_In.
    split_and!; try done. by destruct sig.
  - intros (q & r & sig & -> & Hr & Hs & Hn & Hc).
    destruct rs as [|r0 rs']; [by apply elem_of_nil in Hr|].
    enough (existsb (fun r => containsAny r (pv_throttleSignals q)) (r0 :: rs') = true) as -> by done.
    apply existsb_exists. exists r. split; [by apply list_elem_of_In|].
    apply existsb_exists. exists sig. split; [by apply list_elem_of_In|].
    rewrite Hc, andb_true_r. by destruct sig.
Qed.

Lemma classifyDeferral_recipient p err outs :
  classifyDeferral p err outs = deferralRecipient ->
  Forall (fun r => isReplyText r = true) (deferral_replies err outs).
Proof.
  unfold classifyDeferral. destruct (deferral_replies err outs) as [|r rs]; [done|].
  case_match; [done|]. destruct (forallb _ _) eqn:E; [|done]. intros _.
  apply Forall_forall. intros x Hx. rewrite forallb_forall in E. apply list_elem_of_In in Hx.
  specialize (E x Hx). by apply andb_true_iff in E as [? _].
Qed.
End Providers.

(** Although the generic signals are said to apply to every destination, a configured
    provider without signals of its own does not have them. *)
Example full_mailbox_of_a_custom_provider :
  let custom := mkProviderConfig "corp" false ["corp.example"] 0 0 0 [] [] 0 0 in
  let full := outcome "a@x" RecipientTemporaryFailure "4.2.2" "452 4.2.2 mailbox full" in
  match NewProviderRouter (U := ascii_tables) true [custom] with
  | Ok (Some r) =>
      classifyDeferral (U := ascii_tables) (find_provider (providers r) "mx.corp.example") None [full]
      = deferralGeneric
  | _ => False
  end /\
  classifyDeferral (U := ascii_tables) None None
    [outcome "a@x" RecipientTemporaryFailure "4.2.2" "452 4.2.2 mailbox full"] = deferralRecipient.
Proof. vm_compute. done. Qed.
