(* ===== verification/SessionCache.v ===== *)
(** * SessionCache: parked outbound sessions (internal/queue: session_cache.go)

    Outbound SMTP sessions kept for the next message to the same address, under limits
    on age, use and number.  Connections are handles; what is done with them is in
    Outbound. *)

From stdpp Require Import gmap.
From S2P Require Import Prelude GoMath SharedState Pools.

Set Primitive Projections.

(** What protection a delivery connection ended up with. *)
Inductive outboundTLS := tlsNone | tlsUnverified | tlsVerified.

#[global] Instance outboundTLS_eq : EqDecision outboundTLS.
Proof. solve_decision. Defined.

Record outboundSession := mkOutboundSession {
  os_conn : nat;             (** the client and its connection *)
  os_tls : outboundTLS;
  os_requireTLS : bool;
  os_dane : bool;
  os_created : Z;
  os_idleSince : Z;
  os_uses : Z
}.

Record sessionCache := mkSessionCache {
  sc_idle : gmap string (list outboundSession);      (** oldest first *)
  sc_total : Z;
  sc_idleTimeout : Z;
  sc_maxLifetime : Z;
  sc_maxUses : Z;
  sc_maxPerHost : Z;
  sc_maxTotal : Z;
  sc_hits : Z;
  sc_misses : Z;
  sc_parked : Z;
  sc_discarded : Z
}.

Definition newSessionCache : sessionCache :=
  mkSessionCache ∅ 0 (5 * Second) (5 * Minute) 100 4 256 0 0 0 0.

Definition idle_at (c : sessionCache) (address : string) : list outboundSession :=
  default [] (sc_idle c !! address).

Definition expired (c : sessionCache) (s : outboundSession) (now : Z) : bool :=
  ((sc_idleTimeout c <? now - os_idleSince s) || (sc_maxLifetime c <? now - os_created s)
   || (sc_maxUses c <=? os_uses s))%bool.

(** What a message asks of the session it rides on. *)
Definition suitable (needRequireTLS needDANE : bool) (s : outboundSession) : bool :=
  ((negb needRequireTLS || (bool_decide (os_tls s = tlsVerified) && os_requireTLS s))
   && (negb needDANE || os_dane s))%bool.

(** The loop of [take], newest first: the session found, those kept (oldest first) and
    those that expired. *)
Fixpoint pick (c : sessionCache) (now : Z) (need : outboundSession -> bool)
    (newest_first : list outboundSession) (found : option outboundSession)
    (kept stale : list outboundSession) :
    option outboundSession * list outboundSession * list outboundSession :=
  match newest_first with
  | [] => (found, kept, stale)
  | s :: l =>
      if expired c s now then pick c now need l found kept (stale ++ [s])
      else if (match found with None => true | Some _ => false end && need s)%bool
      then pick c now need l (Some s) kept stale
      else pick c now need l found (s :: kept) stale
  end.

Definition set_idle (address : string) (l : list outboundSession) (c : sessionCache) : sessionCache :=
  c <| sc_idle ::= fun m => match l with [] => delete address m | _ => <[address := l]> m end |>.

Definition takeSession (now : Z) (address : string) (needRequireTLS needDANE : bool) (c : sessionCache) :
    option outboundSession * list outboundSession * sessionCache :=
  let list_ := idle_at c address in
  let '(found, kept, stale) :=
    pick c now (suitable needRequireTLS needDANE) (rev list_) None [] [] in
  (found, stale,
   set_idle address kept c
     <| sc_total ::= fun n => n - (Z.of_nat (length list_) - Z.of_nat (length kept)) |>
     <| sc_discarded ::= fun n => n + Z.of_nat (length stale) |>).

(** The counters of [get]. *)
Definition count_get (found : option outboundSession) (c : sessionCache) : sessionCache :=
  match found with
  | None => c <| sc_misses ::= fun n => n + 1 |>
  | Some _ => c <| sc_hits ::= fun n => n + 1 |>
  end.

(** The longest-idle session with its address and place; among equals the first in the
    order of the map, which the code leaves open. *)
Definition older (best : option (string * nat * Z)) (key : string) (i : nat) (s : outboundSession) :
    option (string * nat * Z) :=
  match best with
  | Some (_, _, t) => if os_idleSince s <? t then Some (key, i, os_idleSince s) else best
  | None => Some (key, i, os_idleSince s)
  end.
Fixpoint oldest_in (best : option (string * nat * Z)) (key : string) (i : nat)
    (l : list outboundSession) : option (string * nat * Z) :=
  match l with
  | [] => best
  | s :: l' => oldest_in (older best key i s) key (S i) l'
  end.
Definition oldest (c : sessionCache) : option (string * nat * Z) :=
  foldl (fun best kl => oldest_in best (fst kl) 0 (snd kl)) None (map_to_list (sc_idle c)).

Definition evictOldestLocked (c : sessionCache) : list outboundSession * sessionCache :=
  match oldest c with
  | None => ([], c)
  | Some (key, i, _) =>
      let list_ := idle_at c key in
      match list_ !! i with
      | None => ([], c)            (* the place was found in this list *)
      | Some s =>
          ([s], set_idle key (delete i list_) c <| sc_total ::= fun n => n - 1 |>)
      end
  end.

(** [put] once the session is ready for the next message: what it evicts. *)
Definition park (now : Z) (address : string) (s : outboundSession) (c : sessionCache) :
    list outboundSession * sessionCache :=
  let s := s <| os_idleSince := now |> in
  let '(evicted, c) :=
    if (expired c s now || (sc_maxPerHost c <=? Z.of_nat (length (idle_at c address))))%bool
    then ([s], c)
    else
      let '(ev, c) := if sc_maxTotal c <=? sc_total c then evictOldestLocked c else ([], c) in
      if sc_total c <? sc_maxTotal c
      then (ev, c <| sc_idle ::= <[address := idle_at c address ++ [s]]> |>
                  <| sc_total ::= fun n => n + 1 |> <| sc_parked ::= fun n => n + 1 |>)
      else (ev ++ [s], c) in
  (evicted, c <| sc_discarded ::= fun n => n + Z.of_nat (length evicted) |>).

Definition discard_one (c : sessionCache) : sessionCache := c <| sc_discarded ::= fun n => n + 1 |>.

(** [closeAll]: what is to be closed, and the cache left. *)
Definition drain_all (c : sessionCache) : list outboundSession * sessionCache :=
  (concat (snd <$> map_to_list (sc_idle c)), c <| sc_idle := ∅ |> <| sc_total := 0 |>).

(** ** What is parked *)

Definition parked_in (c : sessionCache) (address : string) (s : outboundSession) : Prop :=
  s ∈ idle_at c address.

(** Nothing appears in the cache but what is put there, and nothing is in it twice. *)
Record bounded (c : sessionCache) : Prop := {
  bd_total : sc_total c = msum (fun l => Z.of_nat (length l)) (sc_idle c);
  bd_nonempty : map_Forall (fun _ l => l <> []) (sc_idle c);
  bd_host : map_Forall (fun _ l => Z.of_nat (length l) <= sc_maxPerHost c) (sc_idle c);
  bd_max : sc_total c <= sc_maxTotal c
}.

Lemma idle_at_set_idle address l c a :
  idle_at (set_idle address l c) a = if decide (a = address) then l else idle_at c a.
Proof.
  unfold idle_at, set_idle. cbn. destruct l as [|s l]; case_decide as E; subst;
    rewrite ?lookup_delete_eq, ?lookup_insert_eq, ?lookup_delete_ne, ?lookup_insert_ne by done; done.
Qed.

Lemma idle_at_insert address l c a :
  idle_at (c <| sc_idle ::= <[address := l]> |>) a = if decide (a = address) then l else idle_at c a.
Proof.
  unfold idle_at. cbn. case_decide as E; subst;
    by rewrite ?lookup_insert_eq, ?lookup_insert_ne by done.
Qed.

(** Every session looked at is found, kept or stale, in the order it was in. *)
Lemma pick_spec c now need l : forall found kept stale f k st,
  pick c now need l found kept stale = (f, k, st) ->
  (forall s, f = Some s -> found = Some s \/ s ∈ l /\ need s = true /\ expired c s now = false) /\
  (forall s, s ∈ k -> s ∈ kept \/ s ∈ l) /\
  (length k + length st + (if f then 1 else 0)
   = length kept + length stale + (if found then 1 else 0) + length l)%nat.
Proof.
  induction l as [|s l IH]; cbn; intros found kept stale f k st.
  { intros [= <- <- <-]. split_and!; [by left|by left|lia]. }
  destruct (expired c s now) eqn:Ee.
  { intros H. apply IH in H as (H1 & H2 & H3). rewrite length_app in H3. cbn in H3.
    split_and!; [|set_solver|lia]. intros x Hx. destruct (H1 x Hx) as [|(? & ? & ?)]; [by left|].
    right. split_and!; set_solver. }
  destruct (_ && need s)%bool eqn:En.
  - apply andb_true_iff in En as [Ef En]. destruct found; [done|].
    intros H. apply IH in H as (H1 & H2 & H3). split_and!; [|set_solver|lia].
    intros x Hx. destruct (H1 x Hx) as [[= <-]|(? & ? & ?)]; right; split_and!; set_solver.
  - intros H. apply IH in H as (H1 & H2 & H3). split_and!; [|set_solver|cbn in H3; lia].
    intros x Hx. destruct (H1 x Hx) as [|(? & ? & ?)]; [by left|]. right. split_and!; set_solver.
Qed.

(** A session handed out was parked there, is fresh, and is as good as was asked for. *)
Lemma takeSession_spec now address nr nd c found stale c' :
  takeSession now address nr nd c = (found, stale, c') ->
  (forall s, found = Some s ->
     parked_in c address s /\ suitable nr nd s = true /\ expired c s now = false) /\
  (forall a s, parked_in c' a s -> parked_in c a s).
Proof.
  unfold takeSession. destruct (pick _ _ _ _ _ _ _) as [[f k] st] eqn:E. intros [= <- <- <-].
  apply pick_spec in E as (H1 & H2 & _). split.
  - intros s Hs. destruct (H1 s Hs) as [|(Hin & Hn & He)]; [done|]. split_and!; try done.
    unfold parked_in. apply list_elem_of_In. rewrite in_rev. by apply list_elem_of_In.
  - intros a s. unfold parked_in. change (idle_at _ a) with (idle_at (set_idle address k c) a) at 1.
    rewrite idle_at_set_idle. case_decide as Ea; [|done]. subst a. intros Hs.
    destruct (H2 s Hs) as [Hx|Hx]; [by apply elem_of_nil in Hx|].
    apply list_elem_of_In in Hx. rewrite <- in_rev in Hx. by apply list_elem_of_In.
Qed.

Lemma evictOldestLocked_members c ev c' a s :
  evictOldestLocked c = (ev, c') -> parked_in c' a s -> parked_in c a s.
Proof.
  unfold evictOldestLocked. destruct (oldest c) as [[[key i] t]|]; [|by intros [= <- <-]].
  destruct (idle_at c key !! i) as [x|] eqn:El; intros [= <- <-]; [|done].
  unfold parked_in. change (idle_at _ a) with (idle_at (set_idle key (delete i (idle_at c key)) c) a) at 1.
  rewrite idle_at_set_idle. case_decide as Ea; [|done]. subst a. intros H.
  apply list_elem_of_lookup in H as [j Hj]. rewrite list_lookup_delete in Hj.
  apply list_elem_of_lookup. case_match; eauto.
Qed.

Lemma park_members now address s c ev c' a x :
  park now address s c = (ev, c') -> parked_in c' a x ->
  parked_in c a x \/ (a = address /\ x = s <| os_idleSince := now |>).
Proof.
  unfold park. cbv zeta. destruct (expired c _ now || _)%bool; [intros [= <- <-]; by left|].
  destruct (if sc_maxTotal c <=? sc_total c then _ else _) as [ev0 c0] eqn:E0.
  assert (forall a x, parked_in c0 a x -> parked_in c a x) as Hm.
  { intros a0 x0. destruct (sc_maxTotal c <=? sc_total c); [by eapply evictOldestLocked_members|].
    by injection E0 as <- <-. }
  destruct (sc_total c0 <? sc_maxTotal c0); intros [= <- <-]; [|intros Hx; left; by apply Hm].
  unfold parked_in. set (l := idle_at c0 address ++ _).
  change (idle_at _ a) with (idle_at (c0 <| sc_idle ::= <[address := l]> |>) a) at 1.
  rewrite idle_at_insert. case_decide as Ea; [|intros Hx; left; by apply Hm]. subst a.
  unfold l. rewrite elem_of_app. intros [Hx|Hx]; [left; by apply Hm|].
  right. split; [done|]. by apply list_elem_of_singleton in Hx.
Qed.

Lemma drain_all_empty c a s : ~ parked_in (snd (drain_all c)) a s.
Proof. unfold parked_in, idle_at. cbn. rewrite lookup_empty. apply not_elem_of_nil. Qed.

(** ** The limits hold *)

Definition count_idle (c : sessionCache) : Z := msum (fun l => Z.of_nat (length l)) (sc_idle c).

Lemma count_insert (m : gmap string (list outboundSession)) a l :
  msum (fun l => Z.of_nat (length l)) (<[a := l]> m)
  = msum (fun l => Z.of_nat (length l)) m - Z.of_nat (length (default [] (m !! a)))
    + Z.of_nat (length l).
Proof.
  destruct (m !! a) as [l0|] eqn:E; cbn.
  - by rewrite (msum_update _ _ _ _ _ E).
  - rewrite msum_insert by done. lia.
Qed.

Lemma count_set_idle address l c :
  count_idle (set_idle address l c)
  = count_idle c - Z.of_nat (length (idle_at c address)) + Z.of_nat (length l).
Proof.
  unfold count_idle, set_idle, idle_at. cbn. destruct l as [|s l]; [|apply count_insert].
  destruct (sc_idle c !! address) as [l0|] eqn:E; cbn.
  - rewrite (msum_delete _ _ _ _ E). lia.
  - rewrite delete_id by done. lia.
Qed.

Lemma bounded_set_idle address l c t :
  bounded c -> Z.of_nat (length l) <= Z.of_nat (length (idle_at c address)) ->
  t = sc_total c - Z.of_nat (length (idle_at c address)) + Z.of_nat (length l) ->
  bounded (set_idle address l c <| sc_total := t |>).
Proof.
  intros [B1 B2 B3 B4] Hl ->. pose proof (count_set_idle address l c) as Hc. unfold count_idle in Hc.
  assert (Z.of_nat (length (idle_at c address)) <= sc_maxPerHost c \/ idle_at c address = []) as Hh.
  { unfold idle_at. destruct (sc_idle c !! address) eqn:E; [left; by eapply B3|by right]. }
  split; cbn.
  - etrans; [|symmetry; exact Hc]. by rewrite B1.
  - destruct l; [by apply map_Forall_delete|by apply map_Forall_insert_2].
  - destruct l as [|s l]; [by apply map_Forall_delete|].
    apply map_Forall_insert_2; [|done]. destruct Hh as [Hh|Hh]; [lia|rewrite Hh in Hl; cbn in Hl; lia].
  - lia.
Qed.

Lemma bounded_same c c' :
  sc_idle c' = sc_idle c -> sc_total c' = sc_total c -> sc_maxPerHost c' = sc_maxPerHost c ->
  sc_maxTotal c' = sc_maxTotal c -> bounded c -> bounded c'.
Proof.
  intros E1 E2 E3 E4 [B1 B2 B3 B4]. split; [by rewrite E1, E2|by rewrite E1| |by rewrite E2, E4].
  rewrite E1. intros a l Hl. etrans; [by apply (B3 a)|by rewrite E3].
Qed.

Lemma takeSession_bounded now address nr nd c found stale c' :
  takeSession now address nr nd c = (found, stale, c') -> bounded c -> bounded c'.
Proof.
  unfold takeSession. destruct (pick _ _ _ _ _ _ _) as [[f k] st] eqn:E. intros [= <- <- <-] B.
  apply pick_spec in E as (_ & _ & Hlen). rewrite length_rev in Hlen. cbn in Hlen.
  set (t := sc_total c - (Z.of_nat (length (idle_at c address)) - Z.of_nat (length k))).
  apply (bounded_same (set_idle address k c <| sc_total := t |>)); try done.
  apply bounded_set_idle; [done|lia|unfold t; lia].
Qed.

Lemma evictOldestLocked_bounded c ev c' :
  evictOldestLocked c = (ev, c') -> bounded c ->
  bounded c' /\ sc_maxPerHost c' = sc_maxPerHost c /\ sc_maxTotal c' = sc_maxTotal c /\
  forall a, (length (idle_at c' a) <= length (idle_at c a))%nat.
Proof.
  unfold evictOldestLocked. destruct (oldest c) as [[[key i] t]|]; [|by intros [= <- <-]].
  destruct (idle_at c key !! i) as [x|] eqn:El; intros [= <- <-]; [|done]. intros B.
  pose proof (length_delete _ _ (mk_is_Some _ _ El)) as Hd.
  apply lookup_lt_Some in El.
  set (t' := sc_total c - 1). split_and!; try done.
  - apply (bounded_same (set_idle key (delete i (idle_at c key)) c <| sc_total := t' |>)); try done.
    apply bounded_set_idle; [done|lia|unfold t'; lia].
  - intros a. change (idle_at _ a) with (idle_at (set_idle key (delete i (idle_at c key)) c) a) at 1.
    rewrite idle_at_set_idle. case_decide as Ea; subst; lia.
Qed.

(** The cache never holds more than its limits allow, in all and per address, and its
    total is the number of sessions in it. *)
Lemma park_bounded now address s c ev c' :
  park now address s c = (ev, c') -> bounded c -> bounded c'.
Proof.
  unfold park. cbv zeta. set (s' := s <| os_idleSince := now |>).
  destruct (expired c s' now || _)%bool eqn:Eg; [intros [= <- <-] B; by apply (bounded_same c)|].
  apply orb_false_iff in Eg as [_ Eg]. apply Z.leb_gt in Eg.
  destruct (if sc_maxTotal c <=? sc_total c then _ else _) as [ev0 c0] eqn:E0.
  intros H B. assert (bounded c0 /\ sc_maxPerHost c0 = sc_maxPerHost c /\ sc_maxTotal c0 = sc_maxTotal c /\
    forall a, (length (idle_at c0 a) <= length (idle_at c a))%nat) as (B0 & E1 & E2 & Hle).
  { destruct (sc_maxTotal c <=? sc_total c); [by eapply evictOldestLocked_bounded|].
    by injection E0 as <- <-. }
  destruct (sc_total c0 <? sc_maxTotal c0) eqn:Et; injection H as <- <-; [|by apply (bounded_same c0)].
  apply Z.ltb_lt in Et. specialize (Hle address). destruct B0 as [C1 C2 C3 C4].
  split; cbn.
  - rewrite count_insert, length_app. cbn. fold (idle_at c0 address). lia.
  - apply map_Forall_insert_2; [|done]. by destruct (idle_at c0 address).
  - apply map_Forall_insert_2; [|done]. rewrite length_app. cbn. lia.
  - lia.
Qed.

Lemma bounded_new : bounded newSessionCache.
Proof. split; [exact (eq_sym (msum_empty _))|apply map_Forall_empty..|done]. Qed.
