(* ===== verification/Outbound.v ===== *)
(** * Outbound: one SMTP transaction with another server (internal/queue)

    The part of delivery_handler.go that talks to one mail server, with dane.go and
    session_cache.go: connecting, negotiating TLS, reusing a parked session, and MAIL,
    RCPT and DATA.  DNS, sockets, TLS and the MTA-STS policy are a [Network]: every call
    answers what it likes.  The calls made are kept in a trace (newest first), so that
    theorems speak of what happened on a connection and not of what the code noted about
    it. *)

From stdpp Require Import gmap.
From S2P Require Import Prelude GoStrings GoNet GoMath SharedState Pools Providers QueueProcessor SessionCache.

Set Primitive Projections.

(** ** DANE records (internal/dane, dane.go) *)

Record TLSA := mkTLSA { ta_Usage : Z; ta_Selector : Z; ta_MatchingType : Z; ta_Data : string }.

Definition UsableTLSA (r : TLSA) : bool :=
  (((ta_Usage r =? 2) || (ta_Usage r =? 3))
   && ((ta_Selector r =? 0) || (ta_Selector r =? 1))
   && ((ta_MatchingType r =? 0) || (ta_MatchingType r =? 1) || (ta_MatchingType r =? 2)))%bool.
Definition Usable (records : list TLSA) : list TLSA := filter (fun r => UsableTLSA r = true) records.

Record danePolicy := mkDanePolicy { dp_host : string; dp_records : list TLSA }.

(** How a handshake authenticates the server: by the web PKI for a name, by TLSA
    records, or not at all. *)
Inductive tlsConfig :=
| VerifyPKI (name : string)
| VerifyTLSA (name : string) (dp : danePolicy)
| SkipVerify (name : string).

(** Calls of the SMTP client on a connection; [Data] is the exchange of Data, Write and
    Close of its writer. *)
Inductive call :=
| NewClient (host : string)
| Hello (name : string)
| StartTLS (cfg : tlsConfig)
| Mail (sender : string) (requireTLS : bool)
| Rcpt (recipient : string)
| Data (content : string)
| Reset
| Quit
| Close.

Class Network (W : Type) := {
  net_clock : W -> Z;
  (** dial from a source address, with the dialer's control function *)
  net_dial : option sourceIP -> string -> (string -> option delivery_error) -> W ->
             option delivery_error * W;
  net_call : nat -> call -> W -> option delivery_error * W;
  net_Extension : nat -> string -> W -> bool;
  net_RemoteAddr : nat -> W -> string;
  net_LookupMX : string -> W -> (list MX + delivery_error) * W;
  net_MXSecure : string -> W -> (bool + delivery_error) * W;
  net_LookupTLSA : string -> Z -> W -> (list TLSA * bool + delivery_error) * W;
  net_EnforcePolicy : string -> string -> bool -> W -> option delivery_error * W;
  (** waits, and says whether the context was still alive at the end *)
  net_sleep : Z -> W -> option delivery_error * W;
  (** the error of the context, when a wait lasts until it ends *)
  net_expired : W -> delivery_error * W
}.

Inductive event :=
| Dialled (c : nat) (from : option string) (address : string)
| Called (c : nat) (k : call) (ok : bool)
| Offered (c : nat) (extension : string) (yes : bool)
| Enforced (domain mxHost : string) (verified ok : bool)
| Resolved (domain : string) (answer : list MX + delivery_error) (at_ : Z).

(** The fixed settings of the handler. *)
Record handlerConfig := mkHandlerConfig {
  hc_maxMXLookups : nat;
  hc_heloName : string;
  hc_hostname : option string;                 (** os.Hostname() *)
  hc_mxPort : string;
  hc_dane : bool;                              (** a DANE resolver is set *)
  hc_guard : option (option IP -> option string)
}.

Record outbound {W : Type} := mkOutbound {
  ob_net : W;
  ob_next : nat;                               (** handle of the next connection *)
  ob_sessions : option sessionCache;
  ob_trace : list event
}.
Arguments outbound : clear implicits.
Arguments mkOutbound {W}.

(** ** Errors *)

Definition wrapf (prefix : string) (e : delivery_error) : delivery_error :=
  e <| de_text := prefix +:+ de_text e |>.
Definition TemporaryError (msg : string) : delivery_error := mkDErr msg false true false None "" [] false.
Definition PermanentError (msg : string) : delivery_error := mkDErr msg true false false None "" [] true.
Definition newRequireTLSError (msg : string) : delivery_error :=
  PermanentError ("550 5.7.30 REQUIRETLS: " +:+ msg).
Definition daneError (e : delivery_error) : delivery_error :=
  e <| de_temporary := true |> <| de_marks ::= cons daneError_mark |>.
Definition is_error (m : error_mark) (e : delivery_error) : bool := bool_decide (m ∈ de_marks e).

(** Only 421, or no reply at all, means that the receiver has closed the session. *)
Definition sessionGone (e : delivery_error) : bool :=
  match de_reply e with Some code => code =? 421 | None => true end.
Definition isSMTPReply (e : delivery_error) : bool :=
  match de_reply e with Some _ => true | None => false end.

(** The first enhanced status code among the words behind the first; [None] is the panic
    of [fields[1:]] on a text without words. *)
Definition enhancedStatus (response : string) : option string :=
  match Fields response with
  | [] => None
  | _ :: fields =>
      Some (default "" (find (fun field =>
        match Split field "." with
        | [a; b; c] => (((a =? "2") || (a =? "4") || (a =? "5"))%string && allDigits b && allDigits c)%bool
        | _ => false
        end) fields))
  end.

(** An error of net/smtp has words: a *textproto.Error prints its code first. *)
Definition smtpFailureOutcome (e : delivery_error) : RecipientDeliveryStatus * string * string :=
  let status := match de_reply e with
                | Some code => if ((500 <=? code) && (code <? 600))%bool then RecipientPermanentFailure
                               else RecipientTemporaryFailure
                | None => RecipientTemporaryFailure
                end in
  (status, default "" (enhancedStatus (de_text e)), de_text e).

Definition JoinHostPort (host port : string) : string :=
  if exists_byte (Ascii.eqb ":") host then "[" +:+ host +:+ "]:" +:+ port else host +:+ ":" +:+ port.

(** [host, _, err := net.SplitHostPort(address)], or the address itself. *)
Definition host_only (address : string) : string :=
  match SplitHostPort address with Some (h, _) => h | None => address end.

Definition sessionKey (src : option sourceIP) (address : string) : string :=
  match src with None => address | Some src => src_addr src +:+ ">" +:+ address end.

Section Outbound.
Context {W : Type} `{!Network W}.
Variable h : handlerConfig.

Abbreviation OB := (St (outbound W)).

Definition record_event (e : event) : OB unit := st_modify (fun o => o <| ob_trace ::= cons e |>).

Definition clock : OB Z := st_gets (fun o => net_clock (ob_net o)).

(** Run a network operation. *)
Definition on_net {A} (f : W -> A * W) : OB A := fun o =>
  let '(a, w) := f (ob_net o) in (a, o <| ob_net := w |>).

Definition client_call (c : nat) (k : call) : OB (option delivery_error) :=
  r ← on_net (net_call c k);
  _ ← record_event (Called c k (match r with None => true | Some _ => false end));
  mret r.

Definition Extension (c : nat) (ext : string) : OB bool :=
  b ← st_gets (fun o => net_Extension c ext (ob_net o));
  _ ← record_event (Offered c ext b);
  mret b.

(** ** Connecting *)

Definition ehloName : string :=
  if negb (hc_heloName h =? "")%string then hc_heloName h
  else match hc_hostname h with
       | Some name => if Contains name "." then name else "localhost"
       | None => "localhost"
       end.

Definition ehloNameFor (src : option sourceIP) : string :=
  match src with
  | Some s => if negb (src_helo s =? "")%string then src_helo s else ehloName
  | None => ehloName
  end.

(** The dialer's control function: the guard sees the address about to be connected
    to. *)
Definition destination_control (resolved : string) : option delivery_error :=
  match hc_guard h with
  | None => None
  | Some guard =>
      match SplitHostPort resolved with
      | None => Some (plain_error "missing port in address")
      | Some (host, _) =>
          match guard (ParseIP host) with
          | Some e => Some ((PermanentError ("550 5.7.1 " +:+ e)) <| de_marks := [errRefusedDestination] |>)
          | None => None
          end
      end
  end.

Definition dial (src : option sourceIP) (address : string) : OB (nat + delivery_error) :=
  r ← on_net (net_dial src address destination_control);
  match r with
  | Some e => mret (inr (wrapf ("failed to dial " +:+ address +:+ ": ") e))
  | None =>
      c ← st_gets (fun o => ob_next o);
      _ ← st_modify (fun o => o <| ob_next ::= S |>);
      _ ← record_event (Dialled c (src_addr <$> src) address);
      mret (inl c)
  end.

Definition dialAndGreet (src : option sourceIP) (address : string) : OB (nat + delivery_error) :=
  d ← dial src address;
  match d with
  | inr e => mret (inr e)
  | inl c =>
      r ← client_call c (NewClient (host_only address));
      match r with
      | Some e => _ ← client_call c Close; mret (inr (wrapf "failed to create SMTP client: " e))
      | None =>
          r ← client_call c (Hello (ehloNameFor src));
          match r with
          | Some e => _ ← client_call c Close; mret (inr (wrapf "HELLO command failed: " e))
          | None => mret (inl c)
          end
      end
  end.

Definition reconnectOpportunistic (src : option sourceIP) (address host : string)
    (allowUnverified : bool) : OB (nat * outboundTLS + delivery_error) :=
  d ← dialAndGreet src address;
  match d with
  | inr e => mret (inr e)
  | inl c =>
      ok ← Extension c "STARTTLS";
      if (ok && allowUnverified)%bool then
        r ← client_call c (StartTLS (SkipVerify host));
        match r with
        | None => mret (inl (c, tlsUnverified))
        | Some _ =>
            _ ← client_call c Close;
            d ← dialAndGreet src address;
            match d with
            | inr e => mret (inr e)
            | inl c => mret (inl (c, tlsNone))
            end
        end
      else mret (inl (c, tlsNone))
  end.

(** The TLS negotiated on a greeted connection, and whether DANE authenticated it; the
    connection may be another one afterwards. *)
Definition negotiateTLS (src : option sourceIP) (address : string) (requireTLS : bool)
    (dp : option danePolicy) (c : nat) : OB (nat * outboundTLS * bool + delivery_error) :=
  let host := host_only address in
  ok ← Extension c "STARTTLS";
  match dp with
  | Some dp =>
      if negb ok then
        _ ← client_call c Close;
        mret (inr (daneError (plain_error (address +:+
                " publishes TLSA records but does not offer STARTTLS"))))
      else
        r ← client_call c (StartTLS (VerifyTLSA host dp));
        match r with
        | Some e =>
            _ ← client_call c Close;
            mret (inr (daneError (wrapf ("DANE authentication of " +:+ address +:+ " failed: ") e)))
        | None => mret (inl (c, tlsVerified, true))
        end
  | None =>
      if ok then
        r ← client_call c (StartTLS (VerifyPKI host));
        match r with
        | None => mret (inl (c, tlsVerified, false))
        | Some e =>
            _ ← client_call c Close;
            if requireTLS then
              mret (inr (newRequireTLSError ("STARTTLS required but failed against " +:+ address
                                             +:+ ": " +:+ de_text e)))
            else
              d ← reconnectOpportunistic src address host (negb requireTLS);
              match d with
              | inr e => mret (inr e)
              | inl (c, state) => mret (inl (c, state, false))
              end
        end
      else if requireTLS then
        _ ← client_call c Close;
        mret (inr (newRequireTLSError ("STARTTLS required but not supported by server " +:+ address)))
      else mret (inl (c, tlsNone, false))
  end.

(** Connection, TLS state, next hop's REQUIRETLS, DANE. *)
Definition connectSMTP (src : option sourceIP) (address : string) (requireTLS : bool)
    (dp : option danePolicy) : OB (nat * outboundTLS * bool * bool + delivery_error) :=
  d ← dialAndGreet src address;
  match d with
  | inr e => mret (inr e)
  | inl c =>
      n ← negotiateTLS src address requireTLS dp c;
      match n with
      | inr e => mret (inr e)
      | inl (c, state, dane) =>
          ok ← Extension c "REQUIRETLS";
          if (requireTLS && negb ok)%bool then
            _ ← client_call c Close;
            mret (inr (newRequireTLSError ("next-hop " +:+ address +:+ " does not advertise REQUIRETLS")))
          else mret (inl (c, state, ok, dane))
      end
  end.

(** ** Sessions *)

Definition closeSession (s : outboundSession) : OB unit :=
  _ ← client_call (os_conn s) Quit;
  _ ← client_call (os_conn s) Close;
  mret tt.

Fixpoint closeSessions (l : list outboundSession) : OB unit :=
  match l with
  | [] => mret tt
  | s :: l' => _ ← closeSession s; closeSessions l'
  end.

Definition update_cache (f : sessionCache -> sessionCache) : OB unit :=
  st_modify (fun o => o <| ob_sessions ::= fmap f |>).

(** [sessions.get] *)
Definition get_session (key : string) (needRequireTLS needDANE : bool) :
    OB (option outboundSession) :=
  now ← clock;
  cache ← st_gets (fun o => ob_sessions o);
  match cache with
  | None => mret None
  | Some c =>
      let '(found, stale, c') := takeSession now key needRequireTLS needDANE c in
      _ ← update_cache (fun _ => c');
      _ ← closeSessions stale;
      _ ← update_cache (count_get found);
      mret found
  end.

(** [sessions.put] *)
Definition put_session (key : string) (s : outboundSession) (clean : bool) : OB unit :=
  let s := s <| os_uses ::= fun n => n + 1 |> in
  ready ← (if clean then mret true
           else r ← client_call (os_conn s) Reset;
                mret (match r with None => true | Some _ => false end));
  if negb ready then
    _ ← client_call (os_conn s) Close;
    update_cache discard_one
  else
    now ← clock;
    cache ← st_gets (fun o => ob_sessions o);
    match cache with
    | None => mret tt
    | Some c =>
        let '(evicted, c') := park now key s c in
        _ ← update_cache (fun _ => c');
        closeSessions evicted
    end.

(** [closeAll], and [SetConnectionReuse(false)] after it. *)
Definition close_all_sessions (off : bool) : OB unit :=
  cache ← st_gets (fun o => ob_sessions o);
  match cache with
  | None => mret tt
  | Some c =>
      let '(all, c') := drain_all c in
      _ ← update_cache (fun _ => c');
      _ ← closeSessions all;
      st_modify (fun o => if off then o <| ob_sessions := None |> else o)
  end.

Definition SetConnectionReuse (enabled : bool) : OB unit :=
  if enabled then
    st_modify (fun o => match ob_sessions o with
                        | None => o <| ob_sessions := Some newSessionCache |>
                        | Some _ => o
                        end)
  else close_all_sessions true.

(** The session and whether it was reused. *)
Definition acquireSession (src : option sourceIP) (address : string) (requireTLS allowCached : bool)
    (dp : option danePolicy) : OB (outboundSession * bool + delivery_error) :=
  parked ← (if allowCached
            then get_session (sessionKey src address) requireTLS (match dp with Some _ => true | None => false end)
            else mret None);
  match parked with
  | Some s => mret (inl (s, true))
  | None =>
      r ← connectSMTP src address requireTLS dp;
      match r with
      | inr e => mret (inr e)
      | inl (c, tls, nextHop, dane) =>
          now ← clock;
          mret (inl (mkOutboundSession c tls nextHop dane now now 0, false))
      end
  end.

(** ** DANE *)

Definition danePolicyFor (domain mxHost address : string) : OB (option danePolicy + delivery_error) :=
  if negb (hc_dane h) then mret (inl None)
  else
    secure ← on_net (net_MXSecure domain);
    match secure with
    | inr e => mret (inr e)
    | inl false => mret (inl None)
    | inl true =>
        let port := match SplitHostPort address with
                    | Some (_, p) => default 25 (ParseInt64 p)
                    | None => 25
                    end in
        r ← on_net (net_LookupTLSA mxHost port);
        match r with
        | inr e => mret (inr e)
        | inl (records, secure) =>
            let usable := Usable records in
            if (negb secure || (length usable =? 0)%nat)%bool then mret (inl None)
            else mret (inl (Some (mkDanePolicy (TrimSuffix mxHost ".") usable)))
        end
    end.

(** ** MAIL FROM *)

Definition sendMailFrom (s : outboundSession) (sender : string) (requireTLS : bool) :
    OB (option delivery_error) :=
  client_call (os_conn s) (Mail sender (requireTLS && os_requireTLS s)).

(** The MTA-STS check; the policy is told whether the session is verified. *)
Definition enforceSTS (domain mxHost : string) (s : outboundSession) : OB (option delivery_error) :=
  let verified := bool_decide (os_tls s = tlsVerified) in
  r ← on_net (net_EnforcePolicy domain mxHost verified);
  _ ← record_event (Enforced domain mxHost verified (match r with None => true | Some _ => false end));
  mret r.

(** The loop that opens a transaction: a reused session that turns out to be closed is
    replaced once.  A session it gives up is closed. *)
Fixpoint open_transaction (fuel : nat) (allowCached : bool) (src : option sourceIP)
    (address sender : string) (requireTLS : bool) (dp : option danePolicy) (domain mxHost : string) :
    OB (outboundSession + delivery_error) :=
  match fuel with
  | O => mret (inr (plain_error "out of fuel"))
  | Datatypes.S fuel =>
      a ← acquireSession src address requireTLS allowCached dp;
      match a with
      | inr e => mret (inr (wrapf ("failed to connect to " +:+ address +:+ ": ") e))
      | inl (s, reused) =>
          sts ← (if (negb requireTLS && match dp with None => true | Some _ => false end)%bool
                 then enforceSTS domain mxHost s else mret None);
          match sts with
          | Some e =>
              _ ← closeSession s;
              mret (inr (wrapf ("MTA-STS policy check failed for " +:+ domain +:+ ": ") e))
          | None =>
              r ← sendMailFrom s sender requireTLS;
              match r with
              | None => mret (inl s)
              | Some e =>
                  _ ← closeSession s;
                  if (reused && sessionGone e)%bool
                  then open_transaction fuel false src address sender requireTLS dp domain mxHost
                  else mret (inr (if de_permanent e then e else wrapf "MAIL FROM failed: " e))
              end
          end
      end
  end.

(** ** RCPT and DATA *)

(** One outcome per recipient, delivered until DATA says otherwise; whether a command got
    no reply. *)
Fixpoint rcpt_all (s : outboundSession) (mxHost : string) (recipients : list string) :
    OB (list RecipientOutcome * bool) :=
  match recipients with
  | [] => mret ([], false)
  | r :: rs =>
      e ← client_call (os_conn s) (Rcpt r);
      rest ← rcpt_all s mxHost rs;
      let '(outs, broken) := rest in
      match e with
      | None => mret (mkOutcome r RecipientDelivered "" "" mxHost "" "" "" false :: outs, broken)
      | Some e =>
          let '(st, enh, diag) := smtpFailureOutcome e in
          mret (mkOutcome r st enh diag mxHost "" "" "" false :: outs,
                (negb (isSMTPReply e) || broken)%bool)
      end
  end.

Definition delivered (o : RecipientOutcome) : bool := bool_decide (ro_Status o = RecipientDelivered).
Definition anyDelivered (outs : list RecipientOutcome) : bool := existsb delivered outs.

(** The accepted recipients share the fate of DATA. *)
Definition data_failed (e : delivery_error) (o : RecipientOutcome) : RecipientOutcome :=
  if delivered o then
    let '(st, enh, diag) := smtpFailureOutcome e in
    mkOutcome (ro_Recipient o) st enh diag (ro_Route o) "" "" "" false
  else o.

Definition count_status (st : RecipientDeliveryStatus) (outs : list RecipientOutcome) : nat :=
  length (filter (fun o => ro_Status o = st) outs).

(** What the outcomes of a transaction say as one error. *)
Definition transaction_error (outs : list RecipientOutcome) : option delivery_error :=
  let temporary := count_status RecipientTemporaryFailure outs in
  let permanent := count_status RecipientPermanentFailure outs in
  if (0 <? temporary + permanent)%nat then
    Some (if (temporary =? 0)%nat then PermanentError "all SMTP recipients permanently failed"
          else TemporaryError "one or more SMTP recipients temporarily failed")
  else None.

Definition delivery_address (s : outboundSession) : OB (string * string) :=
  remote ← st_gets (fun o => net_RemoteAddr (os_conn s) (ob_net o));
  mret (match SplitHostPort remote with
        | Some (host, _) => (host, host)
        | None => (remote, remote)
        end).

(** The deferred function: the session is parked only if every command got a reply. *)
Definition give_back (key : string) (s : outboundSession) (reusable clean : bool) : OB unit :=
  cache ← st_gets (fun o => ob_sessions o);
  match cache with
  | Some _ => if reusable then put_session key s clean else closeSession s
  | None => closeSession s
  end.

(** RCPT, DATA, and giving the session back. *)
Definition transact (src : option sourceIP) (address mxHost : string) (recipients : list string)
    (content : string) (s : outboundSession) :
    OB (string * string * list RecipientOutcome * option delivery_error) :=
  rc ← rcpt_all s mxHost recipients;
  let '(outs, broken) := rc in
  dataErr ← (if anyDelivered outs then client_call (os_conn s) (Data content) else mret None);
  let final := match dataErr with None => outs | Some e => data_failed e <$> outs end in
  let reusable := (negb broken && match dataErr with None => true | Some e => isSMTPReply e end)%bool in
  let clean := (anyDelivered outs && match dataErr with None => true | Some _ => false end)%bool in
  addr ← delivery_address s;
  _ ← give_back (sessionKey src address) s reusable clean;
  mret (fst addr, snd addr, final, transaction_error final).

Definition deliverToAddressWithMetadata (src : option sourceIP) (address from : string)
    (recipients : list string) (content : string) (requireTLS : bool) (domain mxHost : string) :
    OB (string * string * list RecipientOutcome * option delivery_error) :=
  dane ← danePolicyFor domain mxHost address;
  match dane with
  | inr e => mret ("", "", [], Some (TemporaryError ("DANE lookup for " +:+ mxHost +:+ ": " +:+ de_text e)))
  | inl dp =>
      t ← open_transaction 2 true src address (Trim from "<>") requireTLS dp domain mxHost;
      match t with
      | inr e => mret ("", "", [], Some e)
      | inl s => transact src address mxHost recipients content s
      end
  end.

(** MX delivery is on one port only. *)
Definition attemptDeliveryToHostWithMetadata (src : option sourceIP) (host from : string)
    (recipients : list string) (content : string) (requireTLS : bool) (domain : string) :
    OB (string * string * list RecipientOutcome * option delivery_error) :=
  let port := if (hc_mxPort h =? "")%string then "25" else hc_mxPort h in
  r ← deliverToAddressWithMetadata src (JoinHostPort host port) from recipients content requireTLS
        domain host;
  let '(ip, hostIP, outs, err) := r in
  match outs, err with
  | [], Some e =>
      mret ("", "", [], Some (wrapf ("delivery failed to all ports for host " +:+ host +:+ ": ") e))
  | _, _ => mret r
  end.
End Outbound.

(** ** What happened on a connection *)

(** The handshake in force, what was last offered, and where the connection goes. *)
Fixpoint tls_of (tr : list event) (c : nat) : option tlsConfig :=
  match tr with
  | [] => None
  | Called c' (StartTLS cfg) true :: tr' => if (c' =? c)%nat then Some cfg else tls_of tr' c
  | _ :: tr' => tls_of tr' c
  end.

Fixpoint offered (tr : list event) (c : nat) (ext : string) : option bool :=
  match tr with
  | [] => None
  | Offered c' ext' b :: tr' =>
      if ((c' =? c)%nat && (ext' =? ext)%string)%bool then Some b else offered tr' c ext
  | _ :: tr' => offered tr' c ext
  end.

Fixpoint dialled (tr : list event) (c : nat) : option (option string * string) :=
  match tr with
  | [] => None
  | Dialled c' from address :: tr' => if (c' =? c)%nat then Some (from, address) else dialled tr' c
  | _ :: tr' => dialled tr' c
  end.

(** The server proved to be the one that was dialled at this address, to the web PKI or
    to its TLSA records. *)
Definition authenticated (address : string) (cfg : option tlsConfig) : bool :=
  match cfg with
  | Some (VerifyPKI name) | Some (VerifyTLSA name _) => (name =? host_only address)%string
  | _ => false
  end.
Definition by_TLSA (address : string) (cfg : option tlsConfig) : bool :=
  match cfg with Some (VerifyTLSA name _) => (name =? host_only address)%string | _ => false end.

(** Commands that carry a message or its envelope. *)
Definition is_send (k : call) : bool :=
  match k with Mail _ _ | Rcpt _ | Data _ => true | _ => false end.

Definition view : Type := option tlsConfig * option bool * option (option string * string).
Definition view_of (tr : list event) (c : nat) : view :=
  (tls_of tr c, offered tr c "REQUIRETLS", dialled tr c).

(** Events that change what is known about a connection. *)
Definition changes (e : event) (c : nat) : bool :=
  match e with
  | Called c' (StartTLS _) _ | Offered c' _ _ | Dialled c' _ _ => (c' =? c)%nat
  | _ => false
  end.

Lemma view_of_cons e tr c : changes e c = false -> view_of (e :: tr) c = view_of tr c.
Proof.
  unfold view_of. destruct e as [c' f a|c' [] []|c' x b|d m v ok|d a t]; cbn; try done; intros ->; done.
Qed.

(** The separator of session keys occurs neither in an address of a pool nor in the name
    of a server; the resolver drops names that are not host names. *)
Definition plain (src : option sourceIP) (address : string) : Prop :=
  exists_byte (Ascii.eqb ">") address = false /\
  match src with Some s => exists_byte (Ascii.eqb ">") (src_addr s) = false | None => True end.

Lemma exists_byte_app p s t : exists_byte p (s +:+ t) = (exists_byte p s || exists_byte p t)%bool.
Proof.
  induction s as [|c s IH]; [done|]. rewrite app_cons. cbn [exists_byte]. rewrite IH. by destruct (p c).
Qed.

Lemma separated_inj (c : ascii) a b a' b' :
  exists_byte (Ascii.eqb c) a = false -> exists_byte (Ascii.eqb c) a' = false ->
  a +:+ String c b = a' +:+ String c b' -> a = a' /\ b = b'.
Proof.
  revert a'. induction a as [|x a IH]; intros [|x' a']; cbn; intros Ha Ha' H.
  - by injection H as ->.
  - injection H as <- _. by rewrite Ascii.eqb_refl in Ha'.
  - injection H as -> _. by rewrite Ascii.eqb_refl in Ha.
  - injection H as <- H. destruct (Ascii.eqb c x); [done|].
    destruct (IH a' Ha Ha' H) as [-> ->]. done.
Qed.

(** The key tells source and server apart. *)
Lemma sessionKey_inj src address src' address' :
  plain src address -> plain src' address' -> sessionKey src address = sessionKey src' address' ->
  src_addr <$> src = src_addr <$> src' /\ address = address'.
Proof.
  intros [A1 A2] [B1 B2] H. destruct src as [s|], src' as [s'|]; cbn in *.
  - apply separated_inj in H as [E1 E2]; [|done..]. split; [exact (f_equal Some E1)|done].
  - rewrite <- H in B1. rewrite exists_byte_app in B1. cbn in B1. by rewrite orb_true_r in B1.
  - rewrite H in A1. rewrite exists_byte_app in A1. cbn in A1. by rewrite orb_true_r in A1.
  - done.
Qed.

(** A session record tells the truth about its connection, which goes where its key
    says. *)
Definition good (v : view) (key : string) (s : outboundSession) : Prop :=
  let '(tls, req, to) := v in
  (os_requireTLS s = true -> req = Some true) /\
  exists src address, plain src address /\ key = sessionKey src address /\
                      to = Some (src_addr <$> src, address) /\
                      (os_tls s = tlsVerified -> authenticated address tls = true) /\
                      (os_dane s = true -> by_TLSA address tls = true).

Definition cache_ok (n : nat) (v : nat -> view) (k : option sessionCache) : Prop :=
  forall c key s, k = Some c -> parked_in c key s ->
  (os_conn s < n)%nat /\ good (v (os_conn s)) key s.

(** In the events [new] behind [base], the condition [Q] holds whenever a connection
    carries a message. *)
Definition sends_ok (Q : list event -> nat -> Prop) (new : list event) : Prop :=
  forall post pre c k ok, new = post ++ Called c k ok :: pre -> is_send k = true -> Q pre c.

Lemma sends_ok_cons Q e new :
  (forall c k ok, e = Called c k ok -> is_send k = true -> Q new c) -> sends_ok Q new ->
  sends_ok Q (e :: new).
Proof.
  intros He Hn [|x post] pre c k ok Heq Hs; cbn in Heq; injection Heq as Hx Hr.
  - subst. by eapply He.
  - by eapply Hn.
Qed.

Section Safety.
Context {W : Type} `{!Network W}.
Context (Q : list event -> nat -> Prop) (base : list event) (n : nat) (v : nat -> view).

Record on_course (o : outbound W) : Prop := {
  oc_next : (n <= ob_next o)%nat;
  oc_view : forall c, (c < n)%nat -> view_of (ob_trace o) c = v c;
  oc_sends : exists new, ob_trace o = new ++ base /\ sends_ok Q new;
  oc_cache : cache_ok n v (ob_sessions o)
}.

(** An event that is not about the old connections, and, if it carries a message, is
    allowed. *)
Lemma on_course_event e o :
  on_course o -> (forall c, (c < n)%nat -> changes e c = false) ->
  (forall c k ok, e = Called c k ok -> is_send k = true ->
     forall new, ob_trace o = new ++ base -> Q new c) ->
  on_course (o <| ob_trace ::= cons e |>).
Proof.
  intros [H1 H2 (new & Ht & Hs) H4] Hc He. split; cbn; [done| | |done].
  - intros c Hlt. rewrite view_of_cons by auto. by apply H2.
  - exists (e :: new). split; [cbn; f_equal; exact Ht|]. apply sends_ok_cons; [|done].
    intros c k ok Heq Hk. by eapply He.
Qed.

Lemma on_course_net w o : on_course o -> on_course (o <| ob_net := w |>).
Proof. by intros []. Qed.

Lemma runs_client_call c k (Φ : option delivery_error -> outbound W -> Prop) o :
  (forall w r, Φ r (o <| ob_net := w |>
                      <| ob_trace ::= cons (Called c k (match r with None => true | Some _ => false end)) |>)) ->
  runs (client_call c k) Φ o.
Proof.
  intros H. unfold client_call. apply runs_bind. unfold on_net, runs at 1.
  destruct (net_call c k (ob_net o)) as [r w] eqn:E. cbn. apply H.
Qed.

Lemma runs_Extension c ext (Φ : bool -> outbound W -> Prop) o :
  (forall b, Φ b (o <| ob_trace ::= cons (Offered c ext b) |>)) -> runs (Extension c ext) Φ o.
Proof. intros H. apply H. Qed.

Definition no_send (k : call) : bool := negb (is_send k).

(** A call that neither carries a message nor touches an old connection's TLS. *)
Lemma on_course_call c k b w o :
  on_course o -> no_send k = true -> (forall cfg, k = StartTLS cfg -> (n <= c)%nat) ->
  on_course (o <| ob_net := w |> <| ob_trace ::= cons (Called c k b) |>).
Proof.
  intros H Hk Hc. apply (on_course_event _ (o <| ob_net := w |>)); [by apply on_course_net| |].
  - intros c' Hlt. destruct k; cbn; try done. apply Nat.eqb_neq. specialize (Hc _ eq_refl). lia.
  - intros c' k' ok' [= -> -> ->] Hs. unfold no_send in Hk. by rewrite Hs in Hk.
Qed.

Lemma on_course_offered c ext b o :
  on_course o -> (n <= c)%nat -> on_course (o <| ob_trace ::= cons (Offered c ext b) |>).
Proof.
  intros H Hc. apply on_course_event; [done| |done]. intros c' Hlt. cbn. apply Nat.eqb_neq. lia.
Qed.

(** A connection made since the start, to where it should go. *)
Definition fresh_to (src : option sourceIP) (address : string) (c : nat) (o : outbound W) : Prop :=
  (n <= c < ob_next o)%nat /\ dialled (ob_trace o) c = Some (src_addr <$> src, address).

Lemma runs_dial (h : handlerConfig) src address (Φ : nat + delivery_error -> outbound W -> Prop) o :
  on_course o -> (forall e o', on_course o' -> Φ (inr e) o') ->
  (forall c o', on_course o' -> fresh_to src address c o' -> Φ (inl c) o') ->
  runs (dial h src address) Φ o.
Proof.
  intros H He Hc. unfold dial. apply runs_bind. unfold on_net, runs at 1.
  destruct (net_dial _ _ _ (ob_net o)) as [[e|] w]; cbn; [apply He; by apply on_course_net|].
  apply runs_bind, runs_gets, runs_bind, runs_modify, runs_bind, runs_modify, runs_ret.
  destruct H as [H1 H2 (new & Ht & Hs) H4]. apply Hc.
  - split; cbn; [lia| |eexists (_ :: new); split; [exact (f_equal (cons _) Ht)|]|done].
    + intros c Hlt. rewrite view_of_cons by (cbn; apply Nat.eqb_neq; lia). by apply H2.
    + by apply sends_ok_cons.
  - split; cbn; [lia|]. by rewrite Nat.eqb_refl.
Qed.

Lemma runs_dialAndGreet h src address (Φ : nat + delivery_error -> outbound W -> Prop) o :
  on_course o -> (forall e o', on_course o' -> Φ (inr e) o') ->
  (forall c o', on_course o' -> fresh_to src address c o' -> Φ (inl c) o') ->
  runs (dialAndGreet h src address) Φ o.
Proof.
  intros H He Hc. unfold dialAndGreet. apply runs_bind, runs_dial; [done| |].
  - intros e o' Ho. by apply He.
  - intros c o1 H1 F1. apply runs_bind, runs_client_call. intros w1 [e|].
    { apply runs_bind, runs_client_call. intros w2 r2. apply runs_ret, He.
      apply on_course_call; [|done|done]. by apply on_course_call. }
    apply runs_bind, runs_client_call. intros w2 [e|].
    { apply runs_bind, runs_client_call. intros w3 r3. apply runs_ret, He.
      apply on_course_call; [|done|done]. apply on_course_call; [|done|done]. by apply on_course_call. }
    apply runs_ret, Hc; [|done]. apply on_course_call; [|done|done]. by apply on_course_call.
Qed.

Ltac keep_course :=
  repeat first [ assumption
               | apply on_course_call; [|done|first [done | by intros; unfold fresh_to in *; lia]]
               | apply on_course_offered; [|by unfold fresh_to in *; lia] ].

Lemma runs_reconnect h src address host allow
    (Φ : nat * outboundTLS + delivery_error -> outbound W -> Prop) o :
  on_course o -> (forall e o', on_course o' -> Φ (inr e) o') ->
  (forall c tls o', on_course o' -> fresh_to src address c o' -> tls <> tlsVerified ->
     Φ (inl (c, tls)) o') ->
  runs (reconnectOpportunistic h src address host allow) Φ o.
Proof.
  intros H He Hc. unfold reconnectOpportunistic. apply runs_bind, runs_dialAndGreet; [done| |].
  - intros e o' Ho. by apply He.
  - intros c o1 H1 F1. apply runs_bind, runs_Extension. intros b.
    destruct (b && allow)%bool; [|apply runs_ret, Hc; [by keep_course|done|done]].
    apply runs_bind, runs_client_call. intros w2 [e|].
    + apply runs_bind, runs_client_call. intros w3 r3. apply runs_bind, runs_dialAndGreet.
      * by keep_course.
      * intros e' o' Ho. by apply He.
      * intros c' o' Ho Fo. by apply runs_ret, Hc.
    + apply runs_ret, Hc; [by keep_course|done|done].
Qed.

(** What a negotiation promises about its connection. *)
Definition negotiated (src : option sourceIP) (address : string) (requireTLS : bool)
    (dp : option danePolicy) (c : nat) (tls : outboundTLS) (dane : bool) (o : outbound W) : Prop :=
  fresh_to src address c o /\
  (tls = tlsVerified -> authenticated address (tls_of (ob_trace o) c) = true) /\
  (dane = true -> by_TLSA address (tls_of (ob_trace o) c) = true) /\
  (is_Some dp -> dane = true) /\ (requireTLS = true -> tls = tlsVerified).

Lemma runs_negotiateTLS h src address requireTLS dp c
    (Φ : nat * outboundTLS * bool + delivery_error -> outbound W -> Prop) o :
  on_course o -> fresh_to src address c o -> (forall e o', on_course o' -> Φ (inr e) o') ->
  (forall c tls dane o', on_course o' -> negotiated src address requireTLS dp c tls dane o' ->
     Φ (inl (c, tls, dane)) o') ->
  runs (negotiateTLS h src address requireTLS dp c) Φ o.
Proof.
  intros H F He Hc. unfold negotiateTLS. apply runs_bind, runs_Extension. intros ok.
  destruct dp as [dp|].
  - destruct ok; cbn [negb].
    + apply runs_bind, runs_client_call. intros w1 [e|].
      * apply runs_bind, runs_client_call. intros w2 r2. apply runs_ret, He. by keep_course.
      * apply runs_ret, Hc; [by keep_course|]. unfold negotiated. cbn -[authenticated by_TLSA].
        rewrite Nat.eqb_refl. by split_and!; try (intros _; apply String.eqb_refl).
    + apply runs_bind, runs_client_call. intros w2 r2. apply runs_ret, He. by keep_course.
  - destruct ok.
    + apply runs_bind, runs_client_call. intros w1 [e|].
      * apply runs_bind, runs_client_call. intros w2 r2. destruct requireTLS.
        { apply runs_ret, He. by keep_course. }
        apply runs_bind, runs_reconnect; [by keep_course| |].
        { intros e' o' Ho. by apply He. }
        intros c' tls o' Ho Fo Hne. apply runs_ret, Hc; [done|].
        by split_and!.
      * apply runs_ret, Hc; [by keep_course|]. unfold negotiated. cbn -[authenticated by_TLSA].
        rewrite Nat.eqb_refl. by split_and!; try intros [? [=]]; try (intros _; apply String.eqb_refl).
    + destruct requireTLS.
      * apply runs_bind, runs_client_call. intros w2 r2. apply runs_ret, He. by keep_course.
      * apply runs_ret, Hc; [by keep_course|]. by split_and!; try intros [? [=]].
Qed.

Lemma runs_connectSMTP h src address requireTLS dp
    (Φ : nat * outboundTLS * bool * bool + delivery_error -> outbound W -> Prop) o :
  on_course o -> (forall e o', on_course o' -> Φ (inr e) o') ->
  (forall c tls req dane o', on_course o' -> negotiated src address requireTLS dp c tls dane o' ->
     offered (ob_trace o') c "REQUIRETLS" = Some req -> (requireTLS = true -> req = true) ->
     Φ (inl (c, tls, req, dane)) o') ->
  runs (connectSMTP h src address requireTLS dp) Φ o.
Proof.
  intros H He Hc. unfold connectSMTP. apply runs_bind, runs_dialAndGreet; [done| |].
  { intros e o' Ho. by apply He. }
  intros c o1 H1 F1. apply runs_bind, runs_negotiateTLS; [done..| |].
  { intros e o' Ho. by apply He. }
  intros c' tls dane o2 H2 N. apply runs_bind, runs_Extension. intros ok.
  pose proof N as [F2 _]. destruct (requireTLS && negb ok)%bool eqn:E.
  - apply runs_bind, runs_client_call. intros w r. apply runs_ret, He. by keep_course.
  - apply runs_ret, Hc; [by keep_course|exact N| |].
    + cbn. by rewrite Nat.eqb_refl.
    + intros ->. by destruct ok.
Qed.

Lemma runs_closeSession s (Φ : unit -> outbound W -> Prop) o :
  on_course o -> (forall o', on_course o' -> ob_sessions o' = ob_sessions o -> Φ tt o') ->
  runs (closeSession s) Φ o.
Proof.
  intros H Hc. unfold closeSession. apply runs_bind, runs_client_call. intros w r.
  apply runs_bind, runs_client_call. intros w' r'. apply runs_ret, Hc; [by keep_course|done].
Qed.

Lemma runs_closeSessions l (Φ : unit -> outbound W -> Prop) : forall o,
  on_course o -> (forall o', on_course o' -> ob_sessions o' = ob_sessions o -> Φ tt o') ->
  runs (closeSessions l) Φ o.
Proof.
  induction l as [|s l IH]; intros o H Hc; cbn [closeSessions]; [by apply runs_ret, Hc|].
  apply runs_bind, runs_closeSession; [done|]. intros o1 H1 E1. apply IH; [done|].
  intros o2 H2 E2. apply Hc; [done|congruence].
Qed.

Lemma on_course_update (f : sessionCache -> sessionCache) c o :
  on_course o -> ob_sessions o = Some c -> cache_ok n v (Some (f c)) ->
  on_course (o <| ob_sessions ::= fmap f |>).
Proof.
  intros [H1 H2 H3 _] E Hk. split; cbn; [done..|]. intros c' key s Hc.
  apply Hk. exact (eq_trans (eq_sym (f_equal (fmap f) E)) Hc).
Qed.

Lemma runs_get_session key nr nd (Φ : option outboundSession -> outbound W -> Prop) o :
  on_course o -> (forall o', on_course o' -> Φ None o') ->
  (forall s o', on_course o' -> (os_conn s < n)%nat -> good (v (os_conn s)) key s ->
     suitable nr nd s = true -> Φ (Some s) o') ->
  runs (get_session key nr nd) Φ o.
Proof.
  intros H Hn Hs. unfold get_session. apply runs_bind, runs_gets, runs_bind, runs_gets.
  cbv beta. destruct (ob_sessions o) as [c|] eqn:Ec; cbv iota; [|by apply runs_ret, Hn].
  destruct (takeSession _ key nr nd c) as [[found stale] c'] eqn:Et.
  apply takeSession_spec in Et as [T1 T2].
  pose proof (oc_cache _ H) as Hk.
  assert (forall f : sessionCache -> sessionCache, sc_idle (f c') = sc_idle c' -> cache_ok n v (Some (f c'))) as Hk'.
  { intros f Hf c0 key0 s [= <-] Hp. apply (Hk c); [done|]. apply T2.
    unfold parked_in, idle_at in *. by rewrite Hf in Hp. }
  apply runs_bind, runs_modify, runs_bind, runs_closeSessions.
  { apply (on_course_update (fun _ => c') c); [done..|]. by apply (Hk' (fun x => x)). }
  intros o1 H1 E1. pose proof (eq_trans E1 (f_equal (fmap (fun _ => c')) Ec)) as E1'.
  apply runs_bind, runs_modify, runs_ret.
  assert (on_course (o1 <| ob_sessions ::= fmap (count_get found) |>)) as H2.
  { apply (on_course_update _ c'); [done|exact E1'|]. apply (Hk' (count_get found)). by destruct found. }
  destruct found as [s|]; [|by apply Hn].
  destruct (T1 s eq_refl) as (P1 & P2 & _). destruct (Hk c key s Ec P1) as [L1 L2]. by apply Hs.
Qed.

(** What [acquireSession] hands over. *)
Definition acquired (src : option sourceIP) (address : string) (requireTLS : bool)
    (dp : option danePolicy) (s : outboundSession) (o : outbound W) : Prop :=
  (os_conn s < ob_next o)%nat /\
  good (view_of (ob_trace o) (os_conn s)) (sessionKey src address) s /\
  (requireTLS = true -> os_tls s = tlsVerified /\ os_requireTLS s = true) /\
  (is_Some dp -> os_dane s = true).

Lemma runs_acquireSession h src address requireTLS allow dp
    (Φ : outboundSession * bool + delivery_error -> outbound W -> Prop) o :
  plain src address -> on_course o -> (forall e o', on_course o' -> Φ (inr e) o') ->
  (forall s reused o', on_course o' -> acquired src address requireTLS dp s o' ->
     (reused = true -> allow = true) -> Φ (inl (s, reused)) o') ->
  runs (acquireSession h src address requireTLS allow dp) Φ o.
Proof.
  intros Hpl H He Hs.
  assert (forall o, on_course o ->
    runs (r ← connectSMTP h src address requireTLS dp;
          match r with
          | inr e => mret (inr e)
          | inl (c, tls, nextHop, dane) =>
              now ← clock; mret (inl (mkOutboundSession c tls nextHop dane now now 0, false))
          end) Φ o) as Hnew.
  { intros o1 H1. apply runs_bind, runs_connectSMTP; [done| |].
    - intros e o' Ho. by apply runs_ret, He.
    - intros c tls req dane o' Ho ((F1 & F2) & N2 & N3 & N4 & N5) Hoff Hreq.
      apply runs_bind, runs_gets, runs_ret, Hs; [done| |done]. split_and!; cbn; [lia| |by auto|done].
      split; [by intros ->|]. by exists src, address. }
  unfold acquireSession. apply runs_bind. destruct allow; [|by apply runs_ret, Hnew].
  apply runs_get_session; [done|by apply Hnew|].
  intros s o' Ho Hlt Hg Hsu. apply runs_ret, Hs; [done| |done].
  unfold suitable in Hsu. apply andb_true_iff in Hsu as [S1 S2].
  split_and!; [pose proof (oc_next _ Ho); lia| | |].
  - by rewrite (oc_view _ Ho).
  - intros ->. cbn in S1. apply andb_true_iff in S1 as [S1 S3]. by apply bool_decide_eq_true in S1.
  - intros [p ->]. exact S2.
Qed.
End Safety.

(** ** When a message may be sent on a connection *)

Section Transaction.
Context {W : Type} `{!Network W}.
Context (h : handlerConfig) (src : option sourceIP) (address : string) (requireTLS : bool)
        (dp : option danePolicy) (domain mxHost : string).
Context (base : list event).
Context (Hplain : plain src address).

(** The connection goes to the server the message is for, from the address it is to leave
    from.  For a message that requires TLS the server is authenticated and understands
    REQUIRETLS; where DANE applies it is authenticated by TLSA records; otherwise the
    MTA-STS policy agreed, knowing whether the server is authenticated. *)
Definition may_send (new : list event) (c : nat) : Prop :=
  let tr := new ++ base in
  dialled tr c = Some (src_addr <$> src, address) /\
  (requireTLS = true -> authenticated address (tls_of tr c) = true /\ offered tr c "REQUIRETLS" = Some true) /\
  (is_Some dp -> by_TLSA address (tls_of tr c) = true) /\
  (requireTLS = false -> dp = None ->
   exists b, Enforced domain mxHost b true ∈ new /\ (b = true -> authenticated address (tls_of tr c) = true)).

Context (n : nat) (v : nat -> view).
Abbreviation course := (on_course (W := W) may_send base n v).

Definition ready (s : outboundSession) (o : outbound W) : Prop :=
  acquired src address requireTLS dp s o /\
  forall new, ob_trace o = new ++ base -> may_send new (os_conn s).

Lemma view_of_eq tr tr' c :
  view_of tr c = view_of tr' c ->
  tls_of tr c = tls_of tr' c /\ offered tr c "REQUIRETLS" = offered tr' c "REQUIRETLS" /\
  dialled tr c = dialled tr' c.
Proof. unfold view_of. by intros [= -> -> ->]. Qed.

Lemma may_send_event e new c :
  changes e c = false -> may_send new c -> may_send (e :: new) c.
Proof.
  intros He (M1 & M2 & M3 & M4). unfold may_send.
  destruct (view_of_eq ((e :: new) ++ base) (new ++ base) c) as (-> & -> & ->).
  { by apply view_of_cons. }
  split_and!; [done..|]. intros H1 H2. destruct (M4 H1 H2) as (b & Hin & Hb).
  exists b. split; [by right|done].
Qed.

Lemma trace_cons_inv (e : event) tr new (base' : list event) :
  (exists new0, tr = new0 ++ base') -> e :: tr = new ++ base' ->
  exists new', new = e :: new' /\ tr = new' ++ base'.
Proof.
  intros (new0 & ->) H. rewrite app_comm_cons in H. apply app_inv_tail in H as <-. eauto.
Qed.

Lemma ready_event e w s o :
  course o -> ready s o -> changes e (os_conn s) = false ->
  ready s (o <| ob_net := w |> <| ob_trace ::= cons e |>).
Proof.
  intros C [A M] He. split.
  - destruct A as (A1 & A2 & A3). unfold acquired. split; [exact A1|]. split; [|exact A3].
    cbn -[good]. rewrite view_of_cons by done. exact A2.
  - intros new Hn. cbn in Hn. apply trace_cons_inv in Hn as (new' & -> & Ht).
    + by apply may_send_event, M.
    + destruct (oc_sends _ _ _ _ _ C) as (new0 & Ht & _). by exists new0.
Qed.

(** A command of the transaction. *)
Lemma course_send k w b s o :
  course o -> ready s o -> (forall cfg, k <> StartTLS cfg) ->
  course (o <| ob_net := w |> <| ob_trace ::= cons (Called (os_conn s) k b) |>) /\
  ready s (o <| ob_net := w |> <| ob_trace ::= cons (Called (os_conn s) k b) |>).
Proof.
  intros C R Hk. split.
  - apply (on_course_event _ _ _ _ _ (o <| ob_net := w |>)); [by apply on_course_net| |].
    + intros c _. destruct k; try done. by destruct (Hk cfg).
    + intros c k' ok [= <- <- <-] _ new Ht. by apply R.
  - apply ready_event; [done..|]. destruct k; try done. by destruct (Hk cfg).
Qed.

(** What the record of a session handed over says, read off the trace. *)
Lemma acquired_facts s (o : outbound W) tr :
  acquired src address requireTLS dp s o ->
  view_of (ob_trace o) (os_conn s) = view_of tr (os_conn s) ->
  dialled tr (os_conn s) = Some (src_addr <$> src, address) /\
  (requireTLS = true -> authenticated address (tls_of tr (os_conn s)) = true /\
                        offered tr (os_conn s) "REQUIRETLS" = Some true) /\
  (is_Some dp -> by_TLSA address (tls_of tr (os_conn s)) = true) /\
  (os_tls s = tlsVerified -> authenticated address (tls_of tr (os_conn s)) = true).
Proof.
  intros (_ & G1 & T1 & D1) Hv. rewrite Hv in G1. unfold view_of, good in G1.
  destruct G1 as (G3 & src' & ad & G4 & G5 & G6 & G1 & G2).
  destruct (sessionKey_inj src address src' ad Hplain G4 G5) as [E1 <-].
  split_and!; [by rewrite E1| |by auto|by auto].
  intros HR. destruct (T1 HR). auto.
Qed.

Lemma runs_open_transaction fuel allow sender
    (Φ : outboundSession + delivery_error -> outbound W -> Prop) : forall o,
  course o -> (forall e o', course o' -> Φ (inr e) o') ->
  (forall s o', course o' -> ready s o' -> Φ (inl s) o') ->
  runs (open_transaction h fuel allow src address sender requireTLS dp domain mxHost) Φ o.
Proof.
  revert allow. induction fuel as [|fuel IH]; intros allow o C He Hs; cbn [open_transaction].
  { by apply runs_ret, He. }
  apply runs_bind. apply (runs_acquireSession may_send base n v); [done|done| |].
  { intros e o' C'. by apply runs_ret, He. }
  intros s reused o1 C1 A1 _.
  assert (forall o2, course o2 -> ready s o2 ->
    runs (r ← sendMailFrom s sender requireTLS;
          match r with
          | None => mret (inl s)
          | Some e =>
              _ ← closeSession s;
              if (reused && sessionGone e)%bool
              then open_transaction h fuel false src address sender requireTLS dp domain mxHost
              else mret (inr (if de_permanent e then e else wrapf "MAIL FROM failed: " e))
          end) Φ o2) as Hmail.
  { intros o2 C2 R2. apply runs_bind, runs_client_call. intros w r.
    destruct (course_send (Mail sender (requireTLS && os_requireTLS s)) w
                (match r with None => true | Some _ => false end) s o2 C2 R2 ltac:(done)) as [C3 R3].
    destruct r as [e|]; [|by apply runs_ret, Hs].
    apply runs_bind, (runs_closeSession may_send base n v); [done|]. intros o4 C4 _.
    destruct (reused && sessionGone e)%bool; [by apply IH|by apply runs_ret, He]. }
  apply runs_bind.
  destruct (negb requireTLS && match dp with None => true | Some _ => false end)%bool eqn:Eb.
  - unfold enforceSTS. apply runs_bind. unfold on_net, runs at 1.
    destruct (net_EnforcePolicy _ _ _ (ob_net o1)) as [r w]. cbv beta iota zeta.
    apply runs_bind, runs_modify, runs_ret.
    assert (course (o1 <| ob_net := w |> <| ob_trace ::= cons (Enforced domain mxHost
              (bool_decide (os_tls s = tlsVerified)) (match r with None => true | Some _ => false end)) |>)) as C2.
    { apply (on_course_event _ _ _ _ _ (o1 <| ob_net := w |>)); [by apply on_course_net|done|done]. }
    destruct r as [e|].
    { apply runs_bind, (runs_closeSession may_send base n v); [done|]. intros o3 C3 _. by apply runs_ret, He. }
    apply Hmail; [done|]. split; [exact A1|]. intros new Hn. cbn in Hn.
    apply trace_cons_inv in Hn as (new' & -> & Ht).
    2: { destruct (oc_sends _ _ _ _ _ C1) as (new0 & Ht & _). by exists new0. }
    destruct (acquired_facts s o1 (new' ++ base) A1) as (F1 & F2 & F3 & F4); [by rewrite <- Ht|].
    split_and!; [done..|]. intros _ _. eexists. split; [by left|]. intros Hb.
    apply bool_decide_eq_true in Hb. by apply F4.
  - apply runs_ret, Hmail; [done|]. split; [done|]. intros new Ht.
    destruct (acquired_facts s o1 (new ++ base) A1) as (F1 & F2 & F3 & F4); [by rewrite <- Ht|].
    split_and!; [done..|]. intros -> ->. done.
Qed.

(** From here on every connection there is counts as an old one. *)
Lemma course_restart o :
  course o -> on_course may_send base (ob_next o) (view_of (ob_trace o)) o.
Proof.
  intros [H1 H2 H3 H4]. split; [done|done|done|]. intros c key s Hc Hp.
  destruct (H4 c key s Hc Hp) as [L G]. split; [lia|]. by rewrite H2.
Qed.

Lemma runs_rcpt_all s mx rs (Φ : list RecipientOutcome * bool -> outbound W -> Prop) : forall o,
  course o -> ready s o -> (forall r o', course o' -> ready s o' -> Φ r o') ->
  runs (rcpt_all s mx rs) Φ o.
Proof.
  revert Φ. induction rs as [|r rs IH]; intros Φ o C R Hc; cbn [rcpt_all]; [by apply runs_ret, Hc|].
  apply runs_bind, runs_client_call. intros w e.
  destruct (course_send (Rcpt r) w (match e with None => true | Some _ => false end) s o C R
              ltac:(done)) as [C1 R1].
  apply runs_bind, IH; [done..|]. intros [outs broken] o2 C2 R2. destruct e as [e|].
  - destruct (smtpFailureOutcome e) as [[st enh] diag]. by apply runs_ret, Hc.
  - by apply runs_ret, Hc.
Qed.

(** The session goes back to the cache as what it is. *)
Lemma runs_put_session s clean (Φ : unit -> outbound W -> Prop) o :
  course o -> ready s o -> (os_conn s < n)%nat -> good (v (os_conn s)) (sessionKey src address) s ->
  (forall o', course o' -> Φ tt o') ->
  runs (put_session (sessionKey src address) s clean) Φ o.
Proof.
  intros C R Hlt Hg Hc. unfold put_session. set (s' := s <| os_uses ::= fun k => k + 1 |>).
  apply runs_bind.
  assert (forall b o1, course o1 -> runs
    (if negb b then
       _ ← client_call (os_conn s') Close; update_cache discard_one
     else
       now ← clock; cache ← st_gets (fun o => ob_sessions o);
       match cache with
       | None => mret tt
       | Some c => let '(evicted, c') := park now (sessionKey src address) s' c in
                   _ ← update_cache (fun _ => c'); closeSessions evicted
       end) Φ o1) as Hrest.
  { intros b o1 C1. pose proof (oc_cache _ _ _ _ _ C1) as Hk. destruct b; cbn [negb].
    - apply runs_bind, runs_gets, runs_bind, runs_gets. cbv beta.
      destruct (ob_sessions o1) as [c|] eqn:Ec; [|by apply runs_ret, Hc].
      destruct (park _ _ s' c) as [ev c'] eqn:Ep.
      apply runs_bind, runs_modify, (runs_closeSessions may_send base n v).
      + apply (on_course_update may_send base n v (fun _ => c') c); [done..|].
        intros c0 key x [= <-] Hp. destruct (park_members _ _ _ _ _ _ _ _ Ep Hp) as [Hp'|[-> ->]].
        * by apply (Hk c).
        * by split.
      + intros o2 C2 _. by apply Hc.
    - apply runs_bind, runs_client_call. intros w r. apply runs_modify, Hc.
      apply (on_course_call may_send base n v (os_conn s) Close (match r with None => true | Some _ => false end) w)
        in C1 as C2; [|done..].
      destruct (ob_sessions o1) as [c|] eqn:Ec.
      + apply (on_course_update may_send base n v discard_one c); [done..|].
        intros c0 key x [= <-] Hp. by apply (Hk c).
      + destruct C2 as [H1 H2 H3 H4]. split; [done..|]. intros c0 key x Hx. cbn in Hx.
        pose proof (eq_trans (eq_sym (f_equal (fmap discard_one) Ec)) Hx). done. }
  destruct clean; [by apply runs_ret, Hrest|].
  apply runs_bind, runs_client_call. intros w r. apply runs_ret, Hrest.
  by apply (on_course_call may_send base n v).
Qed.

Lemma runs_give_back s reusable clean (Φ : unit -> outbound W -> Prop) o :
  course o -> ready s o -> (os_conn s < n)%nat -> good (v (os_conn s)) (sessionKey src address) s ->
  (forall o', course o' -> Φ tt o') ->
  runs (give_back (sessionKey src address) s reusable clean) Φ o.
Proof.
  intros C R Hlt Hg Hc. unfold give_back. apply runs_bind, runs_gets. cbv beta.
  destruct (ob_sessions o); [destruct reusable|]; [by apply runs_put_session|..];
    (apply (runs_closeSession may_send base n v); [done|]; intros o3 C3 _; by apply Hc).
Qed.

Lemma runs_transact s rs content
    (Φ : string * string * list RecipientOutcome * option delivery_error -> outbound W -> Prop) o :
  course o -> ready s o -> (os_conn s < n)%nat -> good (v (os_conn s)) (sessionKey src address) s ->
  (forall r o', course o' -> Φ r o') ->
  runs (transact src address mxHost rs content s) Φ o.
Proof.
  intros C R Hlt Hg Hc. unfold transact. apply runs_bind, runs_rcpt_all; [done..|].
  intros [outs broken] o1 C1 R1.
  assert (forall dataErr o2 reusable clean final, course o2 -> ready s o2 -> runs
    (addr ← delivery_address s;
     _ ← give_back (sessionKey src address) s reusable clean;
     mret (fst addr, snd addr, final, dataErr)) Φ o2) as Hrest.
  { intros dataErr o2 reusable clean final C2 R2. apply runs_bind. unfold delivery_address.
    apply runs_bind, runs_gets, runs_ret, runs_bind, runs_give_back; [done..|].
    intros o3 C3. by apply runs_ret, Hc. }
  apply runs_bind. destruct (anyDelivered outs).
  - apply runs_client_call. intros w r.
    destruct (course_send (Data content) w (match r with None => true | Some _ => false end) s o1 C1 R1
                ltac:(done)) as [C2 R2]. by apply Hrest.
  - by apply runs_ret, Hrest.
Qed.
End Transaction.

(** ** Histories of the handler *)

Section History.
Context {W : Type} `{!Network W}.
Variable h : handlerConfig.

Record request := mkRequest {
  rq_src : option sourceIP;
  rq_address : string;
  rq_from : string;
  rq_recipients : list string;
  rq_content : string;
  rq_requireTLS : bool;
  rq_domain : string;
  rq_mxHost : string
}.

Definition deliver (r : request) : St (outbound W) (string * string * list RecipientOutcome * option delivery_error) :=
  deliverToAddressWithMetadata h (rq_src r) (rq_address r) (rq_from r) (rq_recipients r)
    (rq_content r) (rq_requireTLS r) (rq_domain r) (rq_mxHost r).

Inductive action := Deliver (r : request) | Reuse (enabled : bool) | CloseIdle.

Definition act (a : action) (o : outbound W) : outbound W :=
  match a with
  | Deliver r => snd (deliver r o)
  | Reuse b => snd (SetConnectionReuse b o)
  | CloseIdle => snd (close_all_sessions false o)
  end.

Definition acts (l : list action) (o : outbound W) : outbound W := foldl (fun o a => act a o) o l.

(** Every parked session is what its record says. *)
Definition honest (o : outbound W) : Prop :=
  cache_ok (ob_next o) (view_of (ob_trace o)) (ob_sessions o).

Lemma honest_course Q (o : outbound W) :
  honest o -> on_course Q (ob_trace o) (ob_next o) (view_of (ob_trace o)) o.
Proof.
  intros H. split; [done|done| |done]. exists []. split; [done|]. intros [|] pre c k ok [=].
Qed.

Lemma course_honest Q base n v (o : outbound W) : on_course Q base n v o -> honest o.
Proof.
  intros [H1 H2 H3 H4] c key s Hc Hp. destruct (H4 c key s Hc Hp) as [L G]. split; [lia|].
  by rewrite H2.
Qed.

Lemma danePolicyFor_runs domain mxHost address (Φ : option danePolicy + delivery_error -> outbound W -> Prop) o :
  (forall r w, fst (danePolicyFor h domain mxHost address o) = r -> Φ r (o <| ob_net := w |>)) ->
  runs (danePolicyFor h domain mxHost address) Φ o.
Proof.
  intros H. unfold runs. enough (exists w, snd (danePolicyFor h domain mxHost address o) = o <| ob_net := w |>) as (w & ->)
    by (by apply H).
  unfold danePolicyFor. destruct (hc_dane h); [|by exists (ob_net o)]. cbn [negb].
  unfold mbind, St_bind, on_net. destruct (net_MXSecure domain (ob_net o)) as [[[]|e] w]; try by exists w.
  cbn. destruct (net_LookupTLSA mxHost _ w) as [[[rec sec]|e] w']; cbn.
  - exists w'. by case_match.
  - by exists w'.
Qed.

(** One delivery: what it sends is allowed, nothing when the DANE lookup failed, and the
    cache stays honest. *)
Lemma deliver_course r (o : outbound W) :
  plain (rq_src r) (rq_address r) -> honest o ->
  honest (snd (deliver r o)) /\
  exists new, ob_trace (snd (deliver r o)) = new ++ ob_trace o /\
  match fst (danePolicyFor h (rq_domain r) (rq_mxHost r) (rq_address r) o) with
  | inl dp => sends_ok (may_send (rq_src r) (rq_address r) (rq_requireTLS r) dp (rq_domain r) (rq_mxHost r)
                          (ob_trace o)) new
  | inr _ => new = []
  end.
Proof.
  intros Hpl Ho.
  destruct (fst (danePolicyFor h (rq_domain r) (rq_mxHost r) (rq_address r) o)) as [dp|e] eqn:Ed.
  - set (Q := may_send (rq_src r) (rq_address r) (rq_requireTLS r) dp (rq_domain r) (rq_mxHost r) (ob_trace o)).
    enough (runs (deliver r) (fun _ o' => exists n v, on_course Q (ob_trace o) n v o') o) as (n & v & H).
    { split; [by eapply course_honest|].
      destruct (oc_sends _ _ _ _ _ H) as (new & Ht & Hs). exists new. by split. }
    unfold deliver, deliverToAddressWithMetadata. apply runs_bind, danePolicyFor_runs.
    intros x w Hx. rewrite Ed in Hx. subst x. cbv iota beta.
    apply runs_bind. apply (runs_open_transaction _ _ _ _ _ _ _ (ob_trace o) Hpl (ob_next o) (view_of (ob_trace o))).
    + apply on_course_net. by apply honest_course.
    + intros e o' C. apply runs_ret. by eexists _, _.
    + intros s o' C R. pose proof R as [(L & G & _) _].
      apply (runs_transact _ _ (rq_requireTLS r) dp (rq_domain r) _ (ob_trace o) (ob_next o') (view_of (ob_trace o')));
        [by apply course_restart in C|done..|]. intros res o'' C'. by eexists _, _.
  - enough (runs (deliver r) (fun _ o' => exists w, o' = o <| ob_net := w |>) o) as (w & E).
    { rewrite E. split; [exact Ho|]. by exists []. }
    unfold deliver, deliverToAddressWithMetadata. apply runs_bind, danePolicyFor_runs.
    intros x w Hx. rewrite Ed in Hx. subst x. cbv iota beta. apply runs_ret. by exists w.
Qed.

Lemma close_all_honest b (o : outbound W) : honest o -> honest (snd (close_all_sessions b o)).
Proof.
  intros Ho. enough (runs (close_all_sessions b) (fun _ o' => honest o') o) by done.
  unfold close_all_sessions. apply runs_bind, runs_gets. cbv beta.
  destruct (ob_sessions o) as [c|] eqn:Ec; [|by apply runs_ret].
  destruct (drain_all c) as [all c'] eqn:Ed.
  set (Q := fun (_ : list event) (_ : nat) => True).
  pose proof (honest_course Q o Ho) as C.
  apply runs_bind, runs_modify, runs_bind.
  apply (runs_closeSessions Q (ob_trace o) (ob_next o) (view_of (ob_trace o))).
  - apply (on_course_update _ _ _ _ (fun _ => c') c); [done..|].
    intros c0 key s [= <-] Hp. pose proof (drain_all_empty c key s) as Hn. by rewrite Ed in Hn.
  - intros o1 C1 E1. apply runs_modify. destruct b; [|by eapply course_honest].
    intros c0 key s [=].
Qed.

Definition plain_action (a : action) : Prop :=
  match a with Deliver r => plain (rq_src r) (rq_address r) | _ => True end.

Lemma act_honest a (o : outbound W) : plain_action a -> honest o -> honest (act a o).
Proof.
  intros Hpl Ho. destruct a as [r|b|]; cbn [act]; [by apply deliver_course| |].
  - destruct b; cbn [SetConnectionReuse].
    + unfold st_modify. cbn. destruct (ob_sessions o) as [c|] eqn:Ec; [done|].
      intros c key s [= <-] Hp. exfalso. unfold parked_in, idle_at in Hp. cbn in Hp.
      rewrite lookup_empty in Hp. by apply elem_of_nil in Hp.
    + by apply close_all_honest.
  - by apply close_all_honest.
Qed.

Lemma acts_honest l : forall o : outbound W, Forall plain_action l -> honest o -> honest (acts l o).
Proof.
  induction l as [|a l IH]; intros o Hl Ho; cbn; [done|]. apply Forall_cons in Hl as [Ha Hl].
  by apply IH, act_honest.
Qed.

Lemma honest_start w cache :
  cache = None \/ cache = Some newSessionCache -> honest (mkOutbound w 0 cache []).
Proof.
  intros Hc c key s Hs Hp. cbn in Hs. destruct Hc as [->| ->]; [done|]. injection Hs as <-.
  unfold parked_in, idle_at in Hp. cbn in Hp. rewrite lookup_empty in Hp. by apply elem_of_nil in Hp.
Qed.

(** C10 (safety). Mail leaves only over a channel its policies allow.  After any history of
    deliveries, with parked sessions reused between messages and domains and any network,
    every MAIL, RCPT and DATA of a delivery is on a connection that was made to the server
    the message is for and from the source address it is to leave from; if the message
    requires TLS the server was authenticated under the name dialled on that connection
    and offered REQUIRETLS; if DANE applies the server was authenticated under that name by
    TLSA records; and otherwise the MTA-STS policy was asked in this delivery and agreed,
    and was told that the server is authenticated only if it was, under that name, by the
    web PKI or by TLSA records.  (A parked session that TLSA records authenticated counts,
    see [dane_session_counts_as_verified].)  When the DANE lookup fails nothing is sent. *)
Theorem transport_policy_kept w cache l r :
  cache = None \/ cache = Some newSessionCache -> Forall plain_action l ->
  plain (rq_src r) (rq_address r) ->
  let o := acts l (mkOutbound w 0 cache []) in
  exists new, ob_trace (snd (deliver r o)) = new ++ ob_trace o /\
  forall post pre c k ok, new = post ++ Called c k ok :: pre -> is_send k = true ->
  match fst (danePolicyFor h (rq_domain r) (rq_mxHost r) (rq_address r) o) with
  | inl dp => may_send (rq_src r) (rq_address r) (rq_requireTLS r) dp (rq_domain r) (rq_mxHost r)
                (ob_trace o) pre c
  | inr _ => False
  end.
Proof.
  intros Hc Hl Hr o.
  assert (honest o) as Ho.
  { apply acts_honest; [done|]. by apply honest_start. }
  destruct (deliver_course r o Hr Ho) as (_ & new & Ht & Hs). exists new. split; [done|].
  intros post pre c k ok Hn. destruct (fst (danePolicyFor _ _ _ _ o)) as [dp|e]; [by apply (Hs post pre c k ok)|].
  rewrite Hs in Hn. by destruct post.
Qed.

(** ** What is reported *)

(** The trace only grows. *)
Definition grows {A} (m : St (outbound W) A) : Prop :=
  forall o, ob_trace o `suffix_of` ob_trace (snd (m o)).

Lemma grows_ret {A} (a : A) : grows (mret a).
Proof. intros o. reflexivity. Qed.
Lemma grows_bind {A B} (m : St (outbound W) A) (f : A -> St (outbound W) B) :
  grows m -> (forall a, grows (f a)) -> grows (mbind f m).
Proof.
  intros Hm Hf o. specialize (Hm o). unfold mbind, St_bind. destruct (m o) as [a o']. cbn in Hm.
  etrans; [exact Hm|apply Hf].
Qed.
Lemma grows_gets {A} (f : outbound W -> A) : grows (st_gets f).
Proof. intros o. reflexivity. Qed.
Lemma grows_modify f : (forall o, ob_trace o `suffix_of` ob_trace (f o)) -> grows (st_modify f).
Proof. intros H o. apply H. Qed.
Lemma grows_on_net {A} (f : W -> A * W) : grows (on_net f).
Proof. intros o. unfold on_net. by destruct (f (ob_net o)). Qed.
Lemma grows_record e : grows (record_event e).
Proof. intros o. by exists [e]. Qed.
Lemma grows_client_call c k : grows (client_call c k).
Proof. apply grows_bind; [apply grows_on_net|]. intros a. apply grows_bind; [apply grows_record|]. intros []. apply grows_ret. Qed.
End History.

Ltac solve_grows :=
  repeat (cbv zeta;
    lazymatch goal with
    | |- grows (mbind _ _) => apply grows_bind; [|intros ?]
    | |- grows (mret _) => apply grows_ret
    | |- grows (st_gets _) => apply grows_gets
    | |- grows (on_net _) => apply grows_on_net
    | |- grows (record_event _) => apply grows_record
    | |- grows (client_call _ _) => apply grows_client_call
    | |- grows (st_modify _) => apply grows_modify; intros ?
    | |- grows (match ?x with _ => _ end) => destruct x
    | |- grows _ => solve [auto]
    | |- _ `suffix_of` ob_trace (match ?x with _ => _ end) => destruct x
    | |- _ `suffix_of` _ => reflexivity
    end).

Section Grows.
Context {W : Type} `{!Network W}.
Variable h : handlerConfig.
Implicit Types o : outbound W.

Lemma grows_Extension c ext : grows (Extension (W := W) c ext).
Proof. unfold Extension. solve_grows. Qed.
Lemma grows_dialAndGreet src address : grows (dialAndGreet h src address).
Proof. pose proof grows_Extension. unfold dialAndGreet, dial. solve_grows. Qed.
Lemma grows_reconnect src address host a : grows (reconnectOpportunistic h src address host a).
Proof.
  pose proof grows_Extension. pose proof grows_dialAndGreet. unfold reconnectOpportunistic. solve_grows.
Qed.
Lemma grows_connectSMTP src address rt dp : grows (connectSMTP h src address rt dp).
Proof.
  pose proof grows_Extension. pose proof grows_dialAndGreet. pose proof grows_reconnect.
  unfold connectSMTP, negotiateTLS. solve_grows.
Qed.
Lemma grows_closeSession s : grows (closeSession (W := W) s).
Proof. unfold closeSession. solve_grows. Qed.
Lemma grows_closeSessions l : grows (closeSessions (W := W) l).
Proof. pose proof grows_closeSession. induction l; cbn [closeSessions]; solve_grows. Qed.
Lemma grows_get_session key a b : grows (get_session (W := W) key a b).
Proof. pose proof grows_closeSessions. unfold get_session, update_cache, clock. solve_grows. Qed.
Lemma grows_put_session key s b : grows (put_session (W := W) key s b).
Proof. pose proof grows_closeSessions. unfold put_session, update_cache, clock. solve_grows. Qed.
Lemma grows_acquireSession src address rt a dp : grows (acquireSession h src address rt a dp).
Proof.
  pose proof grows_get_session. pose proof grows_connectSMTP. unfold acquireSession, clock. solve_grows.
Qed.
Lemma grows_open_transaction fuel : forall a src address sender rt dp domain mx,
  grows (open_transaction h fuel a src address sender rt dp domain mx).
Proof.
  pose proof grows_acquireSession. pose proof grows_closeSession.
  induction fuel as [|fuel IH]; intros; cbn [open_transaction]; unfold enforceSTS, sendMailFrom; solve_grows.
Qed.
Lemma grows_give_back key s a b : grows (give_back (W := W) key s a b).
Proof.
  pose proof grows_put_session. pose proof grows_closeSession. unfold give_back. solve_grows.
Qed.
Lemma grows_danePolicyFor domain mx address : grows (danePolicyFor h domain mx address).
Proof. unfold danePolicyFor. solve_grows. Qed.

Lemma runs_grows {A} (m : St (outbound W) A) o :
  grows m -> runs m (fun _ o' => exists new, ob_trace o' = new ++ ob_trace o) o.
Proof. intros H. apply H. Qed.

(** The outcomes of RCPT, in order; only an accepted recipient counts as delivered. *)
Lemma rcpt_all_reported s mx rs : forall o,
  runs (rcpt_all s mx rs) (fun ob o' => exists new, ob_trace o' = new ++ ob_trace o /\
    ro_Recipient <$> fst ob = rs /\
    Forall (fun x => known_status (ro_Status x) = true /\
      (delivered x = true -> Called (os_conn s) (Rcpt (ro_Recipient x)) true ∈ new)) (fst ob)) o.
Proof.
  induction rs as [|r rs IH]; intros o; cbn [rcpt_all].
  { apply runs_ret. exists []. split_and!; done. }
  apply runs_bind, runs_client_call. intros w e. apply runs_bind.
  eapply runs_mono; [apply IH|]. intros [outs broken] o' (new & Ht & Hm & Hf). cbn [fst] in *. cbn in Ht.
  set (ev := Called (os_conn s) (Rcpt r) _) in Ht.
  assert (ob_trace o' = (new ++ [ev]) ++ ob_trace o) as Ht' by (rewrite <- app_assoc; exact Ht).
  assert (Forall (fun x => known_status (ro_Status x) = true /\
      (delivered x = true -> Called (os_conn s) (Rcpt (ro_Recipient x)) true ∈ new ++ [ev])) outs) as Hf'.
  { eapply Forall_impl; [exact Hf|]. intros x [H1 H2]. split; [done|]. intros Hd.
    apply elem_of_app. left. by apply H2. }
  destruct e as [e|].
  - destruct (smtpFailureOutcome e) as [[st enh] diag] eqn:Es. apply runs_ret.
    exists (new ++ [ev]). cbn. split_and!; [done|by f_equal|]. constructor; [|done].
    unfold smtpFailureOutcome in Es. injection Es as <- _ _. unfold delivered. cbn.
    repeat case_match; split; try done; by rewrite bool_decide_false.
  - apply runs_ret. exists (new ++ [ev]). cbn. split_and!; [done|by f_equal|].
    constructor; [|done]. split; [done|]. intros _. cbn. apply elem_of_app. right. by left.
Qed.

Lemma data_failed_status e x :
  known_status (ro_Status x) = true ->
  known_status (ro_Status (data_failed e x)) = true /\ delivered (data_failed e x) = false /\
  ro_Recipient (data_failed e x) = ro_Recipient x.
Proof.
  unfold data_failed, smtpFailureOutcome. intros H. destruct (delivered x) eqn:E; [|done].
  cbn. unfold delivered. repeat case_match; cbn; split_and!; try done; by rewrite bool_decide_false.
Qed.

(** No error, no failed recipient. *)
Lemma transaction_error_none outs :
  Forall (fun x => known_status (ro_Status x) = true) outs -> transaction_error outs = None ->
  Forall (fun x => delivered x = true) outs.
Proof.
  unfold transaction_error, count_status. intros Hk. destruct (0 <? _)%nat eqn:E; [done|]. intros _.
  apply Nat.ltb_ge in E. apply Forall_forall. intros x Hx.
  rewrite Forall_forall in Hk. specialize (Hk x Hx). unfold delivered. apply bool_decide_eq_true.
  assert (forall st, ro_Status x = st -> (0 < length (filter (fun y => ro_Status y = st) outs))%nat) as Hl.
  { intros st Hst. assert (x ∈ filter (fun y => ro_Status y = st) outs) as Hin by (by apply list_elem_of_filter).
    apply list_elem_of_lookup in Hin as [i Hi]. apply lookup_lt_Some in Hi. lia. }
  destruct (ro_Status x) eqn:Est; [done| | |done].
  - specialize (Hl _ eq_refl). lia.
  - specialize (Hl _ eq_refl). lia.
Qed.

(** What a finished transaction reports. *)
Definition reported (recipients : list string) (content : string) (new : list event)
    (outs : list RecipientOutcome) (err : option delivery_error) : Prop :=
  (outs = [] /\ err <> None \/ ro_Recipient <$> outs = recipients) /\
  (err = None -> Forall (fun x => delivered x = true) outs) /\
  Forall (fun x => known_status (ro_Status x) = true /\
    (delivered x = true -> exists c, Called c (Rcpt (ro_Recipient x)) true ∈ new /\
                                     Called c (Data content) true ∈ new)) outs.

Lemma reported_mono rs content new new' outs err :
  new ⊆ new' -> reported rs content new outs err -> reported rs content new' outs err.
Proof.
  intros Hs (H1 & H2 & H3). split_and!; [done..|]. eapply Forall_impl; [exact H3|].
  intros x [Hk Hd]. split; [done|]. intros H. destruct (Hd H) as (c & A & B). exists c. set_solver.
Qed.

Lemma transact_reported src address mx rs content s o :
  runs (transact src address mx rs content s)
    (fun '(_, _, outs, err) o' => exists new, ob_trace o' = new ++ ob_trace o /\
       reported rs content new outs err) o.
Proof.
  unfold transact. apply runs_bind. eapply runs_mono; [apply rcpt_all_reported|].
  intros [outs broken] o1 (new1 & T1 & Hm & Hf). cbn [fst] in *.
  assert (forall (o2 : outbound W) new2 final reusable clean, ob_trace o2 = new2 ++ ob_trace o ->
    reported rs content new2 final (transaction_error final) ->
    runs (addr ← delivery_address s;
          _ ← give_back (sessionKey src address) s reusable clean;
          mret (fst addr, snd addr, final, transaction_error final))
      (fun '(_, _, outs, err) o' => exists new, ob_trace o' = new ++ ob_trace o /\
         reported rs content new outs err) o2) as Hrest.
  { intros o2 new2 final reusable clean T2 R2.
    apply runs_bind, runs_bind, runs_gets, runs_ret, runs_bind.
    eapply runs_mono; [apply runs_grows, grows_give_back|]. intros _ o3 (new3 & T3). apply runs_ret.
    exists (new3 ++ new2). split; [by rewrite T3, T2, app_assoc|].
    eapply reported_mono; [|exact R2]. set_solver. }
  apply runs_bind.
  assert (Forall (fun x => known_status (ro_Status x) = true) outs) as Hk
    by (eapply Forall_impl; [exact Hf|by intros x [? _]]).
  destruct (anyDelivered outs) eqn:Ea.
  - apply runs_client_call. intros w r. set (ev := Called (os_conn s) (Data content) _).
    destruct r as [e|]; apply (Hrest _ (ev :: new1)); [exact (f_equal (cons ev) T1)| |exact (f_equal (cons ev) T1)|].
    + split_and!.
      * right. rewrite <- list_fmap_compose. rewrite <- Hm. apply list_fmap_ext. intros i x Hx.
        cbn. apply data_failed_status. by eapply Forall_lookup_1 in Hk.
      * intros H. apply transaction_error_none in H; [done|]. apply Forall_fmap.
        eapply Forall_impl; [exact Hk|]. intros x Hx. cbn. by apply data_failed_status.
      * apply Forall_fmap. eapply Forall_impl; [exact Hk|]. intros x Hx. cbn.
        destruct (data_failed_status e x Hx) as (D1 & D2 & _). split; [done|]. by rewrite D2.
    + split_and!; [by right|by apply transaction_error_none|].
      eapply Forall_impl; [exact Hf|]. intros x [K1 K2]. split; [done|]. intros Hd.
      exists (os_conn s). split; [right; by apply K2|by left].
  - apply runs_ret, (Hrest o1 new1 _ _ _ T1).
    assert (Forall (fun x => delivered x = false) outs) as Hn.
    { apply Forall_forall. intros x Hx. destruct (delivered x) eqn:Ed; [|done].
      unfold anyDelivered in Ea. assert (existsb delivered outs = true) as Ht; [|congruence].
      apply existsb_exists. exists x. split; [by apply list_elem_of_In|done]. }
    split_and!; [by right|by apply transaction_error_none|].
    rewrite Forall_forall in Hk, Hn |- *. intros x Hx. split; [by apply Hk|]. by rewrite Hn.
Qed.

Lemma deliver_reported r o :
  runs (deliver h r) (fun '(_, _, outs, err) o' => exists new, ob_trace o' = new ++ ob_trace o /\
    reported (rq_recipients r) (rq_content r) new outs err) o.
Proof.
  unfold deliver, deliverToAddressWithMetadata.
  assert (forall e o' new, ob_trace o' = new ++ ob_trace o ->
    exists new, ob_trace o' = new ++ ob_trace o /\
      reported (rq_recipients r) (rq_content r) new [] (Some e)) as Hno.
  { intros e o' new Ht. exists new. split; [done|]. split_and!; [by left|done|done]. }
  apply runs_bind. eapply runs_mono; [apply runs_grows, grows_danePolicyFor|].
  intros [dp|e] o1 (new1 & T1); [|by apply runs_ret, (Hno _ _ new1)].
  apply runs_bind. eapply runs_mono; [apply runs_grows, grows_open_transaction|].
  intros [s|e] o2 (new2 & T2).
  - eapply runs_mono; [apply transact_reported|]. intros [[[ip host] outs] err] o3 (new3 & T3 & R).
    exists (new3 ++ new2 ++ new1). split; [by rewrite T3, T2, T1, !app_assoc|].
    eapply reported_mono; [|exact R]. set_solver.
  - apply runs_ret. eapply (Hno _ _ (new2 ++ new1)). by rewrite T2, T1, app_assoc.
Qed.

(** What a transaction reports is what the server said: there is one outcome
    per recipient in order, or none and an error; a recipient is reported as delivered
    only if on one connection the server accepted its RCPT and then DATA with exactly
    this content, both in this delivery; and without an error every recipient is. *)
Theorem delivered_means_accepted r o :
  let '((_, _, outs, err), o') := deliver h r o in
  exists new, ob_trace o' = new ++ ob_trace o /\
              reported (rq_recipients r) (rq_content r) new outs err.
Proof.
  pose proof (deliver_reported r o) as H. unfold runs in H.
  by destruct (deliver h r o) as [[[[ip host] outs] err] o'].
Qed.
End Grows.

(** ** A network for examples *)

(** Like Go's resolver, it drops names that are not host names. *)
Record toy_net := mkToyNet {
  tn_clock : Z;
  tn_extensions : list string;                     (** offered by every server *)
  tn_answer : call -> option delivery_error;
  tn_mx : string -> list MX + delivery_error;
  tn_signed : list string;                         (** domains with signed MX records *)
  tn_tlsa : list TLSA;
  tn_sts : string -> bool -> bool                  (** policy of a domain on a verified server *)
}.

#[global] Instance toy_network : Network toy_net := {|
  net_clock w := tn_clock w;
  net_dial _ _ _ w := (None, w <| tn_clock ::= fun t => t + Millisecond |>);
  net_call _ k w := (tn_answer w k, w);
  net_Extension _ ext w := bool_decide (ext ∈ tn_extensions w);
  net_RemoteAddr _ _ := "192.0.2.25:25";
  net_LookupMX d w := (match tn_mx w d with
                       | inl l => inl (filter (fun m => exists_byte (Ascii.eqb ">") (mx_Host m) = false) l)
                       | inr e => inr e
                       end, w);
  net_MXSecure d w := (inl (bool_decide (d ∈ tn_signed w)), w);
  net_LookupTLSA _ _ w := (inl (tn_tlsa w, true), w);
  net_EnforcePolicy d _ verified w :=
    (if tn_sts w d verified then None else Some (plain_error "policy requires a verified server"), w);
  net_sleep d w := (None, w <| tn_clock ::= fun t => t + d |>);
  net_expired w := (mkDErr "context deadline exceeded" false true true None "" [] false, w)
|}.

(** A server with a self-signed certificate: it authenticates to its TLSA record, not to
    the web PKI. *)
Definition self_signed (k : call) : option delivery_error :=
  match k with StartTLS (VerifyPKI _) => Some (plain_error "x509: unknown authority") | _ => None end.
Definition demo_net : toy_net :=
  mkToyNet 0 ["STARTTLS"; "REQUIRETLS"] self_signed
    (fun _ => inl [mkMX "mx.example" 10]) ["a.example"] [mkTLSA 3 1 1 "abcd"]
    (fun d verified => (negb (d =? "b.example")%string || verified)%bool).
Definition demo_handler : handlerConfig := mkHandlerConfig 3 "out.example.org" None "" true None.
Definition demo_request (domain rcpt : string) (requireTLS : bool) : request :=
  mkRequest None "mx.example:25" "<a@example.org>" [rcpt] "hello" requireTLS domain "mx.example".
Definition demo_outbound : outbound toy_net := mkOutbound demo_net 0 (Some newSessionCache) [].

Lemma transport_policy_kept_witness :
  let o := acts demo_handler [Deliver (demo_request "a.example" "x@a.example" false)] demo_outbound in
  let r := demo_request "c.example" "y@c.example" true in
  ob_trace o <> [] /\
  exists new, ob_trace (snd (deliver demo_handler r o)) = new ++ ob_trace o /\
  forall post pre c k ok, new = post ++ Called c k ok :: pre -> is_send k = true ->
  match fst (danePolicyFor demo_handler "c.example" "mx.example" "mx.example:25" o) with
  | inl dp => may_send None "mx.example:25" true dp "c.example" "mx.example" (ob_trace o) pre c
  | inr _ => False
  end.
Proof.
  split; [by vm_compute|].
  apply (transport_policy_kept demo_handler demo_net (Some newSessionCache)
           [Deliver (demo_request "a.example" "x@a.example" false)]
           (demo_request "c.example" "y@c.example" true)).
  - by right.
  - repeat constructor.
  - by split.
Defined.

(** The parked session of the first delivery carries the second. *)
Example demo_reuse :
  let o := acts demo_handler
             [Deliver (demo_request "a.example" "x@a.example" false);
              Deliver (demo_request "c.example" "y@c.example" true)] demo_outbound in
  ob_next o = 1%nat /\
  existsb (fun e => match e with Called 0 (Mail _ true) true => true | _ => false end) (ob_trace o) = true.
Proof. by vm_compute. Qed.

(** It carries mail to a domain whose MTA-STS policy asks for a certificate that validates,
    too: a session authenticated by DANE is reported to the policy as verified, although
    its certificate is self-signed, and a fresh session to the same server is refused. *)
Example dane_session_counts_as_verified :
  let first := acts demo_handler
                 [Deliver (demo_request "a.example" "x@a.example" false)] demo_outbound in
  let r := demo_request "b.example" "z@b.example" false in
  snd (fst (deliver demo_handler r first)) = None /\
  match snd (fst (deliver demo_handler r demo_outbound)) with Some _ => true | None => false end = true.
Proof. by vm_compute. Qed.
