(* ===== verification/MxLookup.v ===== *)
(** * MxLookup: finding the mail servers of a domain (internal/queue)

    mx_cache.go and [lookupMX] of delivery_handler.go.  The resolver is part of the
    [Network]; every answer it gives is an event [Resolved] of the trace, with the time, so
    that it can be said where the servers of a delivery come from. *)

From stdpp Require Import gmap.
From S2P Require Import Prelude GoStrings GoMath Providers QueueProcessor Outbound.

Set Primitive Projections.

(** ** The cache (mx_cache.go) *)

Record mxCacheEntry := mkMXEntry { mxe_records : list MX; mxe_expires : Z }.

Record cachingMXResolver := mkMXCache {
  mc_ttl : Z;
  mc_max : nat;
  mc_entries : gmap string mxCacheEntry
}.

Definition defaultMXCacheTTL : Z := 5 * Minute.
Definition defaultMXCacheSize : Z := 2048.

Definition newCachingMXResolver (ttl max : Z) : cachingMXResolver :=
  mkMXCache (if ttl <=? 0 then defaultMXCacheTTL else ttl)
            (Z.to_nat (if max <=? 0 then defaultMXCacheSize else max)) ∅.

Definition mx_get (now : Z) (name : string) (c : cachingMXResolver) :
    option (list MX) * cachingMXResolver :=
  match mc_entries c !! name with
  | None => (None, c)
  | Some e => if negb (now <? mxe_expires e) then (None, c <| mc_entries ::= delete name |>)
              else (Some (mxe_records e), c)
  end.

(** The loop that looks for the entry closest to expiry, over the map in some order. *)
Definition sooner (acc : string * Z) (kv : string * mxCacheEntry) : string * Z :=
  let '(oldestName, oldest) := acc in
  if ((oldestName =? "")%string || (mxe_expires kv.2 <? oldest))%bool
  then (kv.1, mxe_expires kv.2) else acc.
Definition soonest (l : list (string * mxCacheEntry)) : string := fst (foldl sooner ("", 0) l).

Definition mx_evictLocked (now : Z) (c : cachingMXResolver) : cachingMXResolver :=
  let fresh := filter (fun kv => now < mxe_expires kv.2) (mc_entries c) in
  let c := c <| mc_entries := fresh |> in
  if (size fresh <? mc_max c)%nat then c
  else
    let name := soonest (map_to_list fresh) in
    if negb (name =? "")%string then c <| mc_entries ::= delete name |> else c.

Definition mx_put (now : Z) (name : string) (records : list MX) (c : cachingMXResolver) :
    cachingMXResolver :=
  let c := if (mc_max c <=? size (mc_entries c))%nat then mx_evictLocked now c else c in
  c <| mc_entries ::= <[name := mkMXEntry records (now + mc_ttl c)]> |>.

(** ** Looking up (lookupMX) *)

Record resolving {W : Type} := mkResolving {
  rv_out : outbound W;
  rv_cache : option cachingMXResolver             (** none: the resolver is asked directly *)
}.
Arguments resolving : clear implicits.
Arguments mkResolving {W}.

(** By preference; servers of one preference stay in the order of the answer. *)
Definition by_pref (l : list MX) : list MX := SliceStable (fun a b => mx_Pref a <? mx_Pref b) l.

Definition root_host (m : MX) : bool := (mx_Host m =? ".")%string.

Definition null_mx (records : list MX) : bool :=
  match records with [m] => (root_host m && (mx_Pref m =? 0))%bool | _ => false end.

(** The servers an answer names: the domain itself for an empty one, none for a Null MX. *)
Definition mx_answer (domain : string) (records : list MX) : list MX + delivery_error :=
  if (length records =? 0)%nat then inl [mkMX domain 0]
  else if null_mx records
  then inr (PermanentError ("domain " +:+ domain +:+ " accepts no mail (Null MX)"))
  else
    let usable := filter (fun m => root_host m = false) records in
    if (length usable =? 0)%nat
    then inr (TemporaryError ("domain " +:+ domain +:+ " returned malformed Null MX"))
    else inl (by_pref usable).

Section Lookup.
Context {W : Type} `{!Network W}.

Abbreviation RV := (St (resolving W)).

Definition rv_do {A} (m : St (outbound W) A) : RV A :=
  st_zoom (fun v => rv_out v) (fun o v => v <| rv_out := o |>) m.

Definition update_mx (f : cachingMXResolver -> cachingMXResolver) : RV unit :=
  st_modify (fun v => v <| rv_cache ::= fmap f |>).

(** The resolver behind the cache. *)
Definition inner_LookupMX (name : string) : St (outbound W) (list MX + delivery_error) :=
  r ← on_net (net_LookupMX name);
  now ← clock;
  _ ← record_event (Resolved name r now);
  mret r.

Definition LookupMX (name : string) : RV (list MX + delivery_error) :=
  cache ← st_gets (fun v => rv_cache v);
  match cache with
  | None => rv_do (inner_LookupMX name)
  | Some c =>
      now ← rv_do clock;
      let '(found, c') := mx_get now name c in
      _ ← update_mx (fun _ => c');
      match found with
      | Some records => mret (inl records)
      | None =>
          r ← rv_do (inner_LookupMX name);
          match r with
          | inr e => mret (inr e)
          | inl records =>
              now ← rv_do clock;
              _ ← update_mx (mx_put now name records);
              mret (inl records)
          end
      end
  end.

Definition not_found_error (domain : string) (e : delivery_error) : delivery_error :=
  e <| de_text := "domain " +:+ domain +:+ " does not exist: " +:+ de_text e |> <| de_permanent := true |>
    <| de_judged := true |>.

(** The attempts that are left, from the [attempt]-th (counted from 0). *)
Fixpoint lookup_attempts (left attempt : nat) (domain : string) : RV (list MX + delivery_error) :=
  match left with
  | O => mret (inl [])
  | Datatypes.S left' =>
      r ← LookupMX domain;
      match r with
      | inl records => mret (inl records)
      | inr e =>
          if is_error dnsNotFound e then mret (inr (not_found_error domain e))
          else match left' with
          | O => mret (inr e)
          | Datatypes.S _ =>
              s ← rv_do (on_net (net_sleep (wrap64 (Z.of_nat (Datatypes.S attempt) * Second))));
              match s with
              | Some e => mret (inr e)
              | None => lookup_attempts left' (Datatypes.S attempt) domain
              end
          end
      end
  end.

Definition lookupMX (maxMXLookups : nat) (domain : string) : RV (list MX + delivery_error) :=
  r ← lookup_attempts maxMXLookups 0 domain;
  match r with
  | inr e => mret (inr e)
  | inl records => mret (mx_answer domain records)
  end.
End Lookup.

(** ** The cache stays within its size *)

Lemma soonest_key (l : list (string * mxCacheEntry)) :
  (forall kv, kv ∈ l -> fst kv <> "") -> l <> [] -> soonest l ∈ fst <$> l.
Proof.
  intros Hk Hl. unfold soonest.
  assert (forall l acc, (forall kv : string * mxCacheEntry, kv ∈ l -> fst kv <> "") ->
    fst (foldl sooner acc l) ∈ fst <$> l \/ fst (foldl sooner acc l) = fst acc /\ (fst acc = "" -> l = [])) as H.
  { clear. induction l as [|kv l IH]; intros [a t] Hk; cbn [foldl]; [by right|].
    assert (fst kv <> "") as Hkv by (apply Hk; by left).
    destruct (IH (sooner (a, t) kv)) as [H|[H H']]; [set_solver|set_solver|]. rewrite H.
    unfold sooner in *. destruct (a =? "")%string eqn:Ea; cbn in *; [left; by left|].
    destruct (mxe_expires kv.2 <? t); cbn in *; [left; by left|]. right. split; [done|]. intros ->. done. }
  destruct (H l ("", 0) Hk) as [Hi|[_ Hn]]; [done|]. by specialize (Hn eq_refl).
Qed.

Lemma mx_evict_room now c :
  mc_entries c !! "" = None -> (0 < mc_max c)%nat -> (size (mc_entries c) <= mc_max c)%nat ->
  (size (mc_entries (mx_evictLocked now c)) < mc_max c)%nat.
Proof.
  intros Hn Hp Hs. unfold mx_evictLocked. set (fresh := filter _ _). cbv zeta.
  change (mc_max (c <| mc_entries := fresh |>)) with (mc_max c).
  destruct (Nat.ltb_spec (size fresh) (mc_max c)) as [E1|E1]; [done|].
  assert (soonest (map_to_list fresh) ∈ fst <$> map_to_list fresh) as Hin.
  { apply soonest_key.
    - intros [k e] Hk; cbn; intros ->. apply elem_of_map_to_list, map_lookup_filter_Some in Hk as [Hk _].
      cbn in Hk. by rewrite Hn in Hk.
    - intros Hl. apply map_to_list_empty_iff in Hl. rewrite Hl, map_size_empty in E1. lia. }
  apply list_elem_of_fmap in Hin as ([k e] & Hk & Hin). cbn in Hk. rewrite Hk.
  apply elem_of_map_to_list in Hin.
  destruct (k =? "")%string eqn:Ek.
  { apply String.eqb_eq in Ek as ->. apply map_lookup_filter_Some in Hin as [Hin _]. by rewrite Hn in Hin. }
  cbn. rewrite map_size_delete, Hin.
  assert (size fresh <= size (mc_entries c))%nat by apply map_subseteq_size, map_filter_subseteq. cbn. lia.
Qed.

(** An answer filed for a name keeps the cache within its size; the resolver has no
    answer for the empty name. *)
Lemma mx_put_bounded now name records c :
  mc_entries c !! "" = None -> (0 < mc_max c)%nat -> (size (mc_entries c) <= mc_max c)%nat ->
  (size (mc_entries (mx_put now name records c)) <= mc_max c)%nat.
Proof.
  intros Hn Hp Hs. unfold mx_put. set (c1 := if (_ <=? _)%nat then _ else _).
  enough (size (mc_entries c1) < mc_max c)%nat as H.
  { cbn. rewrite map_size_insert. destruct (mc_entries c1 !! name); cbn; lia. }
  unfold c1. destruct (Nat.leb_spec (mc_max c) (size (mc_entries c))); [by apply mx_evict_room|done].
Qed.

(** ** Where the servers of a domain come from *)

Section Provenance.
Context {W : Type} `{!Network W}.
Implicit Types v : resolving W.

Definition trace_of v : list event := ob_trace (rv_out v).
Definition time_of v : Z := net_clock (ob_net (rv_out v)).

(** How long an answer is used. *)
Definition window v : Z := match rv_cache v with Some c => mc_ttl c | None => 1 end.

(** Every entry is an answer the resolver gave, to be used until it is [window] old. *)
Definition cache_sound v : Prop :=
  0 < window v /\
  forall c name e, rv_cache v = Some c -> mc_entries c !! name = Some e ->
  exists t, Resolved name (inl (mxe_records e)) t ∈ trace_of v /\ mxe_expires e = t + mc_ttl c.

(** An answer that counts now. *)
Definition current v (name : string) (records : list MX) : Prop :=
  exists t, Resolved name (inl records) t ∈ trace_of v /\ (time_of v < t + window v)%Z.

Lemma runs_inner name (Φ : list MX + delivery_error -> outbound W -> Prop) o :
  (forall w r, Φ r (o <| ob_net := w |> <| ob_trace := Resolved name r (net_clock w) :: ob_trace o |>)) ->
  runs (inner_LookupMX name) Φ o.
Proof.
  intros H. unfold inner_LookupMX. apply runs_bind. unfold runs, on_net.
  destruct (net_LookupMX name (ob_net o)) as [r w]. apply H.
Qed.

Lemma cache_sound_get o c name now :
  cache_sound (mkResolving o (Some c)) ->
  cache_sound (mkResolving o (Some (snd (mx_get now name c)))) /\
  mc_ttl (snd (mx_get now name c)) = mc_ttl c /\
  forall records, fst (mx_get now name c) = Some records ->
  exists t, Resolved name (inl records) t ∈ ob_trace o /\ now < t + mc_ttl c.
Proof.
  intros [Hw Hs]. cbn in Hw. unfold mx_get.
  destruct (mc_entries c !! name) as [e|] eqn:En; [|by split_and!].
  destruct (now <? mxe_expires e) eqn:E; cbn [negb fst snd].
  - split_and!; [done..|]. intros records [= <-].
    destruct (Hs c name e eq_refl En) as (t & Hin & Hx). exists t. split; [done|]. lia.
  - split_and!; [|done|done]. split; [done|]. intros c' n e' [= <-] He'.
    cbn in He'. apply lookup_delete_Some in He' as [_ He']. by apply (Hs c).
Qed.

Lemma mx_put_entries now name records c :
  mc_ttl (mx_put now name records c) = mc_ttl c /\
  forall n e, mc_entries (mx_put now name records c) !! n = Some e ->
  n = name /\ e = mkMXEntry records (now + mc_ttl c) \/ mc_entries c !! n = Some e.
Proof.
  unfold mx_put. set (c1 := if (_ <=? _)%nat then _ else _).
  assert (mc_ttl c1 = mc_ttl c /\ mc_entries c1 ⊆ mc_entries c) as [Ht Hs].
  { unfold c1, mx_evictLocked. destruct (_ <=? _)%nat; [|done]. set (fresh := filter _ _).
    assert (fresh ⊆ mc_entries c) by apply map_filter_subseteq.
    destruct (_ <? _)%nat; [done|]. destruct (negb _); [|done]. split; [done|].
    cbn. etrans; [apply delete_subseteq|done]. }
  split; [done|]. intros n e He. cbn in He. apply lookup_insert_Some in He as [[<- <-]|[_ He]].
  - left. by rewrite Ht.
  - right. by eapply lookup_weaken.
Qed.

Lemma cache_sound_put o c name records now :
  cache_sound (mkResolving o (Some c)) -> Resolved name (inl records) now ∈ ob_trace o ->
  cache_sound (mkResolving o (Some (mx_put now name records c))).
Proof.
  intros [Hw Hs] Hin. destruct (mx_put_entries now name records c) as [Ht Hl].
  split; [change (0 < mc_ttl (mx_put now name records c)); by rewrite Ht|].
  intros c' n e [= <-] He. rewrite Ht.
  destruct (Hl n e He) as [[-> ->]|He']; [by exists now|by apply (Hs c)].
Qed.

Lemma cache_sound_trace o o' k :
  (forall e, e ∈ ob_trace o -> e ∈ ob_trace o') -> cache_sound (mkResolving o k) ->
  cache_sound (mkResolving o' k).
Proof.
  intros Ho [Hw Hs]. split; [done|]. intros c n e Hc He. destruct (Hs c n e Hc He) as (t & Hin & Ht).
  exists t. split; [by apply Ho|done].
Qed.

(** One query: a fresh answer of the resolver, now or lately, or its failure, now. *)
Definition queried v name (r : list MX + delivery_error) v' : Prop :=
  cache_sound v' /\ window v' = window v /\
  match r with
  | inl records => current v' name records /\
      (trace_of v' = trace_of v \/ exists t, trace_of v' = Resolved name r t :: trace_of v)
  | inr _ => exists t, trace_of v' = Resolved name r t :: trace_of v
  end.

Lemma runs_LookupMX name v : cache_sound v -> runs (LookupMX name) (queried v name) v.
Proof.
  intros Hv. unfold LookupMX. apply runs_bind, runs_gets. cbv beta. destruct v as [o [c|]]; cbn [rv_cache].
  - pose proof Hv as [Hw _]. cbn in Hw.
    destruct (cache_sound_get o c name (net_clock (ob_net o)) Hv) as (S1 & T1 & G1).
    apply runs_bind, runs_zoom. unfold clock. apply runs_gets. cbn [rv_out].
    destruct (mx_get (net_clock (ob_net o)) name c) as [found c'] eqn:Eg. cbn [fst snd] in *.
    apply runs_bind, runs_modify. destruct found as [records|].
    + apply runs_ret. destruct (G1 records eq_refl) as (t & Hin & Ht).
      split_and!; [done|exact T1| |by left]. exists t. split; [done|]. unfold time_of, window. cbn. by rewrite T1.
    + apply runs_bind, runs_zoom, runs_inner. intros w r. cbn [rv_out].
      set (o2 := update ob_trace _ _).
      assert (cache_sound (mkResolving o2 (Some c'))) as S2.
      { eapply cache_sound_trace, S1. intros e He. by right. }
      destruct r as [records|e]; [|by apply runs_ret; split_and!; [done|exact T1|eexists]].
      apply runs_bind, runs_zoom, runs_gets. apply runs_bind, runs_modify, runs_ret.
      destruct (mx_put_entries (net_clock w) name records c') as [T3 _].
      split_and!; [apply cache_sound_put; [done|by left]|exact (eq_trans T3 T1)| |by right; eexists].
      exists (net_clock w). split; [by left|].
      change (net_clock w < net_clock w + mc_ttl (mx_put (net_clock w) name records c')).
      rewrite T3, T1. lia.
  - apply runs_zoom, runs_inner. intros w r.
    assert (forall x : outbound W, cache_sound (mkResolving x None)) as S1 by (by split).
    destruct r as [records|e]; split_and!; [apply S1|done| |by right; eexists|apply S1|done|by eexists].
    exists (net_clock w). split; [by left|]. unfold time_of, window. cbn. lia.
Qed.

(** Attempt after attempt: an answer, or a failure that says why. *)
Definition attempted (left : nat) v (domain : string) (r : list MX + delivery_error) v' : Prop :=
  cache_sound v' /\ window v' = window v /\
  exists new, trace_of v' = new ++ trace_of v /\ (length new <= left)%nat /\
  match r with
  | inl records => current v' domain records
  | inr e =>
      (exists e' t, Resolved domain (inr e') t ∈ new /\ dnsNotFound ∈ de_marks e' /\
                    e = not_found_error domain e') \/
      (exists t, Resolved domain (inr e) t ∈ new /\ dnsNotFound ∉ de_marks e /\ length new = left) \/
      (exists d w w', net_sleep d w = (Some e, w'))
  end.

Lemma lookup_attempts_spec domain left : forall attempt v,
  (0 < left)%nat -> cache_sound v ->
  runs (lookup_attempts left attempt domain) (attempted left v domain) v.
Proof.
  induction left as [|left IH]; intros attempt v Hl Hv; [lia|]. cbn [lookup_attempts].
  apply runs_bind. eapply runs_mono; [by apply runs_LookupMX|].
  intros [records|e] v1 (S1 & W1 & H1).
  { apply runs_ret. destruct H1 as [C1 T1]. split_and!; [done..|].
    destruct T1 as [T1|[t T1]]; [exists []|eexists [_]]; (split_and!; [exact T1|cbn; lia|done]). }
  destruct H1 as [t T1]. destruct (is_error dnsNotFound e) eqn:En.
  { apply runs_ret. split_and!; [done..|]. eexists [_]. split_and!; [exact T1|cbn; lia|].
    left. exists e, t. split_and!; [by left|by apply bool_decide_eq_true in En|done]. }
  apply bool_decide_eq_false in En. destruct left as [|left].
  { apply runs_ret. split_and!; [done..|]. eexists [_]. split_and!; [exact T1|done|].
    right; left. exists t. split_and!; [by left|done|done]. }
  apply runs_bind, runs_zoom. unfold runs at 1, on_net.
  destruct (net_sleep _ (ob_net (rv_out v1))) as [[e'|] w'] eqn:Es; cbn [fst snd].
  { apply runs_ret. split_and!; [by destruct v1; eapply cache_sound_trace, S1|exact W1|].
    eexists [_]. split_and!; [exact T1|cbn; lia|]. right; right. by eexists _, _, _. }
  eapply runs_mono; [apply IH; [lia|by destruct v1; eapply cache_sound_trace, S1]|].
  intros r v2 (S2 & W2 & new & T2 & L2 & H2). split_and!; [done|exact (eq_trans W2 W1)|].
  exists (new ++ [Resolved domain (inr e) t]). split_and!.
  - rewrite <- app_assoc. etrans; [exact T2|]. exact (f_equal (app new) T1).
  - rewrite length_app. cbn. lia.
  - destruct r as [records|e2]; [done|]. destruct H2 as [(e3 & t3 & Hin & Hnf & ->)|[(t3 & Hin & Hnf & Hlen)|Hsl]].
    + left. exists e3, t3. split_and!; [set_solver|done|done].
    + right; left. exists t3. split_and!; [set_solver|done|]. rewrite length_app. cbn. lia.
    + by right; right.
Qed.

(** What an answer means. *)
Lemma mx_answer_spec domain records :
  match mx_answer domain records with
  | inl servers =>
      servers <> [] /\
      (records = [] /\ servers = [mkMX domain 0] \/
       Sorted (fun a b => mx_Pref a <= mx_Pref b) servers /\
       servers ≡ₚ filter (fun m => root_host m = false) records /\
       forall pref, filter (fun m => mx_Pref m = pref) servers
                    = filter (fun m => mx_Pref m = pref) (filter (fun m => root_host m = false) records))
  | inr e =>
      Forall (fun m => root_host m = true) records /\ records <> [] /\
      de_permanent e = null_mx records /\ de_temporary e = negb (null_mx records)
  end.
Proof.
  unfold mx_answer. destruct records as [|m records]; [by split; [|left]|]. cbn [length Nat.eqb].
  destruct (null_mx (m :: records)) eqn:En.
  { destruct records; [|done]. cbn in En. apply andb_true_iff in En as [E1 E2]. split_and!; try done.
    by constructor. }
  set (usable := filter _ _). destruct usable as [|u us] eqn:Eu; cbn [length Nat.eqb].
  { split_and!; try done. apply Forall_forall. intros x Hx. destruct (root_host x) eqn:Ex; [done|].
    assert (x ∈ usable) as Hin by (by apply list_elem_of_filter). rewrite Eu in Hin. by apply elem_of_nil in Hin. }
  rewrite <- Eu. assert (by_pref usable ≡ₚ usable) as Hp by apply SliceStable_Permutation.
  split; [intros E0; rewrite E0, Eu in Hp; by apply Permutation_nil_cons in Hp|]. right. split_and!; [|done|].
  - eapply Sorted_ind with (P := Sorted _);
      [constructor| |apply SliceStable_Sorted; intros a b; lia].
    intros a l _ IH Hd. constructor; [done|]. destruct Hd; constructor. lia.
  - intros pref. apply SliceStable_stable. intros a b -> ->. lia.
Qed.

(** C21 (error). Looking up the mail servers of a domain.  With any resolver, slow, failing
    or lying, and after any use of the cache, the resolver is asked at most
    [maxMXLookups] times, and: when servers are returned, they are those of an answer the
    resolver gave for this very domain no longer ago than the cache's window, none left
    out but the root, most preferred first and in the answer's order among equals, or the
    domain itself if the answer was empty; when the error is permanent, so that the
    message bounces, the resolver said in this lookup that the domain does not exist, or
    the answer is a Null MX; a malformed answer is a temporary error; and any other
    error is the resolver's after the last attempt, or the end of the context. *)
Theorem lookupMX_spec maxMXLookups domain v :
  (0 < maxMXLookups)%nat -> cache_sound v ->
  let '(res, v') := lookupMX maxMXLookups domain v in
  cache_sound v' /\
  exists new, trace_of v' = new ++ trace_of v /\ (length new <= maxMXLookups)%nat /\
  match res with
  | inl servers =>
      servers <> [] /\
      exists records, current v' domain records /\
      (records = [] /\ servers = [mkMX domain 0] \/
       Sorted (fun a b => mx_Pref a <= mx_Pref b) servers /\
       servers ≡ₚ filter (fun m => root_host m = false) records /\
       forall pref, filter (fun m => mx_Pref m = pref) servers
                    = filter (fun m => mx_Pref m = pref) (filter (fun m => root_host m = false) records))
  | inr e =>
      (exists e' t, Resolved domain (inr e') t ∈ new /\ dnsNotFound ∈ de_marks e' /\
                    de_permanent e = true) \/
      (exists records, current v' domain records /\ records <> [] /\
         Forall (fun m => root_host m = true) records /\
         de_permanent e = null_mx records /\ de_temporary e = negb (null_mx records)) \/
      (exists t, Resolved domain (inr e) t ∈ new /\ dnsNotFound ∉ de_marks e /\
                 length new = maxMXLookups) \/
      (exists d w w', net_sleep d w = (Some e, w'))
  end.
Proof.
  intros Hm Hv. unfold lookupMX, mbind, St_bind.
  pose proof (lookup_attempts_spec domain maxMXLookups 0 v Hm Hv) as H. unfold runs in H.
  destruct (lookup_attempts maxMXLookups 0 domain v) as [r v'].
  destruct H as (S' & _ & new & T & L & H). destruct r as [records|e]; cbn.
  - split; [done|]. exists new. split_and!; [done..|]. pose proof (mx_answer_spec domain records) as A.
    destruct (mx_answer domain records) as [servers|e].
    + destruct A as [A1 A2]. split; [done|]. by exists records.
    + destruct A as (A1 & A2 & A3 & A4). right; left. by exists records.
  - split; [done|]. exists new. split_and!; [done..|]. destruct H as [(e' & t & A1 & A2 & ->)|[H|H]].
    + left. by exists e', t.
    + right; right; by left.
    + by do 3 right.
Qed.
End Provenance.

(** ** Examples *)

(** A domain with two servers of one preference, one better, and a stray root. *)
Definition demo_records : list MX := [mkMX "b.example" 20; mkMX "." 0; mkMX "c.example" 20; mkMX "a.example" 10].
Definition demo_resolver : toy_net :=
  mkToyNet 0 [] (fun _ => None)
    (fun d => if (d =? "null.example")%string then inl [mkMX "." 0]
              else if (d =? "gone.example")%string
              then inr (mkDErr "no such host" false false true None "" [dnsNotFound] false)
              else if (d =? "down.example")%string
              then inr (mkDErr "server misbehaving" false true true None "" [] false)
              else inl demo_records) [] [] (fun _ _ => true).
Definition demo_resolving : resolving toy_net :=
  mkResolving (mkOutbound demo_resolver 0 None []) (Some (newCachingMXResolver 0 0)).

Lemma lookupMX_spec_witness :
  exists new, trace_of (snd (lookupMX 3 "example.org" demo_resolving)) = new ++ [] /\
              (length new <= 3)%nat /\
              match fst (lookupMX 3 "example.org" demo_resolving) with
              | inl servers => servers <> []
              | inr _ => False
              end.
Proof.
  assert (cache_sound demo_resolving) as Hs by (split; [done|intros c n e [= <-] [=]]).
  pose proof (lookupMX_spec 3 "example.org" demo_resolving ltac:(lia) Hs) as H.
  destruct (lookupMX 3 "example.org" demo_resolving) as [res v'] eqn:E.
  destruct H as (_ & new & T & L & H). exists new. split; [exact T|]. split; [exact L|].
  destruct res as [servers|e]; [by destruct H|]. exfalso. revert E. by vm_compute.
Defined.

Example demo_lookups :
  let ask d := fst (lookupMX 3 d demo_resolving) in
  ask "example.org" = inl [mkMX "a.example" 10; mkMX "b.example" 20; mkMX "c.example" 20] /\
  match ask "null.example", ask "gone.example", ask "down.example" with
  | inr n, inr g, inr d => de_permanent n = true /\ de_permanent g = true /\ de_temporary d = true
  | _, _, _ => False
  end /\
  length (trace_of (snd (lookupMX 3 "down.example" demo_resolving))) = 3%nat.
Proof. by vm_compute. Qed.

(** The second lookup is answered by the cache, until five minutes have passed. *)
Example demo_cached :
  let v := snd (lookupMX 3 "example.org" demo_resolving) in
  let later t := v <| rv_out ::= fun o => o <| ob_net := demo_resolver <| tn_clock := t |> |> |> in
  length (trace_of (snd (lookupMX 3 "example.org" (later (5 * Minute - 1))))) = 1%nat /\
  length (trace_of (snd (lookupMX 3 "example.org" (later (5 * Minute))))) = 2%nat.
Proof. by vm_compute. Qed.
