(* ===== verification/Delivery.v ===== *)
(** * Delivery: a message on its way to other servers (internal/queue: delivery_handler.go)

    The SMTP delivery handler above [Outbound] and [MxLookup]: signing, grouping by domain,
    pools and shaping around each domain, the servers of a domain in turn, and the one
    result that is reported to the queue processor.

    Deliveries of one handler run one after the other here; workers of the program share
    the handler, whose parts each keep their own lock.  The DKIM signer and the ARC sealer
    are parameters.  The guard of the shared store is one object of the shaper and the
    pools: the handler keeps it and lends it to whichever is used. *)

From stdpp Require Import gmap.
From S2P Require Import Prelude GoStrings GoNet GoMath SharedState Shaper Pools Providers QueueStorage QueueProcessor Outbound MxLookup.

Set Primitive Projections.

Record handler {W S : Type} := mkHandler {
  hd_out : outbound W;
  hd_mx : option cachingMXResolver;
  hd_shaper : option Shaper;
  hd_providers : option ProviderRouter;
  hd_pools : option PoolRouter;
  hd_shared : option sharedGuard;
  hd_store : S
}.
Arguments handler : clear implicits.
Arguments mkHandler {W S}.

(** ** The message *)

Section Message.
Context `{U : UnicodeTables}.

Definition messageRequiresTLS (msg : Message) : bool :=
  bool_decide (TrimSpace (ToLower (annotation msg "require_tls")) ∈ ["1"; "true"; "yes"; "on"]).

Definition CRLF2 : string := String CR (String LF "").

(** The lines behind the Authentication-Results line that continue it. *)
Fixpoint unfold_rest (lines : list string) : string :=
  match lines with
  | [] => ""
  | line :: lines' =>
      match first_byte line with
      | Some c => if (Ascii.eqb c SP || Ascii.eqb c TAB)%bool
                  then " " +:+ TrimSpace line +:+ unfold_rest lines' else ""
      | None => ""
      end
  end.

Fixpoint first_results (lines : list string) : string :=
  match lines with
  | [] => ""
  | line :: lines' =>
      if HasPrefix (ToLower line) "authentication-results:"
      then TrimSpace (sdrop 23 line) +:+ unfold_rest lines'
      else first_results lines'
  end.

Definition authenticationResultsValue (content : string) : string :=
  match Index content (CRLF2 +:+ CRLF2) with
  | None => ""
  | Some headerEnd => first_results (SplitString (stake headerEnd content) CRLF2)
  end.

(** *** The signing domain (internal/dkim/signer.go) *)

Definition DomainFromAddress (addr : string) : string :=
  let addr := Trim (TrimSpace addr) "<>" in
  match LastIndexByte addr "@" with
  | None => ""
  | Some at_ => if (at_ =? String.length addr - 1)%nat then ""
                else ToLower (TrimSpace (sdrop (Datatypes.S at_) addr))
  end.

(** The address in angle brackets, when there is one. *)
Definition bracketed (value : string) : string :=
  match LastIndexByte value "<" with
  | None => value
  | Some lt => match IndexByte (sdrop lt value) ">" with
               | None => value
               | Some gt => stake (gt - 1) (sdrop (Datatypes.S lt) value)
               end
  end.

Fixpoint from_header (lines : list string) : string :=
  match lines with
  | [] => ""
  | line :: lines' =>
      match first_byte line with
      | None => from_header lines'
      | Some c =>
          if (Ascii.eqb c SP || Ascii.eqb c TAB)%bool then from_header lines'
          else if HasPrefix (ToLower line) "from:"
          then DomainFromAddress (bracketed (TrimSpace (sdrop 5 line)))
          else from_header lines'
      end
  end.

Definition FromHeaderDomain (content : string) : string :=
  let lf := String LF "" in
  let headerEnd := match Index content (CRLF2 +:+ CRLF2) with
                   | Some n => n
                   | None => default (String.length content) (Index content (lf +:+ lf))
                   end in
  from_header (SplitString (ReplaceAll (stake headerEnd content) CRLF2 lf) lf).

Definition AnnotationDKIMSigned : string := "dkim_signed".

(** [Sign(content, domain)] of the DKIM signer, none when signing is off. *)
Definition signContent (signer : option (string -> string -> string + delivery_error))
    (msg : Message) (content : string) : string + delivery_error :=
  match signer with
  | None => inl content
  | Some sign =>
      let domain := DomainFromAddress (m_From msg) in
      let domain := if (domain =? "")%string then FromHeaderDomain content else domain in
      if (domain =? "")%string then inl content
      else if EqualFold (annotation msg AnnotationDKIMSigned) domain then inl content
      else match sign content domain with
           | inr e => inr (wrapf ("dkim signing failed for message " +:+ m_ID msg
                                  +:+ " and domain " +:+ domain +:+ ": ") e)
           | inl signed => inl signed
           end
  end.

(** Signing, then sealing what was signed. *)
Definition prepared_content (signer sealer : option (string -> string -> string + delivery_error))
    (msg : Message) (content : string) : string + delivery_error :=
  match signContent signer msg content with
  | inr e => inr e
  | inl content =>
      match sealer with
      | None => inl content
      | Some seal => seal content (authenticationResultsValue content)
      end
  end.

(** An address with one "@". *)
Definition domain_of (recipient : string) : option string :=
  match Split recipient "@" with
  | [_; domain] => Some (ToLower domain)
  | _ => None
  end.

Fixpoint group_recipients (recipients : list string) (groups : gmap string (list string)) :
    gmap string (list string) :=
  match recipients with
  | [] => groups
  | r :: rs =>
      group_recipients rs
        (match domain_of r with
         | None => groups
         | Some d => <[d := default [] (groups !! d) ++ [r]]> groups
         end)
  end.
Definition groupRecipientsByDomain (recipients : list string) : gmap string (list string) :=
  group_recipients recipients ∅.

(** [sort.Strings] of the keys. *)
Definition sorted_domains (groups : gmap string (list string)) : list string :=
  SliceStable String.ltb (fst <$> map_to_list groups).

(** ** Several failures as one *)

Record domainFailure := mkDomainFailure { df_domain : string; df_err : delivery_error }.

Definition aggregateDomainFailures (failures : list domainFailure) : option delivery_error :=
  match failures with
  | [] => None
  | _ =>
      let ordered := SliceStable (fun a b => String.ltb (df_domain a) (df_domain b)) failures in
      let allPermanent := forallb (fun f => negb (isTemporaryFailure (Some (df_err f)))) ordered in
      Some (mkDErr ("delivery failures: " +:+
                    Join ((fun f => df_domain f +:+ ": " +:+ de_text (df_err f)) <$> ordered) "; ")
              allPermanent (negb allPermanent) false None "" [] true)
  end.

Definition buildDeliveryResult (now : Z) (recipients : list string) (delivered : nat) (ip host : string)
    (lastError : option delivery_error) (outcomes : list RecipientOutcome) :
    DeliveryResult * option delivery_error :=
  let share := FormatInt (Z.of_nat delivered) +:+ "/" +:+ FormatInt (Z.of_nat (length recipients)) in
  let err :=
    if ((0 <? delivered) && (delivered <? length recipients))%nat then
      let prefix := "partial delivery: " +:+ share +:+ " recipients delivered: " in
      Some (match lastError with
            | Some e => wrapf prefix e
            | None => plain_error (prefix +:+ "%!w(<nil>)")
            end)
    else if (delivered =? 0)%nat then
      Some (default (plain_error "delivery failed for all recipients") lastError)
    else None in
  (mkResult (0 <? delivered)%nat err ip host now ("Delivered to " +:+ share +:+ " recipients") outcomes "", err).
End Message.

Definition sourceAddr (src : option sourceIP) : string := match src with None => "" | Some s => src_addr s end.
Definition sourcePool (src : option sourceIP) : string := match src with None => "" | Some s => src_pool s end.
Definition providerName (p : option provider) : string := match p with None => "" | Some p => pv_name p end.

Definition ErrDestinationBackingOff_error (domain : string) (wait : Z) : delivery_error :=
  (plain_error ("destination is backing off after a deferral: " +:+ domain +:+ " for another "
                +:+ duration_string (Round wait Second))) <| de_marks := [ErrDestinationBackingOff] |>.
Definition ErrPoolAtCapacity_error (text : string) : delivery_error :=
  (TemporaryError text) <| de_marks := [ErrPoolAtCapacity] |>.

(** A failure of our own making: the receiver has not seen the message. *)
Definition self_made (err : option delivery_error) : bool :=
  match err with
  | Some e => (is_error ErrPoolAtCapacity e || is_error ErrDestinationBackingOff e)%bool
  | None => false
  end.

(** ** A domain *)

Section Handler.
Context {W S : Type} `{!Network W} `{!SharedStore S} `{U : UnicodeTables}.
Variable h : handlerConfig.

Abbreviation HD := (St (handler W S)).

Definition on_out {A} (m : St (outbound W) A) : HD A :=
  st_zoom (fun x => hd_out x) (fun o x => x <| hd_out := o |>) m.
Definition hd_clock : HD Z := on_out clock.

Definition on_resolver {A} (m : St (resolving W) A) : HD A :=
  st_zoom (fun x => mkResolving (hd_out x) (hd_mx x))
          (fun v x => x <| hd_out := rv_out v |> <| hd_mx := rv_cache v |>) m.

(** With the shaper, if there is one. *)
Definition on_shaper {A} (f : Shaper * S -> A * (Shaper * S)) : HD (option A) := fun x =>
  match hd_shaper x with
  | None => (None, x)
  | Some s =>
      let '(a, (s', store)) := f (s <| s_guard := hd_shared x |>, hd_store x) in
      (Some a, x <| hd_shaper := Some s' |> <| hd_shared := s_guard s' |> <| hd_store := store |>)
  end.
Definition report (f : Shaper -> Shaper) : HD unit :=
  _ ← on_shaper (fun '(s, store) => (tt, (f s, store))); mret tt.

(** With the pools, if there are any. *)
Definition on_pools {A} (f : PoolRouter * S -> A * (PoolRouter * S)) : HD (option A) := fun x =>
  match hd_pools x with
  | None => (None, x)
  | Some r =>
      let '(a, (r', store)) := f (r <| r_shared := hd_shared x |>, hd_store x) in
      (Some a, x <| hd_pools := Some r' |> <| hd_shared := r_shared r' |> <| hd_store := store |>)
  end.

(** [AcquireWithLimits]: the channel a slot was taken of. *)
Definition AcquireWithLimits (key : string) (limits : option Limits) : HD (option nat + delivery_error) :=
  now ← hd_clock;
  r ← on_shaper (acquire_reserve now key limits);
  match r with
  | None => mret (inl None)
  | Some (Err _) =>
      s ← st_gets (fun x => hd_shaper x);
      let until := match s with Some s => from_option deferUntil now (s_domains s !! key) | None => now end in
      mret (inr (ErrDestinationBackingOff_error key (until - now)))
  | Some (Ok (wait, slot)) =>
      woken ← (if 0 <? wait then on_out (on_net (net_sleep wait)) else mret None);
      match woken with
      | Some e => mret (inr e)
      | None =>
          taken ← on_shaper (fun '(s, store) =>
                    match take_slot slot s with
                    | Some s' => (true, (s', store))
                    | None => (false, (s, store))
                    end);
          match taken with
          | Some false => e ← on_out (on_net net_expired); mret (inr e)
          | _ => mret (inl slot)
          end
      end
  end.

(** The servers in turn, until one has said something about the recipients. *)
Fixpoint try_servers (src : option sourceIP) (from domain : string) (recipients : list string)
    (content : string) (requireTLS : bool) (servers : list MX) (lastError : option delivery_error)
    (refusedAll : bool) : St (outbound W) (string * string * list RecipientOutcome * option delivery_error) :=
  match servers with
  | [] =>
      let last := default (plain_error "%!w(<nil>)") lastError in
      let prefix := "delivery failed to all MX hosts for domain " +:+ domain +:+ ": " in
      mret ("", "", [],
            Some (if (negb refusedAll && is_error errRefusedDestination last)%bool
                  then TemporaryError (prefix +:+ de_text last) else wrapf prefix last))
  | mx :: servers' =>
      r ← attemptDeliveryToHostWithMetadata h src (mx_Host mx) from recipients content requireTLS domain;
      let '(ip, host, outs, err) := r in
      if (0 <? length outs)%nat then mret r
      else match err with
      | Some e => try_servers src from domain recipients content requireTLS servers' (Some e)
                    (refusedAll && is_error errRefusedDestination e)
      | None => mret (ip, host, [], None)
      end
  end.

Definition known_provider (domain : string) : HD (option provider) :=
  st_gets (fun x => known domain (hd_providers x)).

Definition match_provider (domain : string) (servers : list MX) : HD (option provider) := fun x =>
  let '(p, r) := matchMX domain servers (hd_providers x) in (p, x <| hd_providers := r |>).

(** Behind the check for a pause: the servers, a slot, and the servers in turn. *)
Definition deliver_to_servers (src : option sourceIP) (msg : Message) (domain : string)
    (recipients : list string) (content : string) (requireTLS : bool) :
    HD (string * string * list RecipientOutcome * option delivery_error) :=
  mx ← on_resolver (lookupMX (hc_maxMXLookups h) domain);
  match mx with
  | inr e => mret ("", "", [], Some (wrapf ("MX lookup failed for " +:+ domain +:+ ": ") e))
  | inl [] => mret ("", "", [], Some (plain_error ("no MX records found for domain " +:+ domain)))
  | inl servers =>
      shaped ← st_gets (fun x => hd_shaper x);
      slot ← (match shaped with
              | None => mret (inl None)
              | Some _ =>
                  prov ← match_provider domain servers;
                  AcquireWithLimits (shapingKey src (destinationKey prov domain)) (pv_limits <$> prov)
              end);
      match slot with
      | inr e => mret ("", "", [], Some e)
      | inl slot =>
          r ← on_out (try_servers src (m_From msg) domain recipients content requireTLS servers None true);
          _ ← report (release_slot slot);
          mret r
      end
  end.

Definition deliverToDomainWithMetadata (src : option sourceIP) (msg : Message) (domain : string)
    (recipients : list string) (content : string) (requireTLS : bool) :
    HD (string * string * list RecipientOutcome * option delivery_error) :=
  prov ← known_provider domain;
  now ← hd_clock;
  paused ← on_shaper (BackingOff now (shapingKey src (destinationKey prov domain)));
  match paused with
  | Some (Some wait) => mret ("", "", [], Some (ErrDestinationBackingOff_error domain wait))
  | _ => deliver_to_servers src msg domain recipients content requireTLS
  end.

(** ** The message *)

Definition reportDeferral (key : string) (prov : option provider) (err : option delivery_error)
    (outcomes : list RecipientOutcome) : HD deferralKind :=
  let kind := classifyDeferral prov err outcomes in
  now ← hd_clock;
  _ ← (match kind, prov with
       | deferralThrottle, Some p =>
           _ ← on_shaper (ReportThrottle now key (pv_backoff p) (pv_backoffMax p)); mret tt
       | deferralThrottle, None => mret tt          (* only a provider's signals make a throttle *)
       | deferralRecipient, _ => report (ReportRecipientDeferral now key)
       | deferralGeneric, _ => report (fun s => snd (ReportDeferral now key s))
       end);
  mret kind.

(** What one domain adds to the result. *)
Record domainReport := mkDomainReport {
  rp_outcomes : list RecipientOutcome;
  rp_failure : option delivery_error;
  rp_delivered : nat;
  rp_ip : string;
  rp_host : string
}.

Definition attribute (src : option sourceIP) (prov : option provider) (throttled : bool)
    (o : RecipientOutcome) : RecipientOutcome :=
  mkOutcome (ro_Recipient o) (ro_Status o) (ro_EnhancedStatusCode o) (ro_Diagnostic o) (ro_Route o)
    (sourceAddr src) (sourcePool src) (providerName prov)
    (throttled && bool_decide (ro_Status o = RecipientTemporaryFailure))%bool.

(** [acquire] of the pool router: the ticket, none without a pool. *)
Definition acquire_source (sender : string) : HD (option ticket + delivery_error) :=
  now ← hd_clock;
  r ← on_pools (acquire now sender);
  mret (match r with
        | None => inl None
        | Some (Ok t) => inl t
        | Some (Err e) => inr (ErrPoolAtCapacity_error e)
        end).

Definition release_source (t : option ticket) : HD unit :=
  match t with
  | None => mret tt
  | Some t => now ← hd_clock; _ ← on_pools (refund now t); mret tt
  end.

(** What the shaper is told, and whether the provider is throttling. *)
Definition tell_shaper (src : option sourceIP) (prov : option provider) (domain : string)
    (err : option delivery_error) (outcomes : list RecipientOutcome) : HD bool :=
  let key := shapingKey src (destinationKey prov domain) in
  now ← hd_clock;
  shaped ← st_gets (fun x => hd_shaper x);
  match shaped, err with
  | None, _ => mret false
  | Some _, None => _ ← report (ReportSuccess now key); mret false
  | Some _, Some e =>
      if isTemporaryFailure (Some e) then
        if self_made err then mret false
        else kind ← reportDeferral key prov err outcomes;
             mret (match kind with deferralThrottle => true | _ => false end)
      else _ ← report (ReportPermanentFailure now key); mret false
  end.

(** One round of the loop over the domains. *)
Definition deliver_domain (msg : Message) (domain : string) (recipients : list string)
    (content : string) (requireTLS : bool) : HD domainReport :=
  ticket ← acquire_source (m_From msg);
  let src := match ticket with inl (Some t) => Some (t_src t) | _ => None end in
  r ← (match ticket with
       | inr e => mret ("", "", [], Some e)
       | inl t =>
           r ← deliverToDomainWithMetadata src msg domain recipients content requireTLS;
           let '(_, _, outs, err) := r in
           _ ← (match err with
                | Some _ => if negb (anyDelivered outs) then release_source t else mret tt
                | None => mret tt
                end);
           mret r
       end);
  let '(ip, host, outs, err) := r in
  prov ← known_provider domain;
  throttled ← tell_shaper src prov domain err outs;
  let status := match err with
                | None => RecipientDelivered
                | Some _ => if isTemporaryFailure err then RecipientTemporaryFailure
                            else RecipientPermanentFailure
                end in
  let rest := (fun r => mkOutcome r status "" (from_option de_text "" err)
                          (match err with None => host | Some _ => domain end) "" "" "" false)
              <$> drop (length outs) recipients in
  let all := outs ++ rest in
  let all := if self_made err then all else attribute src prov throttled <$> all in
  let count := (length (filter (fun o => ro_Status o = RecipientDelivered) outs) +
                match err, outs with None, [] => length recipients | _, _ => 0 end)%nat in
  mret (mkDomainReport all err count ip host).

Fixpoint deliver_domains (msg : Message) (groups : gmap string (list string)) (domains : list string)
    (content : string) (requireTLS : bool) : HD (list (string * domainReport)) :=
  match domains with
  | [] => mret []
  | d :: ds =>
      rp ← deliver_domain msg d (default [] (groups !! d)) content requireTLS;
      rest ← deliver_domains msg groups ds content requireTLS;
      mret ((d, rp) :: rest)
  end.

(** The first domain delivered to from a known address. *)
Definition first_success (l : list (string * domainReport)) : string * string :=
  match find (fun x => match rp_failure x.2 with
                       | None => negb (rp_ip x.2 =? "")%string
                       | Some _ => false
                       end) l with
  | Some x => (rp_ip x.2, rp_host x.2)
  | None => ("", "")
  end.

Definition deliverWithMetadata (signer sealer : option (string -> string -> string + delivery_error))
    (msg : Message) (content : string) : HD (option DeliveryResult * option delivery_error) :=
  match prepared_content signer sealer msg content with
  | inr e => mret (None, Some e)
  | inl content =>
      let groups := groupRecipientsByDomain (m_To msg) in
      reports ← deliver_domains msg groups (sorted_domains groups) content (messageRequiresTLS msg);
      now ← hd_clock;
      let failures := omap (fun x => mkDomainFailure x.1 <$> rp_failure x.2) reports in
      let delivered := sum_list ((fun x => rp_delivered x.2) <$> reports) in
      let '(ip, host) := first_success reports in
      let '(result, err) := buildDeliveryResult now (m_To msg) delivered ip host
                              (aggregateDomainFailures failures) (reports ≫= fun x => rp_outcomes x.2) in
      mret (Some result, err)
  end.

Definition DeliveryMethodSMTP : string := "smtp".

(** The transport is named once, here. *)
Definition stamped (result : DeliveryResult) : DeliveryResult :=
  if (dr_DeliveryMethod result =? "")%string
  then result <| dr_DeliveryMethod := DeliveryMethodSMTP |> else result.

Definition DeliverMessageWithMetadata (signer sealer : option (string -> string -> string + delivery_error))
    (msg : Message) (content : string) : HD (DeliveryResult * option delivery_error) :=
  r ← deliverWithMetadata signer sealer msg content;
  let '(result, err) := r in
  let result := default (mkResult false err "" "" 0 "" [] "") result in
  mret (stamped result, err).

(** ** Setting up *)

Definition SetShaper (s : option Shaper) (x : handler W S) : handler W S :=
  x <| hd_shaper := match s, hd_shared x with
                    | Some s, Some g => Some (s <| s_guard := Some g |> <| s_synced := ∅ |>)
                    | s, _ => s
                    end |>.
Definition SetPoolRouter (r : option PoolRouter) (x : handler W S) : handler W S :=
  x <| hd_pools := (fun r => r <| r_shared := hd_shared x |>) <$> r |>.
Definition SetProviderRouter (r : option ProviderRouter) (x : handler W S) : handler W S :=
  x <| hd_providers := r |>.

(** Reloaded pools take over today's counts. *)
Definition ReplacePoolRouter (next : PoolRouter) (x : handler W S) : handler W S :=
  let next := next <| r_shared := hd_shared x |> in
  x <| hd_pools := Some (match hd_pools x with Some old => adoptUsage old next | None => next end) |>.

Definition SetSharedState (on : bool) (x : handler W S) : handler W S :=
  let g := if on then Some newSharedGuard else None in
  x <| hd_shared := g |>
    <| hd_pools ::= fmap (fun r => r <| r_shared := g |>) |>
    <| hd_shaper ::= fmap (fun s => s <| s_guard := g |> <| s_synced := ∅ |>) |>.

Definition CloseIdleSessions (x : handler W S) : handler W S := snd (on_out (close_all_sessions false) x).

(** Where a complaint belongs: the pool of an address of ours, and the provider of the
    first recipient whose provider is known. *)
Definition poolForAddress (r : option PoolRouter) (addr : string) : string * string :=
  match r, ParseIP (TrimSpace addr) with
  | Some r, Some ip =>
      match find (fun kp => existsb (fun s => (src_addr s =? IP_String ip)%string) (sp_ips kp.2))
                 (map_to_list (r_pools r)) with
      | Some kp => (sp_name kp.2, IP_String ip)
      | None => ("", "")
      end
  | _, _ => ("", "")
  end.

(** (processor.go) *)
Definition recipientDomain (recipient : string) : string :=
  match LastIndexByte recipient "@" with
  | None => ""
  | Some at_ => ToLower (TrimSpace (sdrop (Datatypes.S at_) recipient))
  end.

Record ComplaintAttribution := mkAttribution { ca_SourceIP : string; ca_Pool : string; ca_Provider : string }.

Definition AttributeComplaint (sourceIP : string) (recipients : list string) (x : handler W S) :
    ComplaintAttribution :=
  let '(pool, ip) := poolForAddress (hd_pools x) sourceIP in
  mkAttribution ip pool
    (default "" (head (omap (fun r => pv_name <$> known (recipientDomain r) (hd_providers x)) recipients))).
End Handler.

(** ** Grouping loses no address *)

Section Grouping.
Context `{U : UnicodeTables}.

Definition flat (groups : gmap string (list string)) : list string := map_to_list groups ≫= snd.

Lemma flat_insert groups d r :
  flat (<[d := default [] (groups !! d) ++ [r]]> groups) ≡ₚ r :: flat groups.
Proof.
  unfold flat. destruct (groups !! d) as [l|] eqn:E; cbn.
  - rewrite <- (insert_delete_id groups d l E) at 2.
    rewrite <- insert_delete_eq, !map_to_list_insert by apply lookup_delete_eq. cbn.
    rewrite <- app_assoc. symmetry. apply Permutation_middle.
  - by rewrite map_to_list_insert by done.
Qed.

Lemma group_recipients_flat rs : forall groups,
  flat (group_recipients rs groups) ≡ₚ filter (fun r => is_Some (domain_of r)) rs ++ flat groups.
Proof.
  induction rs as [|r rs IH]; intros groups; cbn [group_recipients]; [done|].
  rewrite IH, filter_cons. destruct (domain_of r) as [d|]; cbn.
  - rewrite decide_True by done. rewrite flat_insert. by rewrite <- Permutation_middle.
  - rewrite decide_False; [done|]. by intros [? ?].
Qed.

(** The groups in the order they are delivered in hold every address with one "@". *)
Lemma grouped rs :
  (sorted_domains (groupRecipientsByDomain rs) ≫=
     fun d => default [] (groupRecipientsByDomain rs !! d))
  ≡ₚ filter (fun r => is_Some (domain_of r)) rs.
Proof.
  set (g := groupRecipientsByDomain rs). unfold sorted_domains.
  rewrite SliceStable_Permutation, list_fmap_bind.
  transitivity (flat g).
  - apply reflexive_eq. unfold flat.
    assert (Forall (fun kv => g !! kv.1 = Some kv.2) (map_to_list g)) as H
      by (apply Forall_forall; intros [k l] Hk; by apply elem_of_map_to_list in Hk).
    induction H as [|[k l] kvs Hk _ IH]; [done|]. cbn in *. rewrite Hk, IH. done.
  - unfold g, groupRecipientsByDomain. rewrite group_recipients_flat. unfold flat.
    by rewrite map_to_list_empty, app_nil_r.
Qed.
End Grouping.

(** ** What a delivery leaves on the wire *)

Section Facts.
Context {W S : Type} `{!Network W} `{!SharedStore S} `{U : UnicodeTables}.
Variable h : handlerConfig.
Implicit Types x : handler W S.

Definition is_resolved (e : event) : Prop := match e with Resolved _ _ _ => True | _ => False end.

(** Nothing but questions to the resolver. *)
Definition quiet (o o' : outbound W) : Prop :=
  ob_next o' = ob_next o /\ ob_sessions o' = ob_sessions o /\
  exists new, ob_trace o' = new ++ ob_trace o /\ Forall is_resolved new.

Lemma quiet_refl (o : outbound W) : quiet o o.
Proof. split_and!; [done..|]. by exists []. Qed.

#[export] Instance quiet_preorder : PreOrder quiet.
Proof.
  split.
  - intros o. apply quiet_refl.
  - intros o1 o2 o3 (A1 & A2 & n1 & A3 & A4) (B1 & B2 & n2 & B3 & B4). split_and!; [by etrans..|].
    exists (n2 ++ n1). split; [by rewrite B3, A3, app_assoc|by apply Forall_app].
Qed.

(** Names without the separator of session keys, which is none of a host name. *)
Definition plain_name (s : string) : Prop := exists_byte (Ascii.eqb ">") s = false.
Definition plain_servers (l : list MX) : Prop := Forall (fun m => plain_name (mx_Host m)) l.
Definition plain_resolver : Prop :=
  forall d w l w', net_LookupMX d w = (inl l, w') -> plain_servers l.
Definition plain_cache (c : option cachingMXResolver) : Prop :=
  forall c' name e, c = Some c' -> mc_entries c' !! name = Some e -> plain_servers (mxe_records e).

Definition quiet_resolving (v v' : resolving W) : Prop :=
  quiet (rv_out v) (rv_out v') /\ (plain_resolver -> plain_cache (rv_cache v) -> plain_cache (rv_cache v')).

(** The handler did nothing but ask the resolver, and has the same pools. *)
Definition quiet_handler x x' : Prop :=
  quiet (hd_out x) (hd_out x') /\ (plain_resolver -> plain_cache (hd_mx x) -> plain_cache (hd_mx x')) /\
  frame <$> hd_pools x' = frame <$> hd_pools x.

#[export] Instance quiet_resolving_preorder : PreOrder quiet_resolving.
Proof.
  split; [intros v; split; [reflexivity|done]|].
  intros v1 v2 v3 [A1 A2] [B1 B2]. split; [by etrans|auto].
Qed.
#[export] Instance quiet_handler_preorder : PreOrder quiet_handler.
Proof.
  split; [intros v; split_and!; [reflexivity|done|done]|].
  intros v1 v2 v3 (A1 & A2 & A3) (B1 & B2 & B3). split_and!; [by etrans|auto|by etrans].
Qed.

Lemma quiet_net {A} (f : W -> A * W) : st_kept quiet (on_net f).
Proof. intros o. unfold on_net. destruct (f (ob_net o)). split_and!; [done..|]. by exists []. Qed.

Lemma quiet_rv_do {A} (m : St (outbound W) A) : st_kept quiet m -> st_kept quiet_resolving (rv_do m).
Proof. apply st_kept_zoom. intros v o Q. by split. Qed.

(** The answers a computation gives are plain if the resolver's are. *)
Definition plain_answer v (P : Prop) (r : list MX + delivery_error) (v' : resolving W) : Prop :=
  quiet_resolving v v' /\
  (plain_resolver -> plain_cache (rv_cache v) -> P -> match r with inl l => plain_servers l | inr _ => True end).

Lemma runs_inner_LookupMX name v : runs (rv_do (inner_LookupMX name)) (plain_answer v True) v.
Proof.
  apply runs_zoom. unfold inner_LookupMX. apply runs_bind. unfold runs at 1, on_net.
  destruct (net_LookupMX name (ob_net (rv_out v))) as [r w] eqn:E. cbn. unfold runs. cbn. split.
  - split; [|done]. split_and!; [done..|]. eexists [_]. split; [done|by constructor].
  - intros Hr _ _. destruct r as [l|]; [|done]. by eapply Hr.
Qed.

Lemma runs_LookupMX_plain name v : runs (LookupMX name) (plain_answer v True) v.
Proof.
  unfold LookupMX. apply runs_bind, runs_gets. destruct v as [o [c|]]; cbn [rv_cache]; [|apply runs_inner_LookupMX].
  apply runs_bind, runs_zoom. unfold clock. apply runs_gets. cbn [rv_out].
  set (now := net_clock (ob_net o)). destruct (mx_get now name c) as [found c'] eqn:Eg.
  assert ((forall n e, mc_entries c' !! n = Some e -> mc_entries c !! n = Some e) /\
          (forall l, found = Some l -> exists e, mc_entries c !! name = Some e /\ mxe_records e = l)) as [Hc Hf].
  { unfold mx_get in Eg. destruct (mc_entries c !! name) as [e|] eqn:En; [|by injection Eg as <- <-].
    destruct (negb _); injection Eg as <- <-; (split; [intros n e' He|intros l Hl]).
    - cbn in He. by apply lookup_delete_Some in He as [_ He].
    - done.
    - done.
    - injection Hl as <-. by exists e. }
  apply runs_bind, runs_modify. set (v1 := update rv_cache _ _).
  assert (quiet_resolving (mkResolving o (Some c)) v1) as Q1.
  { split; [exact (quiet_refl o)|]. intros _ Hp c2 n e [= <-] He. by eapply Hp, Hc. }
  destruct found as [l|].
  { apply runs_ret. split; [done|]. intros _ Hp _. destruct (Hf l eq_refl) as (e & He & <-). by eapply Hp. }
  apply runs_bind. eapply runs_mono; [apply runs_inner_LookupMX|]. intros [l|e] v2 [Q2 P2];
    [|apply runs_ret; split; [by etrans|done]].
  apply runs_bind, runs_zoom, runs_gets, runs_bind, runs_modify, runs_ret.
  assert (quiet_resolving (mkResolving o (Some c)) v2) as Q by (by etrans).
  split; [|intros Hr Hp _; apply P2; [done|by apply Q1|done]].
  split; [exact (proj1 Q)|]. intros Hr Hp c2 n e H1 H2. destruct v2 as [o2 [c3|]]; [|done].
  destruct Q as [_ Q]. specialize (Q Hr Hp). injection H1 as <-.
  apply mx_put_entries in H2 as [[_ ->]|H2]; [|by eapply Q]. apply P2; [done|by apply Q1|done].
Qed.

Lemma runs_attempts_plain left : forall a domain v,
  (0 < left)%nat -> runs (lookup_attempts left a domain) (plain_answer v True) v.
Proof.
  induction left as [|left IH]; intros a domain v Hl; [lia|]. cbn [lookup_attempts].
  apply runs_bind. eapply runs_mono; [apply runs_LookupMX_plain|]. intros [l|e] v1 [Q1 P1]; [by apply runs_ret|].
  assert (forall e', runs (mret (inr e')) (plain_answer v True) v1) as Herr
    by (intros e'; apply runs_ret; by split).
  destruct (is_error dnsNotFound e); [apply Herr|]. destruct left as [|left]; [apply Herr|].
  apply runs_bind. eapply runs_mono; [apply st_kept_runs, quiet_rv_do, quiet_net|].
  intros [e'|] v2 Q2; cbn; [apply runs_ret; by split; [etrans|]|].
  eapply runs_mono; [apply IH; lia|]. intros r v3 [Q3 P3]. split; [by do 2 etrans|].
  intros Hr Hp _. apply P3; [done|apply Q2, Q1; done|done].
Qed.

Lemma mx_answer_plain domain l :
  plain_servers l -> plain_name domain ->
  match mx_answer domain l with inl servers => plain_servers servers | inr _ => True end.
Proof.
  intros Hl Hd. unfold mx_answer. destruct (_ =? _)%nat; [by constructor|]. destruct (null_mx l); [done|].
  cbv zeta. destruct (_ =? _)%nat; [done|]. unfold plain_servers, by_pref. rewrite SliceStable_Permutation.
  unfold plain_servers in Hl. rewrite Forall_forall in Hl |- *. intros m [_ Hm]%list_elem_of_filter. by apply Hl.
Qed.

Lemma runs_lookupMX_plain n domain v :
  runs (lookupMX n domain) (plain_answer v (plain_name domain)) v.
Proof.
  unfold lookupMX. apply runs_bind. destruct n as [|n].
  { cbn. apply runs_ret. split; [reflexivity|]. intros _ _ Hd. by constructor. }
  eapply runs_mono; [apply runs_attempts_plain; lia|]. intros [l|e] v1 [Q P]; apply runs_ret; (split; [done|]).
  - intros Hr Hp Hd. apply mx_answer_plain; [|done]. by apply P.
  - done.
Qed.

Lemma quiet_lookupMX n domain : st_kept quiet_resolving (lookupMX n domain).
Proof. intros v. apply (runs_lookupMX_plain n domain v). Qed.

Lemma quiet_on_resolver {A} (m : St (resolving W) A) :
  st_kept quiet_resolving m -> st_kept quiet_handler (on_resolver m).
Proof. apply st_kept_zoom. intros x v [Q P]. by split_and!. Qed.
Lemma quiet_on_out {A} (m : St (outbound W) A) : st_kept quiet m -> st_kept quiet_handler (on_out m).
Proof. apply st_kept_zoom. intros x o Q. by split_and!. Qed.
Lemma quiet_handler_refl x x' :
  hd_out x' = hd_out x -> hd_mx x' = hd_mx x -> frame <$> hd_pools x' = frame <$> hd_pools x ->
  quiet_handler x x'.
Proof. intros E1 E2 E3. split_and!; [|by rewrite E2|done]. rewrite E1. apply quiet_refl. Qed.
Lemma quiet_clock : st_kept quiet_handler hd_clock.
Proof. intros x. by apply quiet_handler_refl. Qed.
Lemma quiet_on_shaper {A} (f : Shaper * S -> A * (Shaper * S)) : st_kept quiet_handler (on_shaper f).
Proof.
  intros x. unfold on_shaper. destruct (hd_shaper x); [destruct (f _) as [a [s' st]]|]; by apply quiet_handler_refl.
Qed.
Lemma quiet_on_pools {A} (f : PoolRouter * S -> A * (PoolRouter * S)) :
  (forall r st a r' st', f (r, st) = (a, (r', st')) -> frame r' = frame r) -> st_kept quiet_handler (on_pools f).
Proof.
  intros Hf x. unfold on_pools. destruct (hd_pools x) as [r|] eqn:E; [|by apply quiet_handler_refl].
  destruct (f _) as [a [r' st]] eqn:Ef. apply quiet_handler_refl; [done..|]. cbn. rewrite E. cbn.
  by rewrite (Hf _ _ _ _ _ Ef).
Qed.
Lemma quiet_match_provider domain servers : st_kept quiet_handler (match_provider domain servers).
Proof. intros x. unfold match_provider. destruct (matchMX _ _ _). by apply quiet_handler_refl. Qed.

Definition trace_at x : list event := ob_trace (hd_out x).

(** A step that asks at most the resolver, before a step of interest. *)
Lemma runs_quiet {A} (m : St (handler W S) A) (Φ : A -> handler W S -> Prop) x :
  st_kept quiet_handler m -> (forall a x', quiet_handler x x' -> Φ a x') -> runs m Φ x.
Proof. intros Hm H. apply H, Hm. Qed.

Lemma quiet_trace x x' : quiet_handler x x' -> exists new, trace_at x' = new ++ trace_at x.
Proof. intros ((_ & _ & new & H & _) & _). by exists new. Qed.

(** *** Reports *)

Lemma reported_error rs content new e : reported rs content new [] (Some e).
Proof. split_and!; [by left|done|done]. Qed.

Lemma try_servers_reported src from domain rs content rt servers : forall last refused o,
  runs (try_servers h src from domain rs content rt servers last refused)
    (fun '(_, _, outs, err) o' => exists new, ob_trace o' = new ++ ob_trace o /\
       reported rs content new outs err) o.
Proof.
  induction servers as [|mx servers IH]; intros last refused o; cbn [try_servers].
  { apply runs_ret. exists []. split; [done|apply reported_error]. }
  apply runs_bind. unfold attemptDeliveryToHostWithMetadata. apply runs_bind.
  eapply runs_mono; [apply (deliver_reported h (mkRequest src (JoinHostPort (mx_Host mx) _) from rs content rt
                              domain (mx_Host mx)))|].
  cbn [rq_recipients rq_content]. intros [[[ip host] outs] err] o1 (new1 & T1 & R1).
  assert (forall last' refused', runs (try_servers h src from domain rs content rt servers last' refused')
    (fun '(_, _, outs, err) o' => exists new, ob_trace o' = new ++ ob_trace o /\
       reported rs content new outs err) o1) as Hnext.
  { intros last' refused'. eapply runs_mono; [apply IH|]. intros [[[ip2 host2] outs2] err2] o2 (new2 & T2 & R2).
    exists (new2 ++ new1). split; [by rewrite T2, T1, app_assoc|]. eapply reported_mono; [|exact R2]. set_solver. }
  destruct outs as [|x outs].
  - destruct err as [e|]; apply runs_ret; cbn.
    + by apply Hnext.
    + by exists new1.
  - apply runs_ret. cbn. by exists new1.
Qed.

Lemma hush_bind {A B} (m : St (handler W S) A) (f : A -> St (handler W S) B) :
  st_kept quiet_handler m -> (forall a, st_kept quiet_handler (f a)) -> st_kept quiet_handler (mbind f m).
Proof. apply st_kept_bind, _. Qed.
Lemma hush_ret {A} (a : A) : st_kept quiet_handler (mret a).
Proof. apply st_kept_ret, _. Qed.
Lemma hush_gets {A} (f : handler W S -> A) : st_kept quiet_handler (st_gets f).
Proof. apply st_kept_gets, _. Qed.
Lemma hush_report f : st_kept quiet_handler (report f).
Proof. apply hush_bind; [apply quiet_on_shaper|]. intros _. apply hush_ret. Qed.
End Facts.

(** Shows that a computation of the handler asks at most the resolver. *)
Ltac solve_quiet :=
  repeat (cbv zeta;
    lazymatch goal with
    | |- st_kept _ (mbind _ _) => apply hush_bind; [|intros ?]
    | |- st_kept _ (mret _) => apply hush_ret
    | |- st_kept _ (st_gets _) => apply hush_gets
    | |- st_kept _ hd_clock => apply quiet_clock
    | |- st_kept _ (on_shaper _) => apply quiet_on_shaper
    | |- st_kept _ (on_pools (acquire _ _)) => apply quiet_on_pools; intros ?????; apply frame_acquire
    | |- st_kept _ (on_pools (refund _ _)) => apply quiet_on_pools; intros ?????; apply frame_refund
    | |- st_kept _ (report _) => apply hush_report
    | |- st_kept _ (match_provider _ _) => apply quiet_match_provider
    | |- st_kept _ (on_out (on_net _)) => apply quiet_on_out, quiet_net
    | |- st_kept _ (on_resolver _) => apply quiet_on_resolver, quiet_lookupMX
    | |- st_kept _ (match ?x with _ => _ end) => destruct x
    | |- st_kept _ _ => solve [auto]
    end).

Section Reports.
Context {W S : Type} `{!Network W} `{!SharedStore S} `{U : UnicodeTables}.
Variable h : handlerConfig.
Implicit Types x : handler W S.

Lemma quiet_acquire_limits key limits : st_kept quiet_handler (AcquireWithLimits (W := W) (S := S) key limits).
Proof. unfold AcquireWithLimits. solve_quiet. Qed.
Lemma quiet_acquire_source sender : st_kept quiet_handler (acquire_source (W := W) (S := S) sender).
Proof. unfold acquire_source. solve_quiet. Qed.
Lemma quiet_release_source t : st_kept quiet_handler (release_source (W := W) (S := S) t).
Proof. unfold release_source. solve_quiet. Qed.
Lemma quiet_tell_shaper src prov domain err outs :
  st_kept quiet_handler (tell_shaper (W := W) (S := S) src prov domain err outs).
Proof. unfold tell_shaper, reportDeferral. solve_quiet. Qed.

(** What one domain reports. *)
Definition transaction_report (rs : list string) content x (r : string * string * list RecipientOutcome * option delivery_error) x' : Prop :=
  let '(_, _, outs, err) := r in
  exists new, trace_at x' = new ++ trace_at x /\ reported rs content new outs err.

Lemma transaction_report_quiet rs content x x1 r x2 x3 :
  quiet_handler x x1 -> transaction_report rs content x1 r x2 -> quiet_handler x2 x3 ->
  transaction_report rs content x r x3.
Proof.
  intros Q1 R Q2. apply quiet_trace in Q1 as [n1 Q1]. apply quiet_trace in Q2 as [n2 Q2].
  destruct r as [[[ip host] outs] err]. destruct R as (new & T & R).
  exists (n2 ++ new ++ n1). split; [by rewrite Q2, T, Q1, !app_assoc|].
  eapply reported_mono; [|exact R]. set_solver.
Qed.

Lemma transaction_report_error rs content x ip host e x' :
  quiet_handler x x' -> transaction_report rs content x (ip, host, [], Some e) x'.
Proof. intros Q. apply quiet_trace in Q as [n Q]. exists n. split; [done|apply reported_error]. Qed.

Lemma deliverToDomain_report src msg domain rs content rt x :
  runs (deliverToDomainWithMetadata h src msg domain rs content rt) (transaction_report rs content x) x.
Proof.
  assert (forall a b : handler W S, quiet_handler x a -> quiet_handler a b -> quiet_handler x b) as Htr
    by (intros; by etrans).
  unfold deliverToDomainWithMetadata.
  apply runs_bind, runs_quiet; [apply hush_gets|]. intros prov x1 Q1.
  apply runs_bind, runs_quiet; [apply quiet_clock|]. intros now x2 Q2.
  apply runs_bind, runs_quiet; [apply quiet_on_shaper|]. intros paused x3 Q3.
  assert (quiet_handler x x3) as Q by eauto.
  enough (runs (deliver_to_servers h src msg domain rs content rt) (transaction_report rs content x) x3) as Hmx.
  { destruct paused as [[wait|]|]; [|exact Hmx..]. apply runs_ret. by apply transaction_report_error. }
  unfold deliver_to_servers.
  apply runs_bind, runs_quiet; [apply quiet_on_resolver, quiet_lookupMX|]. intros [[|mx servers]|e] x4 Q4;
    [apply runs_ret, transaction_report_error; eauto| |apply runs_ret, transaction_report_error; eauto].
  apply runs_bind, runs_quiet; [apply hush_gets|]. intros shaped x5 Q5.
  apply runs_bind, runs_quiet; [pose proof quiet_acquire_limits; solve_quiet|].
  intros [slot|e] x6 Q6; [|apply runs_ret, transaction_report_error; eauto].
  apply runs_bind, runs_zoom. eapply runs_mono; [apply try_servers_reported|].
  intros [[[ip host] outs] err] o' R. apply runs_bind, runs_quiet; [apply hush_report|]. intros _ x7 Q7.
  apply runs_ret. eapply (transaction_report_quiet _ _ x x6 _ (x6 <| hd_out := o' |>)); [eauto|exact R|exact Q7].
Qed.

(** An outcome that says delivered was earned: in [new] a server accepted the recipient and
    then the content on one connection. *)
Definition earned (content : string) (new : list event) (o : RecipientOutcome) : Prop :=
  known_status (ro_Status o) = true /\
  (delivered o = true -> exists c, Called c (Rcpt (ro_Recipient o)) true ∈ new /\
                                   Called c (Data content) true ∈ new).

Definition delivered_count (outs : list RecipientOutcome) : nat :=
  length (filter (fun o => ro_Status o = RecipientDelivered) outs).

Arguments delivered_count : simpl never.

Definition domain_report_ok (rs : list string) content new (rp : domainReport) : Prop :=
  ro_Recipient <$> rp_outcomes rp = rs /\
  rp_delivered rp = delivered_count (rp_outcomes rp) /\
  Forall (earned content new) (rp_outcomes rp).

Lemma attribute_keeps src prov t o :
  ro_Recipient (attribute src prov t o) = ro_Recipient o /\ ro_Status (attribute src prov t o) = ro_Status o.
Proof. done. Qed.

Lemma delivered_count_map f outs :
  (forall o, ro_Status (f o) = ro_Status o) -> delivered_count (f <$> outs) = delivered_count outs.
Proof.
  intros Hf. unfold delivered_count. induction outs as [|o outs IH]; [done|].
  rewrite fmap_cons, !filter_cons, Hf. case_decide; cbn; by rewrite IH.
Qed.

Lemma delivered_count_none outs :
  Forall (fun o => ro_Status o <> RecipientDelivered) outs -> delivered_count outs = O.
Proof.
  unfold delivered_count. induction 1 as [|o outs Ho _ IH]; [done|]. by rewrite filter_cons, decide_False.
Qed.

(** Naming the source and the provider of an outcome changes nothing of this. *)
Lemma domain_report_attribute rs content new all err n ip host (b : bool) src prov t :
  domain_report_ok rs content new (mkDomainReport all err n ip host) ->
  domain_report_ok rs content new
    (mkDomainReport (if b then all else attribute src prov t <$> all) err n ip host).
Proof.
  destruct b; [done|]. intros (H1 & H2 & H3). cbn in *. split_and!; cbn.
  - rewrite <- list_fmap_compose. done.
  - by rewrite delivered_count_map.
  - by apply Forall_fmap.
Qed.

(** The outcomes a domain gets in the end, from those of the transaction. *)
Lemma completed_report rs content new outs err (status : RecipientDeliveryStatus) diag route ip host :
  reported rs content new outs err ->
  (err <> None -> status <> RecipientDelivered /\ known_status status = true) ->
  domain_report_ok rs content new
    (mkDomainReport (outs ++ ((fun r => mkOutcome r status "" diag route "" "" "" false) <$> drop (length outs) rs))
       err (delivered_count outs + match err, outs with None, [] => length rs | _, _ => 0 end)%nat ip host).
Proof.
  intros (Hr & Hn & Hf) Hst. unfold domain_report_ok. cbn. destruct Hr as [[-> He]|Hr].
  - destruct err as [e|]; [|done]. destruct (Hst He) as [Hs Hk]. cbn. split_and!.
    + rewrite <- list_fmap_compose. by apply list_fmap_id.
    + rewrite (delivered_count_none (_ <$> _)); [done|]. by apply Forall_fmap, Forall_forall.
    + apply Forall_fmap, Forall_forall. intros r _. split; [done|]. unfold delivered. cbn.
      by rewrite bool_decide_false.
  - assert (length outs = length rs) as Hl by (by rewrite <- Hr, length_fmap).
    rewrite drop_ge by lia. cbn. rewrite app_nil_r. split_and!; [done| |done].
    destruct err; [lia|]. destruct outs; [|lia]. by destruct rs.
Qed.

Lemma runs_deliver_domain msg domain rs content rt x :
  runs (deliver_domain h msg domain rs content rt)
    (fun rp x' => exists new, trace_at x' = new ++ trace_at x /\ domain_report_ok rs content new rp) x.
Proof.
  unfold deliver_domain. apply runs_bind, runs_quiet; [apply quiet_acquire_source|]. intros ticket x1 Q1.
  cbv zeta. set (src := match ticket with inl (Some t) => _ | _ => _ end).
  apply runs_bind. apply runs_mono with (Q := transaction_report rs content x).
  - destruct ticket as [t|e]; [|by apply runs_ret, transaction_report_error].
    apply runs_bind. eapply runs_mono; [apply deliverToDomain_report|].
    intros [[[ip host] outs] err] x2 R. apply runs_bind, runs_quiet.
    { pose proof quiet_release_source. solve_quiet. }
    intros _ x3 Q3. apply runs_ret. by eapply transaction_report_quiet.
  - intros [[[ip host] outs] err] x2 (new & T & R).
    apply runs_bind, runs_quiet; [apply hush_gets|]. intros prov x3 Q3.
    apply runs_bind, runs_quiet; [apply quiet_tell_shaper|]. intros throttled x4 Q4.
    apply runs_ret. apply quiet_trace in Q3 as [n3 Q3]. apply quiet_trace in Q4 as [n4 Q4].
    exists (n4 ++ n3 ++ new). split; [by rewrite Q4, Q3, T, !app_assoc|].
    apply domain_report_attribute, completed_report.
    + eapply reported_mono; [|exact R]. set_solver.
    + intros He. destruct err as [e|]; [|done]. by destruct (isTemporaryFailure (Some e)).
Qed.

Lemma earned_mono content new new' o : new ⊆ new' -> earned content new o -> earned content new' o.
Proof. intros Hs [H1 H2]. split; [done|]. intros Hd. destruct (H2 Hd) as (c & A & B). exists c. set_solver. Qed.

Lemma delivered_count_app a b : delivered_count (a ++ b) = (delivered_count a + delivered_count b)%nat.
Proof. unfold delivered_count. by rewrite filter_app, length_app. Qed.

Lemma runs_deliver_domains msg groups content rt ds : forall x,
  runs (deliver_domains h msg groups ds content rt)
    (fun reports x' => exists new, trace_at x' = new ++ trace_at x /\
       let outs := reports ≫= fun y => rp_outcomes y.2 in
       ro_Recipient <$> outs = (ds ≫= fun d => default [] (groups !! d)) /\
       sum_list ((fun y => rp_delivered y.2) <$> reports) = delivered_count outs /\
       Forall (earned content new) outs) x.
Proof.
  induction ds as [|d ds IH]; intros x; cbn [deliver_domains].
  { apply runs_ret. exists []. by split_and!. }
  apply runs_bind. eapply runs_mono; [apply runs_deliver_domain|]. intros rp x1 (new1 & T1 & R1 & R2 & R3).
  apply runs_bind. eapply runs_mono; [apply IH|]. intros reports x2 (new2 & T2 & P1 & P2 & P3).
  apply runs_ret. exists (new2 ++ new1). split; [by rewrite T2, T1, app_assoc|]. cbn -[delivered_count].
  split_and!.
  - by rewrite fmap_app, R1, P1.
  - rewrite delivered_count_app, <- R2, <- P2. done.
  - apply Forall_app. split; (eapply Forall_impl; [done|]); intros o; apply earned_mono; set_solver.
Qed.

(** What the processor makes of the outcomes of the handler. *)
Lemma assigned_exactly msg outs :
  ro_Recipient <$> outs ≡ₚ filter (fun r => is_Some (domain_of r)) (m_To msg) ->
  Forall (fun o => known_status (ro_Status o) = true) outs ->
  forall r, is_Some (domain_of r) -> outcomes_of r (assigned (m_To msg) outs) = outcomes_of r outs.
Proof.
  intros Hp Hk r Hr. rewrite assigned_of.
  assert (QueueProcessor.reported r outs = outcomes_of r outs) as ->.
  { unfold QueueProcessor.reported, outcomes_of. destruct (r =? "")%string eqn:E.
    - apply String.eqb_eq in E as ->. cbn in Hr. by destruct Hr.
    - clear Hp. induction Hk as [|o outs Ho _ IH]; [done|]. rewrite !filter_cons, IH.
      repeat case_decide; naive_solver. }
  assert (length (outcomes_of r outs) = count_in r (m_To msg)) as Hl.
  { unfold outcomes_of, count_in.
    transitivity (length (filter (fun y => y = r) (ro_Recipient <$> outs))).
    - clear. induction outs as [|o outs IH]; [done|]. rewrite fmap_cons, !filter_cons.
      case_decide; cbn; by rewrite IH.
    - rewrite Hp. f_equal. clear Hp Hk. induction (m_To msg) as [|y ys IH]; [done|].
      rewrite (filter_cons (fun y => is_Some (domain_of y))). case_decide; rewrite !filter_cons; [by rewrite IH|].
      rewrite IH. case_decide; [by subst|done]. }
  by rewrite take_ge, Hl, Nat.sub_diag, app_nil_r by lia.
Qed.

Lemma delivered_count_le outs : (delivered_count outs <= length outs)%nat.
Proof. apply length_filter. Qed.

Lemma delivered_count_full outs :
  delivered_count outs = length outs -> Forall (fun o => ro_Status o = RecipientDelivered) outs.
Proof.
  unfold delivered_count. induction outs as [|o outs IH]; [done|]. rewrite filter_cons.
  pose proof (delivered_count_le outs). unfold delivered_count in *. case_decide; cbn; intros Hl.
  - constructor; [done|]. apply IH. lia.
  - lia.
Qed.

(** Without an error everybody was delivered to. *)
Lemma buildDeliveryResult_none now recipients n ip host e outs :
  snd (buildDeliveryResult now recipients n ip host e outs) = None -> (length recipients <= n /\ 0 < n)%nat.
Proof.
  unfold buildDeliveryResult. cbn [snd].
  destruct (Nat.ltb_spec 0 n), (Nat.ltb_spec n (length recipients)); cbn; [done|lia| |];
    (destruct (Nat.eqb_spec n 0); [done|lia]).
Qed.

Lemma deliver_message_outcomes signer sealer (msg : Message) content x :
  let '((result, err), x') := DeliverMessageWithMetadata h signer sealer msg content x in
  let outs := dr_RecipientOutcomes result in
  let acted := dr_RecipientOutcomes (fst (normalizeDeliveryResult msg (Some result) err)) in
  match prepared_content signer sealer msg content with
  | inr e => err = Some e /\ outs = [] /\ x' = x
  | inl wire =>
      ro_Recipient <$> outs ≡ₚ filter (fun r => is_Some (domain_of r)) (m_To msg) /\
      (forall r, is_Some (domain_of r) -> outcomes_of r acted = outcomes_of r outs) /\
      (exists new, trace_at x' = new ++ trace_at x /\
                   Forall (earned wire new) outs /\ Forall (earned wire new) acted) /\
      (err = None -> ro_Recipient <$> outs ≡ₚ m_To msg /\
                     Forall (fun o => ro_Status o = RecipientDelivered) outs)
  end.
Proof.
  unfold DeliverMessageWithMetadata, deliverWithMetadata.
  destruct (prepared_content signer sealer msg content) as [wire|e]; [|done].
  set (groups := groupRecipientsByDomain (m_To msg)). unfold mbind, St_bind.
  pose proof (runs_deliver_domains msg groups wire (messageRequiresTLS msg) (sorted_domains groups) x) as H.
  unfold runs in H. destruct (deliver_domains _ _ _ _ _ _ x) as [reports x1]. cbn [fst snd] in H.
  destruct H as (new & T & P1 & P2 & P3).
  destruct (hd_clock x1) as [now x2] eqn:Ec. unfold hd_clock, on_out, st_zoom, clock, st_gets in Ec.
  injection Ec as _ <-. destruct (first_success reports) as [ip host].
  set (outs := reports ≫= _) in *. set (agg := aggregateDomainFailures _). rewrite P2.
  assert (ro_Recipient <$> outs ≡ₚ filter (fun r => is_Some (domain_of r)) (m_To msg)) as Hp.
  { rewrite P1. apply grouped. }
  pose proof (buildDeliveryResult_none now (m_To msg) (delivered_count outs) ip host agg outs) as Hn.
  destruct (buildDeliveryResult _ _ _ _ _ _ _) as [result err] eqn:Eb.
  assert (dr_RecipientOutcomes result = outs) as Ho by (unfold buildDeliveryResult in Eb; by injection Eb as <- _).
  assert (forall result', dr_RecipientOutcomes result' = outs ->
    Forall (earned wire new) (assigned (m_To msg) (dr_RecipientOutcomes result'))) as Hacted.
  { intros r' ->. apply Forall_forall. intros o Hin. apply assigned_elem in Hin as [[Hin _]| ->]; [|by split].
    by eapply Forall_forall in P3. }
  cbn [mret St_ret]. cbv beta iota zeta.
  match goal with |- context [default ?d (Some result)] => change (default d (Some result)) with result end.
  assert (dr_RecipientOutcomes (stamped result) = outs) as Hs by (unfold stamped; by destruct (_ =? _)%string).
  split_and!.
  - by rewrite Hs.
  - intros r Hr. cbn. rewrite Hs. apply assigned_exactly; [done| |done].
    eapply Forall_impl; [exact P3|]. by intros o [? _].
  - exists new. split_and!; [exact T|by rewrite Hs|]. by apply Hacted.
  - intros ->. destruct (Hn eq_refl) as [Hl _]. rewrite Hs.
    pose proof (delivered_count_le outs). pose proof (Permutation_length Hp) as Hlen. rewrite length_fmap in Hlen.
    pose proof (length_filter (fun r => is_Some (domain_of r)) (m_To msg)).
    split; [|apply delivered_count_full; lia].
    rewrite Hp. apply reflexive_eq, length_filter_all. lia.
Qed.

(** C9 (functional). What the handler reports about a message.  If the message cannot be
    signed or sealed nothing is sent and nothing is reported but the error.  Otherwise
    every envelope recipient with one "@" gets exactly one outcome, whatever domains,
    servers, pools and pauses are in its way; an outcome says delivered only if in this
    very delivery some server accepted the recipient and then the signed and sealed
    content on one connection; the queue processor acts on exactly these outcomes, and
    on nothing else as delivered; and without an error every recipient is delivered. *)
Theorem message_outcomes_earned signer sealer (msg : Message) content x :
  let '((result, err), x') := DeliverMessageWithMetadata h signer sealer msg content x in
  let outs := dr_RecipientOutcomes result in
  let acted := dr_RecipientOutcomes (fst (normalizeDeliveryResult msg (Some result) err)) in
  match prepared_content signer sealer msg content with
  | inr e => err = Some e /\ outs = [] /\ x' = x
  | inl wire =>
      ro_Recipient <$> outs ≡ₚ filter (fun r => is_Some (domain_of r)) (m_To msg) /\
      (forall r, is_Some (domain_of r) -> outcomes_of r acted = outcomes_of r outs) /\
      (exists new, trace_at x' = new ++ trace_at x /\
                   Forall (earned wire new) outs /\ Forall (earned wire new) acted) /\
      (err = None -> ro_Recipient <$> outs ≡ₚ m_To msg /\
                     Forall (fun o => ro_Status o = RecipientDelivered) outs)
  end.
Proof. apply deliver_message_outcomes. Qed.
End Reports.

(** ** Over which channel a message leaves *)

Section Channel.
Context {W S : Type} `{!Network W} `{!SharedStore S} `{U : UnicodeTables}.
Variable h : handlerConfig.
Implicit Types x : handler W S.

(** The source addresses a sender may use: those of its pool, or the kernel's choice when
    it has none. *)
Definition leaves_from (pools : option PoolRouter) (sender : string) (from : option string) : Prop :=
  match pools with
  | None => from = None
  | Some r =>
      match r_pools r !! poolFor r sender with
      | Some p => (exists s, s ∈ sp_ips p /\ from = Some (src_addr s)) \/
                  poolFor r sender = "" /\ from = None
      | None => from = None
      end
  end.

(** The connection leaves from such an address, and for a message that requires TLS the
    server there proved to have the name that was dialled, and understands REQUIRETLS. *)
Definition channel_ok (pools : option PoolRouter) (sender : string) (requireTLS : bool)
    (tr : list event) (c : nat) : Prop :=
  exists from address, dialled tr c = Some (from, address) /\ leaves_from pools sender from /\
  (requireTLS = true -> authenticated address (tls_of tr c) = true /\ offered tr c "REQUIRETLS" = Some true).

Definition plain_pools (r : PoolRouter) : Prop :=
  map_Forall (fun _ p => Forall (fun s => plain_name (src_addr s)) (sp_ips p)) (r_pools r).

(** What every delivery keeps: parked sessions are what their records say, and no name
    holds the separator of session keys. *)
Record in_order x : Prop := {
  io_honest : honest (hd_out x);
  io_cache : plain_cache (hd_mx x);
  io_pools : forall r, hd_pools x = Some r -> plain_pools r
}.

Lemma leaves_from_pool r sender p s :
  r_pools r !! poolFor r sender = Some p -> s ∈ sp_ips p -> leaves_from (Some r) sender (Some (src_addr s)).
Proof. intros Hp Hs. unfold leaves_from. rewrite Hp. left. by exists s. Qed.
Lemma leaves_from_none r sender :
  poolFor r sender = "" \/ r_pools r !! poolFor r sender = None -> leaves_from (Some r) sender None.
Proof.
  intros [H|H]; unfold leaves_from; [|by rewrite H]. destruct (r_pools r !! poolFor r sender); [by right|done].
Qed.

Lemma leaves_from_frame pools pools' sender from :
  frame <$> pools' = frame <$> pools -> leaves_from pools' sender from -> leaves_from pools sender from.
Proof.
  intros H. destruct pools as [r|], pools' as [r'|]; [|done..]. cbn in H. injection H as H. fold (frame r') (frame r) in H.
  assert (frame r' = frame r) as F by (unfold frame; congruence). clear H.
  unfold leaves_from. rewrite (poolFor_frame r r' sender F).
  destruct (r_pools r' !! poolFor r sender) as [p'|] eqn:E'.
  - destruct (frame_lookup r r' _ _ F E') as (p & -> & -> & _). done.
  - destruct (r_pools r !! poolFor r sender) as [p|] eqn:E; [|done].
    destruct (frame_lookup r' r _ _ (eq_sym F) E) as (p' & E2 & _). by rewrite E2 in E'.
Qed.

Lemma plain_pools_frame r r' : frame r' = frame r -> plain_pools r -> plain_pools r'.
Proof.
  intros F H name p' Hp. destruct (frame_lookup r r' _ _ F Hp) as (p & Hq & -> & _). by apply (H name p).
Qed.

(** *** Composing *)

Section Message.
Variables (sender : string) (rt : bool).

Definition escorted (x x' : handler W S) : Prop :=
  in_order x' /\ frame <$> hd_pools x' = frame <$> hd_pools x /\
  exists new, trace_at x' = new ++ trace_at x /\
  sends_ok (fun pre c => channel_ok (hd_pools x) sender rt (pre ++ trace_at x) c) new.

Lemma sends_ok_app Q new1 new2 :
  sends_ok Q new1 -> sends_ok (fun pre c => Q (pre ++ new1) c) new2 -> sends_ok Q (new2 ++ new1).
Proof.
  intros H1 H2. induction new2 as [|e new2 IH]; [done|]. cbn. apply sends_ok_cons.
  - intros c k ok -> Hs. by apply (H2 [] new2 c k ok).
  - apply IH. intros post pre c k ok ->. by apply (H2 (e :: post) pre c k ok).
Qed.

Lemma sends_ok_mono (Q Q' : list event -> nat -> Prop) new :
  (forall pre c, Q pre c -> Q' pre c) -> sends_ok Q new -> sends_ok Q' new.
Proof. intros H Hs post pre c k ok E K. eapply H, Hs; eauto. Qed.

Lemma escorted_trans x1 x2 x3 : escorted x1 x2 -> escorted x2 x3 -> escorted x1 x3.
Proof.
  intros (_ & F1 & n1 & T1 & S1) (I2 & F2 & n2 & T2 & S2). split; [done|]. split; [by etrans|].
  exists (n2 ++ n1). split; [by rewrite T2, T1, app_assoc|]. apply sends_ok_app; [done|].
  eapply sends_ok_mono; [|exact S2]. intros pre c (from & address & D & L & R).
  rewrite T1, app_assoc in D, R. exists from, address. split; [done|]. split; [|done].
  by eapply leaves_from_frame.
Qed.

Lemma resolved_view new tr c : Forall is_resolved new -> view_of (new ++ tr) c = view_of tr c.
Proof.
  induction 1 as [|e new He _ IH]; [done|]. cbn [app]. rewrite view_of_cons; [done|]. by destruct e.
Qed.

Lemma honest_quiet (o o' : outbound W) : quiet o o' -> honest o -> honest o'.
Proof.
  intros (N & K & new & T & R) H c key s Hc Hp. rewrite K in Hc. destruct (H c key s Hc Hp) as [L G].
  split; [by rewrite N|]. rewrite T. by rewrite resolved_view.
Qed.

Lemma quiet_escorted x x' : plain_resolver (W := W) -> in_order x -> quiet_handler x x' -> escorted x x'.
Proof.
  intros Hr [I1 I2 I3] (Q1 & Q2 & Q3). split; [split|].
  - by eapply honest_quiet.
  - by apply Q2.
  - intros r' E'. rewrite E' in Q3. destruct (hd_pools x) as [r|]; [|done].
    eapply plain_pools_frame; [|by apply I3]. cbn in Q3. unfold frame in *. congruence.
  - split; [done|]. destruct Q1 as (_ & _ & new & T & R). exists new. split; [done|].
    intros post pre c k ok ->. apply Forall_app in R as [_ R]. by apply Forall_cons in R as [R _].
Qed.

(** *** One server, one domain, one message *)

Lemma plain_join src host port :
  plain_name host -> plain_name port ->
  match src with Some s => plain_name (src_addr s) | None => True end -> plain src (JoinHostPort host port).
Proof.
  intros H1 H2 H3. split; [|by destruct src]. unfold JoinHostPort, plain_name in *.
  destruct (exists_byte (Ascii.eqb ":") host); rewrite ?exists_byte_app, ?H1, ?H2; done.
Qed.

Lemma runs_try_servers src domain rs content servers pools : forall last refused (o : outbound W),
  plain_servers servers -> plain_name (hc_mxPort h) ->
  match src with Some s => plain_name (src_addr s) | None => True end ->
  leaves_from pools sender (src_addr <$> src) -> honest o ->
  runs (try_servers h src sender domain rs content rt servers last refused)
    (fun _ o' => honest o' /\ exists new, ob_trace o' = new ++ ob_trace o /\
       sends_ok (fun pre c => channel_ok pools sender rt (pre ++ ob_trace o) c) new) o.
Proof.
  induction servers as [|mx servers IH]; intros last refused o Hs Hport Hsrc Hl Ho; cbn [try_servers].
  { apply runs_ret. split; [done|]. exists []. split; [done|]. intros [|] pre c k ok [=]. }
  apply Forall_cons in Hs as [Hmx Hs].
  set (port := if (hc_mxPort h =? "")%string then "25" else hc_mxPort h).
  assert (plain_name port) as Hp by (unfold port; by destruct (_ =? _)%string).
  pose (r := mkRequest src (JoinHostPort (mx_Host mx) port) sender rs content rt domain (mx_Host mx)).
  destruct (deliver_course h r o) as (H1 & new1 & T1 & S1); [by apply plain_join|done|].
  assert (sends_ok (fun pre c => channel_ok pools sender rt (pre ++ ob_trace o) c) new1) as S1'.
  { destruct (fst (danePolicyFor _ _ _ _ o)) as [dp|e]; [|rewrite S1; by intros [|] pre c k ok [=]].
    eapply sends_ok_mono; [|exact S1]. intros pre c (D & R & _). by eexists _, _. }
  apply runs_bind. unfold attemptDeliveryToHostWithMetadata. apply runs_bind.
  change (deliverToAddressWithMetadata h src (JoinHostPort (mx_Host mx) _) sender rs content rt domain (mx_Host mx))
    with (deliver h r).
  unfold runs at 1. destruct (deliver h r o) as [[[[ip host] outs] err] o1]. cbn [fst snd] in *.
  assert (honest o1 /\ exists new, ob_trace o1 = new ++ ob_trace o /\
       sends_ok (fun pre c => channel_ok pools sender rt (pre ++ ob_trace o) c) new) as Hdone by eauto.
  destruct outs as [|y outs]; [|apply runs_ret; cbn; by apply runs_ret].
  destruct err as [e|]; apply runs_ret; cbn [length Nat.ltb Nat.leb]; [|by apply runs_ret].
  eapply runs_mono; [by apply IH|]. intros _ o2 (H2 & new2 & T2 & S2). split; [done|].
  exists (new2 ++ new1). split; [by rewrite T2, T1, app_assoc|]. apply sends_ok_app; [done|].
  eapply sends_ok_mono; [|exact S2]. intros pre c. by rewrite T1, app_assoc.
Qed.

Context (Hresolver : plain_resolver (W := W)) (Hport : plain_name (hc_mxPort h)).

(** Steps that only ask the resolver keep what was escorted. *)
Lemma escorted_quiet x1 x2 x3 : escorted x1 x2 -> quiet_handler x2 x3 -> escorted x1 x3.
Proof. intros E Q. eapply escorted_trans; [done|]. apply quiet_escorted; [done|apply E|done]. Qed.

Lemma runs_quiet_after {A B} (m : St (handler W S) A) (f : A -> St (handler W S) B) x0 x Φ :
  st_kept quiet_handler m -> escorted x0 x ->
  (forall a x', escorted x0 x' -> runs (f a) Φ x') -> runs (mbind f m) Φ x.
Proof.
  intros Hm E H. apply runs_bind, runs_quiet; [done|]. intros a x' Q. apply H. by eapply escorted_quiet.
Qed.

Lemma runs_deliver_to_servers src msg domain rs content x0 x :
  m_From msg = sender -> plain_name domain ->
  match src with Some s => plain_name (src_addr s) | None => True end ->
  leaves_from (hd_pools x0) sender (src_addr <$> src) -> escorted x0 x ->
  runs (deliver_to_servers h src msg domain rs content rt) (fun _ x' => escorted x0 x') x.
Proof.
  intros Hm Hd Hsrc Hl E. unfold deliver_to_servers. apply runs_bind, runs_zoom.
  eapply runs_mono; [apply runs_lookupMX_plain|]. cbn [rv_out rv_cache]. intros mx v [[Q1 Q2] P].
  pose proof E as ([I1 I2 I3] & _). cbn [rv_out rv_cache] in *. specialize (P Hresolver I2 Hd).
  set (x1 := x <| hd_out := rv_out v |> <| hd_mx := rv_cache v |>).
  assert (escorted x0 x1) as E1 by (eapply escorted_quiet; [done|]; by split_and!).
  destruct mx as [[|mx servers]|e]; [by apply runs_ret| |by apply runs_ret].
  eapply runs_quiet_after; [apply hush_gets|done|]. intros shaped x2 E2.
  eapply runs_quiet_after; [pose proof quiet_acquire_limits; solve_quiet|done|]. intros [slot|e] x3 E3; [|by apply runs_ret].
  apply runs_bind, runs_zoom. rewrite Hm.
  eapply runs_mono; [apply (runs_try_servers src domain rs content _ (hd_pools x0)); [done..|apply E3]|].
  intros r o (Ho & new & T & Hsends).
  assert (escorted x3 (x3 <| hd_out := o |>)) as E4.
  { destruct E3 as ([J1 J2 J3] & F3 & _). split; [by split|]. split; [done|]. exists new. split; [done|].
    eapply sends_ok_mono; [|exact Hsends]. intros pre c (from & address & D & L & R).
    exists from, address. split; [done|]. split; [|done]. eapply leaves_from_frame; [|exact L]. done. }
  eapply runs_quiet_after; [apply hush_report|exact (escorted_trans _ _ _ E3 E4)|]. intros _ x5 E5. by apply runs_ret.
Qed.

Lemma runs_deliverToDomain src msg domain rs content x0 x :
  m_From msg = sender -> plain_name domain ->
  match src with Some s => plain_name (src_addr s) | None => True end ->
  leaves_from (hd_pools x0) sender (src_addr <$> src) -> escorted x0 x ->
  runs (deliverToDomainWithMetadata h src msg domain rs content rt) (fun _ x' => escorted x0 x') x.
Proof.
  intros Hm Hd Hsrc Hl E. unfold deliverToDomainWithMetadata.
  eapply runs_quiet_after; [apply hush_gets|done|]. intros prov x1 E1.
  eapply runs_quiet_after; [apply quiet_clock|done|]. intros now x2 E2.
  eapply runs_quiet_after; [apply quiet_on_shaper|done|]. intros paused x3 E3.
  destruct paused as [[wait|]|]; [by apply runs_ret|by apply runs_deliver_to_servers..].
Qed.

(** The address reserved for a sender is one it may use. *)
Lemma acquire_source_allowed x0 x :
  escorted x0 x ->
  runs (acquire_source sender)
    (fun t x' => escorted x0 x' /\
       match t with
       | inl t => leaves_from (hd_pools x0) sender (src_addr <$> (t_src <$> t)) /\
                  match t_src <$> t with Some s => plain_name (src_addr s) | None => True end
       | inr _ => True
       end) x.
Proof.
  intros E. unfold acquire_source. eapply runs_quiet_after; [apply quiet_clock|done|]. intros now x1 E1.
  apply runs_bind. unfold runs at 1.
  assert (st_kept quiet_handler (on_pools (W := W) (S := S) (acquire now sender))) as Hq by solve_quiet.
  specialize (Hq x1). pose proof E1 as ([_ _ I3] & F1 & _).
  assert (escorted x0 (snd (on_pools (acquire now sender) x1))) as E2 by (by eapply escorted_quiet).
  apply runs_ret. split; [done|]. clear Hq E2. unfold on_pools.
  assert (forall from, leaves_from (hd_pools x1) sender from -> leaves_from (hd_pools x0) sender from) as Hback
    by (intros from; by apply leaves_from_frame).
  revert I3 Hback. destruct (hd_pools x1) as [r|]; intros I3 Hback; [|cbn; split; [by apply Hback|done]].
  destruct (acquire now sender _) as [[[t|]|e] [r' st]] eqn:Ea; cbn; [| |done].
  - apply acquire_source_of in Ea as (p & Hp & Hin). cbn in Hp.
    change (poolFor _ sender) with (poolFor r sender) in Hp. split.
    + apply Hback. exact (leaves_from_pool r sender p (t_src t) Hp Hin).
    + specialize (I3 r eq_refl _ _ Hp). rewrite Forall_forall in I3. by apply I3.
  - apply acquire_none in Ea. cbn in Ea. change (poolFor _ sender) with (poolFor r sender) in Ea.
    split; [|done]. apply Hback. exact (leaves_from_none r sender Ea).
Qed.

Lemma runs_deliver_domain_escorted msg domain rs content x0 x :
  m_From msg = sender -> plain_name domain -> escorted x0 x ->
  runs (deliver_domain h msg domain rs content rt) (fun _ x' => escorted x0 x') x.
Proof.
  intros Hm Hd E. unfold deliver_domain. rewrite Hm. apply runs_bind.
  eapply runs_mono; [by apply acquire_source_allowed|]. intros t x1 [E1 Ht]. cbv zeta.
  apply runs_bind. apply runs_mono with (Q := fun _ x' => escorted x0 x').
  - destruct t as [t|e]; [|by apply runs_ret]. destruct Ht as [Hl Hpl]. apply runs_bind.
    replace (match t with Some t => Some (t_src t) | None => None end) with (t_src <$> t) by (by destruct t).
    eapply runs_mono; [by apply (runs_deliverToDomain (t_src <$> t) msg domain rs content x0 x1)|].
    intros [[[ip host] outs] err] x2 E2.
    eapply runs_quiet_after; [pose proof quiet_release_source; solve_quiet|done|]. intros _ x3 E3. by apply runs_ret.
  - intros [[[ip host] outs] err] x2 E2.
    eapply runs_quiet_after; [apply hush_gets|done|]. intros prov x3 E3.
    eapply runs_quiet_after; [apply quiet_tell_shaper|done|]. intros throttled x4 E4. by apply runs_ret.
Qed.

Lemma runs_deliver_domains_escorted msg groups content ds x0 : forall x,
  m_From msg = sender -> Forall plain_name ds -> escorted x0 x ->
  runs (deliver_domains h msg groups ds content rt) (fun _ x' => escorted x0 x') x.
Proof.
  intros x Hm Hd. revert x. induction Hd as [|d ds Hd _ IH]; intros x E; cbn [deliver_domains]; [by apply runs_ret|].
  apply runs_bind. eapply runs_mono; [by apply runs_deliver_domain_escorted|]. intros rp x1 E1.
  apply runs_bind. eapply runs_mono; [by apply IH|]. intros rest x2 E2. by apply runs_ret.
Qed.
End Message.

Lemma group_keys rs : forall groups d l,
  group_recipients rs groups !! d = Some l ->
  is_Some (groups !! d) \/ exists r, r ∈ rs /\ domain_of r = Some d.
Proof.
  induction rs as [|r rs IH]; intros groups d l; cbn [group_recipients]; [by left; eexists|].
  intros H. apply IH in H as [H|(r' & Hin & Hr)]; [|right; exists r'; split; [by right|done]].
  destruct (domain_of r) as [d'|] eqn:E; [|by left].
  destruct (decide (d' = d)) as [<-|Hne]; [right; exists r; split; [by left|done]|].
  left. by rewrite lookup_insert_ne in H.
Qed.

(** C18 (safety). Over which channel a message leaves.  With any network, and sessions parked
    by earlier messages of any kind being reused, every MAIL, RCPT and DATA of a message
    goes over a connection whose source address is one of the sending pool the envelope
    sender belongs to (or is left to the kernel when it has none), whichever domains and
    servers the message goes to and whatever it falls back on; and if the message is
    annotated to require TLS, over one on which the server proved to have the name that was
    dialled and offered REQUIRETLS.  Afterwards the handler is ready for the next message in the same sense. *)
Theorem message_channel signer sealer (msg : Message) content x :
  plain_resolver (W := W) -> plain_name (hc_mxPort h) ->
  (forall r d, r ∈ m_To msg -> domain_of r = Some d -> plain_name d) -> in_order x ->
  let x' := snd (DeliverMessageWithMetadata h signer sealer msg content x) in
  in_order x' /\
  exists new, trace_at x' = new ++ trace_at x /\
  forall post pre c k ok, new = post ++ Called c k ok :: pre -> is_send k = true ->
  channel_ok (hd_pools x) (m_From msg) (messageRequiresTLS msg) (pre ++ trace_at x) c.
Proof.
  intros Hr Hp Hd Hx. cbv zeta.
  enough (runs (DeliverMessageWithMetadata h signer sealer msg content)
            (fun _ x' => escorted (m_From msg) (messageRequiresTLS msg) x x') x) as (I & _ & new & T & Hs).
  { split; [done|]. exists new. by split. }
  assert (escorted (m_From msg) (messageRequiresTLS msg) x x) as E
    by (apply quiet_escorted; [done|done|reflexivity]).
  unfold DeliverMessageWithMetadata, deliverWithMetadata. apply runs_bind.
  destruct (prepared_content signer sealer msg content) as [wire|e]; [|by apply runs_ret, runs_ret].
  apply runs_bind. eapply runs_mono.
  { apply (runs_deliver_domains_escorted (m_From msg) (messageRequiresTLS msg) Hr Hp msg); [done| |exact E].
    unfold sorted_domains. rewrite SliceStable_Permutation. apply Forall_fmap, Forall_forall.
    intros [d l] Hin. apply elem_of_map_to_list, group_keys in Hin as [[? Hin]|(r & Hin & Hr')];
      [by rewrite lookup_empty in Hin|by eapply Hd]. }
  intros reports x1 E1. eapply runs_quiet_after; [exact Hr|apply quiet_clock|exact E1|]. intros now x2 E2.
  destruct (first_success reports) as [ip host]. destruct (buildDeliveryResult _ _ _ _ _ _ _) as [res err].
  by apply runs_ret, runs_ret.
Qed.
End Channel.

(** ** Examples *)

(** A new handler is in order. *)
Lemma in_order_new {W S} `{!Network W} (w : W) sessions ttl max shaper providers pools shared (store : S) :
  sessions = None \/ sessions = Some SessionCache.newSessionCache ->
  (forall r, pools = Some r -> plain_pools r) ->
  in_order (mkHandler (mkOutbound w 0 sessions []) (Some (newCachingMXResolver ttl max)) shaper providers pools
              shared store).
Proof.
  intros Hs Hp. split; [|by intros c name e [= <-]|done]. intros c key s Hc Hk. cbn in Hc.
  destruct Hs as [->| ->]; [done|]. injection Hc as <-.
  unfold SessionCache.parked_in, SessionCache.idle_at in Hk. cbn in Hk. rewrite lookup_empty in Hk.
  by apply elem_of_nil in Hk.
Qed.

Definition demo_world : toy_net := demo_net <| tn_clock := 13 * Hour |>.
Definition demo_sender : handler toy_net (ValkeyState toy_redis) :=
  mkHandler (mkOutbound demo_world 0 (Some SessionCache.newSessionCache) [])
    (Some (newCachingMXResolver 0 0)) (Some (NewShaper DefaultShapingConfig)) None (Some demo_router) None toy_store.
Definition demo_message (to : list string) (requireTLS : string) : Message :=
  (note "m1") <| m_From := "a@x.example.com" |> <| m_To := to |>
              <| m_Annotations := {[ "require_tls" := requireTLS ]} |>.
Definition demo_send (m : Message) : St (handler toy_net (ValkeyState toy_redis)) (DeliveryResult * option delivery_error) :=
  DeliverMessageWithMetadata (U := ascii_tables) demo_handler None None m "hello".

Lemma toy_plain_resolver : plain_resolver (W := toy_net).
Proof.
  intros d w l w' H. cbn in H. destruct (tn_mx w d) as [l0|e]; [|done]. injection H as <- _.
  apply Forall_forall. by intros m [Hm _]%list_elem_of_filter.
Qed.

Lemma demo_sender_in_order : in_order demo_sender.
Proof.
  apply in_order_new; [by right|]. intros r [= <-] name p Hp.
  assert (r_pools demo_router = {["news" := mkPool "news" (default [] (sp_ips <$> r_pools demo_router !! "news")) [2; 4] 0]})
    as Er by (by vm_compute). rewrite Er in Hp. apply lookup_singleton_Some in Hp as [_ <-].
  apply (bool_decide_unpack _). by vm_compute.
Qed.

Lemma message_outcomes_earned_witness :
  let msg := demo_message ["y@a.example"; "z@a.example"] "" in
  let out := demo_send msg demo_sender in
  let outs := dr_RecipientOutcomes (fst (fst out)) in
  dr_Success (fst (fst out)) = true /\
  (ro_Recipient <$> outs ≡ₚ filter (fun r => is_Some (domain_of (U := ascii_tables) r)) ["y@a.example"; "z@a.example"]) /\
  exists wire new, prepared_content (U := ascii_tables) None None msg "hello" = inl wire /\
    trace_at (snd out) = new ++ trace_at demo_sender /\ Forall (earned wire new) outs.
Proof.
  cbv zeta. split; [by vm_compute|].
  pose proof (message_outcomes_earned (U := ascii_tables) demo_handler None None
                (demo_message ["y@a.example"; "z@a.example"] "") "hello" demo_sender) as H.
  fold (demo_send (demo_message ["y@a.example"; "z@a.example"] "")) in H.
  destruct (demo_send _ demo_sender) as [[result err] x']. cbv zeta in H. cbn [fst snd].
  destruct (prepared_content _ _ _ _) as [wire|e] eqn:E; [|by vm_compute in E].
  destruct H as (H1 & _ & (new & H3 & H4 & _) & _). split; [exact H1|]. by exists wire, new.
Defined.

Lemma message_channel_witness :
  let x := snd (demo_send (demo_message ["x@a.example"] "") demo_sender) in
  let msg := demo_message ["y@a.example"; "z@a.example"] "true" in
  let x' := snd (demo_send msg x) in
  dr_Success (fst (fst (demo_send msg x))) = true /\
  exists new, trace_at x' = new ++ trace_at x /\
  forall post pre c k ok, new = post ++ Called c k ok :: pre -> is_send k = true ->
  channel_ok (U := ascii_tables) (hd_pools x) "a@x.example.com" true (pre ++ trace_at x) c.
Proof.
  cbv zeta. split; [by vm_compute|].
  assert (forall r : string, r ∈ ["x@a.example"; "y@a.example"; "z@a.example"] -> forall d,
    domain_of (U := ascii_tables) r = Some d -> plain_name d) as Hd.
  { intros r Hr d E. enough (domain_of (U := ascii_tables) r = Some "a.example") as E'.
    - rewrite E' in E. by injection E as <-.
    - apply list_elem_of_In in Hr as [<-|[<-|[<-|[]]]]; by vm_compute. }
  assert (in_order (snd (demo_send (demo_message ["x@a.example"] "") demo_sender))) as Hx.
  { apply (message_channel (U := ascii_tables) demo_handler None None (demo_message ["x@a.example"] "")).
    - apply toy_plain_resolver.
    - done.
    - intros r d Hr. apply Hd. cbn in Hr. set_solver.
    - apply demo_sender_in_order. }
  apply (message_channel (U := ascii_tables) demo_handler None None
           (demo_message ["y@a.example"; "z@a.example"] "true") "hello").
  - apply toy_plain_resolver.
  - done.
  - intros r d Hr. apply Hd. cbn in Hr. set_solver.
  - exact Hx.
Defined.

(** An address whose local part is quoted and holds an "@" is delivered to nobody: it is
    left out of the groups, gets no outcome, and the message stays a temporary failure
    until it is given up. *)
Example quoted_address_skipped :
  let q := String DQUOTE ("a@b" +:+ String DQUOTE "@a.example") in
  let '((result, err), _) := demo_send (demo_message [q] "") demo_sender in
  dr_RecipientOutcomes result = [] /\ isTemporaryFailure (U := ascii_tables) err = true.
Proof. by vm_compute. Qed.

(** A pool that has used its allowance sends nothing: no lookup, no connection. *)
Example spent_pool_sends_nothing :
  let once x := snd (demo_send (demo_message ["x@a.example"] "") x) in
  let spent := once (once demo_sender) in
  let '((result, err), x') := demo_send (demo_message ["x@a.example"] "") spent in
  trace_at x' = trace_at spent /\ ro_Status <$> dr_RecipientOutcomes result = [RecipientTemporaryFailure].
Proof. by vm_compute. Qed.
