(* ===== verification/Lmtp.v ===== *)
(** * Lmtp: delivery to the mailbox server (internal/queue: lmtp_handler.go, lmtp_pool.go)

    The LMTP client, line by line: the pool of sessions, the in-flight limiter, the
    transaction with its one reply per accepted recipient, and the writer of the message
    ([textproto.DotWriter]).  The mailbox server and the network are an [LmtpNet]; what is
    written and read is kept in a trace, newest first.

    A Go panic ([panic_error]) ends the delivery like an error here; in the program
    nothing recovers it. *)

From stdpp Require Import gmap.
From S2P Require Import Prelude GoStrings GoNet GoMath DataReader QueueStorage QueueManager QueueProcessor Outbound.

Set Primitive Projections.

(** ** textproto.DotWriter *)

Inductive wstate := wstateBeginLine | wstateCR | wstateData.

Fixpoint dot_write (st : wstate) (b : string) : string * wstate :=
  match b with
  | "" => ("", st)
  | String c b' =>
      let '(pre, st') :=
        match st with
        | wstateCR => ("", if Ascii.eqb c LF then wstateBeginLine else wstateData)
        | _ =>
            let dot := match st with
                       | wstateBeginLine => if Ascii.eqb c DOT then String DOT "" else ""
                       | _ => ""
                       end in
            if Ascii.eqb c CR then (dot, wstateCR)
            else if Ascii.eqb c LF then (dot +:+ String CR "", wstateBeginLine)
            else (dot, wstateData)
        end in
      let '(rest, last) := dot_write st' b' in (pre +:+ String c rest, last)
  end.

Definition dot_close (st : wstate) : string :=
  match st with
  | wstateData => CRLF +:+ dot_crlf
  | wstateCR => String LF dot_crlf
  | wstateBeginLine => dot_crlf
  end.

(** Everything that is put on the wire for a message; [wstateBegin] acts like
    [wstateBeginLine], except that an empty message is ended by CRLF first. *)
Definition dot_encode (content : string) : string :=
  match content with
  | "" => CRLF +:+ dot_crlf
  | _ => let '(out, st) := dot_write wstateBeginLine content in out +:+ dot_close st
  end.

(** ** The network *)

Class LmtpNet (W : Type) := {
  ln_clock : W -> Z;
  ln_dial : string -> W -> option delivery_error * W;
  (** write and flush *)
  ln_write : nat -> string -> W -> option delivery_error * W;
  (** one line, [ReadString('\n')] *)
  ln_read : nat -> W -> (string + delivery_error) * W;
  (** the TLS handshake; what was buffered before it is dropped *)
  ln_handshake : nat -> string -> W -> option delivery_error * W;
  ln_RemoteAddr : nat -> W -> string
}.

Inductive lmtp_event :=
| LDialled (c : nat)
| LWrote (c : nat) (text : string) (ok : bool)
| LRead (c : nat) (line : string + delivery_error)
| LSecured (c : nat)
| LClosed (c : nat).

Record lmtpConfig := mkLmtpConfig {
  lc_host : string;
  lc_port : Z;
  lc_maxInFly : nat;
  lc_tls : option string                   (** STARTTLS is required, with this server name *)
}.

Definition NewLMTPDeliveryHandler (host : string) (port maxPerDomain : Z) : lmtpConfig :=
  mkLmtpConfig host (if port =? 0 then 2424 else port)
    (Z.to_nat (if maxPerDomain <=? 0 then 10 else maxPerDomain)) None.
Definition SetTLS (name : option string) (h : lmtpConfig) : lmtpConfig := h <| lc_tls := name |>.

Record lmtpSession := mkLmtpSession { ls_conn : nat; ls_exts : gset string; ls_idle : Z }.

Record lmtp {W : Type} := mkLmtp {
  lm_net : W;
  lm_next : nat;
  lm_pool : list lmtpSession;              (** the last one first *)
  lm_inFlight : gmap string nat;
  lm_trace : list lmtp_event
}.
Arguments lmtp : clear implicits.
Arguments mkLmtp {W}.

Definition lmtpIdle : Z := 30 * Second.

Definition panic_error : delivery_error := plain_error "runtime error: index out of range".

(** ** Limiter *)

Definition TryAcquire (max : nat) (domain : string) (m : gmap string nat) : option (gmap string nat) :=
  let n := default O (m !! domain) in
  if (max <=? n)%nat then None else Some (<[domain := Datatypes.S n]> m).

Definition Release (domain : string) (m : gmap string nat) : gmap string nat :=
  match m !! domain with
  | None => m
  | Some n => if (n <=? 1)%nat then delete domain m else <[domain := (n - 1)%nat]> m
  end.

(** ** Outcomes *)

(** An outcome whose status is not known yet is the empty string in the code. *)
Definition pending_status : RecipientDeliveryStatus := RecipientStatusOther "".

Definition statusForResponse (response : string) : RecipientDeliveryStatus :=
  if HasPrefix (TrimSpace response) "5" then RecipientPermanentFailure else RecipientTemporaryFailure.

Definition lmtp_outcome (r : string) (st : RecipientDeliveryStatus) (enh diag route : string) : RecipientOutcome :=
  mkOutcome r st enh diag route "" "" "" false.

(** Fill in the first open outcome of a recipient. *)
Fixpoint resolve_slot (r : string) (status : RecipientDeliveryStatus) (enh diag route : string)
    (outs : list RecipientOutcome) : list RecipientOutcome :=
  match outs with
  | [] => []
  | o :: outs' =>
      if bool_decide (ro_Recipient o = r /\ ro_Status o = pending_status)
      then lmtp_outcome r status enh diag route :: outs'
      else o :: resolve_slot r status enh diag route outs'
  end.

Definition lmtpOutcomesFailure (now : Z) (route : string) (prior : list RecipientOutcome)
    (pending : list string) (diagnostic : string) (status : RecipientDeliveryStatus) :
    option DeliveryResult * option delivery_error :=
  match enhancedStatus diagnostic, pending with
  | None, _ :: _ => (None, Some panic_error)
  | enh, _ =>
      let enh := default "" enh in
      let outcomes :=
        match prior with
        | [] => (fun r => lmtp_outcome r status enh diagnostic route) <$> pending
        | _ => foldl (fun outs r => resolve_slot r status enh diagnostic route outs) prior pending
        end in
      let err := plain_error diagnostic in
      (Some (mkResult false (Some err) "" "" now "" outcomes ""), Some err)
  end.

Definition lmtpPreFinalFailure (now : Z) (msg : Message) (route diagnostic : string)
    (status : RecipientDeliveryStatus) : option DeliveryResult * option delivery_error :=
  lmtpOutcomesFailure now route [] (m_To msg) diagnostic status.

(** The address of the envelope sender, without brackets and parameters. *)
Definition lmtp_sender (from : string) : string :=
  let s := if HasPrefix from "<" then
             match IndexByte from ">" with
             | Some e => if (1 <? e)%nat then stake (e - 1) (sdrop 1 from) else TrimPrefix from "<"
             | None => TrimPrefix from "<"
             end
           else from in
  let s := Trim s "<>" in
  match IndexByte s " " with
  | Some (Datatypes.S n) => stake (Datatypes.S n) s
  | _ => s
  end.

(** [fmt.Sprint] of a list of strings. *)
Definition show_list (l : list string) : string := "[" +:+ Join l " " +:+ "]".

Section Lmtp.
Context {W : Type} `{!LmtpNet W} `{U : UnicodeTables} `{DG : Digest}.
Variable h : lmtpConfig.

Abbreviation LM := (St (lmtp W)).

Definition note_event (e : lmtp_event) : LM unit := st_modify (fun l => l <| lm_trace ::= cons e |>).
Definition on_wire {A} (f : W -> A * W) : LM A := fun l =>
  let '(a, w) := f (lm_net l) in (a, l <| lm_net := w |>).
Definition lmtp_clock : LM Z := st_gets (fun l => ln_clock (lm_net l)).

Definition write_wire (c : nat) (text : string) : LM (option delivery_error) :=
  r ← on_wire (ln_write c text);
  _ ← note_event (LWrote c text (match r with None => true | Some _ => false end));
  mret r.

(** One line of the server, trimmed. *)
Definition read_line (c : nat) : LM (string + delivery_error) :=
  r ← on_wire (ln_read c);
  let r := match r with inl line => inl (TrimSpace line) | inr e => inr e end in
  _ ← note_event (LRead c r);
  mret r.

Definition close_conn (c : nat) : LM unit := note_event (LClosed c).

(** ** Sessions *)

Definition command (c : nat) (cmd : string) : LM (string + delivery_error) :=
  w ← write_wire c (cmd +:+ CRLF);
  match w with
  | Some e => mret (inr (wrapf "failed to send command: " e))
  | None =>
      r ← read_line c;
      match r with
      | inr e => mret (inr (wrapf "failed to read response: " e))
      | inl line => mret (inl line)
      end
  end.

(** The extension a line of the LHLO reply names; a line with nothing behind its code and
    separator makes the code panic. *)
Definition note_ext (line : string) (exts : gset string) : option (gset string) :=
  if (4 <=? String.length line)%nat then
    match Fields (sdrop 4 line) with
    | [] => None
    | ext :: _ => Some ({[ToUpper ext]} ∪ exts)
    end
  else Some exts.

(** The continuation lines; [fuel] bounds how many there can be. *)
Fixpoint lhlo_rest (fuel : nat) (c : nat) (resp : string) (exts : gset string) :
    LM (gset string + delivery_error) :=
  if HasPrefix resp "250-" then
    match fuel with
    | O => mret (inr (plain_error "out of fuel"))
    | Datatypes.S fuel =>
        r ← read_line c;
        match r with
        | inr e => mret (inr (wrapf "failed to read LHLO continuation: " e))
        | inl resp =>
            match note_ext resp exts with
            | None => mret (inr panic_error)
            | Some exts => lhlo_rest fuel c resp exts
            end
        end
    end
  else if HasPrefix resp "250 " then mret (inl exts)
  else mret (inr (plain_error ("server rejected LHLO: " +:+ resp))).

Definition lhlo (fuel c : nat) : LM (gset string + delivery_error) :=
  r ← command c "LHLO elemta.local";
  match r with
  | inr e => mret (inr (wrapf "LHLO failed: " e))
  | inl resp =>
      match note_ext resp ∅ with
      | None => mret (inr panic_error)
      | Some exts => lhlo_rest fuel c resp exts
      end
  end.

Definition lmtp_addr : string := JoinHostPort (lc_host h) (FormatInt (lc_port h)).

(** The session, or the error and whether it is one of setting up TLS. *)
Definition prepare_session (fuel c : nat) : LM (lmtpSession + delivery_error * bool) :=
  g ← read_line c;
  match g with
  | inr e => mret (inr (wrapf "failed to read server greeting: " e, false))
  | inl greeting =>
      if negb (HasPrefix greeting "220 ")
      then mret (inr (plain_error ("unexpected server greeting: " +:+ greeting), false))
      else
        exts ← lhlo fuel c;
        match exts with
        | inr e => mret (inr (e, false))
        | inl exts =>
            match lc_tls h with
            | None => mret (inl (mkLmtpSession c exts 0))
            | Some name =>
                let setup text := plain_error ("LMTP session setup failed: " +:+ text) in
                if negb (bool_decide ("STARTTLS" ∈ exts))
                then mret (inr (setup "LMTP server doesn't offer STARTTLS, which is required", true))
                else
                  r ← command c "STARTTLS";
                  let refused := match r with
                                 | inl resp => if HasPrefix resp "220" then None else Some (resp +:+ " <nil>")
                                 | inr e => Some (" " +:+ de_text e)
                                 end in
                  match refused with
                  | Some text => mret (inr (setup ("STARTTLS failed: " +:+ text), true))
                  | None =>
                    hs ← on_wire (ln_handshake c (if (name =? "")%string then lc_host h else name));
                    match hs with
                    | Some e => mret (inr (setup ("TLS handshake failed: " +:+ de_text e), true))
                    | None =>
                        _ ← note_event (LSecured c);
                        exts ← lhlo fuel c;
                        match exts with
                        | inr e => mret (inr (e, false))
                        | inl exts => mret (inl (mkLmtpSession c exts 0))
                        end
                    end
                  end
            end
        end
  end.

Definition lmtp_dial (fuel : nat) : LM (lmtpSession + delivery_error * bool) :=
  d ← on_wire (ln_dial lmtp_addr);
  match d with
  | Some e => mret (inr (wrapf ("failed to connect to LMTP server " +:+ lmtp_addr +:+ ": ") e, false))
  | None =>
      c ← st_gets (fun l => lm_next l);
      _ ← st_modify (fun l => l <| lm_next ::= Datatypes.S |>);
      _ ← note_event (LDialled c);
      r ← prepare_session fuel c;
      match r with
      | inl s => mret (inl s)
      | inr e => _ ← close_conn c; mret (inr e)
      end
  end.

(** Pooled sessions are tried from the last one on: one round per session. *)
Fixpoint take_pooled (pool : list lmtpSession) : LM (option lmtpSession) :=
  match pool with
  | [] => mret None
  | s :: pool' =>
      _ ← st_modify (fun l => l <| lm_pool := pool' |>);
      now ← lmtp_clock;
      if lmtpIdle <? now - ls_idle s then _ ← close_conn (ls_conn s); take_pooled pool'
      else
        r ← command (ls_conn s) "RSET";
        if match r with inl resp => HasPrefix resp "250" | inr _ => false end
        then mret (Some s)
        else _ ← close_conn (ls_conn s); take_pooled pool'
  end.

Definition lmtp_acquire (fuel : nat) : LM (lmtpSession + delivery_error * bool) :=
  pool ← st_gets (fun l => lm_pool l);
  s ← take_pooled pool;
  match s with
  | Some s => mret (inl s)
  | None => lmtp_dial fuel
  end.

Definition lmtp_release (s : lmtpSession) : LM unit :=
  now ← lmtp_clock;
  pool ← st_gets (fun l => lm_pool l);
  if (lc_maxInFly h <=? length pool)%nat then close_conn (ls_conn s)
  else st_modify (fun l => l <| lm_pool := s <| ls_idle := now |> :: pool |>).

(** [Close]: every pooled session is sent QUIT and closed. *)
Fixpoint quit_all (pool : list lmtpSession) : LM unit :=
  match pool with
  | [] => mret tt
  | s :: pool' =>
      _ ← write_wire (ls_conn s) ("QUIT" +:+ CRLF);
      _ ← close_conn (ls_conn s);
      quit_all pool'
  end.
Definition lmtp_Close : LM unit :=
  pool ← st_gets (fun l => lm_pool l);
  _ ← quit_all (rev pool);
  st_modify (fun l => l <| lm_pool := [] |>).

(** ** The transaction *)

(** RCPT for every recipient; an accepted one is open until its reply after DATA.  [None]
    is a panic: a refusal without words has no place for a status code. *)
Fixpoint lmtp_rcpts (c : nat) (route : string) (rs : list string) : LM (option (list RecipientOutcome)) :=
  match rs with
  | [] => mret (Some [])
  | r :: rs' =>
      resp ← command c ("RCPT TO:<" +:+ r +:+ ">");
      let o := match resp with
               | inr e => Some (lmtp_outcome r RecipientTemporaryFailure "" (de_text e) route)
               | inl resp =>
                   if HasPrefix resp "250 " then Some (lmtp_outcome r pending_status "" "" route)
                   else (fun enh => lmtp_outcome r (if HasPrefix resp "5" then RecipientPermanentFailure
                                                    else RecipientTemporaryFailure) enh resp route)
                        <$> enhancedStatus resp
               end in
      match o with
      | None => mret None
      | Some o => rest ← lmtp_rcpts c route rs'; mret (cons o <$> rest)
      end
  end.

Definition is_pending (o : RecipientOutcome) : bool := bool_decide (ro_Status o = pending_status).

(** One line of reply per accepted recipient: the outcomes, the recipients refused now,
    and whether all replies were read; or a panic. *)
Fixpoint final_replies (c : nat) (outs : list RecipientOutcome) :
    LM (option (list RecipientOutcome * list string * bool)) :=
  match outs with
  | [] => mret (Some ([], [], true))
  | o :: outs' =>
      if is_pending o then
        r ← read_line c;
        let verdict :=
          match r with
          | inr e => Some (RecipientTemporaryFailure, "", de_text e, [], false)
          | inl resp =>
              (fun enh => if HasPrefix resp "2" then (RecipientDelivered, enh, resp, [], true)
                          else (if HasPrefix resp "5" then RecipientPermanentFailure
                                else RecipientTemporaryFailure, enh, resp, [ro_Recipient o], true))
              <$> enhancedStatus resp
          end in
        match verdict with
        | None => mret None
        | Some (st, enh, diag, refused, read) =>
            rest ← final_replies c outs';
            mret ((fun '(outs', failed, all) =>
                     (lmtp_outcome (ro_Recipient o) st enh diag (ro_Route o) :: outs', refused ++ failed, (read && all)%bool))
                  <$> rest)
        end
      else
        rest ← final_replies c outs';
        mret ((fun '(outs', failed, all) => (o :: outs', failed, all)) <$> rest)
  end.

Definition lmtp_delivered (outs : list RecipientOutcome) : list RecipientOutcome :=
  filter (fun o => ro_Status o = RecipientDelivered) outs.

(** The end of a transaction in which every accepted recipient has been answered for. *)
Definition lmtp_result (now : Z) (msg : Message) (remote : string) (failed : list string)
    (outs : list RecipientOutcome) : option DeliveryResult * option delivery_error :=
  let n := length (lmtp_delivered outs) in
  if (n =? 0)%nat then
    let e := plain_error "delivery failed for all accepted recipients" in
    (Some (mkResult false (Some e) "" "" now "Delivered to 0 recipients" outs ""), Some e)
  else
    let ip := match SplitHostPort remote with Some (host, _) => host | None => remote end in
    let share := FormatInt (Z.of_nat n) +:+ "/" +:+ FormatInt (Z.of_nat (length (m_To msg))) in
    let err := match failed with
               | [] => None
               | _ => Some (plain_error ("partial delivery: " +:+ share +:+ " recipients delivered, failed: "
                                         +:+ show_list failed))
               end in
    (Some (mkResult true err ip ip now ("Delivered to " +:+ share +:+ " recipients") outs ""), err).

(** From MAIL to the last reply; whether the session can be used again. *)
Definition lmtp_transaction (msg : Message) (content : string) (s : lmtpSession) :
    LM ((option DeliveryResult * option delivery_error) * bool) :=
  let c := ls_conn s in
  let sender := lmtp_sender (m_From msg) in
  let mail := "MAIL FROM:<" +:+ sender +:+ ">" in
  let mail := if (bool_decide ("DSN" ∈ ls_exts s) && negb (m_ID msg =? "")%string)%bool
              then mail +:+ " ENVID=" +:+ sha256_hex (m_ID msg) else mail in
  resp ← command c mail;
  now ← lmtp_clock;
  match resp with
  | inr e => mret (lmtpPreFinalFailure now msg lmtp_addr ("MAIL FROM failed: " +:+ de_text e) RecipientTemporaryFailure, false)
  | inl resp =>
      if negb (HasPrefix resp "250 ")
      then mret (lmtpPreFinalFailure now msg lmtp_addr resp (statusForResponse resp), false)
      else
        outs ← lmtp_rcpts c lmtp_addr (m_To msg);
        match outs with
        | None => mret ((None, Some panic_error), false)
        | Some outs =>
            let accepted := ro_Recipient <$> filter (fun o => is_pending o = true) outs in
            let refused := ro_Recipient <$> filter (fun o => is_pending o = false) outs in
            now ← lmtp_clock;
            match accepted with
            | [] =>
                let e := plain_error ("all recipients rejected: " +:+ show_list refused) in
                mret ((Some (mkResult false (Some e) "" "" now "" outs ""), Some e), false)
            | _ =>
                data ← command c "DATA";
                now ← lmtp_clock;
                match data with
                | inr e => mret (lmtpOutcomesFailure now lmtp_addr outs accepted (de_text e) RecipientTemporaryFailure, false)
                | inl resp =>
                    if negb (HasPrefix resp "354 ")
                    then mret (lmtpOutcomesFailure now lmtp_addr outs accepted resp (statusForResponse resp), false)
                    else
                      w ← write_wire c (dot_encode content);
                      match w with
                      | Some e =>
                          mret ((Some (mkResult false None "" "" 0 "" [] ""),
                                 Some (wrapf "failed to write message data: " e)), false)
                      | None =>
                          r ← final_replies c outs;
                          match r with
                          | None => mret ((None, Some panic_error), false)
                          | Some (final, failed, all) =>
                              now ← lmtp_clock;
                              remote ← st_gets (fun l => ln_RemoteAddr c (lm_net l));
                              mret (lmtp_result now msg remote (refused ++ failed) final, all)
                          end
                      end
                end
            end
        end
  end.

Definition DeliveryMethodLMTP : string := "lmtp".

Definition limited_domain (msg : Message) : string :=
  if (m_Domain msg =? "")%string then match m_To msg with [] => "" | r :: _ => extractDomain r end
  else m_Domain msg.

(** A session, the transaction, and the session's way back. *)
Definition lmtp_session_delivery (fuel : nat) (msg : Message) (content : string) :
    LM (option DeliveryResult * option delivery_error) :=
  a ← lmtp_acquire fuel;
  now ← lmtp_clock;
  match a with
  | inr (e, setup) =>
      mret (if (setup : bool) then lmtpPreFinalFailure now msg lmtp_addr (de_text e) RecipientTemporaryFailure
            else (Some (mkResult false None "" "" 0 "" [] ""), Some e))
  | inl s =>
      r ← lmtp_transaction msg content s;
      let '(res, reusable) := r in
      _ ← (if (reusable : bool) then lmtp_release s else close_conn (ls_conn s));
      mret res
  end.

Definition lmtp_deliverWithMetadata (fuel : nat) (msg : Message) (content : string) :
    LM (option DeliveryResult * option delivery_error) :=
  let domain := limited_domain msg in
  if (domain =? "")%string then lmtp_session_delivery fuel msg content
  else
    inFlight ← st_gets (fun l => lm_inFlight l);
    match TryAcquire (lc_maxInFly h) domain inFlight with
    | None => mret (None, Some (plain_error ("temporary failure: domain " +:+ domain
                                             +:+ " is over concurrent delivery limit")))
    | Some m =>
        _ ← st_modify (fun l => l <| lm_inFlight := m |>);
        r ← lmtp_session_delivery fuel msg content;
        _ ← st_modify (fun l => l <| lm_inFlight ::= Release domain |>);
        mret r
    end.

Definition lmtp_DeliverMessageWithMetadata (fuel : nat) (msg : Message) (content : string) :
    LM (DeliveryResult * option delivery_error) :=
  r ← lmtp_deliverWithMetadata fuel msg content;
  let '(result, err) := r in
  let result := default (mkResult false err "" "" 0 "" [] "") result in
  mret (if (dr_DeliveryMethod result =? "")%string
        then result <| dr_DeliveryMethod := DeliveryMethodLMTP |> else result, err).
End Lmtp.

(** ** What is put on the wire *)

(** A line that Go's writer leaves as it is: it does not end in CR CR LF. *)
Definition clean_line (l : string) : Prop :=
  exists b, l = b +:+ CRLF /\ no_LF b = true /\ last_byte b <> Some CR.

Lemma clean_line_crlf l : clean_line l -> crlf_line l.
Proof. intros (b & -> & H & _). by exists b. Qed.

Lemma dot_write_crlf st rest :
  st <> wstateCR ->
  dot_write st (CRLF +:+ rest) = let '(out, last) := dot_write wstateBeginLine rest in (CRLF +:+ out, last).
Proof.
  intros H. change (CRLF +:+ rest) with (String CR (String LF rest)).
  destruct st; [|done|]; cbn [dot_write]; change (Ascii.eqb CR CR) with true; change (Ascii.eqb LF LF) with true;
    change (Ascii.eqb CR DOT) with false; cbv iota beta; by destruct (dot_write wstateBeginLine rest).
Qed.

(** Inside a line the bytes go through unchanged; where they end tells the state. *)
Lemma dot_write_body b : forall st,
  no_LF b = true -> (b <> "" -> last_byte b <> Some CR) -> (b = "" -> st <> wstateCR) ->
  forall rest out last, dot_write wstateBeginLine rest = (out, last) ->
  dot_write st (b +:+ CRLF +:+ rest)
  = ((match st, first_byte (b +:+ CRLF) with
      | wstateBeginLine, Some c => if Ascii.eqb c DOT then String DOT "" else ""
      | _, _ => ""
      end) +:+ b +:+ CRLF +:+ out, last).
Proof.
  induction b as [|c b IH]; intros st Hn Hl Hst rest out last E.
  { change (dot_write st (CRLF +:+ rest) = ((match st with wstateBeginLine => "" | _ => "" end) +:+ CRLF +:+ out, last)).
    rewrite dot_write_crlf by auto. rewrite E. by destruct st. }
  unfold no_LF in *. cbn in Hn. apply andb_true_iff in Hn as [Hc Hn]. apply negb_true_iff in Hc.
  rewrite !app_cons. cbn [dot_write first_byte]. rewrite Hc.
  assert (forall st', (b = "" -> st' <> wstateCR) -> st' <> wstateBeginLine ->
    dot_write st' (b +:+ CRLF +:+ rest) = (b +:+ CRLF +:+ out, last)) as Hr.
  { intros st' Hs Hb. rewrite (IH st' Hn) with (out := out) (last := last); [by destruct st'| |done|done].
    intros Hne. specialize (Hl ltac:(done)). by destruct b. }
  assert (b = "" -> Ascii.eqb c CR = false) as Hcr.
  { intros ->. apply Ascii.eqb_neq. intros ->. by apply Hl. }
  destruct st.
  - destruct (Ascii.eqb c CR) eqn:Ec; rewrite Hr; try done. intros ->. by specialize (Hcr eq_refl).
  - rewrite Hr; [done|done|done].
  - destruct (Ascii.eqb c CR) eqn:Ec; rewrite Hr; try done. intros ->. by specialize (Hcr eq_refl).
Qed.

Lemma dot_write_lines m :
  Forall clean_line m ->
  dot_write wstateBeginLine (concat_strings m) = (concat_strings (dot_stuff <$> m), wstateBeginLine).
Proof.
  induction 1 as [|l m Hl _ IH]; [done|]. destruct Hl as (b & -> & Hn & Hc). cbn [fmap list_fmap concat_strings foldr].
  fold (concat_strings m) (concat_strings (dot_stuff <$> m)).
  rewrite <- string_app_assoc. rewrite (dot_write_body b wstateBeginLine Hn (fun _ => Hc) ltac:(done) _ _ _ IH).
  f_equal. unfold dot_stuff. destruct (first_byte (b +:+ CRLF)) as [c|] eqn:E.
  - destruct (Ascii.eqb c DOT) eqn:Ed.
    + apply Ascii.eqb_eq in Ed as ->. rewrite bool_decide_true by done. exact (f_equal (String DOT) (string_app_assoc b CRLF _)).
    + rewrite bool_decide_false; [exact (string_app_assoc b CRLF _)|]. intros [= ->]. by rewrite Ascii.eqb_refl in Ed.
  - by destruct b.
Qed.

(** Go's writer is the dot-stuffing of the protocol: for a message of CRLF
    lines, none of which ends in a second carriage return, the bytes the client puts on the
    wire are those of the specification against which the server's reader is proved
    (a line that starts with a dot gets another, and a line with a single dot ends the
    message), so that what one side sends the other reads back. *)
Theorem dot_encode_wire m :
  m <> [] -> Forall clean_line m -> dot_encode (concat_strings m) = wire m.
Proof.
  intros Hne Hm. unfold dot_encode. destruct (concat_strings m) as [|c s] eqn:E.
  { destruct m as [|l m]; [done|]. apply Forall_cons in Hm as [(b & -> & _) _]. by destruct b. }
  rewrite <- E, dot_write_lines by done. done.
Qed.

Lemma dot_encode_wire_witness :
  let m := ["Subject: x" +:+ CRLF; CRLF; ".hidden" +:+ CRLF] in
  dot_encode (concat_strings m) = wire m.
Proof.
  apply dot_encode_wire; [done|]. repeat constructor.
  - by exists "Subject: x".
  - by exists "".
  - by exists ".hidden".
Defined.

(** ** What is reported *)

Section Reports.
Context {W : Type} `{!LmtpNet W} `{U : UnicodeTables} `{DG : Digest}.
Variable h : lmtpConfig.
Implicit Types l : lmtp W.

Definition more l l' : Prop := exists new, lm_trace l' = new ++ lm_trace l.
#[export] Instance more_preorder : PreOrder more.
Proof.
  split; [intros l; by exists []|]. intros l1 l2 l3 [a A] [b B]. exists (b ++ a). by rewrite B, A, app_assoc.
Qed.

Lemma runs_write c text (Φ : option delivery_error -> lmtp W -> Prop) l :
  (forall w r, Φ r (l <| lm_net := w |>
                      <| lm_trace := LWrote c text (match r with None => true | Some _ => false end) :: lm_trace l |>)) ->
  runs (write_wire c text) Φ l.
Proof.
  intros H. unfold write_wire. apply runs_bind. unfold runs, on_wire. destruct (ln_write c text (lm_net l)). apply H.
Qed.
Lemma runs_read c (Φ : string + delivery_error -> lmtp W -> Prop) l :
  (forall w r, Φ r (l <| lm_net := w |> <| lm_trace := LRead c r :: lm_trace l |>)) -> runs (read_line c) Φ l.
Proof.
  intros H. unfold read_line. apply runs_bind. unfold runs, on_wire. destruct (ln_read c (lm_net l)). apply H.
Qed.
Lemma runs_command c cmd (Φ : string + delivery_error -> lmtp W -> Prop) l :
  (forall w e, Φ (inr e) (l <| lm_net := w |> <| lm_trace := LWrote c (cmd +:+ CRLF) false :: lm_trace l |>)) ->
  (forall w e e', Φ (inr e) (l <| lm_net := w |>
                         <| lm_trace := LRead c (inr e') :: LWrote c (cmd +:+ CRLF) true :: lm_trace l |>)) ->
  (forall w resp, Φ (inl resp) (l <| lm_net := w |>
                         <| lm_trace := LRead c (inl resp) :: LWrote c (cmd +:+ CRLF) true :: lm_trace l |>)) ->
  runs (command c cmd) Φ l.
Proof.
  intros H1 H2 H3. unfold command. apply runs_bind, runs_write. intros w [e|]; [by apply runs_ret|].
  apply runs_bind, runs_read. intros w' [resp|e]; apply runs_ret; [apply H3|apply H2].
Qed.

Lemma more_write c text : st_kept more (write_wire (W := W) c text).
Proof. intros l. apply (runs_write c text (fun _ l' => more l l')). intros w r. by eexists [_]. Qed.
Lemma more_read c : st_kept more (read_line (W := W) c).
Proof. intros l. apply (runs_read c (fun _ l' => more l l')). intros w r. by eexists [_]. Qed.
Lemma more_command c cmd : st_kept more (command (W := W) c cmd).
Proof.
  intros l. apply (runs_command c cmd (fun _ l' => more l l')).
  - intros w e. by eexists [_].
  - intros w e e'. by eexists [_; _].
  - intros w e. by eexists [_; _].
Qed.
Lemma more_note e : st_kept more (note_event (W := W) e).
Proof. intros l. by exists [e]. Qed.
Lemma more_wire {A} (f : W -> A * W) : st_kept more (on_wire f).
Proof. intros l. unfold on_wire. destruct (f (lm_net l)). by exists []. Qed.
Lemma more_modify f : (forall l, lm_trace (f l) = lm_trace l) -> st_kept more (st_modify f).
Proof. intros H l. exists []. apply H. Qed.
Lemma more_bind {A B} (m : St (lmtp W) A) (f : A -> St (lmtp W) B) :
  st_kept more m -> (forall a, st_kept more (f a)) -> st_kept more (mbind f m).
Proof. apply st_kept_bind, _. Qed.
Lemma more_ret {A} (a : A) : st_kept more (mret (M := St (lmtp W)) a).
Proof. apply st_kept_ret, _. Qed.
Lemma more_gets {A} (f : lmtp W -> A) : st_kept more (st_gets f).
Proof. apply st_kept_gets, _. Qed.
End Reports.

Ltac solve_more :=
  repeat (cbv zeta;
    lazymatch goal with
    | |- st_kept more (mbind _ _) => apply more_bind; [|intros ?]
    | |- st_kept more (mret _) => apply more_ret
    | |- st_kept more (st_gets _) => apply more_gets
    | |- st_kept more lmtp_clock => apply more_gets
    | |- st_kept more (st_modify _) => apply more_modify; done
    | |- st_kept more (write_wire _ _) => apply more_write
    | |- st_kept more (read_line _) => apply more_read
    | |- st_kept more (command _ _) => apply more_command
    | |- st_kept more (note_event _) => apply more_note
    | |- st_kept more (close_conn _) => apply more_note
    | |- st_kept more (on_wire _) => apply more_wire
    | |- st_kept more (match ?x with _ => _ end) => destruct x
    | |- st_kept more _ => solve [auto]
    end).

Section Evidence.
Context {W : Type} `{!LmtpNet W} `{U : UnicodeTables} `{DG : Digest}.
Variable h : lmtpConfig.
Implicit Types l : lmtp W.

Lemma more_lhlo_rest fuel : forall c resp exts, st_kept more (lhlo_rest (W := W) fuel c resp exts).
Proof. induction fuel as [|fuel IH]; intros; cbn [lhlo_rest]; solve_more. Qed.
Lemma more_lhlo fuel c : st_kept more (lhlo (W := W) fuel c).
Proof. pose proof more_lhlo_rest. unfold lhlo. solve_more. Qed.
Lemma more_dial fuel : st_kept more (lmtp_dial (W := W) h fuel).
Proof. pose proof more_lhlo. unfold lmtp_dial, prepare_session. solve_more. Qed.
Lemma more_take_pooled pool : st_kept more (take_pooled (W := W) pool).
Proof. induction pool; cbn [take_pooled]; solve_more. Qed.
Lemma more_acquire fuel : st_kept more (lmtp_acquire (W := W) h fuel).
Proof. pose proof more_take_pooled. pose proof more_dial. unfold lmtp_acquire. solve_more. Qed.
Lemma more_release s : st_kept more (lmtp_release (W := W) h s).
Proof. unfold lmtp_release. solve_more. Qed.

(** RCPT for the recipient was answered by a 250 on the connection. *)
Definition rcpt_accepted (c : nat) (r : string) (new : list lmtp_event) : Prop :=
  exists resp later before,
    new = later ++ LRead c (inl resp) :: LWrote c ("RCPT TO:<" +:+ r +:+ ">" +:+ CRLF) true :: before /\
    HasPrefix resp "250 " = true.

Definition is_read (c : nat) (e : lmtp_event) : Prop := match e with LRead c' _ => c' = c | _ => False end.

(** The [k]-th line (from 0) read on the connection after the whole content is a success. *)
Definition answered (c : nat) (content : string) (new : list lmtp_event) (k : nat) : Prop :=
  exists reply later replies before,
    new = later ++ LRead c (inl reply) :: replies ++ LWrote c (dot_encode content) true :: before /\
    Forall (is_read c) replies /\ length replies = k /\ HasPrefix reply "2" = true.

Definition count_true (bs : list bool) : nat := length (filter (fun b => b = true) bs).

Lemma rcpt_accepted_app c r new a b : rcpt_accepted c r new -> rcpt_accepted c r (a ++ new ++ b).
Proof.
  intros (resp & later & before & -> & H). exists resp, (a ++ later), (before ++ b). split; [|done].
  by rewrite <- !app_assoc, <- !app_comm_cons.
Qed.
Lemma answered_app c content new k a b : answered c content new k -> answered c content (a ++ new ++ b) k.
Proof.
  intros (reply & later & replies & before & -> & H). exists reply, (a ++ later), replies, (before ++ b). split; [|done].
  rewrite <- !app_assoc. do 2 f_equal. cbn. f_equal. by rewrite <- app_assoc.
Qed.

Lemma string_app_3 a b c : (a +:+ b) +:+ c = a +:+ b +:+ c.
Proof. symmetry. apply string_app_assoc. Qed.

(** What RCPT settled: open where it was accepted, else final and not delivered. *)
Definition rcpt_settled (o : RecipientOutcome) : Prop :=
  is_pending o = true \/ known_status (ro_Status o) = true /\ delivered o = false.

Lemma rcpts_spec c route rs : forall l,
  runs (lmtp_rcpts c route rs) (fun r l' => exists new, lm_trace l' = new ++ lm_trace l /\
    forall outs, r = Some outs -> ro_Recipient <$> outs = rs /\
    Forall (fun o => rcpt_settled o /\ (is_pending o = true -> rcpt_accepted c (ro_Recipient o) new)) outs) l.
Proof.
  induction rs as [|r rs IH]; intros l; cbn [lmtp_rcpts].
  { apply runs_ret. exists []. split; [done|]. intros outs [= <-]. by split. }
  assert (forall x (ev : list lmtp_event) l1, lm_trace l1 = ev ++ lm_trace l ->
    (forall o, x = Some o -> ro_Recipient o = r /\ rcpt_settled o /\ (is_pending o = true -> rcpt_accepted c (ro_Recipient o) ev)) ->
    runs (match x with None => mret None | Some o => rest ← lmtp_rcpts c route rs; mret (cons o <$> rest) end)
      (fun y l' => exists new, lm_trace l' = new ++ lm_trace l /\ forall outs, y = Some outs -> ro_Recipient <$> outs = r :: rs /\
         Forall (fun o => rcpt_settled o /\ (is_pending o = true -> rcpt_accepted c (ro_Recipient o) new)) outs) l1) as Hgo.
  { intros [o|] ev l1 T Hx; [|apply runs_ret; by exists ev]. destruct (Hx o eq_refl) as (Hr & Hi & Ha).
    apply runs_bind. eapply runs_mono; [apply IH|]. intros y l2 (new & T2 & F).
    apply runs_ret. exists (new ++ ev). split; [by rewrite T2, T, app_assoc|]. intros outs' Hy.
    destruct y as [outs|]; [|done]. injection Hy as <-. destruct (F outs eq_refl) as [R F'].
    split; [by cbn; f_equal|]. constructor.
    - split; [done|]. intros Hp. rewrite <- (app_nil_r ev). apply rcpt_accepted_app. by apply Ha.
    - eapply Forall_impl; [exact F'|]. intros o' [I1 I2]. split; [done|]. intros Hp.
      apply (rcpt_accepted_app c _ new [] ev). by apply I2. }
  apply runs_bind, runs_command.
  - intros w e. eapply (Hgo (Some _) [_]); [done|]. intros o [= <-]. split_and!; [done|by right|done].
  - intros w e e'. eapply (Hgo (Some _) [_; _]); [done|]. intros o [= <-]. split_and!; [done|by right|done].
  - intros w resp. eapply (Hgo _ [_; _]); [done|]. destruct (HasPrefix resp "250 ") eqn:E.
    + intros o [= <-]. split_and!; [done|by left|]. intros _. exists resp, [], []. split; [|done]. by rewrite !string_app_3.
    + intros o. destruct (HasPrefix resp "5"), (enhancedStatus resp) as [enh|]; try done;
        intros [= <-]; by split_and!; [|right|].
Qed.

(** The delivered outcomes of [final] have each a success among the replies [reads], in
    the place of the recipient among those that were [open]. *)
Definition evidenced (c : nat) (open : list bool) (reads : list lmtp_event) (final : list RecipientOutcome) : Prop :=
  forall i o, final !! i = Some o -> delivered o = true ->
    open !! i = Some true /\
    exists reply later earlier, reads = later ++ LRead c (inl reply) :: earlier /\
      length earlier = count_true (take i open) /\ HasPrefix reply "2" = true.

Lemma evidenced_open c open reads final r o :
  evidenced c open reads final ->
  (delivered o = true -> exists reply, r = inl reply /\ HasPrefix reply "2" = true) ->
  evidenced c (true :: open) (reads ++ [LRead c r]) (o :: final).
Proof.
  intros H Hd [|i] o' Hi Hdel.
  - injection Hi as <-. split; [done|]. destruct (Hd Hdel) as (reply & -> & Hr). by exists reply, reads, [].
  - destruct (H i o' Hi Hdel) as (P1 & reply & later & earlier & -> & P2 & P3). split; [done|].
    exists reply, later, (earlier ++ [LRead c r]). split_and!; [by rewrite <- app_assoc| |done].
    rewrite length_app, P2. cbn [take]. unfold count_true. rewrite filter_cons, decide_True by done. cbn. lia.
Qed.

Lemma evidenced_settled c open reads final o :
  evidenced c open reads final -> delivered o = false -> evidenced c (false :: open) reads (o :: final).
Proof. intros H Hd [|i] o' Hi Hdel; [injection Hi as <-; congruence|]. exact (H i o' Hi Hdel). Qed.

(** The replies after the content, one line per accepted recipient, in order. *)
Lemma final_replies_spec c outs : forall l,
  Forall rcpt_settled outs ->
  runs (final_replies c outs) (fun r l' => exists reads, lm_trace l' = reads ++ lm_trace l /\
    Forall (is_read c) reads /\ forall final failed all, r = Some (final, failed, all) ->
      ro_Recipient <$> final = ro_Recipient <$> outs /\
      Forall (fun o => known_status (ro_Status o) = true) final /\
      evidenced c (is_pending <$> outs) reads final) l.
Proof.
  induction outs as [|o outs IH]; intros l Ho; cbn [final_replies].
  { apply runs_ret. exists []. split_and!; [done..|]. intros ? ? ? [= <- <- <-]. by split_and!. }
  apply Forall_cons in Ho as [Ho Hos]. destruct (is_pending o) eqn:Ep.
  - apply runs_bind, runs_read. intros w r. match goal with |- runs (match ?x with _ => _ end) _ _ => set (verdict := x) end.
    assert (forall st enh diag refused read, verdict = Some (st, enh, diag, refused, read) -> known_status st = true /\
      (st = RecipientDelivered -> exists reply, r = inl reply /\ HasPrefix reply "2" = true)) as Hv.
    { unfold verdict. clear. intros st enh diag refused read. destruct r as [resp|e]; [|intros H; by simplify_eq].
      destruct (enhancedStatus resp); [|done].
      destruct (HasPrefix resp "2") eqn:E2; [|destruct (HasPrefix resp "5")];
        cbn [fmap option_fmap option_map]; intros H; simplify_eq; by eauto. }
    clearbody verdict. destruct verdict as [[[[[st enh] diag] refused] read]|].
    2:{ apply runs_ret. exists [LRead c r]. split_and!; [done|by constructor|done]. }
    destruct (Hv _ _ _ _ _ eq_refl) as [Hk Hd].
    apply runs_bind. eapply runs_mono; [by apply IH|]. intros y l1 (reads & T & R1 & R2). apply runs_ret.
    exists (reads ++ [LRead c r]). split; [rewrite <- app_assoc; exact T|].
    split; [by apply Forall_app; split; [|constructor]|]. intros final' failed' all' Hy.
    destruct y as [[[final failed] all]|]; [|done]. injection Hy as <- <- <-.
    destruct (R2 final failed all eq_refl) as (E1 & E2 & E3). split; [cbn; by f_equal|]. split; [by constructor|].
    rewrite fmap_cons, Ep. apply evidenced_open; [done|]. unfold delivered. cbn. intros Hdel%bool_decide_eq_true. by apply Hd.
  - destruct Ho as [?|[Hk Hd]]; [congruence|]. apply runs_bind. eapply runs_mono; [by apply IH|].
    intros y l1 (reads & T & R1 & R2). apply runs_ret. exists reads. split; [done|]. split; [done|].
    intros final' failed' all' Hy. destruct y as [[[final failed] all]|]; [|done]. injection Hy as <- <- <-.
    destruct (R2 final failed all eq_refl) as (E1 & E2 & E3). split; [cbn; by f_equal|]. split; [by constructor|].
    rewrite fmap_cons, Ep. by apply evidenced_settled.
Qed.

(** *** A failure at DATA settles every open outcome *)

Lemma resolve_slot_skip r st enh diag route o outs :
  is_pending o = false -> resolve_slot r st enh diag route (o :: outs) = o :: resolve_slot r st enh diag route outs.
Proof.
  intros Ho. cbn. rewrite bool_decide_false; [done|]. intros [_ H]. unfold is_pending in Ho.
  by rewrite bool_decide_true in Ho.
Qed.

Lemma resolve_fold_skip st enh diag route pending : forall o outs,
  is_pending o = false ->
  foldl (fun outs r => resolve_slot r st enh diag route outs) (o :: outs) pending
  = o :: foldl (fun outs r => resolve_slot r st enh diag route outs) outs pending.
Proof.
  induction pending as [|r pending IH]; intros o outs Ho; [done|]. cbn [foldl].
  rewrite resolve_slot_skip by done. by apply IH.
Qed.

Lemma resolve_all st enh diag route outs :
  known_status st = true -> st <> RecipientDelivered -> Forall rcpt_settled outs ->
  let final := foldl (fun outs r => resolve_slot r st enh diag route outs) outs
                 (ro_Recipient <$> filter (fun o => is_pending o = true) outs) in
  ro_Recipient <$> final = ro_Recipient <$> outs /\
  Forall (fun o => known_status (ro_Status o) = true /\ delivered o = false) final.
Proof.
  intros Hk Hd. cbv zeta. induction 1 as [|o outs Ho _ [IH1 IH2]]; [done|]. rewrite filter_cons.
  destruct (is_pending o) eqn:Ep.
  - rewrite decide_True by done. cbn [fmap list_fmap foldl].
    assert (resolve_slot (ro_Recipient o) st enh diag route (o :: outs)
            = lmtp_outcome (ro_Recipient o) st enh diag route :: outs) as ->.
    { cbn. rewrite bool_decide_true; [done|]. split; [done|]. by apply bool_decide_eq_true in Ep. }
    rewrite resolve_fold_skip.
    + split; [cbn; by f_equal|]. constructor; [|done]. unfold delivered. cbn. by rewrite bool_decide_false.
    + unfold is_pending. cbn. rewrite bool_decide_false; [done|]. intros ->. done.
  - destruct Ho as [?|Ho]; [congruence|]. rewrite decide_False by congruence. rewrite resolve_fold_skip by done.
    split; [cbn; by f_equal|by constructor].
Qed.

(** ** One delivery *)

(** What a delivery reports about the recipients, given what happened. *)
Definition lmtp_reported (msg : Message) (content : string) (new : list lmtp_event)
    (outs : list RecipientOutcome) (err : option delivery_error) : Prop :=
  outs = [] /\ err <> None \/
  ro_Recipient <$> outs = m_To msg /\ Forall (fun o => known_status (ro_Status o) = true) outs /\
  exists c acc, Forall2 (fun r b => b = true -> rcpt_accepted c r new) (m_To msg) acc /\
  forall i o, outs !! i = Some o -> delivered o = true ->
    acc !! i = Some true /\ answered c content new (count_true (take i acc)).

Definition reported_result msg content new (res : option DeliveryResult * option delivery_error) : Prop :=
  lmtp_reported msg content new (from_option dr_RecipientOutcomes [] (fst res)) (snd res).

Lemma lmtp_reported_app msg content new outs err a b :
  lmtp_reported msg content new outs err -> lmtp_reported msg content (a ++ new ++ b) outs err.
Proof.
  intros [H|(H1 & H2 & c & acc & H3 & H4)]; [by left|]. right. split_and!; [done..|]. exists c, acc. split.
  - eapply Forall2_impl; [exact H3|]. intros r x Hx Hb. apply rcpt_accepted_app. by apply Hx.
  - intros i o Hi Hd. destruct (H4 i o Hi Hd) as [A B]. split; [done|]. by apply answered_app.
Qed.

(** Nobody delivered: nothing to show for. *)
Lemma reported_nobody msg content new outs err :
  ro_Recipient <$> outs = m_To msg ->
  Forall (fun o => known_status (ro_Status o) = true /\ delivered o = false) outs ->
  lmtp_reported msg content new outs err.
Proof.
  intros H1 H2. right. split_and!; [done|by eapply Forall_impl; [exact H2|intros o []]|].
  exists O, (replicate (length (m_To msg)) false). split.
  - apply Forall2_same_length_lookup_2; [by rewrite length_replicate|].
    intros i r b _ Hb Ht. apply lookup_replicate in Hb as [-> _]. done.
  - intros i o Hi Hd. eapply Forall_lookup_1 in H2 as [_ H2]; [|exact Hi]. congruence.
Qed.

Lemma prefinal_reported now msg content route diag st new :
  known_status st = true -> st <> RecipientDelivered ->
  reported_result msg content new (lmtpPreFinalFailure now msg route diag st).
Proof.
  intros Hk Hd. unfold reported_result, lmtpPreFinalFailure, lmtpOutcomesFailure.
  assert (forall enh, lmtp_reported msg content new ((fun r => lmtp_outcome r st enh diag route) <$> m_To msg)
    (Some (plain_error diag))) as H.
  { intros enh. apply reported_nobody.
    - rewrite <- list_fmap_compose. by apply list_fmap_id.
    - apply Forall_fmap, Forall_forall. intros r _. unfold delivered. cbn. by rewrite bool_decide_false. }
  destruct (enhancedStatus diag) as [enh|]; [exact (H enh)|].
  destruct (m_To msg) eqn:E; [exact (H "")|]. by left.
Qed.

Lemma data_failed_reported now msg content route diag st new outs :
  known_status st = true -> st <> RecipientDelivered -> ro_Recipient <$> outs = m_To msg -> outs <> [] ->
  Forall rcpt_settled outs ->
  reported_result msg content new
    (lmtpOutcomesFailure now route outs (ro_Recipient <$> filter (fun o => is_pending o = true) outs) diag st).
Proof.
  intros Hk Hd Hr Hne Ho. pose proof (fun enh => resolve_all st enh diag route outs Hk Hd Ho) as H.
  unfold reported_result, lmtpOutcomesFailure. destruct outs as [|o outs]; [done|].
  set (pending := ro_Recipient <$> filter _ (o :: outs)) in *. clearbody pending.
  destruct (enhancedStatus diag) as [enh|]; [destruct (H enh) as [A B]|destruct pending; [destruct (H "") as [A B]|by left]];
    (apply reported_nobody; cbn [fst from_option dr_RecipientOutcomes]; [by etrans|exact B]).
Qed.

Lemma status_known resp : known_status (statusForResponse resp) = true /\ statusForResponse resp <> RecipientDelivered.
Proof. unfold statusForResponse. by destruct (HasPrefix _ _). Qed.

Lemma lmtp_result_outs now msg remote failed outs :
  from_option dr_RecipientOutcomes [] (fst (lmtp_result now msg remote failed outs)) = outs.
Proof. unfold lmtp_result. by destruct (_ =? 0)%nat. Qed.

(** The replies read after the content are the evidence of what is reported. *)
Lemma final_reported msg content c outs final ev reads err :
  ro_Recipient <$> outs = m_To msg -> ro_Recipient <$> final = ro_Recipient <$> outs ->
  Forall (fun o => is_pending o = true -> rcpt_accepted c (ro_Recipient o) ev) outs ->
  Forall (is_read c) reads -> Forall (fun o => known_status (ro_Status o) = true) final ->
  evidenced c (is_pending <$> outs) reads final ->
  lmtp_reported msg content (reads ++ LWrote c (dot_encode content) true :: ev) final err.
Proof.
  intros H1 H2 H3 H4 H5 H6. right. split_and!; [by etrans|done|]. exists c, (is_pending <$> outs). split.
  - rewrite <- H1. apply Forall2_fmap, Forall_Forall2_diag. eapply Forall_impl; [exact H3|].
    intros o Ho Hp.
    pose proof (rcpt_accepted_app c (ro_Recipient o) ev (reads ++ [LWrote c (dot_encode content) true]) [] (Ho Hp)) as H.
    rewrite app_nil_r, <- app_assoc in H. exact H.
  - intros i o Hi Hd. destruct (H6 i o Hi Hd) as (A & reply & later & earlier & -> & B & C).
    split; [done|]. exists reply, later, earlier, ev.
    split_and!; [by rewrite <- app_assoc| |done|done].
    apply Forall_app in H4 as [_ H4]. by apply Forall_cons in H4 as [_ H4].
Qed.

Lemma transaction_reported msg content s l :
  runs (lmtp_transaction h msg content s) (fun r l' => exists new, lm_trace l' = new ++ lm_trace l /\
    reported_result msg content new (fst r)) l.
Proof.
  unfold lmtp_transaction. set (c := ls_conn s). cbv zeta.
  match goal with |- runs (mbind _ (command c ?m)) _ _ => set (mail := m) end.
  assert (forall diag st (ev : list lmtp_event) l1 now (b : bool), lm_trace l1 = ev ++ lm_trace l ->
    known_status st = true -> st <> RecipientDelivered ->
    runs (mret (lmtpPreFinalFailure now msg (lmtp_addr h) diag st, b))
      (fun r l' => exists new, lm_trace l' = new ++ lm_trace l /\ reported_result msg content new (fst r)) l1) as Hpre.
  { intros diag st ev l1 now b T Hk Hd. apply runs_ret. exists ev. split; [done|]. by apply prefinal_reported. }
  apply runs_bind, runs_command; [intros w e|intros w e e'|intros w resp].
  { apply runs_bind, runs_gets. by apply (Hpre _ _ [LWrote c (mail +:+ CRLF) false]). }
  { apply runs_bind, runs_gets. by apply (Hpre _ _ [LRead c (inr e'); LWrote c (mail +:+ CRLF) true]). }
  apply runs_bind, runs_gets. destruct (negb (HasPrefix resp "250 ")).
  { apply (Hpre _ _ [LRead c (inl resp); LWrote c (mail +:+ CRLF) true]); [done|apply status_known..]. }
  apply runs_bind. eapply runs_mono; [apply rcpts_spec|]. intros y l1 (ev1 & T1 & RF).
  destruct y as [outs|]; cbv iota.
  2:{ apply runs_ret. exists (ev1 ++ [LRead c (inl resp); LWrote c (mail +:+ CRLF) true]).
      split; [rewrite <- app_assoc; exact T1|by left]. }
  destruct (RF outs eq_refl) as [R1 F1]. clear RF.
  set (ev := ev1 ++ [LRead c (inl resp); LWrote c (mail +:+ CRLF) true]).
  assert (lm_trace l1 = ev ++ lm_trace l) as T by (unfold ev; rewrite <- app_assoc; exact T1).
  assert (Forall rcpt_settled outs) as Fi
    by (eapply Forall_impl; [exact F1|by intros o []]).
  assert (Forall (fun o => is_pending o = true -> rcpt_accepted c (ro_Recipient o) ev) outs) as Fa.
  { eapply Forall_impl; [exact F1|]. intros o [_ H] Hp. apply (rcpt_accepted_app c _ ev1 [] _). by apply H. }
  apply runs_bind, runs_gets. destruct (ro_Recipient <$> filter (fun o => is_pending o = true) outs) as [|a acc] eqn:Ea.
  { apply runs_ret. exists ev. split; [done|]. apply reported_nobody; [done|]. apply fmap_nil_inv in Ea.
    rewrite Forall_forall in Fi |- *. intros o Ho. destruct (Fi o Ho) as [Hp|H]; [|done].
    assert (o ∈ filter (fun o => is_pending o = true) outs) as Hin by (by apply list_elem_of_filter).
    rewrite Ea in Hin. by apply elem_of_nil in Hin. }
  rewrite <- Ea. assert (outs <> []) as Hne by (by intros ->).
  assert (forall diag st (ev' : list lmtp_event) l2 now (b : bool), lm_trace l2 = ev' ++ lm_trace l ->
    known_status st = true -> st <> RecipientDelivered ->
    runs (mret (lmtpOutcomesFailure now (lmtp_addr h) outs
                  (ro_Recipient <$> filter (fun o => is_pending o = true) outs) diag st, b))
      (fun r l' => exists new, lm_trace l' = new ++ lm_trace l /\ reported_result msg content new (fst r)) l2) as Hdata.
  { intros diag st ev' l2 now b T2 Hk Hd. apply runs_ret. exists ev'. split; [done|]. by apply data_failed_reported. }
  apply runs_bind, runs_command; [intros w' e|intros w' e e'|intros w' data].
  { apply runs_bind, runs_gets. apply (Hdata _ _ (LWrote c ("DATA" +:+ CRLF) false :: ev)); [|done..].
    exact (f_equal (cons _) T). }
  { apply runs_bind, runs_gets. apply (Hdata _ _ (LRead c (inr e') :: LWrote c ("DATA" +:+ CRLF) true :: ev)); [|done..].
    exact (f_equal (fun t => _ :: _ :: t) T). }
  apply runs_bind, runs_gets.
  set (ev2 := LRead c (inl data) :: LWrote c ("DATA" +:+ CRLF) true :: ev).
  set (l2 := update lm_trace _ _). assert (lm_trace l2 = ev2 ++ lm_trace l) as T2 by exact (f_equal (fun t => _ :: _ :: t) T).
  destruct (negb (HasPrefix data "354 ")); [apply (Hdata _ _ ev2); [done|apply status_known..]|].
  apply runs_bind, runs_write. intros w2 [e|].
  { apply runs_ret. eexists (_ :: ev2). split; [exact (f_equal (cons _) T2)|]. by left. }
  apply runs_bind. eapply runs_mono; [by apply final_replies_spec|].
  intros y l3 (reads & T3 & G1 & GF).
  assert (lm_trace l3 = (reads ++ LWrote c (dot_encode content) true :: ev2) ++ lm_trace l) as T4.
  { rewrite <- app_assoc. etrans; [exact T3|]. exact (f_equal (fun t => reads ++ LWrote c (dot_encode content) true :: t) T2). }
  destruct y as [[[final failed] all]|]; cbv iota.
  2:{ apply runs_ret. eexists. split; [exact T4|by left]. }
  destruct (GF final failed all eq_refl) as (G2 & G3 & G4). clear GF.
  apply runs_bind, runs_gets, runs_bind, runs_gets, runs_ret.
  exists (reads ++ LWrote c (dot_encode content) true :: ev2). split; [exact T4|].
  unfold reported_result. cbn [fst]. rewrite lmtp_result_outs. apply (final_reported msg content c outs); try done.
  eapply Forall_impl; [exact Fa|]. intros o Ho Hp.
  pose proof (rcpt_accepted_app c (ro_Recipient o) ev [LRead c (inl data); LWrote c ("DATA" +:+ CRLF) true] [] (Ho Hp)) as H.
  rewrite app_nil_r in H. exact H.
Qed.

Lemma lmtp_deliver_reported fuel (msg : Message) content l :
  let '((result, err), l') := lmtp_DeliverMessageWithMetadata h fuel msg content l in
  exists new, lm_trace l' = new ++ lm_trace l /\
              lmtp_reported msg content new (dr_RecipientOutcomes result) err.
Proof.
  assert (forall l, runs (lmtp_session_delivery h fuel msg content)
    (fun r l' => exists new, lm_trace l' = new ++ lm_trace l /\ reported_result msg content new r) l) as Hs.
  { clear l. intros l. unfold lmtp_session_delivery. apply runs_bind.
    eapply runs_mono; [apply st_kept_runs, more_acquire|]. intros a l1 [ev1 T1]. apply runs_bind, runs_gets.
    destruct a as [s|[e [|]]].
    - apply runs_bind. eapply runs_mono; [apply transaction_reported|]. intros [res reusable] l2 (ev2 & T2 & R).
      apply runs_bind. eapply runs_mono; [apply (st_kept_runs more); pose proof more_release; solve_more|].
      intros _ l3 [ev3 T3]. apply runs_ret. exists (ev3 ++ ev2 ++ ev1).
      split; [by rewrite T3, T2, T1, !app_assoc|]. by apply lmtp_reported_app.
    - apply runs_ret. exists ev1. split; [done|]. by apply prefinal_reported.
    - apply runs_ret. exists ev1. split; [done|]. by left. }
  enough (runs (lmtp_deliverWithMetadata h fuel msg content)
    (fun r l' => exists new, lm_trace l' = new ++ lm_trace l /\ reported_result msg content new r) l) as H.
  { unfold lmtp_DeliverMessageWithMetadata, mbind, St_bind. unfold runs in H.
    destruct (lmtp_deliverWithMetadata h fuel msg content l) as [[res err] l']. destruct H as (new & T & R).
    exists new. split; [done|]. unfold reported_result in R. destruct res as [res|]; cbn in *.
    - by destruct (_ =? _)%string.
    - exact R. }
  unfold lmtp_deliverWithMetadata. destruct (_ =? _)%string; [apply Hs|].
  apply runs_bind, runs_gets. destruct (TryAcquire _ _ _) as [m|].
  - apply runs_bind, runs_modify, runs_bind. eapply runs_mono; [apply Hs|]. intros r l1 (new & T & R).
    apply runs_bind, runs_modify, runs_ret. by exists new.
  - apply runs_ret. exists []. split; [done|]. by left.
Qed.

(** C19 (functional). What is reported about a message handed to the mailbox server.  Whatever
    the server answers and wherever the connection breaks, there is one outcome per
    envelope recipient, in order and none left open, or none at all and an error (no
    session, a broken write of the content, a panic); and a recipient is reported as
    delivered only if on one connection its RCPT was answered by 250, the whole message
    was written after that, dot-stuffed, and the line read in its turn, after as many lines
    as there are accepted recipients before it, begins with 2.  Where every reply is one
    line this is the reply to the recipient; a server that sends a reply of two lines is
    misread ([lmtp_reply_of_two_lines]). *)
Theorem lmtp_delivery_evidence fuel (msg : Message) content l :
  let '((result, err), l') := lmtp_DeliverMessageWithMetadata h fuel msg content l in
  exists new, lm_trace l' = new ++ lm_trace l /\
              lmtp_reported msg content new (dr_RecipientOutcomes result) err.
Proof. apply lmtp_deliver_reported. Qed.
End Evidence.

(** ** TLS to the mailbox server *)

Section Tls.
Context {W : Type} `{!LmtpNet W} `{U : UnicodeTables} `{DG : Digest}.
Variable h : lmtpConfig.
Context (name : string) (Htls : lc_tls h = Some name).
Implicit Types l : lmtp W.

(** All that may be written before the handshake. *)
Definition opening (text : string) : Prop :=
  text = "LHLO elemta.local" +:+ CRLF \/ text = "STARTTLS" +:+ CRLF.

Definition secured (c : nat) l : Prop := LSecured c ∈ lm_trace l.
Definition pool_secured l : Prop := forall s, s ∈ lm_pool l -> secured (ls_conn s) l.

Definition writes_ok (base new : list lmtp_event) : Prop :=
  forall post pre c text ok, new = post ++ LWrote c text ok :: pre ->
  opening text \/ LSecured c ∈ pre ++ base.

(** From [base] on nothing else was written in the clear, and the pool is secured. *)
Definition tls_kept (base : list lmtp_event) l : Prop :=
  pool_secured l /\ exists new, lm_trace l = new ++ base /\ writes_ok base new.

Lemma writes_ok_cons base e new :
  (forall c text ok, e = LWrote c text ok -> opening text \/ LSecured c ∈ new ++ base) ->
  writes_ok base new -> writes_ok base (e :: new).
Proof.
  intros He Hn [|x post] pre c text ok Heq; cbn in Heq; injection Heq as Hx Hr.
  - subst. by eapply He.
  - by eapply Hn.
Qed.

(** One more event. *)
Lemma tls_event base e w l :
  tls_kept base l -> (forall c text ok, e = LWrote c text ok -> opening text \/ secured c l) ->
  tls_kept base (l <| lm_net := w |> <| lm_trace := e :: lm_trace l |>).
Proof.
  intros [P (new & T & H)] He. split; [intros s Hs; right; by apply P|].
  exists (e :: new). split; [exact (f_equal (cons e) T)|]. apply writes_ok_cons; [|done].
  intros c text ok E. destruct (He c text ok E) as [?|Hc]; [by left|right]. unfold secured in Hc. by rewrite T in Hc.
Qed.

(** What a computation ends in, with the events so far still in the trace. *)
Definition ends (base : list lmtp_event) l {A} (Q : A -> lmtp W -> Prop) (a : A) l' : Prop :=
  tls_kept base l' /\ (forall e, e ∈ lm_trace l -> e ∈ lm_trace l') /\ Q a l'.

Lemma tls_read base c l :
  tls_kept base l -> runs (read_line c) (ends base l (fun _ _ => True)) l.
Proof.
  intros H. apply runs_read. intros w r. split_and!; [by apply tls_event|by right|done].
Qed.

Lemma tls_command base c cmd l :
  tls_kept base l -> opening (cmd +:+ CRLF) \/ secured c l ->
  runs (command c cmd) (ends base l (fun _ _ => True)) l.
Proof.
  intros H Ho.
  assert (forall w ok, tls_kept base (l <| lm_net := w |> <| lm_trace := LWrote c (cmd +:+ CRLF) ok :: lm_trace l |>)) as Hw.
  { intros w ok. apply tls_event; [done|]. by intros ??? [= <- <- <-]. }
  assert (forall w r, tls_kept base (l <| lm_net := w |>
            <| lm_trace := LRead c r :: LWrote c (cmd +:+ CRLF) true :: lm_trace l |>)) as Hr.
  { intros w r. exact (tls_event base (LRead c r) w _ (Hw w true) ltac:(done)). }
  apply runs_command; intros; (split; [|split; [intros ev Hev; cbn; set_solver|done]]); [apply Hw|apply Hr..].
Qed.

Lemma ends_mono base l1 l2 {A} (Q Q' : A -> lmtp W -> Prop) a l' :
  (forall e, e ∈ lm_trace l1 -> e ∈ lm_trace l2) -> (forall a l', Q a l' -> Q' a l') ->
  ends base l2 Q a l' -> ends base l1 Q' a l'.
Proof. intros Hi Hq (H1 & H2 & H3). split_and!; auto. Qed.

(** Running one computation after another. *)
Lemma tls_bind base {A B} (m : St (lmtp W) A) (f : A -> St (lmtp W) B) P Q l :
  runs m (ends base l P) l ->
  (forall a l', tls_kept base l' -> (forall e, e ∈ lm_trace l -> e ∈ lm_trace l') -> P a l' ->
     runs (f a) (ends base l' Q) l') ->
  runs (mbind f m) (ends base l Q) l.
Proof.
  intros Hm Hf. apply runs_bind. eapply runs_mono; [exact Hm|]. intros a l' (K & I & Pa).
  eapply runs_mono; [by apply Hf|]. intros b l'' E. by eapply ends_mono; [exact I| |exact E].
Qed.
Lemma tls_ret base {A} (a : A) (Q : A -> lmtp W -> Prop) l : tls_kept base l -> Q a l -> runs (mret a) (ends base l Q) l.
Proof. intros H HQ. apply runs_ret. by split_and!. Qed.
Lemma tls_gets base {A} (f : lmtp W -> A) (Q : A -> lmtp W -> Prop) l :
  tls_kept base l -> Q (f l) l -> runs (st_gets f) (ends base l Q) l.
Proof. intros H HQ. apply runs_gets. by split_and!. Qed.
Lemma tls_wire base {A} (f : W -> A * W) (Q : A -> lmtp W -> Prop) l :
  tls_kept base l -> (forall a w, Q a (l <| lm_net := w |>)) -> runs (on_wire f) (ends base l Q) l.
Proof.
  intros [P H] HQ. unfold runs, on_wire. destruct (f (lm_net l)) as [a w]. split_and!; [by split|done|apply HQ].
Qed.
Lemma tls_note base e (Q : unit -> lmtp W -> Prop) l :
  tls_kept base l -> (forall c text ok, e <> LWrote c text ok) -> (forall l', lm_trace l' = e :: lm_trace l -> Q tt l') ->
  runs (note_event e) (ends base l Q) l.
Proof.
  intros H He HQ. apply runs_modify. split_and!; [|by right|by apply HQ].
  apply (tls_event base e (lm_net l) l); [done|]. intros c text ok E. by apply He in E.
Qed.

Lemma tls_lhlo_rest base fuel : forall c resp exts l,
  tls_kept base l -> runs (lhlo_rest fuel c resp exts) (ends base l (fun _ _ => True)) l.
Proof.
  induction fuel as [|fuel IH]; intros c resp exts l H; cbn [lhlo_rest].
  { destruct (HasPrefix resp "250-"); [by apply tls_ret|]. destruct (HasPrefix resp "250 "); by apply tls_ret. }
  destruct (HasPrefix resp "250-"); [|destruct (HasPrefix resp "250 "); by apply tls_ret].
  eapply tls_bind; [by apply tls_read|]. intros [resp'|e] l1 H1 _ _; [|by apply tls_ret].
  destruct (note_ext resp' exts); [by apply IH|by apply tls_ret].
Qed.

Lemma tls_lhlo base fuel c l : tls_kept base l -> runs (lhlo fuel c) (ends base l (fun _ _ => True)) l.
Proof.
  intros H. unfold lhlo. eapply tls_bind; [apply tls_command; [done|by left; left]|].
  intros [resp|e] l1 H1 _ _; [|by apply tls_ret]. destruct (note_ext resp ∅); [by apply tls_lhlo_rest|by apply tls_ret].
Qed.

(** A session that was set up is secured. *)
Definition session_secured (r : lmtpSession + delivery_error * bool) l : Prop :=
  match r with inl s => secured (ls_conn s) l | inr _ => True end.

Lemma tls_prepare base fuel c l : tls_kept base l -> runs (prepare_session h fuel c) (ends base l session_secured) l.
Proof.
  intros H. unfold prepare_session. rewrite Htls.
  eapply tls_bind; [by apply tls_read|]. intros [g|e] l1 H1 _ _; [|by apply tls_ret].
  destruct (negb _); [by apply tls_ret|].
  eapply tls_bind; [by apply tls_lhlo|]. intros [exts|e] l2 H2 _ _; [|by apply tls_ret]. cbv zeta.
  destruct (negb _); [by apply tls_ret|].
  eapply tls_bind; [apply tls_command; [done|by left; right]|]. intros r l3 H3 _ _.
  destruct (match r with inl _ => _ | inr _ => _ end); [by apply tls_ret|].
  eapply tls_bind; [by apply (tls_wire _ _ (fun _ _ => True))|]. intros [e|] l4 H4 _ _; [by apply tls_ret|].
  eapply tls_bind; [apply (tls_note _ _ (fun _ l' => secured c l')); [done|done|]|].
  { intros l' T. unfold secured. rewrite T. by left. }
  intros u l5 H5 _ S5. eapply tls_bind; [by apply tls_lhlo|]. intros [exts'|e] l6 H6 I6 _; [|by apply tls_ret].
  apply tls_ret; [done|]. by apply I6.
Qed.

Lemma tls_dial base fuel l : tls_kept base l -> runs (lmtp_dial h fuel) (ends base l session_secured) l.
Proof.
  intros H. unfold lmtp_dial. eapply tls_bind; [by apply (tls_wire _ _ (fun _ _ => True))|].
  intros [e|] l1 H1 _ _; [by apply tls_ret|]. eapply tls_bind; [by apply (tls_gets _ _ (fun _ _ => True))|].
  intros c l2 H2 _ _. eapply (tls_bind _ _ _ (fun _ _ => True)); [by apply runs_modify; split_and!; [destruct H2 as [P2 H2]; split|done|]|].
  intros _ l3 H3 _ _. eapply tls_bind; [by apply (tls_note _ _ (fun _ _ => True))|]. intros _ l4 H4 _ _.
  eapply tls_bind; [by apply tls_prepare|]. intros [s|e] l5 H5 _ S5; [by apply tls_ret|].
  eapply tls_bind; [by apply (tls_note _ _ (fun _ _ => True))|]. intros _ l6 H6 _ _. by apply tls_ret.
Qed.

Lemma tls_set_pool base pool l :
  tls_kept base l -> (forall s, s ∈ pool -> secured (ls_conn s) l) ->
  runs (st_modify (fun l => l <| lm_pool := pool |>)) (ends base l (fun _ _ => True)) l.
Proof. intros [P H] Hp. apply runs_modify. by split_and!. Qed.

Lemma tls_take_pooled base pool : forall l,
  tls_kept base l -> (forall s, s ∈ pool -> secured (ls_conn s) l) ->
  runs (take_pooled pool) (ends base l (fun r l' => match r with Some s => secured (ls_conn s) l' | None => True end)) l.
Proof.
  induction pool as [|s pool IH]; intros l H Hp; cbn [take_pooled]; [by apply tls_ret|].
  eapply tls_bind; [apply tls_set_pool; [done|]; intros s' Hs'; apply Hp; by right|]. intros _ l1 H1 I1 _.
  eapply tls_bind; [by apply (tls_gets _ _ (fun _ _ => True))|]. intros now l2 H2 I2 _.
  assert (forall x, x ∈ s :: pool -> secured (ls_conn x) l2) as Hp2 by (intros x Hx; by apply I2, I1, Hp).
  destruct (lmtpIdle <? _).
  - eapply tls_bind; [by apply (tls_note _ _ (fun _ _ => True))|]. intros _ l3 H3 I3 _. apply IH; [done|].
    intros x Hx. apply I3, Hp2. by right.
  - eapply tls_bind; [apply tls_command; [done|right; apply Hp2; by left]|]. intros r l3 H3 I3 _.
    destruct (match r with inl _ => _ | inr _ => _ end); [apply tls_ret; [done|]; apply I3, Hp2; by left|].
    eapply tls_bind; [by apply (tls_note _ _ (fun _ _ => True))|]. intros _ l4 H4 I4 _. apply IH; [done|].
    intros x Hx. apply I4, I3, Hp2. by right.
Qed.

Lemma tls_acquire base fuel l : tls_kept base l -> runs (lmtp_acquire h fuel) (ends base l session_secured) l.
Proof.
  intros H. unfold lmtp_acquire. eapply tls_bind; [by apply (tls_gets _ _ (fun pool l' => pool = lm_pool l'))|].
  intros pool l1 H1 _ ->. eapply tls_bind; [apply tls_take_pooled; [done|by apply H1]|].
  intros [s|] l2 H2 _ S2; [by apply tls_ret|by apply tls_dial].
Qed.

Lemma tls_rcpts base c route rs : forall l,
  tls_kept base l -> secured c l -> runs (lmtp_rcpts c route rs) (ends base l (fun _ _ => True)) l.
Proof.
  induction rs as [|r rs IH]; intros l H Hc; cbn [lmtp_rcpts]; [by apply tls_ret|].
  eapply tls_bind; [apply tls_command; [done|by right]|]. intros resp l1 H1 I1 _.
  match goal with |- runs (match ?x with _ => _ end) _ _ => destruct x end; [|by apply tls_ret].
  eapply tls_bind; [apply IH; [done|by apply I1]|]. intros rest l2 H2 I2 _. by apply tls_ret.
Qed.

Lemma tls_final base c outs : forall l,
  tls_kept base l -> runs (final_replies c outs) (ends base l (fun _ _ => True)) l.
Proof.
  induction outs as [|o outs IH]; intros l H; cbn [final_replies]; [by apply tls_ret|].
  destruct (is_pending o).
  - eapply tls_bind; [by apply tls_read|]. intros r l1 H1 _ _.
    match goal with |- runs (match ?x with _ => _ end) _ _ => destruct x as [[[[[? ?] ?] ?] ?]|] end; [|by apply tls_ret].
    eapply tls_bind; [by apply IH|]. intros y l2 H2 _ _. by apply tls_ret.
  - eapply tls_bind; [by apply IH|]. intros y l2 H2 _ _. by apply tls_ret.
Qed.

Lemma tls_transaction base msg content s l :
  tls_kept base l -> secured (ls_conn s) l ->
  runs (lmtp_transaction h msg content s) (ends base l (fun _ _ => True)) l.
Proof.
  intros H Hc. unfold lmtp_transaction. cbv zeta.
  eapply tls_bind; [apply tls_command; [done|by right]|]. intros resp l1 H1 I1 _.
  eapply tls_bind; [by apply (tls_gets _ _ (fun _ _ => True))|]. intros now l2 H2 I2 _.
  destruct resp as [resp|e]; [|by apply tls_ret]. destruct (negb (HasPrefix resp "250 ")); [by apply tls_ret|].
  eapply tls_bind; [apply tls_rcpts; [done|by apply I2, I1]|]. intros [outs|] l3 H3 I3 _; [|by apply tls_ret].
  eapply tls_bind; [by apply (tls_gets _ _ (fun _ _ => True))|]. intros now3 l4 H4 I4 _.
  destruct (ro_Recipient <$> filter (fun o => is_pending o = true) outs); [by apply tls_ret|].
  eapply tls_bind; [apply tls_command; [done|by right; apply I4, I3, I2, I1]|]. intros data l5 H5 I5 _.
  eapply tls_bind; [by apply (tls_gets _ _ (fun _ _ => True))|]. intros now5 l6 H6 I6 _.
  destruct data as [data|e]; [|by apply tls_ret]. destruct (negb (HasPrefix data "354 ")); [by apply tls_ret|].
  assert (secured (ls_conn s) l6) as H6c by (by apply I6, I5, I4, I3, I2, I1).
  eapply (tls_bind _ _ _ (fun _ _ => True)).
  { apply runs_write. intros w r. split; [|split; [by right|done]].
    apply tls_event; [done|]. intros c text ok [= <- <- <-]. by right. }
  intros [e|] l7 H7 _ _; [by apply tls_ret|].
  eapply tls_bind; [by apply tls_final|]. intros [[[final failed] all]|] l8 H8 _ _; [|by apply tls_ret].
  eapply tls_bind; [by apply (tls_gets _ _ (fun _ _ => True))|]. intros now8 l9 H9 _ _.
  eapply tls_bind; [by apply (tls_gets _ _ (fun _ _ => True))|]. intros remote l10 H10 _ _. by apply tls_ret.
Qed.

Lemma tls_release base s l :
  tls_kept base l -> secured (ls_conn s) l -> runs (lmtp_release h s) (ends base l (fun _ _ => True)) l.
Proof.
  intros H Hc. unfold lmtp_release.
  eapply tls_bind; [by apply (tls_gets _ _ (fun _ _ => True))|]. intros now l1 H1 I1 _.
  eapply tls_bind; [by apply (tls_gets _ _ (fun pool l' => pool = lm_pool l'))|]. intros pool l2 H2 I2 ->.
  destruct (_ <=? _)%nat; [by apply (tls_note _ _ (fun _ _ => True))|].
  apply (tls_set_pool base (s <| ls_idle := now |> :: lm_pool l2)); [done|].
  intros s' [->|Hs]%elem_of_cons; [by apply I2, I1|by apply H2].
Qed.

(** C20 (safety). No mail to the mailbox server in the clear when TLS is required.  With any
    server and network, before and after any number of deliveries that reuse pooled
    sessions, everything a delivery writes, save the greeting and the request for TLS
    itself, is written to a connection on which the TLS handshake has succeeded before,
    and every session left in the pool is such a connection. *)
Theorem lmtp_never_in_clear fuel msg content l :
  pool_secured l ->
  let l' := snd (lmtp_DeliverMessageWithMetadata h fuel msg content l) in
  pool_secured l' /\
  exists new, lm_trace l' = new ++ lm_trace l /\
  forall post pre c text ok, new = post ++ LWrote c text ok :: pre ->
  opening text \/ LSecured c ∈ pre ++ lm_trace l.
Proof.
  intros Hp. cbv zeta.
  assert (tls_kept (lm_trace l) l) as H by (split; [done|exists []; split; [done|by intros [|]]]).
  enough (runs (lmtp_DeliverMessageWithMetadata h fuel msg content) (ends (lm_trace l) l (fun _ _ => True)) l)
    as (K & _) by done.
  assert (forall l1, tls_kept (lm_trace l) l1 ->
    runs (lmtp_session_delivery h fuel msg content) (ends (lm_trace l) l1 (fun _ _ => True)) l1) as Hs.
  { intros l1 H1. unfold lmtp_session_delivery. eapply tls_bind; [by apply tls_acquire|]. intros a l2 H2 I2 S2.
    eapply tls_bind; [by apply (tls_gets _ _ (fun _ _ => True))|]. intros now l3 H3 I3 _.
    destruct a as [s|[e setup]]; [|by apply tls_ret].
    eapply tls_bind; [apply tls_transaction; [done|by apply I3]|]. intros [res reusable] l4 H4 I4 _.
    eapply (tls_bind _ _ _ (fun _ _ => True)); [destruct reusable; [apply tls_release; [done|by apply I4, I3]|]|].
    - by apply (tls_note _ _ (fun _ _ => True)).
    - intros u l5 H5 _ _. by apply tls_ret. }
  unfold lmtp_DeliverMessageWithMetadata. eapply (tls_bind _ _ _ (fun _ _ => True));
    [|intros [res err] l1 H1 _ _; by apply tls_ret].
  unfold lmtp_deliverWithMetadata. cbv zeta. destruct (_ =? _)%string; [by apply Hs|].
  eapply tls_bind; [by apply (tls_gets _ _ (fun _ _ => True))|]. intros m l1 H1 _ _.
  destruct (TryAcquire _ _ _) as [m'|]; [|by apply tls_ret].
  eapply (tls_bind _ _ _ (fun _ _ => True)); [by apply runs_modify; split; [destruct H1; split|]|].
  intros u l2 H2 _ _. eapply tls_bind; [by apply Hs|]. intros r l3 H3 _ _.
  eapply (tls_bind _ _ _ (fun _ _ => True)); [by apply runs_modify; split; [destruct H3; split|]|].
  intros u' l4 H4 _ _. by apply tls_ret.
Qed.
End Tls.

(** ** Examples *)

(** A server that says what it is told to, whatever it is asked. *)
Record toy_lmtp := mkToyLmtp { tl_clock : Z; tl_lines : list string }.

#[global] Instance toy_lmtp_net : LmtpNet toy_lmtp := {|
  ln_clock w := tl_clock w;
  ln_dial _ w := (None, w);
  ln_write _ _ w := (None, w);
  ln_read _ w := match tl_lines w with
                 | [] => (inr (plain_error "EOF"), w)
                 | line :: rest => (inl line, w <| tl_lines := rest |>)
                 end;
  ln_handshake _ _ w := (None, w);
  ln_RemoteAddr _ _ := "127.0.0.1:2424"
|}.

Definition says (lines : list string) : lmtp toy_lmtp := mkLmtp (mkToyLmtp 0 lines) 0 [] ∅ [].
Definition to_mailboxes : lmtpConfig := NewLMTPDeliveryHandler "mailbox" 0 0.
Definition demo_letter (to : list string) : Message := (note "m1") <| m_To := to |>.
Definition demo_lmtp (h : lmtpConfig) (to : list string) (lines : list string) :
    (DeliveryResult * option delivery_error) * lmtp toy_lmtp :=
  lmtp_DeliverMessageWithMetadata (U := ascii_tables) (DG := fun _ => "00") h 10 (demo_letter to) "hello" (says lines).
Definition statuses (r : (DeliveryResult * option delivery_error) * lmtp toy_lmtp) : list RecipientDeliveryStatus :=
  ro_Status <$> dr_RecipientOutcomes (fst (fst r)).

(** The second recipient is refused at RCPT, the third after the message. *)
Example lmtp_mixed :
  let r := demo_lmtp to_mailboxes ["a@x"; "b@x"; "c@x"]
             ["220 ready"; "250-mailbox"; "250 DSN"; "250 ok"; "250 ok"; "550 5.1.1 who"; "250 ok"; "354 go";
              "250 2.0.0 stored"; "452 4.2.2 full"] in
  statuses r = [RecipientDelivered; RecipientPermanentFailure; RecipientTemporaryFailure] /\
  length (lm_pool (snd r)) = 1%nat.
Proof. by vm_compute. Qed.

(** A reply of two lines is taken for two replies: the mailbox of the second recipient is
    full, and it is reported as delivered. *)
Example lmtp_reply_of_two_lines :
  let r := demo_lmtp to_mailboxes ["a@x"; "b@x"]
             ["220 ready"; "250 mailbox"; "250 ok"; "250 ok"; "250 ok"; "354 go";
              "250-2.0.0 stored"; "250 2.0.0 in the inbox"; "552 5.2.2 full"] in
  statuses r = [RecipientDelivered; RecipientDelivered].
Proof. by vm_compute. Qed.

(** A line of the LHLO reply with nothing behind its code makes the client panic. *)
Example lmtp_blank_extension :
  match snd (fst (demo_lmtp to_mailboxes ["a@x"] ["220 ready"; "250-mailbox"; "250-"; "250 DSN"])) with
  | Some e => de_text e = de_text panic_error
  | None => False
  end.
Proof. by vm_compute. Qed.

(** So does a reply without words, after RCPT as after the message. *)
Example lmtp_blank_reply :
  let first := demo_lmtp to_mailboxes ["a@x"] ["220 ready"; "250 mailbox"; "250 ok"; ""] in
  let last := demo_lmtp to_mailboxes ["a@x"; "b@x"]
                ["220 ready"; "250 mailbox"; "250 ok"; "250 ok"; "250 ok"; "354 go"; "250 2.0.0 stored"; ""] in
  statuses first = [] /\ de_text <$> snd (fst first) = Some (de_text panic_error) /\
  statuses last = [] /\ de_text <$> snd (fst last) = Some (de_text panic_error).
Proof. by vm_compute. Qed.

Lemma lmtp_delivery_evidence_witness :
  let lines := ["220 ready"; "250-mailbox"; "250 DSN"; "250 ok"; "250 ok"; "550 5.1.1 who"; "250 ok"; "354 go";
                "250 2.0.0 stored"; "452 4.2.2 full"] in
  let r := demo_lmtp to_mailboxes ["a@x"; "b@x"; "c@x"] lines in
  statuses r = [RecipientDelivered; RecipientPermanentFailure; RecipientTemporaryFailure] /\
  exists new, lm_trace (snd r) = new ++ [] /\
    lmtp_reported (demo_letter ["a@x"; "b@x"; "c@x"]) "hello" new (dr_RecipientOutcomes (fst (fst r))) (snd (fst r)).
Proof.
  cbv zeta. split; [by vm_compute|].
  match goal with |- context [demo_lmtp _ _ ?l] =>
    pose proof (lmtp_delivery_evidence (U := ascii_tables) (DG := fun _ => "00") to_mailboxes 10
      (demo_letter ["a@x"; "b@x"; "c@x"]) "hello" (says l)) as H
  end.
  unfold demo_lmtp. destruct (lmtp_DeliverMessageWithMetadata _ _ _ _ _) as [[result err] l']. exact H.
Defined.

Lemma lmtp_never_in_clear_witness :
  let h := SetTLS (Some "") to_mailboxes in
  let first := snd (demo_lmtp h ["a@x"] ["220 ready"; "250-mailbox"; "250 STARTTLS"; "220 go"; "250 mailbox";
                                         "250 ok"; "250 ok"; "354 go"; "250 stored"; "250 reset"; "250 ok"; "250 ok"]) in
  let l' := snd (lmtp_DeliverMessageWithMetadata (U := ascii_tables) (DG := fun _ => "00") h 10
                   (demo_letter ["b@x"]) "secret" first) in
  length (lm_pool first) = 1%nat /\
  exists new, lm_trace l' = new ++ lm_trace first /\
  forall post pre c text ok, new = post ++ LWrote c text ok :: pre ->
  opening text \/ LSecured c ∈ pre ++ lm_trace first.
Proof.
  cbv zeta. split; [by vm_compute|].
  apply (lmtp_never_in_clear (U := ascii_tables) (DG := fun _ => "00") (SetTLS (Some "") to_mailboxes) "" eq_refl).
  apply (lmtp_never_in_clear (U := ascii_tables) (DG := fun _ => "00") (SetTLS (Some "") to_mailboxes) "" eq_refl).
  by intros s Hs%elem_of_nil.
Defined.
