(* ===== verification/SplitDelivery.v ===== *)
(** * SplitDelivery: one message over two routes (internal/queue: split_delivery.go)

    Local recipients go to the mailbox server and the others out over SMTP.  The two
    handlers are parameters with the interface's one method; [DeliveryContract] is what
    the router relies on, and the LMTP and the SMTP handler are instances of it. *)

From stdpp Require Import gmap.
From S2P Require Import Prelude GoStrings GoMath SharedState QueueStorage QueueProcessor Outbound Delivery Lmtp.

Set Primitive Projections.

(** [DeliverMessageWithMetadata] of the interface; the result may be nil. *)
Definition DeliveryHandler (H : Type) : Type :=
  Message -> string -> St H (option DeliveryResult * option delivery_error).

Record SplitDeliveryHandler {H : Type} := mkSplit {
  sd_local : option (DeliveryHandler H);
  sd_remote : option (DeliveryHandler H);
  sd_localDomains : gset string
}.
Arguments SplitDeliveryHandler : clear implicits.
Arguments mkSplit {H}.

(** [errors.Join] of two: [errors.As] searches the first before the second, [errors.Is]
    both. *)
Definition join_errors (a b : option delivery_error) : option delivery_error :=
  match a, b with
  | None, e | e, None => e
  | Some a, Some b =>
      Some (mkDErr (de_text a +:+ String LF (de_text b))
              (if de_judged a then de_permanent a else de_permanent b)
              (de_temporary a || de_temporary b) (de_network a || de_network b)
              (match de_reply a with None => de_reply b | r => r end)
              (match de_reply a with None => de_msg b | _ => de_msg a end)
              (de_marks a ++ de_marks b) (de_judged a || de_judged b)%bool)
  end.

Definition joinResponses (a b : string) : string :=
  if (a =? "")%string then b else if (b =? "")%string then a else a +:+ "; " +:+ b.

Definition outcomesFor (recipients : list string) (status : RecipientDeliveryStatus) (diagnostic route : string) :
    list RecipientOutcome :=
  (fun r => mkOutcome r status "" diagnostic route "" "" "" false) <$> recipients.

(** The route is named where the handler has not said more. *)
Definition name_route (route : string) (o : RecipientOutcome) : RecipientOutcome :=
  if (ro_Route o =? "")%string
  then mkOutcome (ro_Recipient o) (ro_Status o) (ro_EnhancedStatusCode o) (ro_Diagnostic o) route
         (ro_SourceIP o) (ro_Pool o) (ro_Provider o) (ro_Throttled o)
  else o.

Section Split.
Context {H : Type} `{U : UnicodeTables}.
Variable h : SplitDeliveryHandler H.

Definition NewSplitDeliveryHandler (local remote : option (DeliveryHandler H)) (localDomains : list string) :
    SplitDeliveryHandler H :=
  mkSplit local remote
    (list_to_set (filter (fun d => d <> "") ((fun d => ToLower (TrimSpace d)) <$> localDomains))).

Definition isLocal (recipient : string) : bool :=
  match LastIndexByte recipient "@" with
  | None => true
  | Some at_ => bool_decide (ToLower (TrimSpace (sdrop (Datatypes.S at_) recipient)) ∈ sd_localDomains h)
  end.

Fixpoint partition (recipients : list string) : list string * list string :=
  match recipients with
  | [] => ([], [])
  | r :: rs => let '(l, m) := partition rs in if isLocal r then (r :: l, m) else (l, r :: m)
  end.

Definition deliverVia (handler : option (DeliveryHandler H)) (msg : Message) (content : string)
    (recipients : list string) (route : string) : St H (DeliveryResult * option delivery_error) :=
  match handler with
  | None =>
      let err := plain_error ("no delivery handler configured for the " +:+ route +:+ " route") in
      mret (mkResult false (Some err) "" "" 0 ""
              (outcomesFor recipients RecipientTemporaryFailure (de_text err) route) "", Some err)
  | Some deliver =>
      r ← deliver (msg <| m_To := recipients |>) content;
      let '(result, err) := r in
      let result := default (mkResult false err "" "" 0 "" [] "") result in
      mret (result <| dr_RecipientOutcomes ::= fmap (name_route route) |>, err)
  end.

Definition merged (local remote : DeliveryResult) (localErr remoteErr : option delivery_error) : DeliveryResult :=
  mkResult (match localErr, remoteErr with None, None => true | _, _ => false end)
    (join_errors localErr remoteErr) (dr_DeliveryIP remote) (dr_DeliveryHost remote)
    (if dr_DeliveryTime local =? 0 then dr_DeliveryTime remote else dr_DeliveryTime local)
    (joinResponses (dr_ResponseMessage local) (dr_ResponseMessage remote))
    (dr_RecipientOutcomes local ++ dr_RecipientOutcomes remote) "".

Definition split_Deliver (msg : Message) (content : string) : St H (DeliveryResult * option delivery_error) :=
  let '(local, remote) := partition (m_To msg) in
  match local, remote with
  | _, [] => deliverVia (sd_local h) msg content local "local"
  | [], _ => deliverVia (sd_remote h) msg content remote "remote"
  | _, _ =>
      l ← deliverVia (sd_local h) msg content local "local";
      r ← deliverVia (sd_remote h) msg content remote "remote";
      let m := merged (fst l) (fst r) (snd l) (snd r) in
      mret (m, dr_Error m)
  end.
End Split.

(** ** The two parts, normalised *)

Lemma partition_filter {H} `{U : UnicodeTables} (h : SplitDeliveryHandler H) rs :
  partition h rs = (filter (fun r => isLocal h r = true) rs, filter (fun r => isLocal h r = false) rs).
Proof.
  induction rs as [|r rs IH]; [done|]. cbn [partition]. rewrite IH, !filter_cons.
  destruct (isLocal h r); by repeat case_decide.
Qed.

Section Parts.
Context (P : string -> Prop) `{!forall r, Decision (P r)}.

Lemma count_in_part r to : P r -> count_in r (filter P to) = count_in r to.
Proof.
  intros Hr. unfold count_in. induction to as [|x to IH]; [done|]. rewrite (filter_cons P).
  case_decide.
  - rewrite !(filter_cons (fun y => y = r)). case_decide; cbn; by rewrite IH.
  - rewrite IH, (filter_cons (fun y => y = r)). case_decide; [by subst|done].
Qed.

Lemma assign_part to : forall by1 by2,
  well_filed by1 -> (forall r, P r -> default [] (by1 !! r) = default [] (by2 !! r)) ->
  filter (fun o => P (ro_Recipient o)) (assign_outcomes to by1)
  = assign_outcomes (filter P to) by2.
Proof.
  induction to as [|r to IH]; intros by1 by2 Hw Hb; [done|]. cbn [assign_outcomes]. rewrite (filter_cons P).
  pose proof (Hw r) as Hr. destruct (default [] (by1 !! r)) as [|o os] eqn:E.
  - rewrite filter_cons. cbn [ro_Recipient missing_outcome]. case_decide as Hp; [|by apply IH].
    cbn [assign_outcomes]. rewrite <- (Hb r Hp), E. f_equal. by apply IH.
  - apply Forall_cons in Hr as [Hro Hos]. rewrite filter_cons, Hro.
    assert (well_filed (<[r := os]> by1)) as Hw1.
    { intros x. destruct (decide (x = r)) as [->|]; [by rewrite lookup_insert_eq|].
      rewrite lookup_insert_ne by done. apply Hw. }
    case_decide as Hp.
    + cbn [assign_outcomes]. rewrite <- (Hb r Hp), E. f_equal. apply IH; [done|].
      intros x Hx. destruct (decide (x = r)) as [->|]; [by rewrite !lookup_insert_eq|].
      rewrite !lookup_insert_ne by done. by apply Hb.
    + apply IH; [done|]. intros x Hx. rewrite lookup_insert_ne; [by apply Hb|]. by intros ->.
Qed.

(** The outcomes of one part of the envelope, when those of the other say nothing about
    it: as if it had been a message of its own. *)
Lemma assigned_part to mine others given :
  Forall (fun o => ~ P (ro_Recipient o)) others ->
  given = mine ++ others \/ given = others ++ mine ->
  filter (fun o => P (ro_Recipient o)) (assigned to given)
  = assigned (filter P to) mine.
Proof.
  intros Ho Hg. apply assign_part; [apply by_recipient_filed|]. intros r Hr.
  rewrite !by_recipient_spec by (rewrite lookup_empty; cbn; lia). rewrite !lookup_empty. cbn [default app].
  rewrite count_in_part by done. f_equal.
  assert (QueueProcessor.reported r others = []) as Hn.
  { unfold QueueProcessor.reported. destruct (r =? "")%string; [done|].
    clear Hg. induction Ho as [|o others Ho _ IH]; [done|]. rewrite filter_cons, decide_False; [done|].
    intros [Hx _]. by rewrite Hx in Ho. }
  unfold QueueProcessor.reported in *. destruct (r =? "")%string; [done|].
  destruct Hg as [->| ->]; rewrite filter_app, Hn; [by rewrite app_nil_r|done].
Qed.
End Parts.

(** ** What the router relies on *)

(** A handler reports on recipients of its message only, and says that one is delivered
    only with proof. *)
Class DeliveryContract {H : Type} (deliver : DeliveryHandler H)
    (proof : Message -> string -> H -> H -> string -> Prop) : Prop :=
  delivery_contract : forall msg content s,
    let '((res, _), s') := deliver msg content s in
    Forall (fun o => ro_Recipient o ∈ m_To msg /\
                     (ro_Status o = RecipientDelivered -> proof msg content s s' (ro_Recipient o)))
           (from_option dr_RecipientOutcomes [] res).

(** The SMTP handler: in this delivery a server accepted the recipient and the content. *)
Definition smtp_handler {W S} `{!Network W} `{!SharedStore S} `{U : UnicodeTables} (h : handlerConfig)
    signer sealer : DeliveryHandler (handler W S) := fun msg content x =>
  let '((res, err), x') := DeliverMessageWithMetadata h signer sealer msg content x in ((Some res, err), x').

Definition smtp_proof {W S} `{U : UnicodeTables} signer sealer (msg : Message) (content : string)
    (x x' : handler W S) (r : string) : Prop :=
  exists wire new c, prepared_content signer sealer msg content = inl wire /\
    trace_at x' = new ++ trace_at x /\ Called c (Rcpt r) true ∈ new /\ Called c (Data wire) true ∈ new.

#[export] Instance smtp_contract {W S} `{!Network W} `{!SharedStore S} `{U : UnicodeTables} h signer sealer :
  DeliveryContract (smtp_handler (W := W) (S := S) h signer sealer) (smtp_proof signer sealer).
Proof.
  intros msg content x. pose proof (deliver_message_outcomes h signer sealer msg content x) as H.
  unfold smtp_handler. destruct (DeliverMessageWithMetadata h signer sealer msg content x) as [[res err] x'].
  cbn [from_option]. destruct (prepared_content signer sealer msg content) as [wire|e] eqn:E.
  - destruct H as (H1 & _ & (new & T & F & _) & _). apply Forall_forall. intros o Ho. split.
    + assert (ro_Recipient o ∈ ro_Recipient <$> dr_RecipientOutcomes res) as Hin by (by apply list_elem_of_fmap_2).
      rewrite H1 in Hin. by apply list_elem_of_filter in Hin as [_ ?].
    + intros Hd. rewrite Forall_forall in F. destruct (F o Ho) as [_ Hp]. destruct Hp as (c & A & B).
      { unfold delivered. by rewrite bool_decide_true. }
      by exists wire, new, c.
  - destruct H as (_ & E2 & _). exact (eq_ind_r (Forall _) (Forall_nil_2 _) E2).
Qed.

(** The LMTP handler: RCPT was accepted, and the reply in its turn after the content is a
    success. *)
Definition lmtp_handler {W} `{!LmtpNet W} `{U : UnicodeTables} `{DG : Digest} (h : lmtpConfig) (fuel : nat) :
    DeliveryHandler (lmtp W) := fun msg content l =>
  let '((res, err), l') := lmtp_DeliverMessageWithMetadata h fuel msg content l in ((Some res, err), l').

Definition lmtp_proof {W} (msg : Message) (content : string) (l l' : lmtp W) (r : string) : Prop :=
  exists new c k, lm_trace l' = new ++ lm_trace l /\ rcpt_accepted c r new /\ answered c content new k.

#[export] Instance lmtp_contract {W} `{!LmtpNet W} `{U : UnicodeTables} `{DG : Digest} h fuel :
  DeliveryContract (lmtp_handler (W := W) h fuel) lmtp_proof.
Proof.
  intros msg content l. pose proof (lmtp_deliver_reported h fuel msg content l) as H.
  unfold lmtp_handler. destruct (lmtp_DeliverMessageWithMetadata h fuel msg content l) as [[res err] l'].
  destruct H as (new & T & H). revert H. cbn [from_option]. generalize (dr_RecipientOutcomes res) as outs.
  intros outs [[-> _]|(H1 & _ & c & acc & H3 & H4)]; [done|].
  apply Forall_forall. intros o Ho. split.
  - rewrite <- H1. by apply list_elem_of_fmap_2.
  - intros Hd. apply list_elem_of_lookup in Ho as [i Hi].
    destruct (H4 i o Hi) as [A B]; [unfold delivered; by rewrite bool_decide_true|].
    exists new, c, (count_true (take i acc)). split_and!; [done| |done].
    assert (m_To msg !! i = Some (ro_Recipient o)) as Hr by (rewrite <- H1, list_lookup_fmap, Hi; done).
    by apply (Forall2_lookup_lr _ _ _ _ _ _ H3 Hr A).
Qed.

(** ** The router *)

Section Router.
Context {H : Type} `{U : UnicodeTables}.
Variable h : SplitDeliveryHandler H.
Context (lproof rproof : Message -> string -> H -> H -> string -> Prop).
Context (Hl : forall d, sd_local h = Some d -> DeliveryContract d lproof).
Context (Hr : forall d, sd_remote h = Some d -> DeliveryContract d rproof).

(** One part of the envelope as a delivery of its own, none if it is empty. *)
Definition part_delivery (handler : option (DeliveryHandler H)) (msg : Message) (content : string)
    (recipients : list string) (route : string) : St H (list RecipientOutcome * option delivery_error) :=
  match recipients with
  | [] => mret ([], None)
  | _ => r ← deliverVia handler msg content recipients route; mret (dr_RecipientOutcomes (fst r), snd r)
  end.

Lemma part_contract handler proof msg content rs route s :
  (forall d, handler = Some d -> DeliveryContract d proof) ->
  let '((outs, _), s') := part_delivery handler msg content rs route s in
  Forall (fun o => ro_Recipient o ∈ rs /\
            (ro_Status o = RecipientDelivered -> proof (msg <| m_To := rs |>) content s s' (ro_Recipient o))) outs.
Proof.
  intros Hd. unfold part_delivery. destruct rs as [|r rs]; [cbn; constructor|].
  unfold deliverVia. destruct handler as [d|]; cbn.
  - specialize (Hd d eq_refl (msg <| m_To := r :: rs |>) content s). unfold mbind, St_bind.
    destruct (d (msg <| m_To := r :: rs |>) content s) as [[res err] s']. cbn.
    assert (dr_RecipientOutcomes (default (mkResult false err "" "" 0 "" [] "") res)
            = from_option dr_RecipientOutcomes [] res) as -> by (by destruct res).
    apply Forall_fmap. eapply Forall_impl; [exact Hd|]. intros o [A B]. cbn. unfold name_route.
    by destruct (_ =? _)%string.
  - constructor; [cbn; set_solver|]. unfold outcomesFor. apply Forall_fmap, Forall_forall. intros x Hx. cbn. set_solver.
Qed.

(** C16 (refinement). The recipient outcomes of a message over two routes are those of two
    messages.  Whatever mix of recipients a message has, the local recipients and the
    others are delivered one after the other as messages of their own: the outcomes the
    queue acts on are, for each part, those its own handler's report and error give, order
    and duplicates included, a recipient counts as delivered only with the proof its route
    requires, and there is no error exactly if there is none on either route.  The error
    is one for the whole message: whether what is left is retried or given up is decided
    from both parts together ([refusal_gives_up_the_other_route]). *)
Theorem split_is_two_deliveries (msg : Message) content s :
  m_To msg <> [] ->
  let local := filter (fun r => isLocal h r = true) (m_To msg) in
  let remote := filter (fun r => isLocal h r = false) (m_To msg) in
  let '((louts, lerr), s1) := part_delivery (sd_local h) msg content local "local" s in
  let '((routs, rerr), s2) := part_delivery (sd_remote h) msg content remote "remote" s1 in
  let '((res, err), s') := split_Deliver h msg content s in
  let acted := dr_RecipientOutcomes (fst (normalizeDeliveryResult msg (Some res) err)) in
  s' = s2 /\ (err = None <-> lerr = None /\ rerr = None) /\
  filter (fun o => isLocal h (ro_Recipient o) = true) acted = assigned local louts /\
  filter (fun o => isLocal h (ro_Recipient o) = false) acted = assigned remote routs /\
  Forall (fun o => ro_Status o = RecipientDelivered ->
            if isLocal h (ro_Recipient o) then lproof (msg <| m_To := local |>) content s s1 (ro_Recipient o)
            else rproof (msg <| m_To := remote |>) content s1 s2 (ro_Recipient o)) acted.
Proof.
  intros Hne. cbv zeta. set (local := filter (fun r => isLocal h r = true) _).
  set (remote := filter (fun r => isLocal h r = false) _).
  pose proof (part_contract (sd_local h) lproof msg content local "local" s Hl) as CL.
  destruct (part_delivery (sd_local h) msg content local "local" s) as [[louts lerr] s1] eqn:EL.
  pose proof (part_contract (sd_remote h) rproof msg content remote "remote" s1 Hr) as CR.
  destruct (part_delivery (sd_remote h) msg content remote "remote" s1) as [[routs rerr] s2] eqn:ER.
  assert (exists res, split_Deliver h msg content s = ((res, join_errors lerr rerr), s2) /\
    dr_RecipientOutcomes res = louts ++ routs) as (res & -> & Ho).
  { unfold split_Deliver. rewrite partition_filter. fold local remote. unfold part_delivery in EL, ER.
    unfold mbind, St_bind in *. destruct local as [|a la] eqn:El, remote as [|b rb] eqn:Er.
    - exfalso. apply Hne. destruct (m_To msg) as [|x xs]; [done|]. unfold local, remote in El, Er.
      rewrite filter_cons in El, Er. by destruct (isLocal h x).
    - cbn in EL. injection EL as <- <- <-. destruct (deliverVia _ _ _ _ _ s) as [[r e] s'] eqn:Ed.
      injection ER as <- <- <-. by exists r.
    - cbn in ER. injection ER as <- <- <-. destruct (deliverVia _ _ _ _ _ s) as [[r e] s'] eqn:Ed.
      injection EL as <- <- <-. exists r. cbn. rewrite app_nil_r. split; [|done]. by destruct e.
    - destruct (deliverVia (sd_local h) _ _ _ _ s) as [[rl el] sl]. injection EL as <- <- <-.
      destruct (deliverVia (sd_remote h) _ _ _ _ sl) as [[rr er] sr]. injection ER as <- <- <-.
      by eexists. }
  assert (dr_RecipientOutcomes (fst (normalizeDeliveryResult msg (Some res) (join_errors lerr rerr)))
          = assigned (m_To msg) (louts ++ routs)) as HA by exact (f_equal (assigned (m_To msg)) Ho).
  revert HA. generalize (dr_RecipientOutcomes (fst (normalizeDeliveryResult msg (Some res) (join_errors lerr rerr)))) as acted.
  intros acted ->.
  assert (Forall (fun o => isLocal h (ro_Recipient o) = true) louts) as FL.
  { eapply Forall_impl; [exact CL|]. intros o [Hin _]. by apply list_elem_of_filter in Hin as [? _]. }
  assert (Forall (fun o => isLocal h (ro_Recipient o) = false) routs) as FR.
  { eapply Forall_impl; [exact CR|]. intros o [Hin _]. by apply list_elem_of_filter in Hin as [? _]. }
  split; [done|]. split; [destruct lerr, rerr; cbn; naive_solver|]. split_and!.
  - refine (assigned_part (fun r => isLocal h r = true) (m_To msg) louts routs _ _ _); [|by left].
    eapply Forall_impl; [exact FR|]. intros o Hf Ht. by rewrite Hf in Ht.
  - refine (assigned_part (fun r => isLocal h r = false) (m_To msg) routs louts _ _ _); [|by right].
    eapply Forall_impl; [exact FL|]. intros o Hf Ht. by rewrite Hf in Ht.
  - apply Forall_forall. intros o Hin Hd. apply assigned_elem in Hin as [[Hin _]|Hm]; [|by rewrite Hm in Hd].
    apply elem_of_app in Hin as [Hin|Hin].
    + rewrite Forall_forall in CL, FL. rewrite (FL o Hin). by apply CL.
    + rewrite Forall_forall in CR, FR. rewrite (FR o Hin). by apply CR.
Qed.
End Router.

(** ** The two handlers of the program side by side *)

Definition on_first {A B} (d : DeliveryHandler A) : DeliveryHandler (A * B) := fun msg content =>
  st_zoom fst (fun a s => (a, s.2)) (d msg content).
Definition on_second {A B} (d : DeliveryHandler B) : DeliveryHandler (A * B) := fun msg content =>
  st_zoom snd (fun b s => (s.1, b)) (d msg content).

#[export] Instance on_first_contract {A B} (d : DeliveryHandler A) proof :
  DeliveryContract d proof ->
  DeliveryContract (on_first (B := B) d) (fun msg content s s' r => proof msg content s.1 s'.1 r).
Proof.
  intros Hd msg content [a b]. specialize (Hd msg content a). unfold on_first, st_zoom. cbn [fst].
  by destruct (d msg content a) as [[res err] a'].
Qed.
#[export] Instance on_second_contract {A B} (d : DeliveryHandler B) proof :
  DeliveryContract d proof ->
  DeliveryContract (on_second (A := A) d) (fun msg content s s' r => proof msg content s.2 s'.2 r).
Proof.
  intros Hd msg content [a b]. specialize (Hd msg content b). unfold on_second, st_zoom. cbn [snd].
  by destruct (d msg content b) as [[res err] b'].
Qed.

Definition demo_routes : SplitDeliveryHandler (lmtp toy_lmtp * handler toy_net (ValkeyState toy_redis)) :=
  NewSplitDeliveryHandler (U := ascii_tables)
    (Some (on_first (lmtp_handler (U := ascii_tables) (DG := fun _ => "00") to_mailboxes 10)))
    (Some (on_second (smtp_handler (U := ascii_tables) demo_handler None None)))
    [" Home.Example "].
Definition demo_state : lmtp toy_lmtp * handler toy_net (ValkeyState toy_redis) :=
  (says ["220 ready"; "250 mailbox"; "250 ok"; "250 ok"; "354 go"; "250 stored"], demo_sender).
Definition demo_mixed : Message := demo_message ["y@a.example"; "me@home.example"] "".

Lemma split_is_two_deliveries_witness :
  let '((res, err), s') := split_Deliver (U := ascii_tables) demo_routes demo_mixed "hello" demo_state in
  let acted := dr_RecipientOutcomes (fst (normalizeDeliveryResult demo_mixed (Some res) err)) in
  ro_Status <$> acted = [RecipientDelivered; RecipientDelivered] /\
  Forall (fun o => ro_Status o = RecipientDelivered ->
            if isLocal (U := ascii_tables) demo_routes (ro_Recipient o)
            then exists s1, lmtp_proof (demo_mixed <| m_To := ["me@home.example"] |>) "hello" demo_state.1 s1 (ro_Recipient o)
            else exists s1, smtp_proof (U := ascii_tables) None None (demo_mixed <| m_To := ["y@a.example"] |>) "hello"
                              s1 s'.2 (ro_Recipient o)) acted.
Proof.
  pose proof (split_is_two_deliveries (U := ascii_tables) demo_routes
    (fun msg content s s' r => lmtp_proof msg content s.1 s'.1 r)
    (fun msg content s s' r => smtp_proof (U := ascii_tables) None None msg content s.2 s'.2 r)) as T.
  specialize (T ltac:(intros d [= <-]; exact (on_first_contract _ _ (lmtp_contract _ _)))
                ltac:(intros d [= <-]; exact (on_second_contract _ _ (smtp_contract _ _ _))) demo_mixed "hello" demo_state ltac:(done)).
  assert (filter (fun r => isLocal (U := ascii_tables) demo_routes r = true) (m_To demo_mixed) = ["me@home.example"]) as E1
    by (by vm_compute).
  assert (filter (fun r => isLocal (U := ascii_tables) demo_routes r = false) (m_To demo_mixed) = ["y@a.example"]) as E2
    by (by vm_compute).
  cbv zeta in T. rewrite E1, E2 in T.
  destruct (part_delivery (sd_local demo_routes) _ _ _ _ demo_state) as [[louts lerr] s1].
  destruct (part_delivery (sd_remote demo_routes) _ _ _ _ s1) as [[routs rerr] s2].
  assert (ro_Status <$> dr_RecipientOutcomes (fst (normalizeDeliveryResult demo_mixed
     (Some (fst (fst (split_Deliver (U := ascii_tables) demo_routes demo_mixed "hello" demo_state))))
     (snd (fst (split_Deliver (U := ascii_tables) demo_routes demo_mixed "hello" demo_state)))))
     = [RecipientDelivered; RecipientDelivered]) as Hst by (by vm_compute).
  destruct (split_Deliver demo_routes demo_mixed "hello" demo_state) as [[res err] s'].
  destruct T as (-> & _ & _ & _ & F). split; [exact Hst|]. eapply Forall_impl; [exact F|]. intros o Ho Hd.
  specialize (Ho Hd). destruct (isLocal demo_routes (ro_Recipient o)); eexists; exact Ho.
Defined.

(** ** A permanent failure on one route decides for the other *)

Definition refusing {H} : DeliveryHandler H := fun msg _ s =>
  let err := aggregateDomainFailures (U := ascii_tables)
               [mkDomainFailure "b.example" (PermanentError "550 no such user")] in
  ((Some (mkResult false err "" "" 0 "" ((fun r => outcome r RecipientPermanentFailure "" "550") <$> m_To msg) ""), err), s).

(** With nothing behind the local route, whose recipients are to be retried, the refusal
    of a remote recipient makes the joined error permanent: [handleDeliveryFailure], which
    gets it for the recipients left, gives up on them at once. *)
Example refusal_gives_up_the_other_route :
  let routes := NewSplitDeliveryHandler (U := ascii_tables) None (Some refusing) ["home.example"] in
  let msg := demo_message ["me@home.example"; "y@b.example"] "" in
  let '((res, err), _) := split_Deliver (U := ascii_tables) routes msg "hello" tt in
  let '(res, err) := normalizeDeliveryResult msg (Some res) err in
  (ro_Status <$> dr_RecipientOutcomes res, isTemporaryFailure (U := ascii_tables) err)
  = ([RecipientTemporaryFailure; RecipientPermanentFailure], false).
Proof. by vm_compute. Qed.
