(* ===== verification/Bounce.v ===== *)
(** * Bounce generation (internal/smtp/bounce.go)

    The engine that answers a permanently failed message with a delivery status
    notification: who is answered, who is reported, what is written, and how the result
    is queued through the manager of QueueManager.v.  The report is built line by line:
    every write of the source ends with CRLF, so the buffer is the list of the lines
    written so far and [crlf_text] its bytes.

    [time.Time] renders itself in the zone of the process; [Clock] is that rendering and
    the time's nanosecond count, and [ClockLaws] what RFC1123Z guarantees: printable
    ASCII.  The manager the engine was built with is always there, as in the server. *)

From stdpp Require Import pretty.
From S2P Require Import Prelude GoStrings SmtpSyntax CommandSecurity Srs DataReader Pipeline Commands QueueStorage QueueManager QueueProcessor.

Open Scope string_scope.
Open Scope list_scope.
Open Scope Z_scope.

Class Clock := { unix_nano : Z -> Z; rfc1123z : Z -> string }.

(** The bytes of a buffer of lines. *)
Definition crlf_text (ls : list string) : string := concat_strings ((fun l => l +:+ CRLF) <$> ls).

Definition DSNStatusPermanentFailure : string := "5.0.0".
Definition DSNStatusGeneralFailure : string := "5.0.0".
Definition DSNStatusMailboxUnavailable : string := "5.2.0".
Definition DSNStatusSystemNotAccepting : string := "5.3.0".
Definition DSNStatusBadDestinationAddress : string := "5.1.1".
Definition DSNStatusConnectionRefused : string := "5.4.2".

Definition maxDSNLine : nat := 78.
Definition maxReturnedMessage : Z := 1048576.
Definition maxReturnedHeaders : Z := 65536.
Definition PriorityHigh : Z := 3.

(** ** Text *)

(** The value of one hexadecimal digit. *)
Definition hex_val (c : ascii) : Z :=
  if in_range 48 57 c then b2z c - 48
  else if in_range 97 102 c then b2z c - 97 + 10
  else b2z c - 65 + 10.

Definition hex_byte (h1 h2 : ascii) : ascii := chr (Z.to_N (Z.lor (Z.shiftl (hex_val h1) 4) (hex_val h2))).

(** The loop of decodeXText. *)
Fixpoint decode_from (s : string) : string :=
  match s with
  | String b s' =>
      match s' with
      | String h1 (String h2 s'') =>
          if (is_byte 43 b && isHex h1 && isHex h2)%bool then String (hex_byte h1 h2) (decode_from s'')
          else String b (decode_from s')
      | _ => String b (decode_from s')
      end
  | EmptyString => ""
  end.

Definition decodeXText (s : string) : string :=
  if negb (Contains s "+") then s else decode_from s.

(** The loop of sanitizeDiagnosticCode over the characters of a string; [k] bytes of
    the current one are still to be skipped, and a byte that starts none is one too. *)
Fixpoint sanitize_runes (k : nat) (s : string) : string :=
  match s with
  | EmptyString => ""
  | String c s' =>
      match k with
      | S k' => sanitize_runes k' s'
      | O =>
          let rest := sanitize_runes (utf8_len s - 1) s' in
          if (Ascii.eqb c CR || Ascii.eqb c LF || Ascii.eqb c TAB)%bool then String SP rest
          else if ((b2z c <? 32) || (b2z c =? 127))%bool then rest
          else if 127 <? b2z c then String "?" rest
          else String c rest
      end
  end.

Definition sanitizeDiagnosticCode (reason : string) : string :=
  sanitize_runes 0 (if 1024 <? slen reason then stake 1024 reason else reason).

(** The inner loop of foldField: a word too long for any line is cut.  [fuel] bounds
    its rounds, each of which takes 900 bytes. *)
Fixpoint break_word (fuel : nat) (out : list string) (line word : string) : list string * string * string :=
  match fuel with
  | O => (out, line, word)
  | S fuel' =>
      if (900 <? String.length word)%nat
      then break_word fuel' (out ++ [line]) (" " +:+ stake 900 word) (sdrop 900 word)
      else (out, line, word)
  end.

(** One word of a field: the lines written, and the line being built. *)
Definition fold_word (name : string) (st : list string * string) (word : string) : list string * string :=
  let '(out, line) := st in
  let '(out, line, word) := break_word (String.length word) out line word in
  if ((String.length name + 1 <? String.length line)
      && (maxDSNLine <? String.length line + 1 + String.length word))%nat%bool
  then (out ++ [line], " " +:+ word)
  else (out, line +:+ " " +:+ word).

Definition foldField (name value : string) : list string :=
  let '(out, line) := foldl (fold_word name) ([], name +:+ ":") (Fields value) in out ++ [line].

Definition headerBlock (original : string) : string :=
  let headers := match Index original (CRLF +:+ CRLF) with
                 | Some i => stake (i + 2) original
                 | None => match Index original (String LF (String LF "")) with
                           | Some i => stake (i + 1) original
                           | None => original
                           end
                 end in
  if maxReturnedHeaders <? slen headers then
    let headers := stake (Z.to_nat maxReturnedHeaders) headers in
    match LastIndexByte headers LF with Some i => stake (i + 1) headers | None => headers end
  else headers.

(** ** Status codes in a reply *)

Definition status_byte (c : ascii) : bool := (is_digit c || Ascii.eqb c DOT)%bool.

(** [(?:\.?[^0-9.]|\.?$)]. *)
Definition status_end (s : string) : bool :=
  match s with
  | EmptyString => true
  | String c s' =>
      if Ascii.eqb c DOT
      then match s' with EmptyString => true | String c' _ => negb (status_byte c') end
      else negb (status_byte c)
  end.

(** [5\.[0-7]\.[0-9]{1,3}] and what must follow it: as no digit may follow, the digits
    taken are all there are. *)
Definition status_at (s : string) : option string :=
  match s with
  | String c1 (String c2 (String c3 (String c4 (String c5 t)))) =>
      if (Ascii.eqb c1 "5" && Ascii.eqb c2 DOT && in_range 48 55 c3 && Ascii.eqb c4 DOT && is_digit c5)%bool then
        let code := String c1 (String c2 (String c3 (String c4 (String c5 "")))) in
        if status_end t then Some code
        else match t with
             | String c6 t' =>
                 if negb (is_digit c6) then None
                 else if status_end t' then Some (code +:+ String c6 "")
                 else match t' with
                      | String c7 t'' =>
                          if (is_digit c7 && status_end t'')%bool
                          then Some (code +:+ String c6 (String c7 "")) else None
                      | EmptyString => None
                      end
             | EmptyString => None
             end
      else None
  | _ => None
  end.

(** enhancedStatusPattern.FindStringSubmatch, its group: the leftmost code not preceded
    by a digit or a dot; [free] says whether the byte before [s] is none. *)
Fixpoint find_status (free : bool) (s : string) : option string :=
  match s with
  | EmptyString => None
  | String c s' =>
      match (if free then status_at s else None) with
      | Some code => Some code
      | None => find_status (negb (status_byte c)) s'
      end
  end.
Definition enhancedStatusPattern (s : string) : option string := find_status true s.

Definition smtpReplyPattern (s : string) : bool :=
  match s with
  | String c1 (String c2 (String c3 t)) =>
      (byte_in "245" c1 && is_digit c2 && is_digit c3
       && match t with EmptyString => true | String c _ => (Ascii.eqb c SP || Ascii.eqb c "-")%bool end)%bool
  | _ => false
  end.

Section Engine.
Context `{U : UnicodeTables} `{MC : Mac} `{CK : Clock}.

Definition mapFailureToDSNStatus (reason : string) : string :=
  match enhancedStatusPattern reason with
  | Some code => code
  | None =>
      let has := existsb (Contains (ToLower reason)) in
      if has ["connection refused"; "connection reset"; "network unreachable"] then DSNStatusConnectionRefused
      else if has ["mailbox unavailable"; "mailbox full"; "quota exceeded"; "insufficient storage"]
      then DSNStatusMailboxUnavailable
      else if has ["user unknown"; "no such user"; "recipient address rejected"]
      then DSNStatusBadDestinationAddress
      else if has ["host not found"; "name resolution"; "dns lookup failed"; "no mx records"]
      then DSNStatusSystemNotAccepting
      else if has ["permanent failure"; "550"; "551"; "552"; "553"; "554"] then DSNStatusPermanentFailure
      else DSNStatusGeneralFailure
  end.

(** ** The engine *)

(** BounceEngine; QueueProcessor.BounceEngine is what the processor sees of one. *)
Record Engine := mkEngine { be_hostname : string; be_srs : option Rewriter }.

Definition NewBounceEngine (hostname : string) : Engine := mkEngine hostname None.

Definition isBounceIdentity (be : Engine) (sender : string) : bool :=
  let sender := Trim sender "<>" in
  let '(local, domain, ok) := Cut sender "@"%char in
  let local := if ok then local else sender in
  if EqualFold local "mailer-daemon" then true
  else (ok && EqualFold local "postmaster" && EqualFold domain (be_hostname be))%bool.

Definition wants_failure (msg : Message) (rcpt : string) : bool :=
  match m_Annotations msg !! ("dsn_notify:" +:+ rcpt) with
  | None => true
  | Some notify => ((TrimSpace notify =? "")%string || Contains (ToUpper notify) "FAILURE")%bool
  end.

Definition recipientsToNotify (msg : Message) : list string :=
  filter (fun rcpt => wants_failure msg rcpt = true) (m_To msg).

Definition getRecipientDSNParams (msg : Message) (recipient : string) : list string * string :=
  (match m_Annotations msg !! ("dsn_notify:" +:+ recipient) with Some v => Split v ","%char | None => [] end,
   default "" (m_Annotations msg !! ("dsn_orcpt:" +:+ recipient))).

(** ** The report *)

Definition annot (msg : Message) (key : string) : string := default "" (m_Annotations msg !! key).

(** Times as they are written: a zero time stands for the epoch, in UTC. *)
Definition report_nano (now : Z) : Z := if now =? 0 then 0 else unix_nano now.
Definition report_date (now : Z) : string :=
  if now =? 0 then "Thu, 01 Jan 1970 00:00:00 +0000" else rfc1123z now.

Definition boundary (now : Z) : string := "elemta-boundary-" +:+ FormatInt (report_nano now).
Definition delimiter (now : Z) : string := "--" +:+ boundary now.

Definition header_lines (be : Engine) (msg : Message) (now : Z) : list string :=
  ["Content-Type: multipart/report; report-type=delivery-status;";
   String TAB ("boundary=" +:+ String DQUOTE (boundary now +:+ String DQUOTE ""));
   "MIME-Version: 1.0";
   "Message-ID: <bounce-" +:+ m_ID msg +:+ "." +:+ FormatInt (report_nano now) +:+ "@" +:+ be_hostname be +:+ ">";
   "Date: " +:+ report_date now;
   "From: <postmaster@" +:+ be_hostname be +:+ ">";
   "To: <" +:+ sanitizeEmailForHeader (m_From msg) +:+ ">";
   "Subject: Delivery Status Notification (Failure)";
   "Auto-Submitted: auto-replied"].

(** Part 1, for people. *)
Definition text_lines (msg : Message) (failureReason : string) (now : Z) : list string :=
  [delimiter now;
   "Content-Type: text/plain; charset=" +:+ String DQUOTE ("utf-8" +:+ String DQUOTE "");
   "Content-Transfer-Encoding: 7bit";
   "";
   "This is a MIME-formatted message containing a Delivery Status Notification.";
   "";
   "Your message to the following recipients could not be delivered:"]
  ++ ((fun r => "  - " +:+ sanitizeEmailForHeader r) <$> m_To msg)
  ++ [""]
  ++ foldField "Reason" (sanitizeDiagnosticCode failureReason)
  ++ [""; "Original message ID: " +:+ m_ID msg;
      "Original subject: " +:+ sanitizeDiagnosticCode (m_Subject msg);
      "Original sender: " +:+ sanitizeEmailForHeader (m_From msg);
      "Failed at: " +:+ report_date now;
      ""; "If you believe this is an error, please contact your mail administrator."; ""].

(** One recipient's block of part 2. *)
Definition recipient_lines (msg : Message) (failureReason : string) (now : Z) (recipient : string) : list string :=
  let '(notifyValues, orcpt) := getRecipientDSNParams msg recipient in
  let diagnosticType := if smtpReplyPattern (TrimSpace failureReason) then "smtp" else "X-Elemta" in
  [""]
  ++ (if (orcpt =? "")%string then []
      else ["Original-Recipient: " +:+ sanitizeDiagnosticCode (decodeXText orcpt)])
  ++ ["Final-Recipient: rfc822; " +:+ sanitizeEmailForHeader recipient;
      "Action: failed";
      "Status: " +:+ mapFailureToDSNStatus failureReason]
  ++ foldField "Diagnostic-Code" (diagnosticType +:+ "; " +:+ sanitizeDiagnosticCode failureReason)
  ++ ["Last-Attempt-Date: " +:+ report_date now]
  ++ (match notifyValues with [] => [] | _ => ["Original-Notify: " +:+ Join notifyValues ","] end).

(** Part 2, for programs. *)
Definition status_lines (be : Engine) (msg : Message) (failureReason : string) (now : Z) : list string :=
  [delimiter now; "Content-Type: message/delivery-status"; ""; "Reporting-MTA: dns; " +:+ be_hostname be]
  ++ (let envid := annot msg "dsn_envid" in
      if (envid =? "")%string then []
      else ["Original-Envelope-Id: " +:+ sanitizeDiagnosticCode (decodeXText envid)])
  ++ (if m_ReceivedAt msg =? 0 then [] else ["Arrival-Date: " +:+ rfc1123z (m_ReceivedAt msg)])
  ++ concat (recipient_lines msg failureReason now <$> m_To msg)
  ++ [""].

Definition report_lines (be : Engine) (msg : Message) (failureReason : string) (now : Z) : list string :=
  header_lines be msg now ++ [""] ++ text_lines msg failureReason now ++ status_lines be msg failureReason now.

(** Part 3, the original: whole when the sender asked for it and it is small enough,
    its header otherwise. *)
Definition original_part (msg : Message) (now : Z) (original : string) : string :=
  if (original =? "")%string then ""
  else
    let part :=
      if ((ToUpper (annot msg "dsn_return") =? "FULL")%string && (slen original <=? maxReturnedMessage))%bool
      then crlf_text [delimiter now; "Content-Type: message/rfc822"; ""] +:+ original
      else crlf_text [delimiter now; "Content-Type: text/rfc822-headers"; ""] +:+ headerBlock original in
    if HasSuffix part CRLF then part else part +:+ CRLF.

Definition dsn_content (be : Engine) (msg : Message) (failureReason : string) (now : Z) (original : string) : string :=
  crlf_text (report_lines be msg failureReason now) +:+ original_part msg now original
  +:+ crlf_text [delimiter now +:+ "--"].

(** ** Generating *)

Context {S : Type} `{SB : StorageBackend S}.

Definition originalContent (id : string) : M (Manager S) string :=
  if (id =? "")%string then mret ""
  else r ← attempt (GetMessageContent id); mret (match r with Ok c => c | Err _ => "" end).

Definition buildDSNBounceAt (be : Engine) (msg : Message) (failureReason : string) (now : Z) : M (Manager S) string :=
  original ← originalContent (m_ID msg);
  mret (dsn_content be msg failureReason now original).

Definition no_bounce : BounceResult := mkBounceResult false "" None.

(** Where the report goes: the original sender of forwarded mail. *)
Definition answer_to (be : Engine) (now : Z) (from : string) : string :=
  match be_srs be with
  | Some r => if Is from then match Reverse now r from with Ok sender => sender | Err _ => from end else from
  | None => from
  end.

(** The guards of generateBounce: the recipients to report, none when the sender is not
    to be answered. *)
Definition to_report (be : Engine) (msg : Message) : list string :=
  let from := TrimSpace (m_From msg) in
  if ((from =? "")%string || (from =? "<>")%string || isBounceIdentity be from)%bool then []
  else recipientsToNotify msg.

(** generateBounce at time [now]; [newID] is the ID generateUniqueID would give. *)
Definition generateBounce (now : Z) (dataPath : string -> string) (newID : string)
    (be : Engine) (msg : Message) (failureReason handoffID : string) : M (Manager S) BounceResult :=
  match to_report be msg with
  | [] => mret no_bounce
  | reported =>
      let msg := msg <| m_To := reported |> <| m_From := answer_to be now (m_From msg) |> in
      let stable := negb (handoffID =? "")%string in
      let bounceTime := if stable then (if m_UpdatedAt msg =? 0 then m_CreatedAt msg else m_UpdatedAt msg) else now in
      bounceContent ← buildDSNBounceAt be msg failureReason bounceTime;
      r ← attempt
        (if stable
         then EnqueueMessageWithID now dataPath handoffID "" [m_From msg]
                "Delivery Status Notification (Failure)" bounceContent PriorityHigh bounceTime
         else EnqueueMessage now dataPath newID "" [m_From msg]
                "Delivery Status Notification (Failure)" bounceContent PriorityHigh now);
      match r with
      | Err e => mret (mkBounceResult false "" (Some e))
      | Ok bounceID => mret (mkBounceResult true bounceID None)
      end
  end.

Definition GenerateBounceIfNeeded (now : Z) (dataPath : string -> string) (newID : string)
    (be : Engine) (msg : Message) (failureReason : string) : M (Manager S) BounceResult :=
  generateBounce now dataPath newID be msg failureReason "".

Definition GenerateBounceIdempotent (now : Z) (dataPath : string -> string) (newID : string)
    (be : Engine) (msg : Message) (failureReason handoffID : string) : M (Manager S) BounceResult :=
  generateBounce now dataPath newID be msg failureReason handoffID.
End Engine.

(** ** Lines *)

(** A line that cannot end early. *)
Definition unbroken (s : string) : bool :=
  forall_bytes (fun c => negb (Ascii.eqb c CR) && negb (Ascii.eqb c LF))%bool s.

(** A line that only continues the field before it. *)
Definition continues (s : string) : bool := HasPrefix s " ".

Create HintDb dsn.

Lemma unbroken_app s t : unbroken (s +:+ t) = (unbroken s && unbroken t)%bool.
Proof. apply forall_bytes_app. Qed.

Lemma unbroken_app_intro s t : unbroken s = true -> unbroken t = true -> unbroken (s +:+ t) = true.
Proof. intros Hs Ht. by rewrite unbroken_app, Hs, Ht. Qed.

Lemma unbroken_cons c s :
  Ascii.eqb c CR = false -> Ascii.eqb c LF = false -> unbroken s = true -> unbroken (String c s) = true.
Proof. unfold unbroken. cbn. by intros -> -> ->. Qed.

Lemma crlf_lines_line l t : forall cur,
  unbroken l = true -> crlf_lines cur (l +:+ CRLF +:+ t) = (cur +:+ l) :: crlf_lines "" t.
Proof.
  induction l as [|c l IH]; intros cur Hl.
  - change (crlf_lines cur (String CR (String LF t)) = (cur +:+ "") :: crlf_lines "" t).
    by rewrite string_app_nil_r.
  - unfold unbroken in Hl. cbn in Hl. bool_facts. rewrite app_cons.
    assert (crlf_lines cur (String c (l +:+ CRLF +:+ t)) = crlf_lines (cur +:+ String c "") (l +:+ CRLF +:+ t)) as ->.
    { cbn [crlf_lines]. destruct (l +:+ CRLF +:+ t); [done|].
      match goal with H : Ascii.eqb c CR = false |- _ => rewrite H end. done. }
    rewrite IH by done. by rewrite <- string_app_assoc.
Qed.

(** What was written line by line is read line by line. *)
Lemma crlf_lines_text ls t :
  Forall (fun l => unbroken l = true) ls -> crlf_lines "" (crlf_text ls +:+ t) = ls ++ crlf_lines "" t.
Proof.
  induction 1 as [|l ls Hl _ IH]; [done|].
  change (crlf_text (l :: ls)) with ((l +:+ CRLF) +:+ crlf_text ls).
  rewrite <- !string_app_assoc, (crlf_lines_line l _ "" Hl), IH. done.
Qed.

Definition printable (c : ascii) : bool := in_range 32 126 c.

Lemma b2z_eqb c d : Ascii.eqb c d = (b2z c =? b2z d).
Proof.
  destruct (Ascii.eqb_spec c d) as [->|H]; [by rewrite Z.eqb_refl|].
  symmetry. apply Z.eqb_neq. intros E. by apply H, b2z_inj.
Qed.

(** Decides what a byte is from its code. *)
Ltac by_code := unfold printable, is_digit, in_range in *; rewrite ?b2z_eqb in *;
  change (b2z CR) with 13 in *; change (b2z LF) with 10 in *; change (b2z TAB) with 9 in *;
  change (b2z SP) with 32 in *; lia.

Lemma printable_unbroken s : forall_bytes printable s = true -> unbroken s = true.
Proof. apply forall_bytes_weaken. intros c. by_code. Qed.

Lemma digits_printable s : forall_bytes is_digit s = true -> forall_bytes printable s = true.
Proof. apply forall_bytes_weaken. intros c. by_code. Qed.

Lemma FormatInt_printable z : forall_bytes printable (FormatInt z) = true.
Proof.
  unfold FormatInt, pretty, pretty_Z.
  assert (forall n, forall_bytes printable (pretty_N n) = true) as HN.
  { intros n. apply digits_printable. unfold pretty_N. case_decide; [done|].
    by apply pretty_N_go_digits. }
  destruct z; [done|apply HN|]. unfold pretty. rewrite app_cons. cbn. apply HN.
Qed.

Lemma sanitizeEmailForHeader_unbroken s : unbroken (sanitizeEmailForHeader s) = true.
Proof.
  apply forall_bytes_spec. unfold sanitizeEmailForHeader. rewrite list_ascii_of_string_of_list_ascii.
  apply Forall_forall. intros c [[H1 H2] _]%list_elem_of_filter.
  by rewrite (proj2 (Ascii.eqb_neq _ _) H1), (proj2 (Ascii.eqb_neq _ _) H2).
Qed.

(** Whatever the remote server said, what is written is printable ASCII. *)
Lemma sanitize_runes_printable s : forall k, forall_bytes printable (sanitize_runes k s) = true.
Proof.
  induction s as [|c s IH]; intros k; [done|]. cbn [sanitize_runes]. destruct k as [|k]; [|apply IH].
  generalize (utf8_len (String c s) - 1)%nat. intros k. specialize (IH k).
  pose proof (b2z_range c). repeat case_match; cbn; rewrite ?IH; try done.
  rewrite andb_true_r. bool_facts. by_code.
Qed.

Lemma sanitizeDiagnosticCode_printable s : forall_bytes printable (sanitizeDiagnosticCode s) = true.
Proof. apply sanitize_runes_printable. Qed.

Lemma Join_Split s c : Join (Split s c) (String c "") = s.
Proof.
  induction s as [|b s IH]; [done|]. cbn [Split]. destruct (Ascii.eqb b c) eqn:E.
  - apply Ascii.eqb_eq in E as ->. rewrite Join_cons by apply Split_not_nil. by rewrite IH.
  - destruct (Split s c) as [|x l] eqn:Es; [by destruct (Split_not_nil s c)|].
    destruct l; cbn in IH |- *; by rewrite <- IH.
Qed.

(** ** Folding *)

Lemma fields_aux_bytes p s : forall k cur,
  forall_bytes p cur = true -> forall_bytes p s = true ->
  Forall (fun w => forall_bytes p w = true) (fields_aux k cur s).
Proof.
  assert (forall cur l, forall_bytes p cur = true -> Forall (fun w => forall_bytes p w = true) l ->
            Forall (fun w => forall_bytes p w = true) (emit cur l)) as He.
  { intros cur l Hc Hl. unfold emit. case_match; [done|]. by constructor. }
  induction s as [|c s IH]; intros k cur Hc Hs; cbn [fields_aux]; [by apply He|].
  cbn in Hs. apply andb_true_iff in Hs as [Hp Hs]. destruct k as [|k]; [|by apply IH].
  destruct (space_len (String c s)); [|by apply He, IH].
  apply IH; [|done]. rewrite forall_bytes_app, Hc. cbn. by rewrite Hp.
Qed.

Lemma Fields_unbroken s : unbroken s = true -> Forall (fun w => unbroken w = true) (Fields s).
Proof. by apply fields_aux_bytes. Qed.

Section Folding.
Variable name : string.

(** A line of the field: one line, of bounded length. *)
Definition field_line (l : string) : Prop :=
  unbroken l = true /\ (String.length l <= String.length name + 902)%nat.

(** The lines of a field: its name opens the first, the others continue it. *)
Definition field_lines (ls : list string) : Prop :=
  exists v rest, ls = (name +:+ ":" +:+ v) :: rest /\
    Forall (fun l => continues l = true) rest /\ Forall field_line ls.

Lemma field_lines_push ls l :
  field_lines ls -> continues l = true -> field_line l -> field_lines (ls ++ [l]).
Proof.
  intros (v & rest & -> & Hr & Hf) Hl Hn. exists v, (rest ++ [l]). split; [done|].
  split; [apply Forall_app; split; [done|]; by constructor|].
  apply (Forall_app_2 _ (_ :: rest)); [done|]. by constructor.
Qed.

Lemma continues_app l w : continues l = true -> continues (l +:+ w) = true.
Proof.
  unfold continues. destruct l as [|c l]; [done|]. rewrite app_cons. cbn [HasPrefix].
  by destruct (Ascii.eqb c " ").
Qed.

Lemma field_lines_extend out line w :
  field_lines (out ++ [line]) -> field_line (line +:+ w) -> field_lines (out ++ [line +:+ w]).
Proof.
  intros (v & rest & E & Hr & Hf) Hl. apply Forall_app in Hf as [Hf _].
  destruct out as [|x out]; cbn in E; simplify_eq.
  - exists (v +:+ w), []. rewrite <- !string_app_assoc in *. split; [done|]. split; [done|]. by constructor.
  - exists v, (out ++ [line +:+ w]). apply Forall_app in Hr as [Hr Hc]. split; [done|]. split.
    + apply Forall_app. split; [done|]. constructor; [|done]. apply continues_app. by inversion Hc.
    + apply (Forall_app_2 _ (_ :: out)); [done|]. by constructor.
Qed.

Lemma unbroken_stake n s : unbroken s = true -> unbroken (stake n s) = true.
Proof. rewrite <- (stake_sdrop n s) at 1. rewrite unbroken_app. by intros [? ?]%andb_true_iff. Qed.

Lemma unbroken_sdrop n s : unbroken s = true -> unbroken (sdrop n s) = true.
Proof. rewrite <- (stake_sdrop n s) at 1. rewrite unbroken_app. by intros [? ?]%andb_true_iff. Qed.

Lemma sdrop_length n s : String.length (sdrop n s) = (String.length s - n)%nat.
Proof.
  pose proof (f_equal String.length (stake_sdrop n s)) as H.
  rewrite string_length_app, stake_length in H. lia.
Qed.

Lemma field_line_space w :
  unbroken w = true -> (String.length w <= 901)%nat -> field_line (" " +:+ w).
Proof. split; [by apply unbroken_cons|]. rewrite string_length_app. cbn [String.length]. lia. Qed.

(** Cutting a word needs no more rounds than it has bytes. *)
Lemma break_word_lines fuel : forall out line word,
  (String.length word <= fuel)%nat -> field_lines (out ++ [line]) -> unbroken word = true ->
  let '(out', line', word') := break_word fuel out line word in
  field_lines (out' ++ [line']) /\ unbroken word' = true /\ (String.length word' <= 900)%nat.
Proof.
  induction fuel as [|fuel IH]; intros out line word Hf Hl Hw; cbn [break_word].
  - split_and!; [done|done|lia].
  - destruct (900 <? String.length word)%nat eqn:E; [|apply Nat.ltb_ge in E; by split_and!].
    apply Nat.ltb_lt in E. apply IH; [rewrite sdrop_length; lia| |by apply unbroken_sdrop].
    apply field_lines_push; [done|done|]. apply field_line_space; [by apply unbroken_stake|].
    rewrite stake_length. lia.
Qed.

Lemma fold_word_lines out line word :
  field_lines (out ++ [line]) -> unbroken word = true ->
  let '(out', line') := fold_word name (out, line) word in field_lines (out' ++ [line']).
Proof.
  intros Hl Hw. unfold fold_word. pose proof (break_word_lines _ out line word (le_n _) Hl Hw) as Hb.
  destruct (break_word _ out line word) as [[out1 line1] word1]. destruct Hb as (Hl1 & Hw1 & Hn).
  destruct (_ && _)%nat%bool eqn:E.
  - apply field_lines_push; [done|done|]. apply field_line_space; [done|lia].
  - apply field_lines_extend; [done|]. destruct Hl1 as (? & ? & _ & _ & [_ Hf]%Forall_app).
    apply Forall_singleton in Hf as [Hu _]. split.
    + apply unbroken_app_intro; [done|]. by apply unbroken_cons.
    + rewrite !string_length_app. cbn [String.length]. unfold maxDSNLine in E.
      apply andb_false_iff in E as [E|E]; apply Nat.ltb_ge in E; lia.
Qed.

Lemma foldField_lines value : unbroken name = true -> unbroken value = true -> field_lines (foldField name value).
Proof.
  intros Hn Hv. unfold foldField. apply Fields_unbroken in Hv.
  assert (field_lines ([] ++ [name +:+ ":"])) as Hl.
  { exists "", []. split; [done|]. split; [done|]. constructor; [|done]. split.
    - by apply unbroken_app_intro.
    - rewrite string_length_app. cbn [String.length]. lia. }
  change (let st := ([], name +:+ ":") in field_lines (fst st ++ [snd st])) in Hl. revert Hl. cbv zeta.
  generalize (@nil string, name +:+ ":").
  induction Hv as [|w ws Hw _ IH]; intros [out line] Hl; [done|]. cbn [foldl].
  pose proof (fold_word_lines out line w Hl Hw) as H.
  destruct (fold_word name (out, line) w) as [out' line']. by apply IH.
Qed.
End Folding.

(** ** How a receiver reads a report *)

Fixpoint read_header (ls : list string) : list string :=
  match ls with
  | [] => []
  | l :: ls' => if (l =? "")%string then [] else l :: read_header ls'
  end.

Fixpoint read_body (ls : list string) : list string :=
  match ls with
  | [] => []
  | l :: ls' => if (l =? "")%string then ls' else read_body ls'
  end.

(** The parts of a multipart body, the preamble first; [d] opens a delimiter line. *)
Fixpoint mime_parts (d : string) (cur ls : list string) : list (list string) :=
  match ls with
  | [] => [cur]
  | l :: ls' => if HasPrefix l d then cur :: mime_parts d [] ls' else mime_parts d (cur ++ [l]) ls'
  end.

(** The addresses a delivery-status part reports. *)
Definition final_recipient (l : string) : option string :=
  if HasPrefix l "Final-Recipient: rfc822; " then Some (TrimPrefix l "Final-Recipient: rfc822; ") else None.
Definition final_recipients (ls : list string) : list string := omap final_recipient ls.

Lemma HasPrefix_app s p q : HasPrefix s p = false -> HasPrefix s (p +:+ q) = false.
Proof.
  revert s. induction p as [|a p IH]; intros s H; [done|]. rewrite app_cons. cbn [HasPrefix] in *.
  destruct s as [|b s]; [done|]. apply andb_false_iff in H as [->|H]; [done|].
  rewrite (IH s H). apply andb_false_r.
Qed.

Lemma HasPrefix_same s t : HasPrefix (s +:+ t) s = true.
Proof. induction s as [|a s IH]; [done|]. rewrite app_cons. cbn. by rewrite Ascii.eqb_refl. Qed.

Lemma mime_parts_run d ls l rest : forall cur,
  Forall (fun l => HasPrefix l d = false) ls -> HasPrefix l d = true ->
  mime_parts d cur (ls ++ l :: rest) = (cur ++ ls) :: mime_parts d [] rest.
Proof.
  induction ls as [|x ls IH]; intros cur Hls Hl; cbn.
  - by rewrite Hl, app_nil_r.
  - apply Forall_cons in Hls as [-> Hls]. rewrite IH by done. by rewrite <- app_assoc.
Qed.

Lemma read_header_run h ls : Forall (fun l => l <> "") h ->
  read_header (h ++ "" :: ls) = h /\ read_body (h ++ "" :: ls) = ls.
Proof.
  induction 1 as [|l h Hl _ [IH1 IH2]]; [done|]. cbn. apply String.eqb_neq in Hl as ->. by rewrite IH1.
Qed.

Lemma final_recipients_app l k : final_recipients (l ++ k) = final_recipients l ++ final_recipients k.
Proof. apply omap_app. Qed.

(** Lines of a field of another name report nobody. *)
Lemma field_lines_silent name ls p :
  (forall v, HasPrefix (name +:+ ":" +:+ v) p = false) -> HasPrefix " " (stake 1 p) = false ->
  field_lines name ls -> Forall (fun l => HasPrefix l p = false) ls.
Proof.
  intros Hn Hp (v & rest & -> & Hr & _). constructor; [apply Hn|].
  eapply Forall_impl; [exact Hr|]. cbv beta. intros l Hl.
  destruct p as [|a p]; [done|]. destruct l as [|b l]; [done|]. unfold continues in Hl.
  cbn [HasPrefix stake] in Hp, Hl |- *. rewrite andb_true_r in Hl, Hp.
  apply Ascii.eqb_eq in Hl as ->. by rewrite Hp.
Qed.

Lemma silent_final ls :
  Forall (fun l => HasPrefix l "Final-Recipient: rfc822; " = false) ls -> final_recipients ls = [].
Proof. induction 1 as [|l ls Hl _ IH]; [done|]. cbn. unfold final_recipient. by rewrite Hl. Qed.

Lemma TrimPrefix_app s p : TrimPrefix (p +:+ s) p = s.
Proof. unfold TrimPrefix. by rewrite HasPrefix_same, sdrop_app. Qed.

(** ** The report is what a receiver reads *)

Class ClockLaws `{CK : Clock} : Prop :=
  rfc1123z_printable : forall t, forall_bytes printable (rfc1123z t) = true.

Section Report.
Context `{U : UnicodeTables} `{MC : Mac} `{CL : ClockLaws}.
Variables (be : Engine) (msg : Message).
Hypothesis Hhost : unbroken (be_hostname be) = true.
Hypothesis Hid : unbroken (m_ID msg) = true.
Hypothesis Hnotify : forall r v, m_Annotations msg !! ("dsn_notify:" +:+ r) = Some v -> unbroken v = true.

Lemma sanitized_unbroken s : unbroken (sanitizeDiagnosticCode s) = true.
Proof. apply printable_unbroken, sanitizeDiagnosticCode_printable. Qed.

Lemma date_unbroken now : unbroken (report_date now) = true.
Proof. unfold report_date. case_match; [done|]. apply printable_unbroken, rfc1123z_printable. Qed.

Lemma arrival_unbroken t : unbroken (rfc1123z t) = true.
Proof. apply printable_unbroken, rfc1123z_printable. Qed.

Lemma FormatInt_unbroken z : unbroken (FormatInt z) = true.
Proof. apply printable_unbroken, FormatInt_printable. Qed.

(** The code of a status is one the reply gave, digits and dots, or one of ours. *)
Lemma status_at_printable s code : status_at s = Some code -> forall_bytes printable code = true.
Proof.
  unfold status_at. intros H. repeat case_match; simplify_eq; bool_facts; rewrite ?forall_bytes_app;
    cbn [forall_bytes];
    repeat match goal with H : Ascii.eqb _ _ = true |- _ => apply Ascii.eqb_eq in H as -> end;
    repeat match goal with |- context [printable ?c] => assert (printable c = true) as -> by (done || by_code) end;
    done.
Qed.

Lemma find_status_printable s code : forall free,
  find_status free s = Some code -> forall_bytes printable code = true.
Proof.
  induction s as [|c s IH]; intros free E; [done|]. cbn [find_status] in E.
  destruct (if free then status_at (String c s) else None) eqn:Es; [|by eapply IH].
  simplify_eq. destruct free; [|done]. by eapply status_at_printable.
Qed.

Lemma status_unbroken reason : unbroken (mapFailureToDSNStatus reason) = true.
Proof.
  unfold mapFailureToDSNStatus, enhancedStatusPattern.
  destruct (find_status true reason) as [code|] eqn:E; [|by repeat case_match].
  by eapply printable_unbroken, find_status_printable.
Qed.

Hint Resolve sanitized_unbroken date_unbroken arrival_unbroken FormatInt_unbroken status_unbroken Hhost Hid
  sanitizeEmailForHeader_unbroken : dsn.

(** One line of the report: a literal text around values that break no line. *)
Ltac one_line :=
  lazymatch goal with
  | |- unbroken (_ +:+ _) = true => apply unbroken_app_intro; one_line
  | |- unbroken (String _ _) = true => apply unbroken_cons; [reflexivity|reflexivity|one_line]
  | |- unbroken "" = true => reflexivity
  | |- _ => solve [auto with dsn]
  end.
Ltac each_line := repeat first [apply Forall_nil_2 | apply Forall_cons; split; [one_line|] | apply Forall_app; split].

Lemma boundary_unbroken now : unbroken (boundary now) = true.
Proof. unfold boundary. one_line. Qed.
Hint Resolve boundary_unbroken : dsn.

Lemma field_unbroken name value : unbroken name = true -> unbroken value = true ->
  Forall (fun l => unbroken l = true) (foldField name value).
Proof.
  intros Hn Hv. destruct (foldField_lines name value Hn Hv) as (? & ? & _ & _ & Hf).
  eapply Forall_impl; [exact Hf|]. by intros l [? _].
Qed.

Lemma recipient_lines_unbroken reason now r : Forall (fun l => unbroken l = true) (recipient_lines msg reason now r).
Proof.
  unfold recipient_lines, getRecipientDSNParams. each_line.
  - case_match; each_line.
  - apply field_unbroken; [done|]. destruct (smtpReplyPattern _); one_line.
  - destruct (m_Annotations msg !! ("dsn_notify:" +:+ r)) as [v|] eqn:E; [|constructor].
    destruct (Split v ",") eqn:Es; [constructor|]. rewrite <- Es. constructor; [|done].
    apply unbroken_app_intro; [done|]. rewrite (Join_Split v ","). by eapply Hnotify.
Qed.

Lemma report_unbroken reason now : Forall (fun l => unbroken l = true) (report_lines be msg reason now).
Proof.
  unfold report_lines, header_lines, text_lines, status_lines, delimiter. each_line.
  - apply Forall_fmap, Forall_true. intros r. unfold compose. one_line.
  - apply field_unbroken; [done|one_line].
  - case_match; each_line.
  - case_match; each_line.
  - apply Forall_concat, Forall_fmap, Forall_true. apply recipient_lines_unbroken.
Qed.

(** No line but the delimiters looks like one. *)
Definition plain (l : string) : Prop := HasPrefix l "--" = false.
Ltac plain_lines := repeat first [apply Forall_nil_2 | apply Forall_cons; split; [reflexivity|] | apply Forall_app; split].

Lemma field_plain value : unbroken value = true ->
  Forall plain (foldField "Reason" value) /\ Forall plain (foldField "Diagnostic-Code" value).
Proof.
  intros Hv.
  split; (eapply field_lines_silent; [| |apply foldField_lines; [|exact Hv]]); by intros.
Qed.

Lemma text_lines_plain reason now : Forall plain (tail (text_lines msg reason now)).
Proof.
  unfold text_lines. cbn [tail app]. plain_lines.
  - apply Forall_fmap, Forall_true. by intros r.
  - apply field_plain, sanitized_unbroken.
Qed.

Lemma recipient_lines_plain reason now r : Forall plain (recipient_lines msg reason now r).
Proof.
  unfold recipient_lines, getRecipientDSNParams. plain_lines.
  - case_match; plain_lines.
  - apply field_plain. destruct (smtpReplyPattern _); one_line.
  - case_match; plain_lines.
Qed.

Lemma status_lines_plain reason now : Forall plain (tail (status_lines be msg reason now)).
Proof.
  unfold status_lines. cbn [tail app]. plain_lines.
  - case_match; plain_lines.
  - case_match; plain_lines.
  - apply Forall_concat, Forall_fmap, Forall_true. apply recipient_lines_plain.
Qed.

Lemma recipient_lines_final reason now r :
  final_recipients (recipient_lines msg reason now r) = [sanitizeEmailForHeader r].
Proof.
  unfold recipient_lines, getRecipientDSNParams. rewrite !final_recipients_app.
  rewrite (silent_final (if (_ =? _)%string then [] else _)) by (case_match; plain_lines).
  rewrite (silent_final (foldField _ _)).
  2:{ eapply field_lines_silent; [| |apply foldField_lines]; try by intros. destruct (smtpReplyPattern _); one_line. }
  rewrite (silent_final (match _ with [] => _ | _ => _ end)) by (case_match; plain_lines). done.
Qed.

Lemma status_lines_final reason now :
  final_recipients (tail (status_lines be msg reason now)) = sanitizeEmailForHeader <$> m_To msg.
Proof.
  unfold status_lines. cbn [tail app].
  match goal with |- final_recipients (_ :: _ :: _ :: ?l) = _ => change (final_recipients l = sanitizeEmailForHeader <$> m_To msg) end.
  rewrite !final_recipients_app.
  rewrite (silent_final (if (_ =? _)%string then [] else _)) by (case_match; plain_lines).
  rewrite (silent_final (if m_ReceivedAt msg =? 0 then _ else _)) by (case_match; plain_lines).
  change (final_recipients [""]) with (@nil string). rewrite app_nil_r. cbn [app].
  induction (m_To msg) as [|r l IH]; [done|].
  cbn [fmap list_fmap concat]. by rewrite final_recipients_app, recipient_lines_final, IH.
Qed.

(** What follows the report opens with a delimiter. *)
Lemma rest_opens now original : exists x more,
  crlf_lines "" (original_part msg now original +:+ crlf_text [delimiter now +:+ "--"])
  = (delimiter now +:+ x) :: more.
Proof.
  assert (unbroken (delimiter now) = true) as Hd by (unfold delimiter; one_line).
  assert (forall ls t, exists more,
    crlf_lines "" (crlf_text (delimiter now :: ls) +:+ t) = delimiter now :: more) as Hopen.
  { intros ls t. change (crlf_text (delimiter now :: ls)) with ((delimiter now +:+ CRLF) +:+ crlf_text ls).
    rewrite <- !string_app_assoc, (crlf_lines_line _ _ "" Hd). by eexists. }
  unfold original_part. destruct (original =? "")%string.
  - exists "--", [""]. rewrite <- (string_app_nil_r (crlf_text _)).
    apply (crlf_lines_text [_] ""). constructor; [|done]. by apply unbroken_app_intro.
  - exists "". rewrite string_app_nil_r. repeat case_match; rewrite <- ?string_app_assoc; apply Hopen.
Qed.
End Report.

(** C32 (a report cannot be forged from outside).  Whatever bytes the sender, the
    recipients, the subject, the remote server's reply, ENVID and ORCPT consist of, a
    receiver that reads the notification as MIME finds the nine header lines the engine
    wrote, then exactly the explanatory part and the delivery-status part it wrote, and in
    the latter exactly the failed recipients it was asked to report, in order. *)
Theorem dsn_unforgeable `{U : UnicodeTables} `{CL : ClockLaws} (be : Engine) (msg : Message)
    (reason original : string) (now : Z)
    (Hhost : unbroken (be_hostname be) = true) (Hid : unbroken (m_ID msg) = true)
    (Hnotify : forall r v, m_Annotations msg !! ("dsn_notify:" +:+ r) = Some v -> unbroken v = true) :
  let seen := crlf_lines "" (dsn_content be msg reason now original) in
  read_header seen = header_lines be msg now /\
  exists more, mime_parts (delimiter now) [] (read_body seen)
    = [] :: tail (text_lines msg reason now) :: tail (status_lines be msg reason now) :: more /\
    final_recipients (tail (status_lines be msg reason now)) = sanitizeEmailForHeader <$> m_To msg.
Proof.
  cbv zeta. unfold dsn_content. rewrite crlf_lines_text by (by apply report_unbroken).
  destruct (rest_opens msg now original) as (x & more & ->).
  unfold report_lines. rewrite <- !app_assoc. cbn [app].
  destruct (read_header_run (header_lines be msg now)
    (text_lines msg reason now ++ status_lines be msg reason now ++ (delimiter now +:+ x) :: more)) as [-> ->].
  { repeat (constructor; [discriminate|]). constructor. }
  split; [done|]. exists (mime_parts (delimiter now) [] more). split; [|by apply status_lines_final].
  assert (Hplain : forall ls, Forall plain ls -> Forall (fun l => HasPrefix l (delimiter now) = false) ls).
  { intros ls H. eapply Forall_impl; [exact H|]. intros l. apply HasPrefix_app. }
  assert (HasPrefix (delimiter now) (delimiter now) = true) as Hself.
  { rewrite <- (string_app_nil_r (delimiter now)) at 1. apply HasPrefix_same. }
  pose proof (mime_parts_run (delimiter now)) as Hrun.
  etransitivity; [exact (Hrun [] (delimiter now) (tail (text_lines msg reason now) ++
    delimiter now :: tail (status_lines be msg reason now) ++ (delimiter now +:+ x) :: more) [] (Forall_nil_2 _) Hself)|].
  rewrite Hrun by (by try apply Hplain, text_lines_plain).
  by rewrite Hrun by (apply HasPrefix_same || by apply Hplain, status_lines_plain).
Qed.

(** ** Queueing the report *)

Section Queueing.
Context `{U : UnicodeTables} `{MC : Mac} `{CK : Clock} `{DG : Digest}.
Variable clean_at : Z.
#[local] Instance bounce_store : StorageBackend Files := FileStorageBackend clean_at.
Variable dataPath : string -> string.
Variables (be : Engine) (msg : Message) (reason handoffID : string).

(** The message the report is about, and the time it is written with. *)
Definition reported_message (now : Z) : Message :=
  msg <| m_To := to_report be msg |> <| m_From := answer_to be now (m_From msg) |>.
Definition stable_time : Z := if m_UpdatedAt msg =? 0 then m_CreatedAt msg else m_UpdatedAt msg.

(** What the queue gets: a high-priority message from nobody to the sender. *)
Definition bounce_note (created sentAt : Z) (content : string) : Message :=
  newEnqueueMessage created dataPath handoffID "" [answer_to be sentAt (m_From msg)]
    "Delivery Status Notification (Failure)" (slen content) PriorityHigh stable_time.

Definition on_files (mg : Manager Files) (fs : Files) : Manager Files := mg <| mg_store := fs |>.

Lemma originalContent_same id mg :
  exists c fs', originalContent id mg = (Ok c, on_files mg fs') /\ same_files (mg_store mg) fs'.
Proof.
  unfold originalContent. destruct (id =? "")%string.
  - exists "", (mg_store mg). split; [by destruct mg|done].
  - unfold GetMessageContent, on_store, attempt, mbind, M_bind.
    assert (kept same_files (RetrieveContent id)) as Hk.
    { unfold RetrieveContent. apply kept_bind; [apply _|apply kept_liftR; apply _|]. intros _ fs.
      unfold wrap. pose proof (read_data_same id fs) as H.
      destruct (read_data id fs) as [[] ?]; exact H. }
    specialize (Hk (mg_store mg)). cbn [sb_RetrieveContent bounce_store FileStorageBackend].
    destruct (RetrieveContent id (mg_store mg)) as [r fs'].
    exists (match r with Ok c => c | Err _ => "" end), fs'. split; [by destruct r|done].
Qed.

(** The report as it is queued, the original being [c]. *)
Definition bounce_content (now : Z) (c : string) : string :=
  dsn_content be (reported_message now) reason stable_time c.

Lemma TrimSpace_nonempty s : TrimSpace s <> "" -> (s =? "")%string = false.
Proof. intros H. apply String.eqb_neq. by intros ->. Qed.

(** A hand-off: the original is read, then the report is created if absent. *)
Lemma generateBounce_run now newID mg c fs1 :
  to_report be msg <> [] -> TrimSpace handoffID <> "" ->
  originalContent (m_ID msg) mg = (Ok c, on_files mg fs1) ->
  let note := bounce_note now now (bounce_content now c) in
  let '(r, fs2) := createMessageIfAbsent note (mkSource (bounce_content now c) false) fs1 in
  exists mg2, mg_store mg2 = fs2 /\
    generateBounce now dataPath newID be msg reason handoffID mg
    = (Ok (match r with
           | Ok _ => mkBounceResult true handoffID None
           | Err e => mkBounceResult false "" (Some ("idempotent enqueue failed: " +:+ e))
           end), mg2).
Proof.
  intros Hr Hh Ho. unfold generateBounce. destruct (to_report be msg) as [|r0 rs] eqn:Er; [done|].
  rewrite (TrimSpace_nonempty _ Hh). cbv zeta. cbn [negb]. unfold buildDSNBounceAt.
  assert (forall t, (msg <| m_To := r0 :: rs |> <| m_From := answer_to be now (m_From msg) |>) = t ->
    m_ID t = m_ID msg /\ m_UpdatedAt t = m_UpdatedAt msg /\ m_CreatedAt t = m_CreatedAt msg /\
    m_From t = answer_to be now (m_From msg)) as Ht by (intros t <-; done).
  replace (msg <| m_To := r0 :: rs |> <| m_From := answer_to be now (m_From msg) |>)
    with (reported_message now) in * by (unfold reported_message; by rewrite Er).
  destruct (Ht _ eq_refl) as (-> & -> & -> & ->). clear Ht.
  fold stable_time. rewrite (bind_run _ _ mg (bounce_content now c) (on_files mg fs1));
    [|by rewrite (bind_run _ _ _ _ _ Ho)].
  unfold EnqueueMessageWithID. rewrite (proj2 (String.eqb_neq _ _) Hh). set (content := bounce_content now c). set (note := bounce_note now now content).
  unfold enqueueMessageWithID. cbn [sb_CreateMessageIfAbsent bounce_store FileStorageBackend].
  change (newEnqueueMessage now dataPath handoffID "" [answer_to be now (m_From msg)]
    "Delivery Status Notification (Failure)" (slen content) PriorityHigh stable_time) with note.
  unfold attempt, werr, on_store, mbind, M_bind.
  change (mg_store (on_files mg fs1)) with fs1.
  destruct (createMessageIfAbsent note (mkSource content false) fs1) as [[b|e] fs2].
  - destruct b; eexists; (split; [|reflexivity]); done.
  - eexists. split; [|reflexivity]. done.
Qed.
End Queueing.

Section Repeating.
Context `{U : UnicodeTables} `{MC : Mac} `{CK : Clock} `{DG : Digest}.

Lemma originalContent_healthy clean_at id (mg : Manager Files) :
  healthy_store (mg_store mg) -> validateMessageID id = Ok tt ->
  originalContent (SB := bounce_store clean_at) id mg = (Ok (default "" (f_data (mg_store mg) !! id)), mg).
Proof.
  intros Hh Hid. unfold originalContent. destruct (id =? "")%string eqn:E.
  - by apply String.eqb_eq in E as ->.
  - unfold GetMessageContent, on_store, attempt, mbind, M_bind. cbn [sb_RetrieveContent bounce_store FileStorageBackend].
    unfold RetrieveContent, liftR, mbind, M_bind. rewrite Hid. unfold wrap.
    rewrite (read_data_run _ Hh). destruct mg as [fs st sch]. cbn [mg_store].
    by destruct (f_data fs !! id).
Qed.

(** An enqueue under one ID leaves the bodies of the others alone. *)
Lemma create_other_body (msg : Message) (src : contentSource) fs r fs1 id :
  fresh fs msg (cs_body src) -> createMessageIfAbsent msg src fs = (r, fs1) -> id <> m_ID msg ->
  f_data fs1 !! id = f_data fs !! id.
Proof.
  intros Hf Hrun Hne.
  destruct (wp_run _ _ _ _ _ (create_progress msg src fs Hf) Hrun) as [[(_ & -> & _)|(_ & _ & _ & [->| ->])] _];
    rewrite ?lookup_insert_ne; congruence.
Qed.

(** A message the engine queued is never answered. *)
Lemma note_unanswered be dataPath id to subject size prio received created now newID be' reason hid
    {S} `{SB : StorageBackend S} (mg : Manager S) :
  let note := newEnqueueMessage created dataPath id "" to subject size prio received in
  generateBounce now dataPath newID be' note reason hid mg = (Ok no_bounce, mg) /\ to_report be note = [].
Proof. done. Qed.

(** C31 (the notification of a hand-off is queued once).  Whatever call of the store fails,
    or at whatever point the process dies, after the original was read: repeating the
    hand-off later, on a store that works, reports success under the same ID, and then the
    queue holds exactly one notification, from nobody to the original sender, at high
    priority, with the content the first attempt meant to write, and nothing else has
    changed.  If that notification fails in turn, no engine answers it. *)
Theorem bounce_idempotent (clean_at now later : Z) (dataPath : string -> string) (newID newID' : string)
    (be : Engine) (msg : Message) (reason handoffID : string) (mg mg1 : Manager Files) (r : result BounceResult)
    (Hreport : to_report be msg <> []) (Hhid : TrimSpace handoffID <> "")
    (Hid : validateMessageID (m_ID msg) = Ok tt) (Hne : m_ID msg <> handoffID)
    (Hsender : answer_to be later (m_From msg) = answer_to be now (m_From msg)) :
  let SB := bounce_store clean_at in
  let original := default "" (f_data (mg_store mg) !! m_ID msg) in
  let content := bounce_content be msg reason now original in
  fresh (mg_store mg) (bounce_note dataPath be msg handoffID now now content) content ->
  fst (originalContent (m_ID msg) mg) = Ok original ->
  generateBounce now dataPath newID be msg reason handoffID mg = (r, mg1) ->
  exists mg2 created,
    GenerateBounceIdempotent later dataPath newID' be msg reason handoffID (on_files mg1 (settled (mg_store mg1)))
    = (Ok (mkBounceResult true handoffID None), mg2) /\
    (created = now \/ created = later) /\
    let note := bounce_note dataPath be msg handoffID created now content in
    enqueued (mg_store mg) (mg_store mg2) note content /\
    (forall be' now' reason' hid',
       generateBounce now' dataPath newID be' note reason' hid' mg2 = (Ok no_bounce, mg2)).
Proof.
  cbv zeta. set (original := default "" _). set (content := bounce_content be msg reason now original).
  intros Hfresh Hread Hrun.
  destruct (originalContent_same clean_at (m_ID msg) mg) as (c & fs0 & Ho & Hs0).
  rewrite Ho in Hread. injection Hread as ->.
  pose proof (generateBounce_run clean_at dataPath be msg reason handoffID now newID mg original fs0
                Hreport Hhid Ho) as H1. cbv zeta in H1. fold content in H1.
  destruct (createMessageIfAbsent _ _ fs0) as [r1 fs1] eqn:Ec. destruct H1 as (mg1' & Hst & Hrun1).
  rewrite Hrun1 in Hrun. injection Hrun as _ ->. subst fs1.
  set (note1 := bounce_note dataPath be msg handoffID now now content) in *.
  assert (fresh fs0 note1 content) as Hf0.
  { destruct Hs0 as (Em & Ed & Et & _). unfold fresh in *. by rewrite Em, Ed, Et. }
  set (mgs := on_files mg1 (settled (mg_store mg1))).
  assert (f_data (mg_store mgs) !! m_ID msg = f_data (mg_store mg) !! m_ID msg) as Hbody.
  { change (f_data (mg_store mg1) !! m_ID msg = f_data (mg_store mg) !! m_ID msg).
    rewrite (create_other_body _ (mkSource content false) _ _ _ _ Hf0 Ec Hne). by destruct Hs0 as (_ & -> & _). }
  pose proof (originalContent_healthy clean_at (m_ID msg) mgs eq_refl Hid) as Ho2.
  rewrite Hbody in Ho2. fold original in Ho2.
  pose proof (generateBounce_run clean_at dataPath be msg reason handoffID later newID' mgs original
                (mg_store mgs) Hreport Hhid Ho2) as H2. cbv zeta in H2.
  unfold bounce_content, reported_message, bounce_note in H2. rewrite Hsender in H2.
  fold (reported_message be msg now) in H2. fold (bounce_content be msg reason now original) in H2.
  fold content in H2.
  destruct (create_again fs0 (mg_store mg1) (mg_store mgs) note1 (bounce_note dataPath be msg handoffID later now content)
    (mkSource content false) r1) as (b & fs2 & m & Hc & Hm & He & _); try done.
  { unfold sameEnqueueMessage. cbn. rewrite !String.eqb_refl, !Z.eqb_refl. by rewrite bool_decide_true. }
  unfold bounce_note in Hc. rewrite Hc in H2. destruct H2 as (mg2 & <- & Hgen).
  assert (enqueued (mg_store mg) (mg_store mg2) m content) as Hen.
  { destruct He as (E1 & E2 & E3 & E4), Hs0 as (Em & Ed & Et & Eb). cbn [cs_body] in E2.
    repeat split; congruence. }
  exists mg2. destruct Hm as [-> | ->]; [exists now|exists later]; (split; [exact Hgen|]);
    (split; [by auto|]); (split; [exact Hen|]); by intros; apply note_unanswered.
Qed.
End Repeating.

(** ** Encoded text *)

Definition hex_digit (n : Z) : ascii := chr (Z.to_N (if n <? 10 then 48 + n else 55 + n)).

(** One byte in the xtext of RFC 3461. *)
Definition xtext_byte (c : ascii) : string :=
  if (in_range 33 126 c && negb (is_byte 43 c) && negb (is_byte 61 c))%bool then String c ""
  else String "+" (String (hex_digit (b2z c / 16)) (String (hex_digit (b2z c mod 16)) "")).

Definition xtext (s : string) : string := concat_strings (xtext_byte <$> list_ascii_of_string s).

Lemma decode_plain b s : is_byte 43 b = false -> decode_from (String b s) = String b (decode_from s).
Proof. intros H. destruct s as [|h1 [|h2 s]]; try done. cbn [decode_from]. by rewrite H. Qed.

Lemma decode_from_plain s : Contains s "+" = false -> decode_from s = s.
Proof.
  induction s as [|b s IH]; [done|]. intros H. cbn [Contains] in H. apply orb_false_iff in H as [H1 H2].
  rewrite decode_plain, IH; [done|done|]. cbn [HasPrefix] in H1. rewrite andb_true_r in H1.
  unfold is_byte. rewrite b2z_eqb in H1. exact H1.
Qed.

Lemma decode_byte c s : decode_from (xtext_byte c +:+ s) = String c (decode_from s).
Proof.
  unfold xtext_byte. destruct (in_range 33 126 c && negb (is_byte 43 c) && negb (is_byte 61 c))%bool eqn:E.
  - apply decode_plain. by bool_facts.
  - assert (isHex (hex_digit (b2z c / 16)) = true /\ isHex (hex_digit (b2z c mod 16)) = true /\
            hex_byte (hex_digit (b2z c / 16)) (hex_digit (b2z c mod 16)) = c) as (H1 & H2 & H3)
      by (destruct c as [[] [] [] [] [] [] [] []]; by vm_compute).
    rewrite !app_cons. cbn [decode_from]. change ("" +:+ s) with s. rewrite H1, H2, H3. done.
Qed.

Lemma xtext_bytes_byte c s : xtext_bytes s = true -> xtext_bytes (xtext_byte c +:+ s) = true.
Proof.
  intros Hs. unfold xtext_byte. destruct (in_range 33 126 c && negb (is_byte 43 c) && negb (is_byte 61 c))%bool eqn:E.
  - bool_facts. rewrite app_cons. change ("" +:+ s) with s. cbn [xtext_bytes].
    match goal with H : is_byte 43 c = false |- _ => rewrite H end.
    match goal with H : is_byte 61 c = false |- _ => rewrite H end.
    unfold in_range in *. destruct (b2z c <? 33) eqn:?, (126 <? b2z c) eqn:?; try lia. done.
  - assert (isHex (hex_digit (b2z c / 16)) = true /\ isHex (hex_digit (b2z c mod 16)) = true) as (H1 & H2)
      by (destruct c as [[] [] [] [] [] [] [] []]; by vm_compute).
    rewrite !app_cons. cbn [xtext_bytes]. change ("" +:+ s) with s. by rewrite H1, H2.
Qed.

(** An envelope identifier comes back as it was meant: any bytes a client encodes as
    the xtext of RFC 3461 are accepted by the command parser as an ENVID, and the report
    written when the message fails shows the decoded bytes. *)
Theorem xtext_roundtrip (s : string) : s <> "" -> validXText (xtext s) = true /\ decodeXText (xtext s) = s.
Proof.
  intros Hne. assert (xtext_bytes (xtext s) = true /\ decode_from (xtext s) = s) as [Hv Hd].
  { clear Hne. unfold xtext. induction s as [|c s [IH1 IH2]]; [done|].
    cbn [list_ascii_of_string fmap list_fmap concat_strings foldr].
    split; [by apply xtext_bytes_byte|]. rewrite decode_byte. by f_equal. }
  split.
  - unfold validXText. destruct (xtext s =? "")%string eqn:E; [|done].
    apply String.eqb_eq in E. rewrite E in Hd. by rewrite <- Hd in Hne.
  - unfold decodeXText. destruct (Contains (xtext s) "+") eqn:E; cbn [negb]; [done|].
    by rewrite <- (decode_from_plain _ E).
Qed.

(** ** Examples *)

#[local] Instance utc_clock : Clock :=
  {| unix_nano t := t * 1000000000; rfc1123z _ := "Tue, 14 Nov 2023 22:13:20 +0000" |}.
#[local] Instance utc_clock_laws : ClockLaws (CK := utc_clock).
Proof. intros t. by vm_compute. Qed.
#[local] Existing Instance ascii_tables.
#[local] Existing Instance toy_mac.
#[local] Existing Instance toy_digest.

Definition relay : Engine := NewBounceEngine "mx.example".

Definition forgery : string := CRLF +:+ CRLF +:+ "--elemta-boundary-5" +:+ CRLF +:+ "Final-Recipient: rfc822; eve@e.example".

(** A message whose every field tries to break out of its line; Dan is not to be reported. *)
Definition refused : Message :=
  mkMessage "m1" Active "" ("ann" +:+ CRLF +:+ "Bcc: eve@a.example") ["bob@b.example" +:+ forgery; "dan@d.example"]
    "b.example" ("hi" +:+ forgery) 5 2 1000 1000 5 0 0 "" "" []
    {["dsn_notify:dan@d.example" := "DELAY"; "dsn_envid" := "+0D+0A+0D+0AX"; "dsn_return" := "FULL"]}.

Example dsn_example :
  final_recipients (crlf_lines "" (crlf_text (status_lines relay (refused <| m_To := to_report relay refused |>)
    ("550 5.1.1 no such user" +:+ forgery) 5)))
  = ["bob@b.example--elemta-boundary-5Final-Recipient: rfc822; eve@e.example"].
Proof. by vm_compute. Qed.

Example status_examples :
  mapFailureToDSNStatus "550 5.1.1 <x>: unknown" = "5.1.1" /\ mapFailureToDSNStatus "host 5.6.7.8 said no" = "5.0.0" /\
  mapFailureToDSNStatus "Connection refused" = "5.4.2" /\ mapFailureToDSNStatus "blocked (5.7.606)." = "5.7.606" /\
  mapFailureToDSNStatus "see 5.1.1234" = "5.0.0" /\ mapFailureToDSNStatus "5.7.1." = "5.7.1".
Proof. by vm_compute. Qed.

Lemma dsn_unforgeable_witness :
  let msg := refused <| m_To := to_report relay refused |> in
  let reason := "550 5.1.1 no such user" +:+ forgery in
  let seen := crlf_lines "" (dsn_content relay msg reason 5 "From: ann") in
  read_header seen = header_lines relay msg 5 /\
  exists more, mime_parts (delimiter 5) [] (read_body seen)
    = [] :: tail (text_lines msg reason 5) :: tail (status_lines relay msg reason 5) :: more /\
    final_recipients (tail (status_lines relay msg reason 5)) = sanitizeEmailForHeader <$> m_To msg.
Proof.
  refine (dsn_unforgeable relay _ _ _ _ _ _ _); [by vm_compute..|].
  intros r v.
  refine (bool_decide_eq_true_1 (map_Forall (fun _ v => unbroken v = true) (m_Annotations refused)) _ _ v).
  by vm_compute.
Defined.

(** A queue holding the body of the refused message, with room for the report. *)
Definition refused_queue (faults : list bool) : Manager Files :=
  mkManager (mkFiles {[(Active, "m1") := Some refused]} {["m1" := "From: ann"]} ∅ true faults)
    (mkStats 1 0 0 0 5 0) defaultRetrySchedule.

Lemma bounce_idempotent_witness :
  let SB := bounce_store 0 in
  let mg := refused_queue (replicate 10 false ++ [true]) in
  let out := generateBounce 10 id "" relay refused "550 no" "dsn-1" mg in
  let content := bounce_content relay refused "550 no" 10 "From: ann" in
  fst out = Ok (mkBounceResult false "" (Some "idempotent enqueue failed: failed to write message file: write error")) /\
  exists mg2 created,
    GenerateBounceIdempotent 99 id "" relay refused "550 no" "dsn-1"
      (on_files (snd out) (settled (mg_store (snd out)))) = (Ok (mkBounceResult true "dsn-1" None), mg2) /\
    (created = 10 \/ created = 99) /\
    let note := bounce_note id relay refused "dsn-1" created 10 content in
    enqueued (mg_store mg) (mg_store mg2) note content /\
    (forall be' now' reason' hid', generateBounce now' id "" be' note reason' hid' mg2 = (Ok no_bounce, mg2)).
Proof.
  cbv zeta. split; [by vm_compute|].
  refine (bounce_idempotent 0 10 99 id "" "" relay refused "550 no" "dsn-1"
    (refused_queue (replicate 10 false ++ [true])) _ _ _ _ _ _ _ _ _ (surjective_pairing _));
    [by vm_compute..| |by vm_compute].
  split; [by vm_compute|]. split; [by intros []; vm_compute|]. split; [by vm_compute|]. by left; vm_compute.
Defined.

Lemma xtext_roundtrip_witness :
  "a+b c" <> "" /\ validXText (xtext "a+b c") = true /\ decodeXText (xtext "a+b c") = "a+b c".
Proof. split; [done|]. by apply (xtext_roundtrip "a+b c"). Defined.

(** Resuming names the reason differently when the failed outcome had no diagnostic: the
    report differs from the one queued before the crash, and its ID is refused for ever. *)
Example resumed_reason_conflicts :
  let SB := bounce_store 0 in
  let first := bounce_reason (Some (mkOutcome "bob@b.example" RecipientPermanentFailure "5.1.1" "" "" "" "" "" false)) None in
  let out := generateBounce 10 id "" relay refused first "dsn-1" (refused_queue []) in
  fst out = Ok (mkBounceResult true "dsn-1" None) /\
  fst (generateBounce 20 id "" relay refused "permanent recipient delivery failure" "dsn-1" (snd out))
  = Ok (mkBounceResult false ""
         (Some "idempotent enqueue failed: message ID dsn-1 conflicts with existing metadata")).
Proof. by vm_compute. Qed.

(** The check against answering a mailer daemon looks at the address before its SRS
    rewriting is undone. *)
Example forwarded_daemon_answered :
  let be := mkEngine "mx.example" (Some (mkRewriter ["k"])) in
  isBounceIdentity be "mailer-daemon@other.example" = true /\
  match Forward 1700000000 (mkRewriter ["k"]) "mailer-daemon@other.example" "mx.example" with
  | Ok from => to_report be (refused <| m_From := from |>) <> [] /\
               answer_to be 1700000000 from = "mailer-daemon@other.example"
  | Err _ => False
  end.
Proof. vm_compute. split; [done|]. by split. Qed.

(** The subject is not folded. *)
Example long_subject_line :
  existsb (fun l => 998 <? slen l)
    (text_lines (refused <| m_Subject := string_of_list_ascii (replicate 1000 "x"%char) |>) "550 no" 5) = true.
Proof. by vm_compute. Qed.
