(* ===== verification/Suppression.v ===== *)
(** * The suppression list (internal/suppression: store.go, classify.go, recorder.go, arf.go)

    The addresses that must not be mailed again: what is recorded, from permanent failures
    and from complaint reports, and what a sender is told.  The database is the table the
    schema declares, keyed by its primary key; each statement may fail, which the list of
    faults decides.  The order among rows of the same second and what LIKE matches are the
    database's: [RowOrder] has the whole order a query returns and the match, per driver,
    and [RowOrderLaws] what ORDER BY promises.

    The MIME and address grammars of mime, mime/multipart and net/mail are not written out:
    a report is given as the parts the multipart reader yields, with the fields of each, and
    [NetMail] is ParseAddress and ParseAddressList. *)

From stdpp Require Import sorting.
From S2P Require Import Prelude GoStrings CommandSecurity QueueStorage QueueProcessor.

Open Scope string_scope.
Open Scope list_scope.
Open Scope Z_scope.

(** ** Entries *)

Definition Source : Type := string.
Definition SourceBounce : Source := "bounce".
Definition SourceComplaint : Source := "complaint".
Definition SourceManual : Source := "manual".

(** A time is its seconds since the epoch; the zero time has its own. *)
Definition zero_seconds : Z := -62135596800.

Record Entry := mkEntry {
  e_Address : string; e_Source : Source; e_Reason : string; e_Code : string; e_CreatedAt : Z
}.

(** One row of the table under its address; the time in whole seconds. *)
Record Row := mkRow { r_source : string; r_reason : string; r_code : string; r_created : Z }.

(** The store: the driver's dialect, the table, and which statements to come fail. *)
Set Primitive Projections.
Record Db := mkDb { db_postgres : bool; db_rows : gmap string Row; db_faults : list bool }.
Unset Primitive Projections.

(** [None] is a nil store, or one without a database. *)
Definition Store : Type := option Db.

Class RowOrder := {
  newest_first : gmap string Row -> list (string * Row);
  (** the driver is Postgres, the pattern, the text *)
  like : bool -> string -> string -> bool
}.
Class RowOrderLaws `{RO : RowOrder} : Prop := {
  order_all : forall t, newest_first t ≡ₚ map_to_list t;
  order_newest : forall t, StronglySorted (fun a b => r_created (snd b) <= r_created (snd a)) (newest_first t)
}.

Definition statement : M Db unit :=
  fun db => match db_faults db with
            | [] => (Ok tt, db)
            | b :: l => (if (b : bool) then Err "database error" else Ok tt, db <| db_faults := l |>)
            end.

(** An operation on the database, if there is one. *)
Definition with_db {A} (absent : A) (m : M Db A) : M Store A :=
  fun s => match s with
           | None => (Ok absent, None)
           | Some db => let '(r, db') := m db in (r, Some db')
           end.

(** q: placeholders numbered for Postgres. *)
Fixpoint number_from (n : Z) (query : string) : string :=
  match query with
  | EmptyString => ""
  | String c query' =>
      if Ascii.eqb c "?" then "$" +:+ FormatInt (n + 1) +:+ number_from (n + 1) query'
      else String c (number_from n query')
  end.
Definition q (postgres : bool) (query : string) : string := if negb postgres then query else number_from 0 query.

Definition truncate (s : string) (max : Z) : string :=
  if slen s <=? max then s else stake (Z.to_nat max) s +:+ "...".

Section Suppression.
Context `{U : UnicodeTables} `{RO : RowOrder}.

Definition Normalize (address : string) : string := ToLower (Trim (TrimSpace address) "<>").

(** ** The store *)

(** Add at time [now], in seconds: an address already listed keeps its entry. *)
Definition Add (now : Z) (entry : Entry) : M Store unit :=
  with_db tt (
    let address := Normalize (e_Address entry) in
    if (address =? "")%string then fail "cannot suppress an empty address"
    else
      let created := if e_CreatedAt entry =? zero_seconds then now else e_CreatedAt entry in
      let row := mkRow (e_Source entry) (truncate (e_Reason entry) 500) (e_Code entry) created in
      r ← attempt statement;
      match r with
      | Err e => fail ("suppress " +:+ address +:+ ": " +:+ e)
      | Ok _ => modify (fun db => db <| db_rows ::= fun t => match t !! address with
                                                           | Some _ => t
                                                           | None => <[address := row]> t
                                                           end |>)
      end).

Definition entry_of (x : string * Row) : Entry :=
  mkEntry (fst x) (r_source (snd x)) (r_reason (snd x)) (r_code (snd x)) (r_created (snd x)).

(** IsSuppressed; the entry of an address that is listed. *)
Definition IsSuppressed (address : string) : M Store (option Entry) :=
  with_db None (
    statement ≫= fun _ =>
    db ← get;
    mret (match db_rows db !! Normalize address with
          | Some row => Some (entry_of (Normalize address, row))
          | None => None
          end)).

(** List: a page of the entries and how many there are. *)
Definition List_ (query : string) (limit offset : Z) : M Store (list Entry * Z) :=
  with_db ([], 0) (
    let limit := if ((limit <=? 0) || (500 <? limit))%bool then 100 else limit in
    let filtering := TrimSpace query in
    statement ≫= fun _ =>
    statement ≫= fun _ =>
    db ← get;
    let rows := newest_first (db_rows db) in
    let kept := if negb (filtering =? "")%string
                then filter (fun x => like (db_postgres db) ("%" +:+ ToLower filtering +:+ "%") (fst x) = true) rows
                else rows in
    mret (entry_of <$> take (Z.to_nat limit) (drop (Z.to_nat offset) kept), Z.of_nat (length kept))).


Definition Count : M Store Z :=
  with_db 0 (statement ≫= fun _ => db ← get; mret (Z.of_nat (size (db_rows db)))).

Definition SuppressedWithReason (address : string) : M Store (bool * string) :=
  r ← attempt (IsSuppressed address);
  mret (match r with
        | Err _ | Ok None => (false, "")
        | Ok (Some entry) =>
            (true, e_Source entry +:+ (if negb (e_Reason entry =? "")%string then ": " +:+ e_Reason entry else ""))
        end).

(** ** What a failure means *)

Definition containsAny (haystack : string) (needles : list string) : bool := existsb (Contains haystack) needles.

Definition complaint_words : list string :=
  ["abuse report"; "complaint"; "listed as spam by the recipient"; "feedback loop"].
(** Failures about the message or about us. *)
Definition our_words : list string :=
  ["message too large"; "size limit"; "quota exceeded"; "mailbox full"; "over quota";
   "blocked"; "blacklist"; "blocklist"; "spam"; "policy"; "rate limit"; "too many";
   "greylist"; "try again"; "temporarily"].
Definition gone_codes : list string := ["5.1.1"; "5.1.3"; "5.1.6"; "5.1.10"].
Definition gone_words : list string :=
  ["user unknown"; "unknown user"; "no such user"; "does not exist"; "doesn't exist";
   "no such recipient"; "recipient not found"; "invalid recipient"; "unrouteable address";
   "address rejected"; "mailbox unavailable"; "no mailbox"].

Definition ShouldSuppress (code diagnostic : string) : option Source :=
  let text := ToLower diagnostic in
  if containsAny text complaint_words then Some SourceComplaint
  else if containsAny text our_words then None
  else if existsb (HasPrefix code) gone_codes then Some SourceBounce
  else if containsAny text gone_words then Some SourceBounce
  else None.

(** ** The recorder *)

Definition RecordFailure (now : Z) (address code diagnostic : string) : M Store unit :=
  match ShouldSuppress code diagnostic with
  | None => mret tt
  | Some source => attempt (Add now (mkEntry address source diagnostic code zero_seconds)) ≫= fun _ => mret tt
  end.

(** ** Complaint reports *)

Record FeedbackReport := mkReport {
  fr_FeedbackType : string; fr_Recipients : list string;
  fr_SourceIP : string; fr_ReportedDomain : string; fr_UserAgent : string
}.

Definition IsComplaint (r : FeedbackReport) : bool :=
  existsb (String.eqb (fr_FeedbackType r)) ["abuse"; "fraud"; "virus"].

(** A header block as textproto reads it: its fields in order, or an error. *)
Definition fields : Type := result (list (string * string)).
Definition Values (h : list (string * string)) (name : string) : list string :=
  omap (fun f => if (fst f =? name)%string then Some (snd f) else None) h.
Definition Get (h : list (string * string)) (name : string) : string := default "" (head (Values h name)).

(** A part: its media type and its content read as fields. *)
Record part := mkPart { p_type : string; p_fields : fields }.

(** A raw message: not one at all, or its media type and parameters and what NextPart
    yields, ending with io.EOF or with an error. *)
Record raw_message := mkRaw {
  rm_type : option string;
  rm_reportType : string;
  rm_boundary : string;
  rm_parts : list part;
  rm_bad_end : bool
}.

Class NetMail := {
  ParseAddress : string -> option string;
  ParseAddressList : string -> option (list string)
}.
Context `{NM : NetMail}.

Definition cleanAddress (v : string) : string :=
  let v := TrimSpace v in
  match ParseAddress v with
  | Some addr => Normalize addr
  | None =>
      let v := Normalize v in
      if (negb (length (filter (fun c => c = "@"%char) (list_ascii_of_string v)) =? 1)%nat
          || ContainsAny v " ,;")%bool then "" else v
  end.

Definition addressesIn (header : string) : list string :=
  if (header =? "")%string then []
  else match ParseAddressList header with Some l => Normalize <$> l | None => [] end.

Definition nonempty_addresses (vs : list string) : list string :=
  omap (fun v => let a := cleanAddress v in if (a =? "")%string then None else Some a) vs.

(** The loop over the parts: the report so far, whether one was seen, and the To field of
    the original. *)
Fixpoint read_parts (ps : list part) (report : FeedbackReport) (saw : bool) (originalTo : list string)
    : result (FeedbackReport * bool * list string) :=
  match ps with
  | [] => Ok (report, saw, originalTo)
  | p :: ps' =>
      if (p_type p =? "message/feedback-report")%string then
        match p_fields p with
        | Err e => Err ("not an ARF feedback report: feedback fields: " +:+ e)
        | Ok f =>
            read_parts ps'
              (mkReport (ToLower (TrimSpace (Get f "Feedback-Type")))
                 (fr_Recipients report ++ nonempty_addresses (Values f "Original-Rcpt-To"))
                 (TrimSpace (Get f "Source-Ip")) (TrimSpace (Get f "Reported-Domain"))
                 (TrimSpace (Get f "User-Agent"))) true originalTo
        end
      else if ((p_type p =? "message/rfc822")%string || (p_type p =? "text/rfc822-headers")%string)%bool then
        read_parts ps' report saw (match p_fields p with Ok f => addressesIn (Get f "To") | Err _ => originalTo end)
      else read_parts ps' report saw originalTo
  end.

Definition ErrNotFeedbackReport : string := "not an ARF feedback report".

Definition ParseFeedbackReport (raw : option raw_message) : result FeedbackReport :=
  match raw with
  | None => Err ErrNotFeedbackReport
  | Some m =>
      if (negb (bool_decide (rm_type m = Some "multipart/report"))
          || negb (EqualFold (rm_reportType m) "feedback-report") || (rm_boundary m =? "")%string)%bool
      then Err ErrNotFeedbackReport
      else
        '(report, saw, originalTo) ← read_parts (rm_parts m) (mkReport "" [] "" "" "") false [];
        if rm_bad_end m then Err ErrNotFeedbackReport
        else if negb saw then Err ErrNotFeedbackReport
        else Ok (match fr_Recipients report with
                 | [] => mkReport (fr_FeedbackType report) originalTo (fr_SourceIP report)
                           (fr_ReportedDomain report) (fr_UserAgent report)
                 | _ => report
                 end)
  end.

Fixpoint add_complaints (now : Z) (reason : string) (addrs : list string) : M Store unit :=
  match addrs with
  | [] => mret tt
  | a :: addrs' =>
      attempt (Add now (mkEntry a SourceComplaint reason "" zero_seconds)) ≫= fun _ => add_complaints now reason addrs'
  end.

(** RecordFeedbackReport; the result is the complaint the callback is told about. *)
Definition RecordFeedbackReport (now : Z) (raw : option raw_message) : M Store (option FeedbackReport) :=
  store ← get;
  match store, ParseFeedbackReport raw with
  | None, _ | _, Err _ => mret None
  | Some _, Ok report =>
      if negb (IsComplaint report) then mret None
      else
        let reason := "spam complaint" +:+
          (if negb (fr_UserAgent report =? "")%string then " via " +:+ fr_UserAgent report else "") in
        add_complaints now reason (fr_Recipients report) ≫= fun _ => mret (Some report)
  end.

(** ** Moving a local list into the queue's database *)

(** Where OpenForQueue keeps the list. *)
Inductive place := QueueDatabase (dsn : string) (local : option string) | LocalFile (path : string).

(** filepath.Join for a clean directory. *)
Definition local_list (queueDir : string) : option string :=
  if (queueDir =? "")%string then None else Some (queueDir +:+ "/suppression.db").

Definition choose_place (backend dsn queueDir : string) : result place :=
  if (EqualFold (TrimSpace backend) "postgres" && negb (TrimSpace dsn =? "")%string)%bool
  then Ok (QueueDatabase dsn (local_list queueDir))
  else match local_list queueDir with
       | None => Err "no queue directory for the suppression list"
       | Some path => Ok (LocalFile path)
       end.

(** The local list, the database, and whether the file has been set aside. *)
Set Primitive Projections.
Record Import := mkImport { im_old : Store; im_new : Store; im_renamed : bool }.
Unset Primitive Projections.

Definition on_old {A} (m : M Store A) : M Import A :=
  fun i => let '(r, o) := m (im_old i) in (r, i <| im_old := o |>).
Definition on_new {A} (m : M Store A) : M Import A :=
  fun i => let '(r, n) := m (im_new i) in (r, i <| im_new := n |>).

Fixpoint import_entries (now : Z) (es : list Entry) (n : Z) : M Import Z :=
  match es with
  | [] => mret n
  | e :: es' => on_new (Add now e) ≫= fun _ => import_entries now es' (n + 1)
  end.

(** The pages of the local list, 500 entries each; [fuel] bounds their number. *)
Fixpoint import_pages (fuel : nat) (now offset n : Z) : M Import Z :=
  match fuel with
  | O => mret n
  | S fuel' =>
      '(entries, _) ← on_old (List_ "" 500 offset);
      n ← import_entries now entries n;
      if Z.of_nat (length entries) <? 500 then mret n
      else import_pages fuel' now (offset + Z.of_nat (length entries)) n
  end.

(** importFile; [rename] is how the final rename goes. *)
Definition importFile (fuel : nat) (now : Z) (rename : result unit) : M Import Z :=
  n ← import_pages fuel now 0 0;
  liftR rename ≫= fun _ => modify (fun i => i <| im_renamed := true |>) ≫= fun _ => mret n.
End Suppression.

(** ** Entries stay *)

Section Sticky.
Context `{U : UnicodeTables} `{RO : RowOrder} `{NM : NetMail}.



Definition row_of (s : Store) (key : string) : option Row := db ← s; db_rows db !! key.

(** The rows of [s] are still those of [s'], which may have more; both or neither exist. *)
Definition extends (s s' : Store) : Prop :=
  (forall k row, row_of s k = Some row -> row_of s' k = Some row) /\ (is_Some s <-> is_Some s').

#[export] Instance extends_refl : Reflexive extends.
Proof. done. Qed.
#[export] Instance extends_trans : Transitive extends.
Proof. intros ? ? ? [] []. split; [eauto|]. etrans; eauto. Qed.

Lemma statement_rows db r db' : statement db = (r, db') -> db_rows db' = db_rows db /\ db_postgres db' = db_postgres db.
Proof. unfold statement. destruct (db_faults db); intros [= <- <-]; done. Qed.

Lemma with_db_kept {A} (absent : A) (m : M Db A) :
  (forall db, forall k row, db_rows db !! k = Some row -> db_rows (snd (m db)) !! k = Some row) ->
  kept extends (with_db absent m).
Proof.
  intros H [db|]; [|done]. unfold with_db. specialize (H db). destruct (m db) as [r db']. cbn in *.
  split; [exact H|]. by split.
Qed.

Lemma Add_kept now e : kept extends (Add now e).
Proof.
  unfold Add. apply with_db_kept. intros db k row Hk. case_match; [done|].
  unfold mbind, M_bind, attempt. destruct (statement db) as [[[]|err] db'] eqn:E;
    apply statement_rows in E as [E _]; cbn; [|by rewrite E].
  rewrite E. case_match eqn:Ek; [done|]. rewrite lookup_insert_ne; [done|]. congruence.
Qed.


Lemma RecordFailure_kept now a c d : kept extends (RecordFailure now a c d).
Proof.
  unfold RecordFailure. case_match; [|by apply kept_ret].
  apply kept_bind; [apply _|apply kept_attempt, Add_kept|]. by intros ? ?.
Qed.


End Sticky.

Section Listed.
Context `{U : UnicodeTables} `{RO : RowOrder} `{NM : NetMail}.




End Listed.


(** ** Only what failed for good is suppressed *)

Section Earned.
Context `{U : UnicodeTables}.

(** The calls of recordSuppressions, one after the other. *)
Definition record_failures (now : Z) (calls : list (string * string * string)) (s : Store) : Store :=
  foldl (fun s '(a, c, d) => snd (RecordFailure now a c d s)) s calls.

Lemma RecordFailure_row now a c d s k row :
  row_of (snd (RecordFailure now a c d s)) k = Some row ->
  row_of s k = Some row \/
  exists src, ShouldSuppress c d = Some src /\ k = Normalize a /\ row = mkRow src (truncate d 500) c now.
Proof.
  unfold RecordFailure. destruct (ShouldSuppress c d) as [src|]; [|by left].
  destruct s as [db|]; [|done]. unfold Add, with_db, mbind, M_bind, attempt.
  destruct (Normalize _ =? "")%string; [by left|].
  destruct (statement db) as [[[]|err] db'] eqn:E; apply statement_rows in E as [E _]; cbn; rewrite E; [|by left].
  cbn. destruct (db_rows db !! Normalize a) eqn:Ek; [by left|].
  destruct (decide (k = Normalize a)) as [->|Hk].
  - rewrite lookup_insert_eq. intros [= <-]. right. by exists src.
  - rewrite lookup_insert_ne by done. by left.
Qed.

Lemma record_failures_row now calls s k row :
  row_of (record_failures now calls s) k = Some row ->
  row_of s k = Some row \/
  exists a c d src, (a, c, d) ∈ calls /\ ShouldSuppress c d = Some src /\ k = Normalize a /\
    row = mkRow src (truncate d 500) c now.
Proof.
  revert s. induction calls as [|[[a c] d] calls IH]; intros s H; [by left|]. cbn [record_failures foldl] in H.
  apply IH in H as [H|(a' & c' & d' & src & Hin & Hrest)]; [|right; exists a', c', d', src; split; [by right|done]].
  apply RecordFailure_row in H as [H|(src & Hs & Hk & Hrow)]; [by left|right]. exists a, c, d, src. set_solver.
Qed.

(** The outcome the processor looks up for an address: the last one it has. *)
Definition last_outcome (a : string) (outs : list RecipientOutcome) : option RecipientOutcome :=
  last (filter (fun o => ro_Recipient o = a) outs).

Lemma foldl_last_outcome a outs : forall acc,
  foldl (fun acc o => if (ro_Recipient o =? a)%string then o else acc) acc outs = default acc (last_outcome a outs).
Proof.
  unfold last_outcome. induction outs as [|o outs IH]; intros acc; [done|]. cbn [foldl]. rewrite IH, filter_cons.
  destruct (String.eqb_spec (ro_Recipient o) a) as [E|E].
  - rewrite decide_True by done. rewrite last_cons. by destruct (last _).
  - by rewrite decide_False by done.
Qed.

Lemma last_outcome_some o outs : o ∈ outs -> is_Some (last_outcome (ro_Recipient o) outs).
Proof.
  intros Ho. apply last_is_Some. intros E.
  assert (o ∈ filter (fun o' => ro_Recipient o' = ro_Recipient o) outs) as Hin by (by apply list_elem_of_filter).
  rewrite E in Hin. by apply not_elem_of_nil in Hin.
Qed.
End Earned.

(** C28 (only recipients that failed for good are suppressed).  When the processor offers
    the recipients of a delivery to the list, every address the list gains is that of a
    recipient [o] whose outcome was a permanent failure.  It is recorded with the diagnostic
    of that outcome (of the last outcome of the same address when it has none), with the
    status code of the last outcome of the same address, and as what the rule makes of
    these two: a complaint where the diagnostic has a word of complaint, else a bounce of
    an address that is gone; a diagnostic that speaks of a size limit, a quota, a block
    list, a policy or a rate, with no word of complaint in it, adds nothing.  Whatever was
    listed stays listed. *)
Theorem suppressed_earned `{U : UnicodeTables} {S} (rd : round) (p p' : Processor S) (now : Z) (s : Store)
    (ann : gmap string string) (occ : list string) (outs : list RecipientOutcome)
    (Hempty : pr_suppressed p = [])
    (Hrun : recordSuppressions rd (so_permanent (sort_outcomes ann occ outs)) outs p = (Ok tt, p')) :
  let s' := record_failures now (pr_suppressed p') s in
  extends s s' /\
  forall k row, row_of s' k = Some row -> row_of s k = None ->
    exists o last src, o ∈ outs /\ ro_Status o = RecipientPermanentFailure /\ k = Normalize (ro_Recipient o) /\
      last_outcome (ro_Recipient o) outs = Some last /\
      let code := ro_EnhancedStatusCode last in
      let diag := if (ro_Diagnostic o =? "")%string then ro_Diagnostic last else ro_Diagnostic o in
      row = mkRow src (truncate diag 500) code now /\
      (src = SourceComplaint /\ containsAny (ToLower diag) complaint_words = true \/
       src = SourceBounce /\ containsAny (ToLower diag) our_words = false /\
       (existsb (HasPrefix code) gone_codes = true \/ containsAny (ToLower diag) gone_words = true)).
Proof.
  cbv zeta. split.
  { unfold record_failures. generalize (pr_suppressed p'). intros calls. revert s.
    induction calls as [|[[a c] d] calls IH]; intros s; [done|]. cbn [foldl].
    etrans; [|apply IH]. apply RecordFailure_kept. }
  intros k row Hr Hn. apply record_failures_row in Hr as [Hr|(a & c & d & src & Hin & Hs & -> & ->)]; [congruence|].
  pose proof (sort_outcomes_rightly ann occ outs) as (_ & _ & Hp).
  assert (exists r, r ∈ so_permanent (sort_outcomes ann occ outs) /\
    let l := default (outcome "" (RecipientStatusOther "") "" "") (last_outcome (dsn_Address r) outs) in
    (a, c, d) = (dsn_Address r, ro_EnhancedStatusCode l,
                 if (dsn_Diagnostic r =? "")%string then ro_Diagnostic l else dsn_Diagnostic r)) as (r & Hr & Er).
  { revert Hrun Hin. unfold recordSuppressions. destruct (rd_suppressor rd); cbn [negb]; intros [= <-] Hin.
    - assert (forall l m : list (string * string * string), l = [] -> (a, c, d) ∈ l ++ m -> (a, c, d) ∈ m) as H
        by (by intros ? ? ->). apply (H _ _ Hempty), list_elem_of_fmap in Hin as (r & Hr & Hin).
      exists r. split; [done|]. by rewrite <- foldl_last_outcome.
    - by rewrite Hempty in Hin; apply not_elem_of_nil in Hin. }
  rewrite Forall_forall in Hp. destruct (Hp r Hr) as ([oc o] & Ho & -> & Hst & _). cbn [snd] in *.
  apply elem_of_zip_r in Ho. destruct (last_outcome_some o outs Ho) as [l El]. cbn in Er. rewrite El in Er.
  injection Er as -> -> ->. exists o, l, src. split_and!; [done..|].
  revert Hs. unfold ShouldSuppress. repeat case_match; intros [= <-]; auto 10.
Qed.

(** ** Importing a list *)

(** A reason is shortened once. *)
Lemma truncate_idem s n : 0 <= n -> truncate (truncate s n) n = truncate s n.
Proof.
  intros Hn. unfold truncate at 2 3. destruct (slen s <=? n) eqn:E; [unfold truncate; by rewrite E|].
  apply Z.leb_gt in E. unfold truncate.
  assert (String.length (stake (Z.to_nat n) s) = Z.to_nat n) as Hlen
    by (rewrite stake_length; unfold slen in E; lia).
  destruct (slen _ <=? n) eqn:E2.
  - apply Z.leb_le in E2. rewrite slen_app in E2. unfold slen in E2. rewrite Hlen in E2. cbn in E2. lia.
  - rewrite <- Hlen at 1. by rewrite stake_app.
Qed.

Section Importing.
Context `{U : UnicodeTables} `{RL : RowOrderLaws}.

(** A row as Add writes them, under a normal address. *)
Definition importable (x : string * Row) : Prop :=
  Normalize (fst x) = fst x /\ fst x <> "" /\ truncate (r_reason (snd x)) 500 = r_reason (snd x) /\
  r_created (snd x) <> zero_seconds.

Definition absorb (t : gmap string Row) (x : string * Row) : gmap string Row :=
  match t !! fst x with Some _ => t | None => <[fst x := snd x]> t end.

Definition absorb_all (l : list (string * Row)) (db : Db) : Db := db <| db_rows ::= fun t => foldl absorb t l |>.

Lemma absorb_all_app l k db : absorb_all (l ++ k) db = absorb_all k (absorb_all l db).
Proof. unfold absorb_all, update. by rewrite foldl_app. Qed.

Definition healthy_db (db : Db) : Prop := db_faults db = [].

Lemma statement_run db : healthy_db db -> statement db = (Ok tt, db).
Proof. unfold healthy_db, statement. by intros ->. Qed.

Lemma Add_run now x db :
  healthy_db db -> importable x ->
  Add now (entry_of x) (Some db) = (Ok tt, Some (absorb_all [x] db)).
Proof.
  intros Hh (Hk & Hne & Ht & Hc). unfold Add, with_db, entry_of. cbn. rewrite Hk, (proj2 (String.eqb_neq _ _) Hne).
  unfold mbind, M_bind, attempt. rewrite statement_run by done. cbn. rewrite Ht, (proj2 (Z.eqb_neq _ _) Hc).
  destruct x as [k [src rs co cr]]. done.
Qed.

Lemma import_entries_run now l : forall n o db b,
  healthy_db db -> Forall importable l ->
  import_entries now (entry_of <$> l) n (mkImport o (Some db) b)
  = (Ok (n + Z.of_nat (length l)), mkImport o (Some (absorb_all l db)) b).
Proof.
  induction l as [|x l IH]; intros n o db b Hh Hl.
  - cbn. by rewrite Z.add_0_r.
  - apply Forall_cons in Hl as [Hx Hl]. cbn [fmap list_fmap import_entries].
    rewrite (bind_run _ _ _ tt (mkImport o (Some (absorb_all [x] db)) b))
      by (unfold on_new; cbn [im_new]; by rewrite Add_run).
    rewrite IH by done. cbn [length]. f_equal. f_equal. lia.
Qed.

Lemma List_run db offset :
  healthy_db db ->
  List_ "" 500 offset (Some db)
  = (Ok (entry_of <$> take 500 (drop (Z.to_nat offset) (newest_first (db_rows db))),
         Z.of_nat (length (newest_first (db_rows db)))), Some db).
Proof.
  intros Hh. unfold List_, with_db. rewrite (bind_run _ _ _ _ _ (statement_run db Hh)).
  by rewrite (bind_run _ _ _ _ _ (statement_run db Hh)).
Qed.

(** All that is left from [off] on is brought over, page by page. *)
Lemma import_pages_run fuel : forall now off n odb db b,
  healthy_db odb -> healthy_db db -> Forall importable (newest_first (db_rows odb)) ->
  let left := drop off (newest_first (db_rows odb)) in
  (length left < 500 * fuel)%nat ->
  import_pages fuel now (Z.of_nat off) n (mkImport (Some odb) (Some db) b)
  = (Ok (n + Z.of_nat (length left)),
     mkImport (Some odb) (Some (absorb_all left db)) b).
Proof.
  induction fuel as [|fuel IH]; intros now off n odb db b Ho Hh Hall left Hf; [lia|].
  assert (Forall importable left) as Hleft by (by apply Forall_drop). cbn [import_pages].
  rewrite (bind_run _ _ _ (entry_of <$> take 500 left, Z.of_nat (length (newest_first (db_rows odb))))
             (mkImport (Some odb) (Some db) b))
    by (unfold on_old; cbn [im_old]; rewrite List_run by done; by rewrite Nat2Z.id).
  rewrite (bind_run _ _ _ _ _ (import_entries_run now (take 500 left) n _ _ _ Hh (Forall_take _ _ _ Hleft))).
  rewrite length_fmap. pose proof (length_take left 500) as Hpage.
  destruct (Z.of_nat (length (take 500 left)) <? 500) eqn:E.
  - apply Z.ltb_lt in E. rewrite (take_ge left 500) by lia. done.
  - apply Z.ltb_ge in E. replace (Z.of_nat off + Z.of_nat (length (take 500 left))) with (Z.of_nat (off + 500)) by lia.
    assert (drop (off + 500) (newest_first (db_rows odb)) = drop 500 left) as Hd
      by (unfold left; rewrite drop_drop; f_equal; lia).
    pose proof (IH now (off + 500)%nat (n + Z.of_nat (length (take 500 left))) odb
      (absorb_all (take 500 left) db) b Ho Hh Hall) as H.
    cbv zeta in H. rewrite Hd, length_drop in H. rewrite H by lia.
    rewrite Hpage. replace (absorb_all left db) with (absorb_all (drop 500 left) (absorb_all (take 500 left) db)).
    + f_equal. f_equal. lia.
    + rewrite <- absorb_all_app. by rewrite take_drop.
Qed.

Lemma absorb_kept l : forall t k row, t !! k = Some row -> foldl absorb t l !! k = Some row.
Proof.
  induction l as [|[j r] l IH]; intros t k row H; [done|]. cbn [foldl]. apply IH. unfold absorb. cbn.
  destruct (t !! j) eqn:Ej; [done|]. rewrite lookup_insert_ne; [done|]. congruence.
Qed.

Lemma absorb_lookup l : forall t k row,
  NoDup l.*1 -> (k, row) ∈ l -> foldl absorb t l !! k = Some (default row (t !! k)).
Proof.
  induction l as [|[j r] l IH]; intros t k row Hnd Hin; [by apply not_elem_of_nil in Hin|].
  apply NoDup_cons in Hnd as [Hj Hnd]. cbn [foldl]. apply elem_of_cons in Hin as [[= <- <-]|Hin].
  - apply absorb_kept. unfold absorb. cbn. destruct (t !! k) eqn:E; [done|]. apply lookup_insert_eq.
  - rewrite (IH _ _ row) by done. unfold absorb. cbn. destruct (t !! j) eqn:E; [done|].
    rewrite lookup_insert_ne; [done|]. intros ->. apply Hj. apply list_elem_of_fmap. by exists (k, row).
Qed.
End Importing.

(** Moving the list loses nobody: importing a local list into the queue's database,
    whatever their sizes, ends after as many pages as the list needs, reports how many
    entries it read, sets the file aside, and then every address of the local list is
    suppressed: with the entry the database already had, or else with its own, unchanged. *)
Theorem import_complete `{U : UnicodeTables} `{RL : RowOrderLaws} (fuel : nat) (now : Z) (odb ndb : Db)
    (Ho : healthy_db odb) (Hn : healthy_db ndb) (Hall : map_Forall (fun k row => importable (k, row)) (db_rows odb))
    (Hfuel : (size (db_rows odb) < 500 * fuel)%nat) :
  exists ndb', importFile fuel now (Ok tt) (mkImport (Some odb) (Some ndb) false)
    = (Ok (Z.of_nat (size (db_rows odb))), mkImport (Some odb) (Some ndb') true) /\
    (forall k row, db_rows odb !! k = Some row -> db_rows ndb' !! k = Some (default row (db_rows ndb !! k))) /\
    (forall k row, db_rows ndb !! k = Some row -> db_rows ndb' !! k = Some row).
Proof.
  pose proof (order_all (db_rows odb)) as Hperm.
  assert (Forall importable (newest_first (db_rows odb))) as Hf.
  { rewrite Hperm. apply Forall_forall. intros [k row] Hin%elem_of_map_to_list. by apply Hall. }
  assert (length (newest_first (db_rows odb)) = size (db_rows odb)) as Hlen
    by (rewrite Hperm; apply length_map_to_list).
  eexists. split; [|split].
  - unfold importFile.
    pose proof (import_pages_run fuel now 0 0 odb ndb false Ho Hn Hf) as H. cbv zeta in H. rewrite drop_0 in H.
    rewrite (bind_run _ _ _ _ _ (H ltac:(lia))). rewrite Hlen. cbn. reflexivity.
  - intros k row Hk. apply absorb_lookup.
    + rewrite Hperm. apply NoDup_fst_map_to_list.
    + rewrite Hperm. by apply elem_of_map_to_list.
  - intros k row Hk. by apply absorb_kept.
Qed.

(** ** Examples *)

#[local] Existing Instance ascii_tables.

Definition newer_first (a b : string * Row) : Prop := r_created (snd b) <= r_created (snd a).
#[local] Instance newer_first_dec : RelDecision newer_first.
Proof. intros a b. unfold newer_first. apply _. Defined.

#[local] Instance sorted_rows : RowOrder :=
  {| newest_first t := merge_sort newer_first (map_to_list t); like _ pattern text := Contains text (Trim pattern "%") |}.
#[local] Instance sorted_rows_laws : RowOrderLaws.
Proof.
  split; intros t; unfold newest_first, sorted_rows.
  - apply merge_sort_Permutation.
  - assert (Transitive newer_first) by (intros a b c; unfold newer_first; lia).
    assert (Total newer_first) by (intros a b; unfold newer_first; lia).
    apply (StronglySorted_merge_sort newer_first).
Qed.

(** Addresses as they are written. *)
#[local] Instance plain_mail : NetMail :=
  {| ParseAddress v := if Contains v "@" then Some v else None; ParseAddressList v := Some [v] |}.

Definition no_list : Db := mkDb false ∅ [].

Definition complaint_from (addr : string) : option raw_message :=
  Some (mkRaw (Some "multipart/report") "feedback-report" "b"
    [mkPart "message/feedback-report" (Ok [("Feedback-Type", "Abuse"); ("Original-Rcpt-To", addr)])] false).

Definition ann_gone : Entry := mkEntry "<Ann@A.example>" SourceBounce "no such user" "5.1.1" zero_seconds.


Definition a_processor : Processor Files := processor_on 100 letter.

Lemma suppressed_earned_witness :
  let outs := dr_RecipientOutcomes mixed_delivery in
  let so := sort_outcomes ∅ ["1"; "2"; "3"] outs in
  let out := recordSuppressions a_round (so_permanent so) outs a_processor in
  let s' := record_failures 50 (pr_suppressed (snd out)) (Some no_list) in
  row_of s' "dan@d.example" = Some (mkRow SourceBounce "550 no such user" "5.1.1" 50) /\
  extends (Some no_list) s' /\
  forall k row, row_of s' k = Some row -> row_of (Some no_list) k = None ->
    exists o last src, o ∈ outs /\ ro_Status o = RecipientPermanentFailure /\ k = Normalize (ro_Recipient o) /\
      last_outcome (ro_Recipient o) outs = Some last /\
      let code := ro_EnhancedStatusCode last in
      let diag := if (ro_Diagnostic o =? "")%string then ro_Diagnostic last else ro_Diagnostic o in
      row = mkRow src (truncate diag 500) code 50 /\
      (src = SourceComplaint /\ containsAny (ToLower diag) complaint_words = true \/
       src = SourceBounce /\ containsAny (ToLower diag) our_words = false /\
       (existsb (HasPrefix code) gone_codes = true \/ containsAny (ToLower diag) gone_words = true)).
Proof.
  split; [by vm_compute|].
  refine (suppressed_earned a_round a_processor _ 50 (Some no_list) ∅ ["1"; "2"; "3"] _ eq_refl _); by vm_compute.
Defined.

Definition local_rows : Db :=
  mkDb false {["ann@a.example" := mkRow SourceBounce "gone" "5.1.1" 10; "bob@b.example" := mkRow SourceManual "" "" 20]} [].
Definition queue_rows : Db := mkDb true {["ann@a.example" := mkRow SourceComplaint "spam complaint" "" 5]} [].

Lemma import_complete_witness :
  exists ndb', importFile 1 99 (Ok tt) (mkImport (Some local_rows) (Some queue_rows) false)
    = (Ok 2, mkImport (Some local_rows) (Some ndb') true) /\
    (forall k row, db_rows local_rows !! k = Some row ->
       db_rows ndb' !! k = Some (default row (db_rows queue_rows !! k))) /\
    (forall k row, db_rows queue_rows !! k = Some row -> db_rows ndb' !! k = Some row).
Proof.
  refine (import_complete 1 99 local_rows queue_rows eq_refl eq_refl _ _).
  - apply (map_Forall_insert_2 (fun k row => importable (k, row))); [by vm_compute|].
    apply (map_Forall_insert_2 (fun k row => importable (k, row))); [by vm_compute|]. apply map_Forall_empty.
  - vm_compute. lia.
Defined.

(** A complaint after a bounce leaves the address listed as a bounce. *)
Example complaint_does_not_outrank :
  let s := snd (Add 10 ann_gone (Some no_list)) in
  let s' := snd (RecordFeedbackReport 20 (complaint_from "ann@a.example") s) in
  fst (SuppressedWithReason "ann@a.example" s') = Ok (true, "bounce: no such user").
Proof. by vm_compute. Qed.

(** A block of our address range counts as a complaint by the recipient when its text
    speaks of complaints. *)
Example blocked_for_complaints :
  ShouldSuppress "5.7.1" "550 blocked: complaint rate of your network is too high" = Some SourceComplaint.
Proof. by vm_compute. Qed.

(** Brackets around spaces: the address is filed under a key no lookup of it uses. *)
Example spaces_inside_brackets :
  Normalize "< ann@a.example >" = " ann@a.example " /\ Normalize (Normalize "< ann@a.example >") = "ann@a.example".
Proof. by vm_compute. Qed.
