(* ===== verification/MtaSts.v ===== *)
(** * MTA-STS (internal/delivery: mtasts.go, errors.go)

    Fetching, caching and enforcing the policy by which a domain names the servers its mail
    may go to and demands TLS.  The HTTPS client and the resolver are a [PolicyNet]: each
    call takes a network state and gives an answer and the next state.  A Go map is ranged
    over in any order: [RangeOrder] is the order of a traversal, and its law that it visits
    every entry once.  Times and durations are nanoseconds; a duration is a machine integer
    that wraps, a point in time is not.  One operation reads the clock once. *)

From S2P Require Import Prelude GoStrings Srs QueueProcessor.

Open Scope string_scope.
Open Scope list_scope.
Open Scope Z_scope.

(** ** Policies *)

Record MTASTSPolicy := mkPolicy {
  po_Version : string;
  po_Mode : string;
  po_MX : list string;
  po_MaxAge : Z;
  po_fetchedAt : Z;
  po_expiresAt : Z;
  po_negative : bool
}.

(** fmt.Sscanf(value, "%d", &age): a sign, then digits; what follows is left alone. *)
Fixpoint digit_run (s : string) : string :=
  match s with
  | String c s' => if is_digit c then String c (digit_run s') else ""
  | EmptyString => ""
  end.

Definition Sscanf_d (value : string) : option Z :=
  let value := trim_left value in
  let '(sign, rest) := match value with
                       | String c s' => if byte_in "+-" c then (String c "", s') else ("", value)
                       | EmptyString => ("", "")
                       end in
  if (digit_run rest =? "")%string then None else ParseInt64 (sign +:+ digit_run rest).

Section Policies.
Context `{U : UnicodeTables}.

Definition IsEnforced (now : Z) (p : MTASTSPolicy) : bool :=
  ((po_Mode p =? "enforce")%string && (now <? po_expiresAt p))%bool.

(** One pattern against a host, both lower-cased and without the final dot. *)
Definition matches_pattern (mxHost pattern : string) : bool :=
  let pattern := ToLower (TrimSuffix pattern ".") in
  if (pattern =? mxHost)%string then true
  else if HasPrefix pattern "*." then
    let suffix := sdrop 1 pattern in
    ((mxHost =? sdrop 1 suffix)%string || HasSuffix mxHost suffix)%bool
  else false.

Definition MatchesMX (p : MTASTSPolicy) (mxHost : string) : bool :=
  existsb (matches_pattern (ToLower (TrimSuffix mxHost "."))) (po_MX p).

(** One line of a policy file. *)
Definition policy_line (p : MTASTSPolicy) (line : string) : MTASTSPolicy :=
  let line := TrimSpace line in
  if ((line =? "")%string || HasPrefix line "#")%bool then p
  else match SplitN 2 line ":"%char with
       | [k; v] =>
           let key := TrimSpace (ToLower k) in
           let value := TrimSpace v in
           let '(mkPolicy ver mode mx age f e n) := p in
           if (key =? "version")%string then mkPolicy value mode mx age f e n
           else if (key =? "mode")%string then mkPolicy ver (ToLower value) mx age f e n
           else if (key =? "max_age")%string then
             match Sscanf_d value with
             | Some a => if 0 <? a then mkPolicy ver mode mx a f e n else p
             | None => p
             end
           else if (key =? "mx")%string then mkPolicy ver mode (mx ++ [value]) age f e n
           else p
       | _ => p
       end.

Definition parsePolicyText (text : string) : option MTASTSPolicy :=
  let p := foldl policy_line (mkPolicy "" "none" [] 86400 0 0 false) (Split text LF) in
  if negb (po_Version p =? "STSv1")%string then None
  else if negb (existsb (String.eqb (po_Mode p)) ["enforce"; "testing"; "none"]) then None
  else Some p.
End Policies.

(** ** The manager *)

Definition negativeCacheTTL : Z := 600 * 1000000000.
Definition defaultMaxCacheSize : Z := 1000.

Record Config := mkConfig { cf_MTASTSEnabled : bool; cf_MTASTSCacheSize : Z }.

Record MTASTSMetrics := mkMetrics {
  mt_PoliciesFetched : Z; mt_CacheHits : Z; mt_CacheMisses : Z; mt_FetchErrors : Z; mt_DNSErrors : Z;
  mt_HTTPFetchOK : Z; mt_CacheSize : Z
}.

(** What came back from a GET: where it came from, its status, its first 64 KiB. *)
Record https_response := mkResponse {
  hr_scheme : string; hr_host : string; hr_port : string; hr_status : Z; hr_body : result string
}.

Class PolicyNet (W : Type) := {
  https_get : string -> W -> result https_response * W;
  LookupTXT : string -> W -> result (list string) * W
}.

Class RangeOrder := range : gmap string MTASTSPolicy -> list (string * MTASTSPolicy).
Class RangeOrderLaws `{RG : RangeOrder} : Prop := range_all : forall c, range c ≡ₚ map_to_list c.

Set Primitive Projections.
Record MTASTSManager (W : Type) := mkManager {
  sm_cache : gmap string MTASTSPolicy;
  sm_metrics : MTASTSMetrics;
  sm_net : W
}.
Unset Primitive Projections.
Arguments mkManager {W}.
Arguments sm_cache {W}.
Arguments sm_metrics {W}.
Arguments sm_net {W}.

Definition maxCacheSize (config : option Config) : Z :=
  match config with
  | Some c => if 0 <? cf_MTASTSCacheSize c then cf_MTASTSCacheSize c else defaultMaxCacheSize
  | None => defaultMaxCacheSize
  end.

Definition NewMTASTSManager {W} (net : W) : MTASTSManager W := mkManager ∅ (mkMetrics 0 0 0 0 0 0 0) net.

(** DeliveryError, what the queue sees of it apart. *)
Record DeliveryError := mkDeliveryError {
  dl_Message : string; dl_Details : string; dl_Temporary : bool; dl_Retryable : bool; dl_Timestamp : Z
}.
Definition Error (e : DeliveryError) : string := "policy error: " +:+ dl_Message e.

Section Manager.
Context `{U : UnicodeTables} `{RG : RangeOrder} {W : Type} `{PN : PolicyNet W}.
Variable config : Config.
Variable now : Z.

Abbreviation Sts := (St (MTASTSManager W)).

Definition count (f : MTASTSMetrics -> MTASTSMetrics) : Sts unit :=
  st_modify (fun m => m <| sm_metrics ::= f |>).
Definition on_sts_net {A} (f : W -> A * W) : Sts A :=
  fun m => let '(a, w) := f (sm_net m) in (a, m <| sm_net := w |>).

Definition hit (m : MTASTSMetrics) := let '(mkMetrics a b c d e f g) := m in mkMetrics a (b + 1) c d e f g.
Definition miss (m : MTASTSMetrics) := let '(mkMetrics a b c d e f g) := m in mkMetrics a b (c + 1) d e f g.
Definition fetched (m : MTASTSMetrics) := let '(mkMetrics a b c d e f g) := m in mkMetrics (a + 1) b c d e f g.
Definition fetch_error (m : MTASTSMetrics) := let '(mkMetrics a b c d e f g) := m in mkMetrics a b c (d + 1) e f g.
Definition dns_error (m : MTASTSMetrics) := let '(mkMetrics a b c d e f g) := m in mkMetrics a b c d (e + 1) f g.
Definition http_ok (m : MTASTSMetrics) := let '(mkMetrics a b c d e f g) := m in mkMetrics a b c d e (f + 1) g.
Definition set_size (n : Z) (m : MTASTSMetrics) := let '(mkMetrics a b c d e f _) := m in mkMetrics a b c d e f n.

(** One entry seen by the eviction loop: an expired one goes, the next to expire is
    remembered. *)
Definition evict_step (st : gmap string MTASTSPolicy * string * Z) (x : string * MTASTSPolicy)
    : gmap string MTASTSPolicy * string * Z :=
  let '(cache, oldestKey, oldestExpiry) := st in
  let '(k, p) := x in
  if po_expiresAt p <? now then (delete k cache, oldestKey, oldestExpiry)
  else if ((oldestKey =? "")%string || (po_expiresAt p <? oldestExpiry))%bool
  then (cache, k, po_expiresAt p)
  else st.

Definition make_room (domain : string) (cache : gmap string MTASTSPolicy) : gmap string MTASTSPolicy :=
  let full c := maxCacheSize (Some config) <=? Z.of_nat (size c) in
  if (negb (bool_decide (is_Some (cache !! domain))) && full cache)%bool then
    let '(cache, oldestKey, _) := foldl evict_step (cache, "", 0) (range cache) in
    if (full cache && negb (oldestKey =? "")%string)%bool then delete oldestKey cache else cache
  else cache.

Definition cacheStore (domain : string) (policy : MTASTSPolicy) : Sts unit :=
  st_modify (fun m =>
    let cache := <[domain := policy]> (make_room domain (sm_cache m)) in
    m <| sm_cache := cache |> <| sm_metrics ::= set_size (Z.of_nat (size cache)) |>).

(** The wrap-around of time.Duration(policy.MaxAge) * time.Second. *)
Definition dated (p : MTASTSPolicy) : MTASTSPolicy :=
  let '(mkPolicy ver mode mx age _ _ n) := p in
  mkPolicy ver mode mx age now (now + wrap64 (age * 1000000000)) n.

Definition fetchPolicyFromHTTPS (domain : string) : Sts (option MTASTSPolicy) :=
  r ← on_sts_net (https_get ("https://mta-sts." +:+ domain +:+ "/.well-known/mta-sts.txt"));
  mret (match r with
        | Err _ => None
        | Ok resp =>
            if (negb (hr_scheme resp =? "https")%string || negb (EqualFold (hr_host resp) ("mta-sts." +:+ domain))
                || (negb (hr_port resp =? "")%string && negb (hr_port resp =? "443")%string))%bool then None
            else if negb (hr_status resp =? 200) then None
            else match hr_body resp with
                 | Err _ => None
                 | Ok body => dated <$> parsePolicyText body
                 end
        end).

Definition fetchPolicyFromDNS (domain : string) : Sts (option MTASTSPolicy) :=
  r ← on_sts_net (LookupTXT ("_mta-sts." +:+ domain));
  match r with
  | Err _ => count dns_error ≫= fun _ => mret None
  | Ok records =>
      if negb (existsb (fun rec => Contains rec "STSv1") records) then mret None
      else fetchPolicyFromHTTPS domain
  end.

Definition fetchPolicy (domain : string) : Sts (option MTASTSPolicy) :=
  p ← fetchPolicyFromHTTPS domain;
  match p with
  | Some p => count http_ok ≫= fun _ => mret (Some p)
  | None => fetchPolicyFromDNS domain
  end.

Definition no_policy : MTASTSPolicy := mkPolicy "" "" [] 0 now (now + negativeCacheTTL) true.

(** The part of GetPolicy after a miss. *)
Definition refresh (domain : string) : Sts (option MTASTSPolicy) :=
  count miss ≫= fun _ =>
  p ← fetchPolicy domain;
  match p with
  | None => count fetch_error ≫= fun _ => cacheStore domain no_policy ≫= fun _ => mret None
  | Some p => cacheStore domain p ≫= fun _ => count fetched ≫= fun _ => mret (Some p)
  end.

Definition GetPolicy (domain : string) : Sts (option MTASTSPolicy) :=
  if negb (cf_MTASTSEnabled config) then mret None
  else
    let domain := ToLower domain in
    cache ← st_gets sm_cache;
    match cache !! domain with
    | Some p =>
        if now <? po_expiresAt p then
          count hit ≫= fun _ => mret (if po_negative p then None else Some p)
        else st_modify (fun m => m <| sm_cache ::= delete domain |>) ≫= fun _ => refresh domain
    | None => refresh domain
    end.

Definition EnforcePolicy (domain mxHost : string) (tlsUsed : bool) : Sts (option DeliveryError) :=
  if negb (cf_MTASTSEnabled config) then mret None
  else
    policy ← GetPolicy domain;
    mret (match policy with
          | None => None
          | Some p =>
              if (po_Mode p =? "none")%string then None
              else if negb (MatchesMX p mxHost) then
                if IsEnforced now p then
                  Some (mkDeliveryError ("MTA-STS: MX host " +:+ mxHost +:+ " does not match policy for " +:+ domain)
                          ("policy MX patterns: [" +:+ Join (po_MX p) " " +:+ "]") false false now)
                else None
              else if (IsEnforced now p && negb tlsUsed)%bool then
                Some (mkDeliveryError ("MTA-STS: TLS required for " +:+ domain +:+ " but not used")
                        ("policy mode: " +:+ po_Mode p) true true now)
              else None
          end).

Definition ClearCache : Sts unit :=
  st_modify (fun m => m <| sm_cache := ∅ |> <| sm_metrics ::= set_size 0 |>).
End Manager.

(** ** The cache is bounded *)

Section Bounded.
Context `{U : UnicodeTables} `{RL : RangeOrderLaws} {W : Type} `{PN : PolicyNet W}.
Variable config : Config.

(** What the eviction loop has done after the entries [seen] of [cache]. *)
Definition evicting (cache : gmap string MTASTSPolicy) (seen : list string)
    (st : gmap string MTASTSPolicy * string * Z) : Prop :=
  let '(cache', oldest, _) := st in
  cache' ⊆ cache /\ (forall k, k ∉ seen -> cache' !! k = cache !! k) /\
  (oldest = "" -> forall k, k ∈ seen -> cache' !! k = None) /\
  (oldest <> "" -> oldest ∈ seen /\ is_Some (cache' !! oldest)).

Lemma evict_step_evicting now cache seen st k p :
  evicting cache seen st -> cache !! k = Some p -> k ∉ seen -> k <> "" ->
  evicting cache (k :: seen) (evict_step now st (k, p)).
Proof.
  destruct st as [[c o] e]. intros (Hs & Hother & Hnone & Hsome) Hk Hns Hne. unfold evict_step.
  pose proof (Hother k Hns) as Hck.
  destruct (po_expiresAt p <? now); [|destruct ((o =? "")%string || (po_expiresAt p <? e))%bool eqn:E]; split_and!.
  - etrans; [apply delete_subseteq|done].
  - intros j [Hj1 Hj2]%not_elem_of_cons. rewrite lookup_delete_ne by done. by apply Hother.
  - intros Ho j [->|Hj]%elem_of_cons; [apply lookup_delete_eq|].
    destruct (decide (j = k)) as [->|]; [apply lookup_delete_eq|]. rewrite lookup_delete_ne by done. by apply Hnone.
  - intros Ho. destruct (Hsome Ho) as [Hin His]. split; [by right|].
    rewrite lookup_delete_ne; [done|]. by intros ->.
  - done.
  - intros j [Hj1 Hj2]%not_elem_of_cons. by apply Hother.
  - done.
  - intros _. split; [by left|]. rewrite Hck, Hk. by eexists.
  - done.
  - intros j [Hj1 Hj2]%not_elem_of_cons. by apply Hother.
  - intros ->. by apply orb_false_iff in E as [? _].
  - intros Ho. destruct (Hsome Ho) as [Hin His]. split; [by right|done].
Qed.

Lemma evict_evicting now cache l : forall seen st,
  evicting cache seen st -> NoDup (l.*1 ++ seen) -> (forall k p, (k, p) ∈ l -> cache !! k = Some p) ->
  cache !! "" = None -> evicting cache (reverse (l.*1) ++ seen) (foldl (evict_step now) st l).
Proof.
  induction l as [|[k p] l IH]; intros seen st He Hnd Hin Hempty; [done|].
  cbn [foldl fmap list_fmap fst] in *. rewrite reverse_cons, <- app_assoc. cbn [app] in *.
  apply NoDup_cons in Hnd as [Hk Hnd]. rewrite not_elem_of_app in Hk. destruct Hk as [Hk1 Hk2].
  assert (cache !! k = Some p) as Hkp by (apply Hin; by left).
  apply (IH (k :: seen)).
  - apply evict_step_evicting; try done. congruence.
  - rewrite NoDup_app in *. destruct Hnd as (N1 & N2 & N3). split; [done|]. split.
    + intros x Hx [->|Hs]%elem_of_cons; [done|]. by apply (N2 x).
    + by constructor.
  - intros j q Hj. apply Hin. by right.
  - done.
Qed.

(** Room for one more, unless the domain has its place. *)
Lemma make_room_size now domain cache :
  0 < maxCacheSize (Some config) -> Z.of_nat (size cache) <= maxCacheSize (Some config) ->
  cache !! "" = None ->
  make_room config now domain cache ⊆ cache /\
  (is_Some (make_room config now domain cache !! domain) \/
   Z.of_nat (size (make_room config now domain cache)) < maxCacheSize (Some config)).
Proof.
  intros Hmax Hsize Hempty. unfold make_room.
  destruct (bool_decide (is_Some (cache !! domain))) eqn:Ed; cbn [negb andb].
  { split; [done|]. left. by apply bool_decide_eq_true in Ed. }
  destruct (maxCacheSize (Some config) <=? Z.of_nat (size cache)) eqn:Ef; [|apply Z.leb_gt in Ef; by auto].
  assert (evicting cache (reverse ((range cache).*1) ++ []) (foldl (evict_step now) (cache, "", 0) (range cache))) as He.
  { pose proof (range_all cache) as Hp. apply evict_evicting; try done.
    - split_and!; try done. intros _ k Hk. by apply not_elem_of_nil in Hk.
    - rewrite app_nil_r, Hp. apply NoDup_fst_map_to_list.
    - intros k p Hk. rewrite Hp in Hk. by apply elem_of_map_to_list in Hk. }
  rewrite app_nil_r in He.
  destruct (foldl (evict_step now) (cache, "", 0) (range cache)) as [[c o] e].
  destruct He as (Hs & _ & Hnone & Hsome).
  destruct (maxCacheSize (Some config) <=? Z.of_nat (size c)) eqn:Ec; cbn [andb].
  2: { apply Z.leb_gt in Ec. split; [done|]. by right. }
  apply Z.leb_le in Ec. destruct (String.eqb_spec o "") as [->|Ho]; cbn [negb].
  - exfalso. assert (c = ∅) as ->; [|rewrite map_size_empty in Ec; lia].
    apply map_empty. intros k. destruct (c !! k) as [p|] eqn:Ek; [|done]. rewrite <- Ek. apply Hnone; [done|].
    apply elem_of_reverse. rewrite (range_all cache). apply list_elem_of_fmap. exists (k, p). split; [done|].
    apply elem_of_map_to_list. by eapply lookup_weaken.
  - destruct (Hsome Ho) as [_ [p Hp]]. split; [etrans; [apply delete_subseteq|done]|]. right.
    rewrite map_size_delete_Some by (by eexists).
    assert (size c <> 0)%nat by (intros E; apply map_size_empty_inv in E; by subst c).
    apply map_subseteq_size in Hs. lia.
Qed.

(** *** What an operation does to the cache *)

Definition same_cache (m m' : MTASTSManager W) : Prop := sm_cache m' = sm_cache m.

#[local] Instance same_cache_preorder : PreOrder same_cache.
Proof. split; [done|]. intros ? ? ?. unfold same_cache. congruence. Qed.

Lemma count_same f : st_kept same_cache (count f : St (MTASTSManager W) unit).
Proof. by intros m. Qed.

Lemma net_same {A} (f : W -> A * W) : st_kept same_cache (on_sts_net f).
Proof. intros m. unfold on_sts_net. by destruct (f (sm_net m)). Qed.

Lemma https_same now domain : st_kept same_cache (fetchPolicyFromHTTPS (W := W) now domain).
Proof. apply st_kept_bind; [apply _|apply net_same|by intros]. Qed.

Lemma fetchPolicy_same now domain : st_kept same_cache (fetchPolicy (W := W) now domain).
Proof.
  apply st_kept_bind; [apply _|apply https_same|]. intros [p|].
  - apply st_kept_bind; [apply _|apply count_same|by intros].
  - apply st_kept_bind; [apply _|apply net_same|]. intros [records|e].
    + case_match; [by intros ?|apply https_same].
    + apply st_kept_bind; [apply _|apply count_same|by intros].
Qed.

Lemma cacheStore_cache now domain p (m : MTASTSManager W) :
  sm_cache (snd (cacheStore config now domain p m)) = <[domain := p]> (make_room config now domain (sm_cache m)).
Proof. done. Qed.

Lemma refresh_cache now domain (m : MTASTSManager W) : exists p,
  sm_cache (snd (refresh config now domain m)) = <[domain := p]> (make_room config now domain (sm_cache m)).
Proof.
  enough (runs (refresh config now domain)
    (fun _ m' => exists p, sm_cache m' = <[domain := p]> (make_room config now domain (sm_cache m))) m) as H by exact H.
  unfold refresh. apply runs_bind. eapply runs_mono; [apply st_kept_runs, count_same|].
  intros u m1 H1. apply runs_bind. eapply runs_mono; [apply st_kept_runs, fetchPolicy_same|].
  intros [p|] m2 H2; unfold same_cache in *; rewrite <- H1, <- H2.
  - eexists. reflexivity.
  - eexists. reflexivity.
Qed.

(** A hit leaves the cache; anything else replaces the domain's entry. *)
Lemma GetPolicy_cache now domain (m : MTASTSManager W) :
  cf_MTASTSEnabled config = true ->
  (exists p, sm_cache m !! ToLower domain = Some p /\ now < po_expiresAt p /\
     fst (GetPolicy config now domain m) = (if po_negative p then None else Some p) /\
     sm_cache (snd (GetPolicy config now domain m)) = sm_cache m) \/
  (forall p, sm_cache m !! ToLower domain = Some p -> po_expiresAt p <= now) /\
  exists p, sm_cache (snd (GetPolicy config now domain m))
    = <[ToLower domain := p]> (make_room config now (ToLower domain) (delete (ToLower domain) (sm_cache m))).
Proof.
  intros He.
  assert (GetPolicy config now domain m = match sm_cache m !! ToLower domain with
    | Some p => if now <? po_expiresAt p
                then (if po_negative p then None else Some p, m <| sm_metrics ::= hit |>)
                else refresh config now (ToLower domain) (m <| sm_cache ::= delete (ToLower domain) |>)
    | None => refresh config now (ToLower domain) m
    end) as ->.
  { unfold GetPolicy. rewrite He. cbn [negb]. unfold mbind at 1, St_bind at 1, st_gets.
    destruct (sm_cache m !! ToLower domain); [|done]. by destruct (now <? _). }
  destruct (sm_cache m !! ToLower domain) as [p|] eqn:Ec.
  - destruct (now <? po_expiresAt p) eqn:Et.
    + left. exists p. by apply Z.ltb_lt in Et.
    + right. apply Z.ltb_ge in Et. split; [by intros ? [= <-]|].
      match goal with |- context [refresh config now (ToLower domain) ?m'] =>
        destruct (refresh_cache now (ToLower domain) m') as [p' Hp] end.
      exists p'. exact Hp.
  - right. split; [done|]. rewrite delete_id by done. apply refresh_cache.
Qed.
End Bounded.

(** ** Histories *)

Record sts_call := mkCall { sc_now : Z; sc_domain : string; sc_mxHost : string; sc_tls : bool }.

Section Histories.
Context `{U : UnicodeTables} `{RL : RangeOrderLaws} {W : Type} `{PN : PolicyNet W}.
Variable config : Config.

Definition run_call (m : MTASTSManager W) (c : sts_call) : MTASTSManager W :=
  snd (EnforcePolicy config (sc_now c) (sc_domain c) (sc_mxHost c) (sc_tls c) m).

Lemma EnforcePolicy_cache now domain mxHost tls (m : MTASTSManager W) :
  cf_MTASTSEnabled config = true ->
  snd (EnforcePolicy config now domain mxHost tls m) = snd (GetPolicy config now domain m).
Proof.
  intros He. unfold EnforcePolicy. rewrite He. cbn [negb]. unfold mbind, St_bind.
  by destruct (GetPolicy config now domain m).
Qed.

Lemma run_call_disabled m c : cf_MTASTSEnabled config = false -> run_call m c = m.
Proof. intros He. unfold run_call, EnforcePolicy. by rewrite He. Qed.

Lemma maxCacheSize_pos : 0 < maxCacheSize (Some config).
Proof. unfold maxCacheSize, defaultMaxCacheSize. case_match; lia. Qed.

Definition bounded (cache : gmap string MTASTSPolicy) : Prop :=
  Z.of_nat (size cache) <= maxCacheSize (Some config) /\ cache !! "" = None.

Lemma stored_bounded now domain p cache :
  domain <> "" -> bounded cache -> bounded (<[domain := p]> (make_room config now domain cache)).
Proof.
  intros Hd [Hs He]. destruct (make_room_size config now domain cache maxCacheSize_pos Hs He) as [Hsub Hroom].
  split.
  2: { rewrite lookup_insert_ne by done. destruct (make_room config now domain cache !! "") as [q|] eqn:E; [|done].
       rewrite (lookup_weaken _ _ _ _ E Hsub) in He. done. }
  pose proof (map_subseteq_size _ _ Hsub). destruct Hroom as [[q Hq]|Hlt].
  - rewrite map_size_insert, Hq. unfold id. lia.
  - rewrite map_size_insert. case_match; unfold id; lia.
Qed.

Lemma run_call_bounded m c : ToLower (sc_domain c) <> "" -> bounded (sm_cache m) -> bounded (sm_cache (run_call m c)).
Proof.
  intros Hd Hb. destruct (cf_MTASTSEnabled config) eqn:He; [|by rewrite run_call_disabled].
  unfold run_call. rewrite EnforcePolicy_cache by done.
  destruct (GetPolicy_cache config (sc_now c) (sc_domain c) m He) as [(p & _ & _ & _ & E)|[_ [p E]]];
    [by rewrite E|]. rewrite E. apply stored_bounded; [done|]. destruct Hb as [Hs Hn].
  split; [|by rewrite lookup_delete_None; auto].
  pose proof (map_subseteq_size _ _ (delete_subseteq (sm_cache m) (ToLower (sc_domain c)))). lia.
Qed.

(** The entry of a domain survives the checks of others while there is room. *)
Lemma run_call_entry m c (D : gset string) d p :
  dom (sm_cache m) ⊆ D -> ToLower (sc_domain c) ∈ D -> Z.of_nat (size D) <= maxCacheSize (Some config) ->
  sm_cache m !! d = Some p -> sc_now c < po_expiresAt p ->
  dom (sm_cache (run_call m c)) ⊆ D /\ sm_cache (run_call m c) !! d = Some p.
Proof.
  intros Hdom Hc HD Hp Ht. destruct (cf_MTASTSEnabled config) eqn:He; [|by rewrite run_call_disabled].
  unfold run_call. rewrite EnforcePolicy_cache by done.
  destruct (GetPolicy_cache config (sc_now c) (sc_domain c) m He) as [(q & _ & _ & _ & E)|[Hold [q E]]];
    [by rewrite E|].
  set (e := ToLower (sc_domain c)) in *.
  assert (d <> e) as Hne by (intros ->; specialize (Hold p Hp); lia).
  assert (make_room config (sc_now c) e (delete e (sm_cache m)) = delete e (sm_cache m)) as Hroom.
  { unfold make_room. rewrite lookup_delete_eq. cbn [negb].
    replace (maxCacheSize (Some config) <=? Z.of_nat (size (delete e (sm_cache m)))) with false;
      [by rewrite andb_false_r|].
    symmetry. apply Z.leb_gt. assert (dom (delete e (sm_cache m)) ⊂ D) as Hlt by set_solver.
    apply subset_size in Hlt. rewrite size_dom in Hlt. lia. }
  rewrite E, Hroom. split; [set_solver|]. by rewrite lookup_insert_ne, lookup_delete_ne.
Qed.

Lemma run_calls_entry calls : forall m (D : gset string) d p,
  dom (sm_cache m) ⊆ D -> Z.of_nat (size D) <= maxCacheSize (Some config) -> sm_cache m !! d = Some p ->
  Forall (fun c => ToLower (sc_domain c) ∈ D /\ sc_now c < po_expiresAt p) calls ->
  sm_cache (foldl run_call m calls) !! d = Some p.
Proof.
  induction calls as [|c calls IH]; intros m D d p Hdom HD Hp Hc; [done|].
  apply Forall_cons in Hc as [[Hin Ht] Hc]. cbn [foldl].
  destruct (run_call_entry m c D d p) as [H1 H2]; try done. by apply (IH _ D).
Qed.
End Histories.

(** C39 (the policy cache is bounded).  However many domains are checked, with whatever
    answers from the network, the cache never holds more policies than configured, a
    thousand when nothing is configured. *)
Theorem sts_cache_bounded `{U : UnicodeTables} `{RL : RangeOrderLaws} {W} `{PN : PolicyNet W} (config : Config)
    (net : W) (calls : list sts_call) (Hcalls : Forall (fun c => ToLower (sc_domain c) <> "") calls) :
  Z.of_nat (size (sm_cache (foldl (run_call config) (NewMTASTSManager net) calls))) <= maxCacheSize (Some config).
Proof.
  enough (forall m, bounded config (sm_cache m) -> bounded config (sm_cache (foldl (run_call config) m calls))) as H.
  { apply H. split; [|done]. pose proof (maxCacheSize_pos config) as H0.
    change (Z.of_nat (size (∅ : gmap string MTASTSPolicy)) <= maxCacheSize (Some config)).
    rewrite map_size_empty. lia. }
  induction Hcalls as [|c calls Hc _ IH]; intros m Hm; [done|]. cbn [foldl]. by apply IH, run_call_bounded.
Qed.

(** An enforced policy cannot be taken away: once the policy of a domain is known and
    says enforce, then until it expires, whatever other checks are made in between and
    whatever the network answers or fails to answer, as long as the domains concerned fit
    the cache: delivery to a server is allowed exactly when the policy names the server and
    the session is verified; a server it does not name is refused for good, one without
    TLS for now. *)
Theorem sts_no_downgrade `{U : UnicodeTables} `{RL : RangeOrderLaws} {W} `{PN : PolicyNet W} (config : Config)
    (m : MTASTSManager W) (D : gset string) (p : MTASTSPolicy) (calls : list sts_call)
    (now : Z) (domain mxHost : string) (tlsUsed : bool)
    (Hon : cf_MTASTSEnabled config = true)
    (Hp : sm_cache m !! ToLower domain = Some p) (Hneg : po_negative p = false) (Hmode : po_Mode p = "enforce")
    (Hdom : dom (sm_cache m) ⊆ D) (HD : Z.of_nat (size D) <= maxCacheSize (Some config))
    (Hcalls : Forall (fun c => ToLower (sc_domain c) ∈ D /\ sc_now c < po_expiresAt p) calls)
    (Hnow : now < po_expiresAt p) :
  let answer := fst (EnforcePolicy config now domain mxHost tlsUsed (foldl (run_call config) m calls)) in
  (answer = None <-> MatchesMX p mxHost = true /\ tlsUsed = true) /\
  (forall e, answer = Some e -> dl_Temporary e = MatchesMX p mxHost).
Proof.
  cbv zeta. pose proof (run_calls_entry config calls m D _ p Hdom HD Hp Hcalls) as Hk.
  destruct (GetPolicy_cache config now domain (foldl (run_call config) m calls) Hon)
    as [(q & Hq & _ & Hf & _)|[Hold _]]; [|specialize (Hold p Hk); lia].
  rewrite Hk in Hq. injection Hq as <-. rewrite Hneg in Hf.
  unfold EnforcePolicy. rewrite Hon. cbn [negb]. unfold mbind, St_bind.
  destruct (GetPolicy config now domain (foldl (run_call config) m calls)) as [o m']. cbn in Hf. subst o.
  cbn [mret St_ret fst]. unfold IsEnforced. rewrite Hmode. cbn [String.eqb].
  rewrite (proj2 (Z.ltb_lt _ _) Hnow).
  destruct (MatchesMX p mxHost) eqn:Em, tlsUsed; cbn; split; try split; try done; try (by intros []);
    intros e [= <-]; done.
Qed.

(** ** Policy files *)

(** The bytes of host names and keywords. *)
Definition graphic (c : ascii) : bool := in_range 33 126 c.
Definition word (s : string) : Prop := s <> "" /\ forall_bytes graphic s = true.

Lemma graphic_not_space c s : graphic c = true -> space_len (String c s) = O.
Proof.
  intros H. unfold graphic, in_range in H. unfold space_len.
  assert (is_ascii_space c = false) as -> by (unfold is_ascii_space, in_range; lia).
  destruct s as [|c1 [|c2 s]]; [done|by replace (is_space2 c c1) with false by (unfold is_space2; lia)|].
  replace (is_space2 c c1) with false by (unfold is_space2; lia).
  by replace (is_space3 c c1 c2) with false by (unfold is_space3; lia).
Qed.

Lemma trim_left_graphic c s : graphic c = true -> trim_left (String c s) = String c s.
Proof. intros H. unfold trim_left. cbn [trim_left_aux]. by rewrite graphic_not_space. Qed.

(** Nothing to trim on the right of a word, whatever stands before it. *)
Lemma trim_right_word s : forall_bytes graphic s = true -> trim_right s = s.
Proof.
  induction s as [|c s IH]; [done|]. cbn [forall_bytes]. intros [Hc Hs]%andb_true_iff. cbn [trim_right].
  unfold all_space. rewrite trim_left_graphic by done. by rewrite IH.
Qed.

Lemma TrimSpace_word s : word s -> TrimSpace s = s /\ TrimSpace (String SP s) = s.
Proof.
  intros [Hne Hs]. destruct s as [|c s]; [done|]. pose proof Hs as [Hc _]%andb_true_iff. unfold TrimSpace.
  replace (trim_left (String SP (String c s))) with (trim_left (String c s)) by done.
  rewrite trim_left_graphic by done. by rewrite trim_right_word.
Qed.

(** A key and its value: one line, nothing to trim. *)
Definition line_of (key value : string) : string := key +:+ ": " +:+ value.

Lemma trim_right_cons c s : trim_left (String c s) <> "" -> trim_right (String c s) = String c (trim_right s).
Proof. intros H. cbn [trim_right]. unfold all_space. by rewrite (proj2 (String.eqb_neq _ _) H). Qed.

(** A text that opens with a graphic byte is not blank. *)
Lemma graphic_not_blank c s : graphic c = true -> trim_left (String c s) <> "".
Proof. intros H. by rewrite trim_left_graphic. Qed.

Lemma trim_line key value : word key -> word value -> TrimSpace (line_of key value) = line_of key value.
Proof.
  intros [Hk Hkg] [Hv Hvg]. unfold line_of.
  assert (trim_right (": " +:+ value) = ": " +:+ value) as Hend.
  { destruct value as [|d value]; [done|]. pose proof Hvg as [Hd _]%andb_true_iff.
    change (trim_right (String ":" (String SP (String d value))) = String ":" (String SP (String d value))).
    rewrite trim_right_cons by done. rewrite trim_right_cons.
    - by rewrite trim_right_word.
    - exact (graphic_not_blank d value Hd). }
  destruct key as [|c key]; [done|]. pose proof Hkg as [Hc _]%andb_true_iff.
  unfold TrimSpace. rewrite app_cons, trim_left_graphic, <- app_cons by done. clear Hk Hc.
  revert Hkg. generalize (String c key). intros k Hkg.
  induction k as [|e k IH]; [exact Hend|]. cbn [forall_bytes] in Hkg. apply andb_true_iff in Hkg as [He Hkg].
  rewrite app_cons, trim_right_cons by (by apply graphic_not_blank). by rewrite IH.
Qed.

Lemma Split_join l : Forall (fun s => lacks LF s = true) l -> l <> [] -> Split (Join l (String LF "")) LF = l.
Proof.
  induction 1 as [|s l Hs Hl IH]; [done|]. intros _. destruct l as [|t l].
  - cbn [Join]. unfold lacks in Hs. induction s as [|c s IHs]; [done|]. cbn [forall_bytes Split] in *.
    apply andb_true_iff in Hs as [Hc Hs]. apply negb_true_iff in Hc. rewrite Hc, IHs by done. done.
  - change (Join (s :: t :: l) (String LF "")) with (s +:+ String LF (Join (t :: l) (String LF ""))).
    specialize (IH ltac:(done)). revert IH. generalize (Join (t :: l) (String LF "")). intros rest Hrest.
    clear Hl. unfold lacks in Hs. induction s as [|c s IHs].
    + change (Split (String LF rest) LF = "" :: t :: l). cbn [Split]. rewrite Ascii.eqb_refl. by rewrite Hrest.
    + cbn [forall_bytes] in Hs. apply andb_true_iff in Hs as [Hc Hs]. apply negb_true_iff in Hc.
      rewrite app_cons. cbn [Split]. rewrite Hc, IHs by done. done.
Qed.

Section PolicyFiles.
Context `{U : UnicodeTables}.

(** A policy as a domain publishes it. *)
Definition policy_file (mode : string) (mx : list string) (max_age : Z) : string :=
  Join ([line_of "version" "STSv1"; line_of "mode" mode] ++ (line_of "mx" <$> mx)
        ++ [line_of "max_age" (FormatInt max_age)]) (String LF "").

(** A line is read as its key and its value. *)
Lemma policy_line_split key value p :
  word key -> word value -> lacks ":" key = true -> HasPrefix (line_of key value) "#" = false ->
  policy_line p (line_of key value) =
    (let '(mkPolicy ver mode mx age f e n) := p in
     let k := TrimSpace (ToLower key) in
     if (k =? "version")%string then mkPolicy value mode mx age f e n
     else if (k =? "mode")%string then mkPolicy ver (ToLower value) mx age f e n
     else if (k =? "max_age")%string then
       match Sscanf_d value with
       | Some a => if 0 <? a then mkPolicy ver mode mx a f e n else p
       | None => p
       end
     else if (k =? "mx")%string then mkPolicy ver mode (mx ++ [value]) age f e n
     else p).
Proof.
  intros Hk Hv Hc Hh. unfold policy_line. rewrite trim_line by done. rewrite Hh.
  assert ((line_of key value =? "")%string = false) as ->.
  { apply String.eqb_neq. unfold line_of. by destruct key. }
  cbn [orb]. unfold SplitN. unfold line_of at 1.
  change (": " +:+ value) with (String ":" (String SP value)). rewrite (Cut_app key ":" _ Hc).
  destruct (TrimSpace_word value Hv) as [_ ->]. by destruct p.
Qed.

Lemma Sscanf_FormatInt z : 0 <= z < two63 -> Sscanf_d (FormatInt z) = Some z.
Proof.
  intros [Hz Hmax]. destruct (FormatInt_digits z Hz) as (Hd & Hne & Hp).
  destruct (FormatInt z) as [|c s]; [done|]. pose proof Hd as [Hc _]%andb_true_iff.
  assert (graphic c = true) as Hg by (unfold graphic, is_digit, in_range in *; lia).
  assert (byte_in "+-" c = false) as Hs.
  { unfold is_digit, in_range in Hc. unfold byte_in. cbn [exists_byte].
    assert (forall d, b2z d < 48 -> Ascii.eqb c d = false) as H.
    { intros d Hlt. apply Ascii.eqb_neq. intros ->. lia. }
    by rewrite !H by (vm_compute; done). }
  assert (forall t, forall_bytes is_digit t = true -> digit_run t = t) as Hrun.
  { induction t as [|b t IH]; [done|]. cbn. intros [Hb Ht]%andb_true_iff. rewrite Hb. by rewrite IH. }
  unfold Sscanf_d. rewrite trim_left_graphic by done. rewrite Hs, Hrun by done. cbn [String.eqb].
  unfold ParseInt64. change ("" +:+ String c s) with (String c s). unfold byte_in in Hs. cbn [exists_byte] in Hs.
  rewrite orb_false_r in Hs. apply orb_false_iff in Hs as [-> ->]. unfold parse_uint. rewrite Hp. cbn.
  by rewrite (proj2 (Z.ltb_lt _ _) Hmax).
Qed.

Lemma word_lines key value : word key -> word value -> lacks LF (line_of key value) = true.
Proof.
  intros [_ Hk] [_ Hv]. unfold lacks, line_of. rewrite !forall_bytes_app.
  assert (forall s, forall_bytes graphic s = true -> forall_bytes (fun x => negb (Ascii.eqb x LF)) s = true) as H.
  { intros s. apply forall_bytes_weaken. intros c Hc. apply negb_true_iff, Ascii.eqb_neq. by intros ->. }
  by rewrite (H _ Hk), (H _ Hv).
Qed.
End PolicyFiles.

(** A published policy is read as it was written: every policy file with a known
    mode, host patterns of graphic characters and a lifetime that fits a machine integer
    is read back as that policy. *)
Theorem policy_file_roundtrip `{U : UnicodeTables} (mode : string) (mx : list string) (max_age : Z)
    (Hmode : mode ∈ ["enforce"; "testing"; "none"]) (Hmx : Forall word mx) (Hage : 0 < max_age < two63) :
  parsePolicyText (policy_file mode mx max_age) = Some (mkPolicy "STSv1" mode mx max_age 0 0 false).
Proof.
  assert (word mode /\ ToLower mode = mode) as [Hmw Hlow].
  { repeat (apply elem_of_cons in Hmode as [->|Hmode]; [done|]). by apply not_elem_of_nil in Hmode. }
  destruct (FormatInt_digits max_age) as (Hd & Hne & _); [lia|].
  assert (word (FormatInt max_age)) as Hw.
  { split; [done|]. eapply forall_bytes_weaken; [|exact Hd]. intros c. unfold is_digit, graphic, in_range. lia. }
  unfold parsePolicyText, policy_file. rewrite Split_join; [|
    repeat (apply Forall_cons; split; [by apply word_lines|]); apply Forall_app; split;
      [apply Forall_fmap; eapply Forall_impl; [exact Hmx|]; intros; by apply word_lines
      |repeat (apply Forall_cons; split; [by apply word_lines|]); done]|done].
  cbn [app foldl]. rewrite !policy_line_split by done. change (TrimSpace (ToLower "version")) with "version".
  change (TrimSpace (ToLower "mode")) with "mode". cbn [String.eqb].
  assert (forall p, foldl policy_line p (line_of "mx" <$> mx)
    = let '(mkPolicy v m x a f e n) := p in mkPolicy v m (x ++ mx) a f e n) as Hfold.
  { induction Hmx as [|h l Hh _ IH]; intros [v m x a f e n]; cbn [fmap list_fmap foldl].
    - by rewrite app_nil_r.
    - rewrite policy_line_split by done. rewrite IH. change (TrimSpace (ToLower "mx")) with "mx". cbn.
      by rewrite <- app_assoc. }
  rewrite foldl_app, Hfold. cbn [foldl]. rewrite policy_line_split by done.
  change (TrimSpace (ToLower "max_age")) with "max_age".
  rewrite Sscanf_FormatInt by lia. cbn. rewrite (proj2 (Z.ltb_lt _ _)) by lia. rewrite Hlow. cbn.
  repeat (apply elem_of_cons in Hmode as [->|Hmode]; [done|]). by apply not_elem_of_nil in Hmode.
Qed.

(** ** Examples *)

#[local] Existing Instance ascii_tables.
#[local] Instance listed_order : RangeOrder := map_to_list.
#[local] Instance listed_order_laws : RangeOrderLaws.
Proof. by intros c. Qed.

(** A network that answers once, with a policy of the given lifetime, and then no more. *)
#[local] Instance one_answer : PolicyNet (option Z) := {|
  https_get _ w :=
    match w with
    | Some age => (Ok (mkResponse "https" "mta-sts.b.example" "" 200
                         (Ok (policy_file "enforce" ["mx.b.example"; "*.b.example"] age))), None)
    | None => (Err "connection refused", None)
    end;
  LookupTXT _ w := (Err "no such host", w)
|}.

Definition two_domains : Config := mkConfig true 2.
Definition check_b (now : Z) (mx : string) (tls : bool) : sts_call := mkCall now "B.example" mx tls.

(** The policy has been fetched; after that the network is down. *)
Definition known : MTASTSManager (option Z) :=
  run_call two_domains (NewMTASTSManager (Some 86400)) (check_b 1000 "mx.b.example" true).
Definition b_example : MTASTSPolicy :=
  mkPolicy "STSv1" "enforce" ["mx.b.example"; "*.b.example"] 86400 1000 86400000001000 false.

Lemma sts_no_downgrade_witness :
  let calls := [mkCall 2000 "c.example" "mx.c.example" false; check_b 3000 "evil.example" true] in
  let answer := fst (EnforcePolicy two_domains 4000 "b.example" "mx.b.example" false
                       (foldl (run_call two_domains) known calls)) in
  (answer = None <-> MatchesMX b_example "mx.b.example" = true /\ false = true) /\
  (forall e, answer = Some e -> dl_Temporary e = MatchesMX b_example "mx.b.example").
Proof.
  refine (sts_no_downgrade two_domains known {["b.example"; "c.example"]} b_example _ 4000 "b.example" _ false
    eq_refl _ eq_refl eq_refl _ _ _ _); [by vm_compute| |by vm_compute| |by vm_compute].
  - apply (bool_decide_unpack _). by vm_compute.
  - repeat (apply Forall_cons; split; [split; [apply (bool_decide_unpack _)|]; by vm_compute|]). constructor.
Defined.

Lemma sts_cache_bounded_witness :
  Z.of_nat (size (sm_cache (foldl (run_call two_domains) (NewMTASTSManager (Some 86400))
    [check_b 1000 "mx.b.example" true; mkCall 2000 "c.example" "mx.c.example" false;
     mkCall 3000 "d.example" "mx.d.example" false]))) <= maxCacheSize (Some two_domains).
Proof.
  refine (sts_cache_bounded two_domains _ _ _). repeat (apply Forall_cons; split; [by vm_compute|]). constructor.
Defined.

Lemma policy_file_roundtrip_witness :
  parsePolicyText (policy_file "testing" ["mx.b.example"] 604800)
  = Some (mkPolicy "STSv1" "testing" ["mx.b.example"] 604800 0 0 false).
Proof.
  refine (policy_file_roundtrip "testing" ["mx.b.example"] 604800 _ _ _).
  - right. by left.
  - by apply Forall_singleton; split.
  - by vm_compute.
Defined.

(** A lifetime whose nanoseconds do not fit a machine integer: the policy has expired when
    it is fetched, and a server it does not name is accepted. *)
Example huge_max_age_not_enforced :
  fst (EnforcePolicy two_domains 1000 "b.example" "evil.example" false (NewMTASTSManager (Some 10000000000))) = None /\
  is_Some (fst (EnforcePolicy two_domains 1000 "b.example" "evil.example" false (NewMTASTSManager (Some 86400)))).
Proof. split; [by vm_compute|]. vm_compute. by eexists. Qed.

(** A wildcard stands for any number of labels, and for none. *)
Example wildcard_labels :
  MatchesMX b_example "a.c.b.example" = true /\
  MatchesMX (mkPolicy "STSv1" "enforce" ["*.b.example"] 86400 0 0 false) "b.example" = true.
Proof. by vm_compute. Qed.

(** The refusal of a server the policy does not name is marked as final; the queue, which
    asks for a method, retries it. *)
Example refusal_is_retried :
  match fst (EnforcePolicy two_domains 2000 "b.example" "evil.example" true known) with
  | Some e => dl_Temporary e = false /\ isTemporaryFailure (Some (plain_error (Error e))) = true
  | None => False
  end.
Proof. by vm_compute. Qed.
