(* ===== verification/StsDelivery.v ===== *)
(** * Delivery under an MTA-STS policy

    The outbound sessions of Outbound.v with the policy manager of MtaSts.v as their
    enforcer, as NewSMTPDeliveryHandler puts them together: the network they share is one
    world, the manager's cache sits on top of it, and EnforcePolicy reads its clock. *)

From S2P Require Import Prelude GoStrings GoNet QueueProcessor GoMath Providers Pools SessionCache Outbound MtaSts.

Open Scope string_scope.
Open Scope list_scope.
Open Scope Z_scope.

(** A network that also fetches policies, and whose clock does not go back. *)
Class MonotoneNet (W : Type) `{!Network W} `{!PolicyNet W} : Prop := {
  mono_dial src a f w : net_clock w <= net_clock (snd (net_dial src a f w));
  mono_call c k w : net_clock w <= net_clock (snd (net_call c k w));
  mono_MXSecure d w : net_clock w <= net_clock (snd (net_MXSecure d w));
  mono_LookupTLSA m p w : net_clock w <= net_clock (snd (net_LookupTLSA m p w));
  mono_https d w : net_clock w <= net_clock (snd (https_get d w));
  mono_TXT d w : net_clock w <= net_clock (snd (LookupTXT d w))
}.

Section Composed.
Context `{U : UnicodeTables} `{RL : RangeOrderLaws} {W : Type} `{NW : !Network W} `{PN : !PolicyNet W}.
Variable config : Config.

(** What the queue makes of a *DeliveryError: it implements no interface the queue asks
    for, so only its text counts. *)
Definition queue_error (e : DeliveryError) : delivery_error := plain_error (Error e).

Definition lift_net {A} (f : W -> A * W) (m : MTASTSManager W) : A * MTASTSManager W :=
  let '(a, w) := f (sm_net m) in (a, m <| sm_net := w |>).

(** The network of a handler, its mtastsManager included. *)
#[export] Instance sts_network : Network (MTASTSManager W) := {|
  net_clock m := net_clock (sm_net m);
  net_dial src a f := lift_net (net_dial src a f);
  net_call c k := lift_net (net_call c k);
  net_Extension c ext m := net_Extension c ext (sm_net m);
  net_RemoteAddr c m := net_RemoteAddr c (sm_net m);
  net_LookupMX d := lift_net (net_LookupMX d);
  net_MXSecure d := lift_net (net_MXSecure d);
  net_LookupTLSA mx p := lift_net (net_LookupTLSA mx p);
  net_EnforcePolicy d mx verified m :=
    let '(r, m') := EnforcePolicy config (net_clock (sm_net m)) d mx verified m in (queue_error <$> r, m');
  net_sleep t := lift_net (net_sleep t);
  net_expired := lift_net net_expired
|}.

Context `{MN : !MonotoneNet W}.
Hypothesis Hon : cf_MTASTSEnabled config = true.
Variables (domain : string) (p : MTASTSPolicy).
Hypothesis Hneg : po_negative p = false.
Hypothesis Hmode : po_Mode p = "enforce".

Definition in_force (o : outbound (MTASTSManager W)) : Prop := sm_cache (ob_net o) !! ToLower domain = Some p.
Definition time_of (o : outbound (MTASTSManager W)) : Z := net_clock (ob_net o).

(** A check that agreed was about a server the policy names, over verified TLS. *)
Definition ok_event (e : event) : Prop :=
  match e with Enforced _ mx verified true => MatchesMX p mx = true /\ verified = true | _ => True end.

(** Time passes; until the policy expires it stays in force and only such checks agree. *)
Definition steady (o o' : outbound (MTASTSManager W)) : Prop :=
  time_of o <= time_of o' /\
  (time_of o' < po_expiresAt p -> in_force o ->
   in_force o' /\ exists new, ob_trace o' = new ++ ob_trace o /\ Forall ok_event new).

#[local] Instance steady_preorder : PreOrder steady.
Proof.
  split.
  - intros o. split; [done|]. intros _ H. split; [done|]. by exists [].
  - intros o1 o2 o3 [T1 H1] [T2 H2]. split; [lia|]. intros Ht Hf.
    destruct (H1 ltac:(lia) Hf) as (F2 & n1 & E1 & K1). destruct (H2 Ht F2) as (F3 & n2 & E2 & K2).
    split; [done|]. exists (n2 ++ n1). rewrite E2, E1, app_assoc. split; [done|]. by apply Forall_app.
Qed.

Lemma steady_net {A} (f : W -> A * W) :
  (forall w, net_clock w <= net_clock (snd (f w))) ->
  st_kept steady (on_net (W := MTASTSManager W) (lift_net f)).
Proof.
  intros H o. unfold on_net, lift_net. specialize (H (sm_net (ob_net o))).
  destruct (f (sm_net (ob_net o))) as [a w]. split; [exact H|]. intros _ Hf. split; [exact Hf|]. by exists [].
Qed.

Lemma steady_record e : (forall d mx v, e <> Enforced d mx v true) -> st_kept steady (record_event e).
Proof.
  intros He o. split; [apply Z.le_refl|]. intros _ Hf. split; [exact Hf|]. exists [e]. split; [done|].
  constructor; [|done]. destruct e as [| | |d mx v []|]; try done. by destruct (He d mx v).
Qed.

(** Steps that touch neither the network nor the trace. *)
Lemma steady_modify (f : outbound (MTASTSManager W) -> outbound (MTASTSManager W)) :
  (forall o, ob_net (f o) = ob_net o /\ ob_trace (f o) = ob_trace o) -> st_kept steady (st_modify f).
Proof.
  intros H o. destruct (H o) as [Hn Ht]. unfold st_modify, steady, in_force, time_of. cbn [snd]. rewrite Hn, Ht.
  split; [done|]. intros _ Hf. split; [done|]. by exists [].
Qed.

Definition later (m m' : MTASTSManager W) : Prop := net_clock (sm_net m) <= net_clock (sm_net m').
#[local] Instance later_preorder : PreOrder later.
Proof. split; [intros m; apply Z.le_refl|]. intros a b c. unfold later. lia. Qed.

Lemma later_net {A} (f : W -> A * W) :
  (forall w, net_clock w <= net_clock (snd (f w))) -> st_kept later (on_sts_net f).
Proof.
  intros H m. unfold on_sts_net. specialize (H (sm_net m)). by destruct (f (sm_net m)).
Qed.

Lemma later_modify (f : MTASTSManager W -> MTASTSManager W) :
  (forall m, sm_net (f m) = sm_net m) -> st_kept later (st_modify f).
Proof. intros H m. unfold later, st_modify. cbn [snd]. rewrite H. apply Z.le_refl. Qed.

Lemma later_https now d : st_kept later (fetchPolicyFromHTTPS (W := W) now d).
Proof. apply st_kept_bind; [apply _|apply later_net, mono_https|]. intros r m. apply Z.le_refl. Qed.

Lemma later_refresh now d : st_kept later (refresh (W := W) config now d).
Proof.
  assert (forall f, st_kept later (count f : St (MTASTSManager W) unit)) as Hc by (intros f; by apply later_modify).
  assert (forall d' q, st_kept later (cacheStore (W := W) config now d' q)) as Hs by (intros; by apply later_modify).
  assert (forall A (a : A), st_kept later (mret a : St (MTASTSManager W) A)) as Hr by (intros A a m; apply Z.le_refl).
  unfold refresh. apply st_kept_bind; [apply _|apply Hc|intros _]. apply st_kept_bind; [apply _| |].
  - unfold fetchPolicy. apply st_kept_bind; [apply _|apply later_https|]. intros [q|].
    + apply st_kept_bind; [apply _|apply Hc|]. intros _. apply Hr.
    + unfold fetchPolicyFromDNS. apply st_kept_bind; [apply _|apply later_net, mono_TXT|]. intros [recs|e].
      * case_match; [apply Hr|apply later_https].
      * apply st_kept_bind; [apply _|apply Hc|]. intros _. apply Hr.
  - intros [q|]; (apply st_kept_bind; [apply _|by auto|intros _]); (apply st_kept_bind; [apply _|by auto|]);
      intros _; apply Hr.
Qed.

Lemma later_enforce now d mx tls : st_kept later (EnforcePolicy (W := W) config now d mx tls).
Proof.
  intros m. rewrite EnforcePolicy_cache by exact Hon. revert m.
  enough (st_kept later (GetPolicy (W := W) config now d)) as H by exact H.
  unfold GetPolicy. rewrite Hon. cbn [negb]. apply st_kept_bind; [apply _|intros m; apply Z.le_refl|].
  intros cache. destruct (cache !! ToLower d) as [q|]; [|apply later_refresh]. case_match.
  - apply st_kept_bind; [apply _|by apply later_modify|]. intros _ m. apply Z.le_refl.
  - apply st_kept_bind; [apply _|by apply later_modify|]. intros _. apply later_refresh.
Qed.

(** The check itself: while the policy is in force it is answered from the cache. *)
Lemma steady_enforce mx s : st_kept steady (enforceSTS domain mx s).
Proof.
  intros o. unfold enforceSTS, mbind, St_bind, on_net. cbn [net_EnforcePolicy sts_network].
  set (v := bool_decide (os_tls s = tlsVerified)). set (now := net_clock (sm_net (ob_net o))).
  pose proof (later_enforce now domain mx v (ob_net o)) as Hl.
  destruct (EnforcePolicy config now domain mx v (ob_net o)) as [r m'] eqn:E.
  split; [exact Hl|]. intros Ht Hf.
  assert (Hlt : now < po_expiresAt p) by (unfold later in Hl; cbn in Hl, Ht; unfold time_of in Ht; cbn in Ht; lia).
  destruct (GetPolicy_cache config now domain (ob_net o) Hon) as [(q & Hq & _ & Hg & Hcache)|[Hold _]];
    [|specialize (Hold p Hf); lia].
  pose proof (f_equal snd E) as Em. rewrite EnforcePolicy_cache in Em by exact Hon. cbn [snd] in Em.
  split; [unfold in_force; cbn; rewrite <- Em, Hcache; exact Hf|].
  eexists [_]. split; [reflexivity|]. constructor; [|done]. destruct r as [e|]; [done|].
  unfold in_force in Hf. rewrite Hf in Hq. injection Hq as <-. rewrite Hneg in Hg.
  pose proof (f_equal fst E) as Er. unfold EnforcePolicy in Er. rewrite Hon in Er. cbn [negb] in Er.
  unfold mbind, St_bind in Er. destruct (GetPolicy config now domain (ob_net o)) as [g m'']. cbn in Hg. subst g.
  cbn [mret St_ret fst] in Er. unfold IsEnforced in Er. rewrite Hmode, (proj2 (Z.ltb_lt _ _) Hlt) in Er.
  cbn in Er. cbn. destruct (MatchesMX p mx), v; cbn in Er; done.
Qed.

(** *** Everything else a delivery does *)

Ltac steadily :=
  repeat (cbv zeta;
    lazymatch goal with
    | |- st_kept _ (mbind _ _) => apply st_kept_bind; [apply _| |intros ?]
    | |- PreOrder _ => apply _
    | |- st_kept _ (mret _) => apply st_kept_ret
    | |- st_kept _ (st_gets _) => apply st_kept_gets
    | |- st_kept _ (on_net _) => apply steady_net; intros ?;
        first [apply mono_dial | apply mono_call | apply mono_MXSecure | apply mono_LookupTLSA]
    | |- st_kept _ (record_event _) => apply steady_record; by intros
    | |- st_kept _ (st_modify _) => apply steady_modify; by intros ?
    | |- st_kept _ (match ?x with _ => _ end) => destruct x
    | |- st_kept _ _ => solve [auto]
    end).

Variable h : handlerConfig.

Lemma steady_call c k : st_kept steady (client_call (W := MTASTSManager W) c k).
Proof. unfold client_call. steadily. Qed.
Hint Resolve steady_call : core.
Lemma steady_Extension c ext : st_kept steady (Extension (W := MTASTSManager W) c ext).
Proof. unfold Extension. steadily. Qed.
Hint Resolve steady_Extension : core.
Lemma steady_dialAndGreet src address : st_kept steady (dialAndGreet h src address).
Proof. unfold dialAndGreet, dial. steadily. Qed.
Hint Resolve steady_dialAndGreet : core.
Lemma steady_reconnect src address host a : st_kept steady (reconnectOpportunistic h src address host a).
Proof. unfold reconnectOpportunistic. steadily. Qed.
Hint Resolve steady_reconnect : core.
Lemma steady_connectSMTP src address rt dp : st_kept steady (connectSMTP h src address rt dp).
Proof. unfold connectSMTP, negotiateTLS. steadily. Qed.
Lemma steady_closeSession s : st_kept steady (closeSession (W := MTASTSManager W) s).
Proof. unfold closeSession. steadily. Qed.
Hint Resolve steady_connectSMTP steady_closeSession : core.
Lemma steady_closeSessions l : st_kept steady (closeSessions (W := MTASTSManager W) l).
Proof. induction l; cbn [closeSessions]; steadily. Qed.
Hint Resolve steady_closeSessions : core.
Lemma steady_get_session key a b : st_kept steady (get_session (W := MTASTSManager W) key a b).
Proof. unfold get_session, update_cache, clock. steadily. Qed.
Lemma steady_put_session key s b : st_kept steady (put_session (W := MTASTSManager W) key s b).
Proof. unfold put_session, update_cache, clock. steadily. Qed.
Hint Resolve steady_get_session steady_put_session : core.
Lemma steady_acquireSession src address rt a dp : st_kept steady (acquireSession h src address rt a dp).
Proof. unfold acquireSession, clock. steadily. Qed.
Hint Resolve steady_acquireSession steady_enforce : core.
Lemma steady_open_transaction fuel : forall a src address sender rt dp mx,
  st_kept steady (open_transaction h fuel a src address sender rt dp domain mx).
Proof. induction fuel as [|fuel IH]; intros; cbn [open_transaction]; unfold sendMailFrom; steadily. Qed.
Lemma steady_rcpt_all s mx rs : st_kept steady (rcpt_all (W := MTASTSManager W) s mx rs).
Proof. induction rs as [|r rs IH]; cbn [rcpt_all]; steadily. Qed.
Hint Resolve steady_open_transaction steady_rcpt_all : core.
Lemma steady_deliver r : rq_domain r = domain -> st_kept steady (deliver h r).
Proof.
  intros Hd. unfold deliver, deliverToAddressWithMetadata, transact, delivery_address, give_back, danePolicyFor.
  rewrite Hd. steadily.
Qed.
End Composed.

(** C11 (mail under an enforced policy).  After any history of deliveries, while the policy
    of a domain that says enforce is known and until it expires, whatever the network does:
    in a delivery to that domain, unless DANE or REQUIRETLS decides instead, every MAIL,
    RCPT and DATA is on a connection that was made to the address of the server it is for,
    the policy names this server, and on that connection the server proved to have that
    name, to the web PKI or (on a parked session) to its TLSA records. *)
Theorem sts_mail_verified `{U : UnicodeTables} `{RL : RangeOrderLaws} {W : Type} `{NW : !Network W}
    `{PN : !PolicyNet W} `{MN : !MonotoneNet W} (config : Config) (h : handlerConfig) (w : W)
    (cache : option sessionCache) (l : list action) (r : request) (p : MTASTSPolicy)
    (Hon : cf_MTASTSEnabled config = true) (Hneg : po_negative p = false) (Hmode : po_Mode p = "enforce")
    (Hcache : cache = None \/ cache = Some newSessionCache) (Hl : Forall plain_action l)
    (Hr : plain (rq_src r) (rq_address r)) (Hhost : host_only (rq_address r) = rq_mxHost r)
    (Hopt : rq_requireTLS r = false) :
  let NM := sts_network config in
  let o := acts h l (mkOutbound (NewMTASTSManager w) 0 cache []) in
  let o' := snd (deliver h r o) in
  sm_cache (ob_net o) !! ToLower (rq_domain r) = Some p ->
  net_clock (sm_net (ob_net o')) < po_expiresAt p ->
  fst (danePolicyFor h (rq_domain r) (rq_mxHost r) (rq_address r) o) = inl None ->
  exists new, ob_trace o' = new ++ ob_trace o /\
  forall post pre c k ok, new = post ++ Called c k ok :: pre -> is_send k = true ->
    MatchesMX p (rq_mxHost r) = true /\
    dialled (pre ++ ob_trace o) c = Some (src_addr <$> rq_src r, rq_address r) /\
    (tls_of (pre ++ ob_trace o) c = Some (VerifyPKI (rq_mxHost r)) \/
     exists dp, tls_of (pre ++ ob_trace o) c = Some (VerifyTLSA (rq_mxHost r) dp)).
Proof.
  intros NM o o' Hp Ht Hd.
  assert (honest o) as Ho by (apply acts_honest; [done|by apply honest_start]).
  destruct (deliver_course h r o Hr Ho) as (_ & new & Htr & Hs). rewrite Hd in Hs.
  exists new. split; [exact Htr|]. intros post pre c k ok Hn Hk.
  destruct (steady_deliver config Hon (rq_domain r) p Hneg Hmode h r eq_refl o) as [_ Hst].
  destruct (Hst Ht Hp) as (_ & new' & Htr' & Hok).
  assert (new' = new) as -> by (apply (app_inv_tail (ob_trace o)); by rewrite <- Htr', <- Htr).
  destruct (Hs post pre c k ok Hn Hk) as (Hto & _ & _ & Henf).
  destruct (Henf Hopt eq_refl) as (b & Hin & Hauth).
  rewrite Forall_forall in Hok. destruct (Hok (Enforced (rq_domain r) (rq_mxHost r) b true)) as [Hm ->].
  { rewrite Hn. apply elem_of_app. right. by right. }
  split; [done|]. split; [exact Hto|]. specialize (Hauth eq_refl). unfold authenticated in Hauth. rewrite Hhost in Hauth.
  destruct (tls_of _ c) as [[]|]; try done; apply String.eqb_eq in Hauth as ->; eauto.
Qed.

(** ** Examples *)

#[local] Existing Instance ascii_tables.
#[local] Instance map_range : RangeOrder := map_to_list.
#[local] Instance map_range_laws : RangeOrderLaws.
Proof. by intros c. Qed.

(** A domain that publishes a policy, and a server whose certificate validates. *)
#[local] Instance policy_net : PolicyNet toy_net := {|
  https_get _ w := (Ok (mkResponse "https" "mta-sts.b.example" "" 200
                          (Ok (policy_file "enforce" ["*.example"] 86400))), w);
  LookupTXT _ w := (Ok [], w)
|}.
#[local] Instance policy_net_mono : MonotoneNet toy_net.
Proof. split; intros; cbn; unfold Millisecond; lia. Qed.

Definition valid_net : toy_net :=
  mkToyNet 0 ["STARTTLS"] (fun _ => None) (fun _ => inl [mkMX "mx.example" 10]) [] [] (fun _ _ => true).
Definition sts_on : Config := mkConfig true 0.
Definition b_policy : MTASTSPolicy :=
  mkPolicy "STSv1" "enforce" ["*.example"] 86400 1000000 86400001000000 false.

Lemma sts_mail_verified_witness :
  let NM := sts_network sts_on in
  let first := demo_request "b.example" "x@b.example" false in
  let r := demo_request "b.example" "y@b.example" false in
  let o := acts demo_handler [Deliver first] (mkOutbound (NewMTASTSManager valid_net) 0 (Some newSessionCache) []) in
  let o' := snd (deliver demo_handler r o) in
  existsb (fun e => match e with Called _ (Rcpt a) true => (a =? "y@b.example")%string | _ => false end)
    (ob_trace o') = true /\
  exists new, ob_trace o' = new ++ ob_trace o /\
  forall post pre c k ok, new = post ++ Called c k ok :: pre -> is_send k = true ->
    MatchesMX b_policy "mx.example" = true /\
    dialled (pre ++ ob_trace o) c = Some (None, "mx.example:25") /\
    (tls_of (pre ++ ob_trace o) c = Some (VerifyPKI "mx.example") \/
     exists dp, tls_of (pre ++ ob_trace o) c = Some (VerifyTLSA "mx.example" dp)).
Proof.
  split; [by vm_compute|].
  refine (sts_mail_verified sts_on demo_handler valid_net (Some newSessionCache)
    [Deliver (demo_request "b.example" "x@b.example" false)] (demo_request "b.example" "y@b.example" false) b_policy
    eq_refl eq_refl eq_refl _ _ _ eq_refl eq_refl _ _ _); [by right|by apply Forall_singleton; split|by split|by vm_compute..].
Defined.
