(* ===== verification/Dane.v ===== *)
(** * DANE (internal/dane: dane.go, resolver.go)

    Matching a server's certificate chain against TLSA records, and the lookups that give
    those records.  SHA-256, SHA-512 and the path validation of crypto/x509 are the class
    [Crypto]; the exchange with the validating resolver is a function from a question to
    its answer over UDP and, when that is truncated, over TCP. *)

From S2P Require Import Prelude GoStrings GoNet SmtpSyntax Bounce Outbound.

Open Scope string_scope.
Open Scope list_scope.
Open Scope Z_scope.

(** ** Certificates *)

Record Certificate := mkCertificate { ce_Raw : string; ce_SPKI : string }.

Class Crypto := {
  sha256 : string -> string;
  sha512 : string -> string;
  (** the leaf chains to a root, through the intermediates, and carries the name *)
  x509_Verify : Certificate -> list Certificate -> list Certificate -> string -> bool
}.

Section Verifying.
Context `{CR : Crypto}.

Definition matches (r : TLSA) (c : Certificate) : bool :=
  let data := if ta_Selector r =? 0 then Some (ce_Raw c)
              else if ta_Selector r =? 1 then Some (ce_SPKI c) else None in
  match data with
  | None => false
  | Some data =>
      if ta_MatchingType r =? 0 then (data =? ta_Data r)%string
      else if ta_MatchingType r =? 1 then (sha256 data =? ta_Data r)%string
      else if ta_MatchingType r =? 2 then (sha512 data =? ta_Data r)%string
      else false
  end.

(** verifyTA: some name that is not empty, the anchor as the only root. *)
Fixpoint verify_names (leaf anchor : Certificate) (inter : list Certificate) (names : list string) : bool :=
  match names with
  | [] => false
  | n :: names' =>
      let n := TrimSuffix n "." in
      if (n =? "")%string then verify_names leaf anchor inter names'
      else if x509_Verify leaf [anchor] inter n then true
      else verify_names leaf anchor inter names'
  end.

Definition verifyTA (leaf : Certificate) (rest : list Certificate) (anchor : Certificate) (names : list string) : bool :=
  verify_names leaf anchor rest names.

(** The loop over the chain for one DANE-TA record. *)
Fixpoint anchored (r : TLSA) (leaf : Certificate) (rest certs : list Certificate) (names : list string) : bool :=
  match certs with
  | [] => false
  | c :: certs' =>
      if negb (matches r c) then anchored r leaf rest certs' names
      else if verifyTA leaf rest c names then true
      else anchored r leaf rest certs' names
  end.

Fixpoint verify_records (records : list TLSA) (leaf : Certificate) (rest : list Certificate) (names : list string) : bool :=
  match records with
  | [] => false
  | r :: records' =>
      if ta_Usage r =? 3 then if matches r leaf then true else verify_records records' leaf rest names
      else if ta_Usage r =? 2 then
        if anchored r leaf rest (leaf :: rest) names then true else verify_records records' leaf rest names
      else verify_records records' leaf rest names
  end.

Definition ErrNoMatch : string := "dane: certificate matches no TLSA record".

Definition Verify (chain : list Certificate) (records : list TLSA) (names : list string) : result unit :=
  match chain with
  | [] => Err "dane: server sent no certificate"
  | leaf :: rest => if verify_records records leaf rest names then Ok tt else Err ErrNoMatch
  end.

(** *** What a successful verification means *)

(** The leaf is the certificate or key the record publishes. *)
Definition end_entity (r : TLSA) (chain : list Certificate) : Prop :=
  ta_Usage r = 3 /\ exists leaf, head chain = Some leaf /\ matches r leaf = true.

(** The record publishes a certificate of the chain, to which the leaf chains under a name
    of the server. *)
Definition trust_anchor (r : TLSA) (chain : list Certificate) (names : list string) : Prop :=
  ta_Usage r = 2 /\ exists leaf anchor name,
    head chain = Some leaf /\ anchor ∈ chain /\ matches r anchor = true /\
    name ∈ names /\ TrimSuffix name "." <> "" /\
    x509_Verify leaf [anchor] (tail chain) (TrimSuffix name ".") = true.

Lemma verify_names_spec leaf anchor inter names :
  verify_names leaf anchor inter names = true <->
  exists n, n ∈ names /\ TrimSuffix n "." <> "" /\ x509_Verify leaf [anchor] inter (TrimSuffix n ".") = true.
Proof.
  induction names as [|n names IH]; cbn [verify_names].
  { split; [done|]. by intros (n & ?%not_elem_of_nil & _). }
  assert (forall P : string -> Prop, (exists k, k ∈ n :: names /\ P k) <-> P n \/ exists k, k ∈ names /\ P k) as Hex.
  { intros P. split.
    - intros (k & [->|Hk]%elem_of_cons & HP); eauto.
    - intros [HP|(k & Hk & HP)]; [exists n|exists k]; (split; [|done]); [by left|by right]. }
  rewrite Hex, <- IH. destruct (String.eqb_spec (TrimSuffix n ".") "") as [E|E].
  - split; [by right|]. by intros [[? _]|?].
  - destruct (x509_Verify leaf [anchor] inter (TrimSuffix n ".")).
    + split; [by left|done].
    + split; [by right|]. by intros [[_ ?]|?].
Qed.

Lemma anchored_spec r leaf rest certs names :
  anchored r leaf rest certs names = true <->
  exists c, c ∈ certs /\ matches r c = true /\ verify_names leaf c rest names = true.
Proof.
  induction certs as [|c certs IH]; cbn [anchored].
  { split; [done|]. by intros (c & ?%not_elem_of_nil & _). }
  unfold verifyTA. split.
  - destruct (matches r c) eqn:Em; cbn [negb].
    + destruct (verify_names leaf c rest names) eqn:Ev; [intros _; exists c; split; [by left|done]|].
      intros (d & Hd & H)%IH. exists d. split; [by right|done].
    + intros (d & Hd & H)%IH. exists d. split; [by right|done].
  - intros (d & [->|Hd]%elem_of_cons & Hm & Hv); [by rewrite Hm, Hv|].
    destruct (matches r c); cbn [negb]; [case_match; [done|]|]; apply IH; by exists d.
Qed.

Lemma verify_records_spec records leaf rest names :
  verify_records records leaf rest names = true <->
  exists r, r ∈ records /\ (end_entity r (leaf :: rest) \/ trust_anchor r (leaf :: rest) names).
Proof.
  induction records as [|r records IH]; cbn [verify_records].
  { split; [done|]. by intros (r & ?%not_elem_of_nil & _). }
  assert ((if ta_Usage r =? 3 then matches r leaf
           else if ta_Usage r =? 2 then anchored r leaf rest (leaf :: rest) names else false) = true <->
          end_entity r (leaf :: rest) \/ trust_anchor r (leaf :: rest) names) as Hr.
  { unfold end_entity, trust_anchor. destruct (Z.eqb_spec (ta_Usage r) 3) as [E3|E3].
    - split.
      + intros Hm. left. split; [done|]. by exists leaf.
      + intros [(_ & l & [= <-] & Hm)|[E2 _]]; [done|lia].
    - destruct (Z.eqb_spec (ta_Usage r) 2) as [E2|E2].
      + rewrite anchored_spec. split.
        * intros (c & Hc & Hm & (n & Hn & Hne & Hv)%verify_names_spec). right. split; [done|].
          by exists leaf, c, n.
        * intros [[? _]|(_ & l & c & n & [= <-] & Hc & Hm & Hn & Hne & Hv)]; [lia|].
          exists c. split_and!; [done..|]. apply verify_names_spec. by exists n.
      + split; [done|]. intros [[? _]|[? _]]; lia. }
  split.
  - intros H. destruct (decide ((if ta_Usage r =? 3 then matches r leaf
           else if ta_Usage r =? 2 then anchored r leaf rest (leaf :: rest) names else false) = true)) as [Hy|Hn].
    + exists r. split; [by left|by apply Hr].
    + assert (verify_records records leaf rest names = true) as (q & Hq & Hok)%IH
        by (repeat case_match; congruence || done). exists q. split; [by right|done].
  - intros (q & [->|Hq]%elem_of_cons & Hok).
    + apply Hr in Hok. repeat case_match; done.
    + assert (verify_records records leaf rest names = true) by (apply IH; by exists q).
      repeat case_match; done.
Qed.
End Verifying.

(** ** The resolver *)

(** hex.DecodeString. *)
Fixpoint hex_decode (s : string) : option string :=
  match s with
  | EmptyString => Some ""
  | String h1 (String h2 s') =>
      if (isHex h1 && isHex h2)%bool then String (hex_byte h1 h2) <$> hex_decode s' else None
  | String _ EmptyString => None
  end.

Inductive rr := RrTLSA (usage selector matching : Z) (certificate : string) | RrOther.
Inductive qtype := TypeMX | TypeTLSA.
Inductive transport := UDP | TCP.

Record dns_msg := mkMsg { dm_Truncated : bool; dm_Rcode : Z; dm_AuthenticatedData : bool; dm_Answer : list rr }.

(** One exchange with the configured server about a name, which the DNS library makes fully
    qualified: a message, or an error. *)
Class Exchange := exchange : transport -> string -> qtype -> result dns_msg.

Section Resolver.
Context `{EX : Exchange}.

(** NewDNSResolver: the server it will ask. *)
Definition resolver_address (server : string) : string :=
  match SplitHostPort server with Some _ => server | None => JoinHostPort server "53" end.

Definition ErrBogus : string := "dane: DNSSEC lookup failed".

(** The answer, if it is authenticated; a name that does not exist is one. *)
Definition query (name : string) (t : qtype) : result (option dns_msg) :=
  let first := exchange UDP name t in
  let second := match first with
                | Ok m => if dm_Truncated m then exchange TCP name t else first
                | Err _ => first
                end in
  match second with
  | Err e => Err (ErrBogus +:+ ": " +:+ name +:+ ": " +:+ e)
  | Ok m =>
      if negb ((dm_Rcode m =? 0) || (dm_Rcode m =? 3))%bool then Err (ErrBogus +:+ ": " +:+ name)
      else if negb (dm_AuthenticatedData m) then Ok None
      else Ok (Some m)
  end.

Definition MXSecure (domain : string) : result bool :=
  r ← query domain TypeMX; mret (match r with Some _ => true | None => false end).

Definition decode_rr (x : rr) : option TLSA :=
  match x with
  | RrTLSA u s m cert => (fun data => mkTLSA u s m data) <$> hex_decode cert
  | RrOther => None
  end.

Definition tlsa_name (host : string) (port : Z) : string := "_" +:+ FormatInt port +:+ "._tcp." +:+ TrimSuffix host ".".

Definition LookupTLSA (host : string) (port : Z) : result (list TLSA * bool) :=
  r ← query (tlsa_name host port) TypeTLSA;
  mret (match r with None => ([], false) | Some m => (omap decode_rr (dm_Answer m), true) end).

(** An answer the resolver validated, over either transport. *)
Definition validated (name : string) (t : qtype) (m : dns_msg) : Prop :=
  (exists tr, exchange tr name t = Ok m) /\ dm_AuthenticatedData m = true /\ (dm_Rcode m = 0 \/ dm_Rcode m = 3).

Lemma query_some name t m : query name t = Ok (Some m) -> validated name t m.
Proof.
  unfold query, validated.
  assert (forall tr, exchange tr name t = Ok m -> exists tr, exchange tr name t = Ok m) as Hex by eauto.
  destruct (exchange UDP name t) as [m1|e] eqn:E1; [|done].
  destruct (dm_Truncated m1).
  - destruct (exchange TCP name t) as [m2|e] eqn:E2; [|done].
    destruct ((dm_Rcode m2 =? 0) || (dm_Rcode m2 =? 3))%bool eqn:Er; [|done]. cbn [negb].
    destruct (dm_AuthenticatedData m2) eqn:Ea; [|done]. intros [= <-]. split; [by eauto|]. split; [done|lia].
  - destruct ((dm_Rcode m1 =? 0) || (dm_Rcode m1 =? 3))%bool eqn:Er; [|done]. cbn [negb].
    destruct (dm_AuthenticatedData m1) eqn:Ea; [|done]. intros [= <-]. split; [by eauto|]. split; [done|lia].
Qed.

(** No answer, or one that is neither success nor a missing name, is an error, never the
    absence of records. *)
Lemma query_fails name t :
  (forall tr m, exchange tr name t = Ok m -> dm_Rcode m <> 0 /\ dm_Rcode m <> 3) -> is_ok (query name t) = false.
Proof.
  intros H. unfold query. pose proof (H UDP) as HU. pose proof (H TCP) as HT.
  assert (forall m : dns_msg, dm_Rcode m <> 0 /\ dm_Rcode m <> 3 -> ((dm_Rcode m =? 0) || (dm_Rcode m =? 3))%bool = false)
    as Hr by (intros m; lia).
  destruct (exchange UDP name t) as [m1|e]; [|done].
  destruct (dm_Truncated m1); [|by rewrite Hr by auto].
  destruct (exchange TCP name t) as [m2|e]; [|done]. by rewrite Hr by auto.
Qed.
End Resolver.

(** C22 (DANE authenticates by signed records only).  A server is accepted for the records a
    lookup gave exactly when one of those usable for SMTP publishes its own certificate or
    key, or publishes a certificate of the chain it sent to which its certificate chains
    under one of its names; and then the lookup was validated by the resolver and the
    record was in its answer.  A lookup that fails, whatever the resolver says short of
    success or a missing name, is an error and not a host without records. *)
Theorem dane_authenticates `{CR : Crypto} `{EX : Exchange} (host : string) (port : Z)
    (chain : list Certificate) (names : list string) :
  (forall records secure, LookupTLSA host port = Ok (records, secure) ->
     (Verify chain (Usable records) names = Ok tt <->
      exists r, r ∈ records /\ UsableTLSA r = true /\ (end_entity r chain \/ trust_anchor r chain names)) /\
     (Verify chain (Usable records) names = Ok tt ->
      secure = true /\ exists m, validated (tlsa_name host port) TypeTLSA m /\ records = omap decode_rr (dm_Answer m))) /\
  ((forall tr m, exchange tr (tlsa_name host port) TypeTLSA = Ok m -> dm_Rcode m <> 0 /\ dm_Rcode m <> 3) ->
   is_ok (LookupTLSA host port) = false).
Proof.
  split.
  - intros records secure Hl.
    assert (Verify chain (Usable records) names = Ok tt <->
      exists r, r ∈ records /\ UsableTLSA r = true /\ (end_entity r chain \/ trust_anchor r chain names)) as Hspec.
    { unfold Verify, Usable. destruct chain as [|leaf rest].
      - split; [done|]. intros (r & _ & _ & [(_ & l & [=] & _)|(_ & l & c & n & [=] & _)]).
      - destruct (verify_records _ leaf rest names) eqn:E.
        + split; [intros _|done]. apply verify_records_spec in E as (r & [Hu Hr]%list_elem_of_filter & Hok). by exists r.
        + split; [done|]. intros (r & Hr & Hu & Hok).
          assert (verify_records (filter (fun r => UsableTLSA r = true) records) leaf rest names = true); [|congruence].
          apply verify_records_spec. exists r. split; [by apply list_elem_of_filter|done]. }
    split; [exact Hspec|]. intros (r & Hr & _)%Hspec.
    unfold LookupTLSA in Hl. destruct (query (tlsa_name host port) TypeTLSA) as [[m|]|e] eqn:Eq; cbn in Hl; [| |done];
      injection Hl as <- <-.
    + split; [done|]. exists m. split; [by apply query_some|done].
    + by apply not_elem_of_nil in Hr.
  - intros H. apply query_fails in H. unfold LookupTLSA. by destruct (query _ _).
Qed.

(** ** Examples *)

#[local] Instance toy_crypto : Crypto :=
  {| sha256 s := s; sha512 s := s; x509_Verify leaf roots _ name := existsb (fun c => (ce_Raw c =? "CA")%string) roots |}.

(** A resolver whose first answer is cut short; the records come over TCP. *)
#[local] Instance signed_zone : Exchange := fun tr name _ =>
  if (name =? "_25._tcp.mx.example")%string then
    Ok (match tr with
        | UDP => mkMsg true 0 true []
        | TCP => mkMsg false 0 true [RrOther; RrTLSA 3 1 1 "6b6579"; RrTLSA 1 0 0 "00"; RrTLSA 3 1 1 "xx"]
        end)
  else Err "i/o timeout".

Definition own_key : list Certificate := [mkCertificate "self-signed" "key"].

Lemma dane_authenticates_witness :
  LookupTLSA "mx.example." 25 = Ok ([mkTLSA 3 1 1 "key"; mkTLSA 1 0 0 (String (chr 0) "")], true) /\
  Verify own_key (Usable [mkTLSA 3 1 1 "key"; mkTLSA 1 0 0 (String (chr 0) "")]) ["mx.example"] = Ok tt /\
  (exists r, r ∈ [mkTLSA 3 1 1 "key"; mkTLSA 1 0 0 (String (chr 0) "")] /\ UsableTLSA r = true /\
     (end_entity r own_key \/ trust_anchor r own_key ["mx.example"])) /\
  is_ok (LookupTLSA "mx2.example" 25) = false.
Proof.
  split; [by vm_compute|]. split; [by vm_compute|]. split.
  - destruct (dane_authenticates "mx.example." 25 own_key ["mx.example"]) as [H _].
    apply (H _ true); [by vm_compute|by vm_compute].
  - apply (dane_authenticates "mx2.example" 25 own_key ["mx.example"]). intros [] m Hm; vm_compute in Hm; done.
Defined.
