(* ===== verification/Campaign.v ===== *)
(** * Bulk sending (internal/campaign: campaign.go, runner.go)

    A campaign, its list of recipients, the store that holds campaigns, and the runner that
    hands the copies to the queue.  The runner is concurrent: each run is a goroutine, and
    the handlers that start, pause and cancel run beside it.  It is a step relation whose
    steps are the critical sections of the source, between which anything may happen; the
    answers of the suppression list and of the queue are chosen by the environment.  A run
    that has been cancelled may still take a tick, as a select with both channels ready
    may, so that cancelling in the step that removes the registration allows every order.
    What net/mail makes of an address is [NetMail] of Suppression.v; rendering a copy
    (message.go) is part of whether handing it over succeeds.  The times a campaign records
    for display and the import of a directory (directory.go) are left out. *)

From S2P Require Import Prelude GoStrings Suppression.

Open Scope string_scope.
Open Scope list_scope.
Open Scope Z_scope.

(** ** Campaigns *)

Inductive CampaignState := StateDraft | StateRunning | StatePaused | StateCompleted | StateCancelled | StateFailed.

#[global] Instance CampaignState_eq_dec : EqDecision CampaignState.
Proof. solve_decision. Defined.

Record Recipient := mkRecipient { rc_Email : string; rc_Vars : gmap string string }.

Set Primitive Projections.
Record Campaign := mkCampaign {
  c_ID : string;
  c_Name : string;
  c_From : string;
  c_ReplyTo : string;
  c_Subject : string;
  c_HTMLBody : string;
  c_TextBody : string;
  c_Recipients : list Recipient;
  c_RatePerMinute : Z;
  c_State : CampaignState;
  c_Sent : Z;
  c_Failed : Z;
  c_Skipped : Z;
  c_LastError : string
}.
Unset Primitive Projections.

Definition Total (c : Campaign) : Z := Z.of_nat (length (c_Recipients c)).

(** How many have been attempted. *)
Definition attempted (c : Campaign) : Z := c_Sent c + c_Failed c + c_Skipped c.

Definition Remaining (c : Campaign) : Z := if Total c <? attempted c then 0 else Total c - attempted c.

Definition CanStart (c : Campaign) : bool := bool_decide (c_State c = StateDraft \/ c_State c = StatePaused).

Definition DefaultRatePerMinute : Z := 600.
Definition MaxRatePerMinute : Z := 60000.

(** The rate of a run, and the pause between two copies in nanoseconds. *)
Definition run_rate (c : Campaign) : Z :=
  let rate := if c_RatePerMinute c <=? 0 then DefaultRatePerMinute else c_RatePerMinute c in
  if MaxRatePerMinute <? rate then MaxRatePerMinute else rate.
Definition interval (rate : Z) : Z :=
  let i := Z.quot 60000000000 rate in if i <=? 0 then 1000 else i.

Section Lists.
Context `{U : UnicodeTables} `{NM : NetMail}.

Definition valid_address (a : string) : bool := match ParseAddress a with Some _ => true | None => false end.

Definition problems_of (c : Campaign) : list string :=
  (if (TrimSpace (c_Name c) =? "")%string then ["name is required"] else [])
  ++ (if negb (valid_address (c_From c)) then ["from " +:+ c_From c +:+ " is not a valid address"] else [])
  ++ (if (negb (c_ReplyTo c =? "")%string && negb (valid_address (c_ReplyTo c)))%bool
      then ["reply_to " +:+ c_ReplyTo c +:+ " is not a valid address"] else [])
  ++ (if (TrimSpace (c_Subject c) =? "")%string then ["subject is required"] else [])
  ++ (if ContainsAny (c_Subject c) (String CR (String LF "")) then ["subject must not contain line breaks"] else [])
  ++ (if ((TrimSpace (c_HTMLBody c) =? "")%string && (TrimSpace (c_TextBody c) =? "")%string)%bool
      then ["a message body is required"] else [])
  ++ (match c_Recipients c with [] => ["at least one recipient is required"] | _ => [] end)
  ++ (if c_RatePerMinute c <? 0 then ["rate_per_minute must not be negative"] else []).

Definition Validate (c : Campaign) : result unit :=
  match problems_of c with [] => Ok tt | ps => Err (Join ps "; ") end.

(** ** Recipient lists *)

(** splitCSVLine: the loop, with the field being read and whether a quote is open. *)
Fixpoint csv_fields (quoted : bool) (current s : string) : list string :=
  match s with
  | EmptyString => [current]
  | String c s' =>
      if Ascii.eqb c DQUOTE then
        match s' with
        | String d s'' =>
            if (quoted && Ascii.eqb d DQUOTE)%bool then csv_fields quoted (current +:+ String DQUOTE "") s''
            else csv_fields (negb quoted) current s'
        | EmptyString => [current]
        end
      else if ((Ascii.eqb c "," || Ascii.eqb c TAB) && negb quoted)%bool then current :: csv_fields quoted "" s'
      else csv_fields quoted (current +:+ String c "") s'
  end.
Definition splitCSVLine (line : string) : list string :=
  if negb (ContainsAny line ("," +:+ String TAB "")) then [line] else csv_fields false "" line.

Definition looksLikeEmail (s : string) : bool := Contains s "@".

Record parse_state := mkParse {
  ps_header : option (list string);
  ps_emailCol : option nat;
  ps_out : list Recipient;
  ps_seen : gset string;
  ps_problems : list string
}.

Definition header_of (fs : list string) : list string := (fun f => ToLower (TrimSpace f)) <$> fs.
Definition email_column (header : list string) : nat :=
  default O (fst <$> list_find (fun h => h = "email" \/ h = "address" \/ h = "e-mail") header).

(** The merge variables of a row. *)
Definition row_vars (header fs : list string) (col : nat) : gmap string string :=
  foldl (fun m '(j, f) => match header !! j with
                          | Some name => if ((j =? col)%nat || (name =? "")%string)%bool then m
                                         else <[name := TrimSpace f]> m
                          | None => m
                          end) ∅ (imap (fun j f => (j, f)) fs).

(** One line of the list, the [i]th; the quotes of %q in the messages are left out. *)
Definition parse_line (st : parse_state) (i : nat) (raw : string) : parse_state :=
  let line := TrimSpace raw in
  if ((line =? "")%string || HasPrefix line "#")%bool then st
  else
    let fs := splitCSVLine line in
    let '(mkParse header emailCol out seen problems) := st in
    if (bool_decide (header = None) && (1 <? length fs)%nat && negb (looksLikeEmail (default "" (head fs))))%bool
    then mkParse (Some (header_of fs)) (Some (email_column (header_of fs))) out seen problems
    else
      let col := default O emailCol in
      match fs !! col with
      | None => mkParse header emailCol out seen (problems ++ ["line " +:+ FormatInt (Z.of_nat i + 1) +:+ ": no address column"])
      | Some f =>
          match ParseAddress (TrimSpace f) with
          | None => mkParse header emailCol out seen
                      (problems ++ ["line " +:+ FormatInt (Z.of_nat i + 1) +:+ ": " +:+ TrimSpace f +:+ " is not a valid address"])
          | Some email =>
              if bool_decide (ToLower email ∈ seen) then st
              else
                let vars := match header with Some h => row_vars h fs col | None => ∅ end in
                mkParse header emailCol (out ++ [mkRecipient email vars]) ({[ToLower email]} ∪ seen) problems
          end
      end.

Fixpoint parse_lines (st : parse_state) (i : nat) (ls : list string) : parse_state :=
  match ls with [] => st | l :: ls' => parse_lines (parse_line st i l) (S i) ls' end.

Definition ParseRecipients (input : string) : result (list Recipient * list string) :=
  let lines := Split (ReplaceAll input (String CR (String LF "")) (String LF "")) LF in
  let st := parse_lines (mkParse None None [] ∅ []) O lines in
  match ps_out st, ps_problems st with
  | [], [] => Err "no recipients found"
  | out, problems => Ok (out, problems)
  end.
End Lists.

(** ** The store *)

Record CampaignStore := mkCStore { cs_campaigns : gmap string Campaign; cs_order : list string }.

Definition NewStore : CampaignStore := mkCStore ∅ [].

Definition Put (c : Campaign) (s : CampaignStore) : CampaignStore :=
  mkCStore (<[c_ID c := c]> (cs_campaigns s))
    (match cs_campaigns s !! c_ID c with None => cs_order s ++ [c_ID c] | Some _ => cs_order s end).

Definition Get (id : string) (s : CampaignStore) : option Campaign := cs_campaigns s !! id.

Definition List_campaigns (s : CampaignStore) : list Campaign :=
  omap (fun id => cs_campaigns s !! id) (reverse (cs_order s)).

(** The first occurrence goes. *)
Fixpoint remove_first (id : string) (l : list string) : list string :=
  match l with
  | [] => []
  | x :: l' => if (x =? id)%string then l' else x :: remove_first id l'
  end.

Definition Delete (id : string) (s : CampaignStore) : bool * CampaignStore :=
  match cs_campaigns s !! id with
  | None => (false, s)
  | Some _ => (true, mkCStore (delete id (cs_campaigns s)) (remove_first id (cs_order s)))
  end.

(** ** The runner *)

(** Where a run's goroutine is: about to take the lock, asking the suppression list about a
    recipient, waiting for its turn, handing the copy over, about to record how that went,
    and done but for clearing its registration. *)
Inductive pc :=
| Top
| Asking (r : Recipient)
| Waiting (r : Recipient)
| Sending (r : Recipient)
| Recording (r : Recipient) (err : option string)
| Leaving.

Record goroutine := mkGo { g_token : Z; g_cancelled : bool; g_pc : pc }.

(** The calls of the handlers that have done their first critical section: a Start that has
    yet to register its run, a Pause or Cancel that has yet to stop it. *)
Inductive pending := Registering | Stopping.

(** What became of a recipient: the queue took the copy, it could not be handed over, or the
    address was suppressed. *)
Inductive fate := Handed | Refused | Passed.

#[global] Instance fate_eq_dec : EqDecision fate.
Proof. solve_decision. Defined.

(** One campaign with its runs; [w_log] are the attempts made, in order. *)
Set Primitive Projections.
Record world := mkWorld {
  w_campaign : Campaign;
  w_run : option Z;                  (** the token registered for it *)
  w_nextToken : Z;
  w_gos : list goroutine;
  w_pending : list pending;
  w_log : list (string * fate)
}.
Unset Primitive Projections.

Definition with_state (st : CampaignState) (c : Campaign) : Campaign := c <| c_State := st |>.

(** The critical section at the top of the loop: the next recipient, or the end. *)
Definition loop_top (c : Campaign) : Campaign * option Recipient :=
  match c_State c, c_Recipients c !! Z.to_nat (attempted c) with
  | StateRunning, Some r => (c, Some r)
  | StateRunning, None => (with_state StateCompleted c, None)
  | _, _ => (c, None)
  end.

Definition cancel_run (token : option Z) (gs : list goroutine) : list goroutine :=
  (fun g => if bool_decide (token = Some (g_token g)) then mkGo (g_token g) true (g_pc g) else g) <$> gs.

(** The steps of a goroutine, from [g] to [g'], [None] when it has returned. *)
Inductive go_step : world -> goroutine -> option goroutine -> world -> Prop :=
| step_next w g r c' :
    g_pc g = Top -> loop_top (w_campaign w) = (c', Some r) ->
    go_step w g (Some (mkGo (g_token g) (g_cancelled g) (Asking r))) (w <| w_campaign := c' |>)
| step_end w g c' :
    g_pc g = Top -> loop_top (w_campaign w) = (c', None) ->
    go_step w g (Some (mkGo (g_token g) (g_cancelled g) Leaving)) (w <| w_campaign := c' |>)
| step_suppressed w g r :
    g_pc g = Asking r ->
    go_step w g (Some (mkGo (g_token g) (g_cancelled g) Top))
      (w <| w_campaign ::= fun c => c <| c_Skipped ::= Z.add 1 |> |> <| w_log ::= fun l => l ++ [(rc_Email r, Passed)] |>)
| step_sendable w g r :
    g_pc g = Asking r -> go_step w g (Some (mkGo (g_token g) (g_cancelled g) (Waiting r))) w
| step_tick w g r :
    g_pc g = Waiting r -> go_step w g (Some (mkGo (g_token g) (g_cancelled g) (Sending r))) w
| step_stopped w g r :
    g_pc g = Waiting r -> g_cancelled g = true ->
    go_step w g (Some (mkGo (g_token g) (g_cancelled g) Leaving)) w
| step_finish w g :
    g_pc g = Leaving ->
    go_step w g None (w <| w_run ::= fun t => if bool_decide (t = Some (g_token g)) then None else t |>)
| step_handed w g r :
    g_pc g = Sending r ->
    go_step w g (Some (mkGo (g_token g) (g_cancelled g) (Recording r None)))
      (w <| w_log ::= fun l => l ++ [(rc_Email r, Handed)] |>)
| step_refused w g r e :
    g_pc g = Sending r ->
    go_step w g (Some (mkGo (g_token g) (g_cancelled g) (Recording r (Some e))))
      (w <| w_log ::= fun l => l ++ [(rc_Email r, Refused)] |>)
| step_sent w g r :
    g_pc g = Recording r None ->
    go_step w g (Some (mkGo (g_token g) (g_cancelled g) Top)) (w <| w_campaign ::= fun c => c <| c_Sent ::= Z.add 1 |> |>)
| step_failed w g r e :
    g_pc g = Recording r (Some e) ->
    go_step w g (Some (mkGo (g_token g) (g_cancelled g) Top))
      (w <| w_campaign ::= fun c => c <| c_Failed ::= Z.add 1 |> <| c_LastError := e |> |>).

(** The steps of the handlers: Start, Pause, Cancel in their two critical sections, StopAll,
    and a step of any goroutine. *)
Section Steps.
Context `{U : UnicodeTables} `{NM : NetMail}.

Inductive step : world -> world -> Prop :=
| start_mark w :
    CanStart (w_campaign w) = true -> Validate (w_campaign w) = Ok tt ->
    step w (w <| w_campaign ::= with_state StateRunning |> <| w_pending ::= cons Registering |>)
| start_register w l k :
    w_pending w = l ++ Registering :: k -> w_run w = None ->
    step w (w <| w_pending := l ++ k |> <| w_nextToken ::= Z.add 1 |> <| w_run := Some (w_nextToken w + 1) |>
              <| w_gos ::= cons (mkGo (w_nextToken w + 1) false Top) |>)
| start_refused w l k t :
    w_pending w = l ++ Registering :: k -> w_run w = Some t -> step w (w <| w_pending := l ++ k |>)
| pause_mark w :
    c_State (w_campaign w) = StateRunning ->
    step w (w <| w_campaign ::= with_state StatePaused |> <| w_pending ::= cons Stopping |>)
| cancel_mark w :
    c_State (w_campaign w) <> StateCompleted -> c_State (w_campaign w) <> StateCancelled ->
    step w (w <| w_campaign ::= with_state StateCancelled |> <| w_pending ::= cons Stopping |>)
| stop w l k :
    w_pending w = l ++ Stopping :: k ->
    step w (w <| w_pending := l ++ k |> <| w_run := None |> <| w_gos ::= cancel_run (w_run w) |>)
| stop_all w :
    step w (w <| w_run := None |> <| w_gos ::= cancel_run (w_run w) |>)
| run_step w w' l g k g' :
    w_gos w = l ++ g :: k -> go_step w g g' w' ->
    step w (w' <| w_gos := l ++ match g' with Some g' => g' :: k | None => k end |>).
End Steps.

(** ** Each recipient once *)

(** A campaign that has not been started. *)
Definition fresh_world (c : Campaign) : world := mkWorld c None 0 [] [] [].

Definition emails (c : Campaign) : list string := rc_Email <$> c_Recipients c.

Definition count_fate (f : fate) (l : list (string * fate)) : Z :=
  Z.of_nat (length (filter (fun x => snd x = f) l)).

(** The attempts [l] have been counted: they are the first recipients of the list, in its
    order, and the counters say what became of them. *)
Definition counted (rs : list Recipient) (c : Campaign) (l : list (string * fate)) : Prop :=
  c_Recipients c = rs /\ l.*1 = take (length l) (rc_Email <$> rs) /\ (length l <= length rs)%nat /\
  c_Sent c = count_fate Handed l /\ c_Failed c = count_fate Refused l /\ c_Skipped c = count_fate Passed l.

(** Where the one goroutine stands with respect to them. *)
Definition standing (rs : list Recipient) (l : list (string * fate)) (log : list (string * fate)) (p : pc) : Prop :=
  match p with
  | Top | Leaving => log = l
  | Asking r | Waiting r | Sending r => log = l /\ rs !! length l = Some r
  | Recording r err =>
      log = l ++ [(rc_Email r, match err with None => Handed | Some _ => Refused end)] /\ rs !! length l = Some r
  end.

Definition orderly (rs : list Recipient) (w : world) : Prop :=
  exists l, counted rs (w_campaign w) l /\
    (c_State (w_campaign w) = StateCompleted -> length l = length rs) /\
    match w_gos w with
    | [] => w_log w = l
    | [g] => standing rs l (w_log w) (g_pc g)
    | _ => False
    end.

Lemma count_fate_app f l k : count_fate f (l ++ k) = count_fate f l + count_fate f k.
Proof. unfold count_fate. rewrite filter_app, length_app. lia. Qed.

Lemma count_fate_one f g a : count_fate f [(a, g)] = if bool_decide (g = f) then 1 else 0.
Proof. by destruct f, g. Qed.

Lemma count_fate_all l :
  count_fate Handed l + count_fate Refused l + count_fate Passed l = Z.of_nat (length l).
Proof.
  induction l as [|[a f] l IH]; [done|]. unfold count_fate in *.
  rewrite !filter_cons. destruct f; cbn; repeat case_decide; try done; cbn [length] in *; lia.
Qed.

Lemma counted_index rs c l : counted rs c l -> Z.to_nat (attempted c) = length l.
Proof.
  intros (_ & _ & _ & E1 & E2 & E3). unfold attempted. rewrite E1, E2, E3.
  pose proof (count_fate_all l). lia.
Qed.

(** One more attempt, for the recipient whose turn it is. *)
Lemma counted_more rs c c' l r f :
  counted rs c l -> rs !! length l = Some r -> c_Recipients c' = c_Recipients c ->
  c_Sent c' = c_Sent c + count_fate Handed [(rc_Email r, f)] ->
  c_Failed c' = c_Failed c + count_fate Refused [(rc_Email r, f)] ->
  c_Skipped c' = c_Skipped c + count_fate Passed [(rc_Email r, f)] ->
  counted rs c' (l ++ [(rc_Email r, f)]).
Proof.
  intros (Hr & Hl & Hn & E1 & E2 & E3) Hk Hr' S1 S2 S3. unfold counted. rewrite !count_fate_app, Hr', S1, S2, S3, E1, E2, E3.
  rewrite fmap_app, length_app, Hl. cbn [length fmap list_fmap fst].
  apply lookup_lt_Some in Hk as Hlt. split_and!; try done; [|lia].
  rewrite Nat.add_1_r. symmetry. apply take_S_r. by rewrite list_lookup_fmap, Hk.
Qed.

(** A change of state alone. *)
Lemma counted_state rs c st l : counted rs c l -> counted rs (with_state st c) l.
Proof. done. Qed.

Lemma loop_top_spec rs c l c' o :
  counted rs c l -> loop_top c = (c', o) ->
  (c_State c = StateCompleted -> length l = length rs) ->
  counted rs c' l /\ (c_State c' = StateCompleted -> length l = length rs) /\
  (forall r, o = Some r -> rs !! length l = Some r).
Proof.
  intros Hc Ht Hd. pose proof (counted_index rs c l Hc) as Hi. pose proof Hc as (Hr & _ & Hn & _).
  unfold loop_top in Ht. rewrite Hi, Hr in Ht.
  destruct (c_State c) eqn:Es, (rs !! length l) as [r|] eqn:Er; injection Ht as <- <-; split_and!;
    try done; try (intros ? [=]; congruence); try (rewrite Es; done).
  intros _. apply lookup_ge_None in Er. lia.
Qed.

Lemma go_step_orderly rs w g g' w' :
  w_gos w = [g] -> orderly rs w -> go_step w g g' w' ->
  orderly rs (w' <| w_gos := match g' with Some g' => [g'] | None => [] end |>).
Proof.
  intros Hg (l & Hc & Hd & Hst) Hs. rewrite Hg in Hst.
  destruct Hs as [w g r c' Hp Ht|w g c' Hp Ht|w g r Hp|w g r Hp|w g r Hp|w g r Hp Hx|w g Hp|w g r Hp|w g r e Hp
                 |w g r Hp|w g r e Hp]; rewrite Hp in Hst; cbn [standing] in Hst.
  - destruct (loop_top_spec rs _ l _ _ Hc Ht Hd) as (Hc' & Hd' & Hr). exists l. split_and!; try done. cbn. auto.
  - destruct (loop_top_spec rs _ l _ _ Hc Ht Hd) as (Hc' & Hd' & _). by exists l.
  - destruct Hst as [Hlog Hr]. exists (l ++ [(rc_Email r, Passed)]). split_and!.
    + eapply counted_more; [exact Hc|exact Hr|done|..]; rewrite count_fate_one; case_bool_decide; try done; cbn; lia.
    + intros Hdone. apply Hd in Hdone. apply lookup_lt_Some in Hr. lia.
    + exact (f_equal (fun x => x ++ [(rc_Email r, Passed)]) Hlog).
  - by exists l.
  - by exists l.
  - exists l. by destruct Hst.
  - by exists l.
  - destruct Hst as [Hlog Hr]. exists l. split_and!; try done.
    split; [exact (f_equal (fun x => x ++ [(rc_Email r, Handed)]) Hlog)|done].
  - destruct Hst as [Hlog Hr]. exists l. split_and!; try done.
    split; [exact (f_equal (fun x => x ++ [(rc_Email r, Refused)]) Hlog)|done].
  - destruct Hst as [Hlog Hr]. exists (l ++ [(rc_Email r, Handed)]). split_and!.
    + eapply counted_more; [exact Hc|exact Hr|done|..]; rewrite count_fate_one; case_bool_decide; try done; cbn; lia.
    + intros Hdone. apply Hd in Hdone. apply lookup_lt_Some in Hr. lia.
    + exact Hlog.
  - destruct Hst as [Hlog Hr]. exists (l ++ [(rc_Email r, Refused)]). split_and!.
    + eapply counted_more; [exact Hc|exact Hr|done|..]; rewrite count_fate_one; case_bool_decide; try done; cbn; lia.
    + intros Hdone. apply Hd in Hdone. apply lookup_lt_Some in Hr. lia.
    + exact Hlog.
Qed.

Section Once.
Context `{U : UnicodeTables} `{NM : NetMail}.

(** A step after which no two runs of the campaign are alive: a run that was paused has
    returned before the next one starts. *)
Definition calm_step (w w' : world) : Prop := step w w' /\ (length (w_gos w') <= 1)%nat.

(** Nothing but the state and the calls in progress changes. *)
Lemma orderly_state rs w w' st :
  orderly rs w -> w_campaign w' = with_state st (w_campaign w) -> st <> StateCompleted ->
  w_gos w' = w_gos w -> w_log w' = w_log w -> orderly rs w'.
Proof.
  intros (l & Hc & Hd & Hst) Ec Hne Eg El. exists l. rewrite Ec, Eg, El. split_and!; try done.
Qed.

Lemma cancel_run_standing rs l log token gs :
  match gs with [] => log = l | [g] => standing rs l log (g_pc g) | _ => False end ->
  match cancel_run token gs with [] => log = l | [g] => standing rs l log (g_pc g) | _ => False end.
Proof. destruct gs as [|g [|]]; try done. cbn. by case_bool_decide. Qed.

Lemma calm_step_orderly rs w w' : orderly rs w -> calm_step w w' -> orderly rs w'.
Proof.
  intros Ho [Hs Hone]. destruct Hs as [w Hcan Hval|w l k Hp Hr|w l k t Hp Hr|w Hst|w H1 H2|w l k Hp|w|w w' l g k g' Hg Hgo].
  - by eapply orderly_state.
  - destruct Ho as (l' & Hc & Hd & Hst). change (S (length (w_gos w)) <= 1)%nat in Hone.
    exists l'. split; [exact Hc|]. split; [exact Hd|].
    change (match mkGo (w_nextToken w + 1) false Top :: w_gos w with
            | [] => w_log w = l' | [g] => standing rs l' (w_log w) (g_pc g) | _ => False end).
    revert Hst Hone. generalize (w_gos w). intros [|g gs]; [done|cbn; lia].
  - by destruct Ho as (l' & ?); exists l'.
  - by eapply orderly_state.
  - by eapply orderly_state.
  - destruct Ho as (l' & Hc & Hd & Hst). exists l'. split; [exact Hc|]. split; [exact Hd|]. by apply cancel_run_standing.
  - destruct Ho as (l' & Hc & Hd & Hst). exists l'. split; [exact Hc|]. split; [exact Hd|]. by apply cancel_run_standing.
  - destruct Ho as (l' & Hc & Hd & Hst). destruct l as [|x l]; [destruct k as [|y k]|]; rewrite Hg in Hst.
    + eapply (go_step_orderly rs w g g' w'); [done| |done]. exists l'. rewrite Hg. done.
    + done.
    + by destruct l.
Qed.
End Once.

(** C17 (every recipient once).  However a campaign is started, paused, resumed, cancelled
    and interrupted, and whatever the queue and the suppression list answer, as long as a
    paused run has returned before the next one starts: the attempts made so far are the
    first recipients of the list, each once and in order; at every moment the counters of
    sent, failed and skipped are exactly what became of these attempts, short of at most
    one, the last, that is being recorded; and when the campaign is completed and its run
    has returned, every recipient has had its attempt and all are recorded. *)
Theorem campaign_each_once `{U : UnicodeTables} `{NM : NetMail} (c : Campaign) (w : world)
    (Hnew : c_Sent c = 0 /\ c_Failed c = 0 /\ c_Skipped c = 0) (Hstate : c_State c = StateDraft)
    (Hrun : rtc calm_step (fresh_world c) w) :
  exists recorded unrecorded, w_log w = recorded ++ unrecorded /\
    (w_log w).*1 = take (length (w_log w)) (emails c) /\
    c_Sent (w_campaign w) = count_fate Handed recorded /\
    c_Failed (w_campaign w) = count_fate Refused recorded /\
    c_Skipped (w_campaign w) = count_fate Passed recorded /\
    (length unrecorded <= 1)%nat /\
    (c_State (w_campaign w) = StateCompleted -> w_gos w = [] -> (w_log w).*1 = emails c /\ unrecorded = []).
Proof.
  assert (orderly (c_Recipients c) w) as (l & Hc & Hd & Hst).
  { refine (rtc_keeps calm_step (orderly (c_Recipients c)) _ _ _ Hrun _).
    { intros x y Hs Hx. by apply (calm_step_orderly _ x). }
    destruct Hnew as (E1 & E2 & E3). exists []. split_and!; try done; [|cbn; by rewrite Hstate].
    repeat split; cbn; try done; lia. }
  pose proof Hc as (Hr & Hl & Hn & E1 & E2 & E3).
  assert (exists u, w_log w = l ++ u /\ (length u <= 1)%nat /\
            (u = [] \/ exists r f, u = [(rc_Email r, f)] /\ c_Recipients c !! length l = Some r) /\
            (w_gos w = [] -> u = [])) as (u & Hlog & Hu & Hlast & Hend).
  { destruct (w_gos w) as [|g [|]]; [exists []; rewrite app_nil_r; auto| |done].
    destruct (g_pc g) as [|r|r|r|r e|]; cbn in Hst.
    5: { destruct Hst as [-> Hk]. eexists. split; [done|]. split; [done|]. split; [right; by eexists _, _|done]. }
    all: exists []; rewrite app_nil_r; split; [|auto]; by destruct Hst. }
  exists l, u. rewrite Hlog, length_app. split_and!; [done| |done|done|done|done|].
  - rewrite fmap_app, Hl. destruct Hlast as [->|(r & f & -> & Hk)].
    + cbn. by rewrite app_nil_r, Nat.add_0_r.
    + cbn. rewrite Nat.add_1_r. symmetry. apply take_S_r. unfold emails. by rewrite list_lookup_fmap, Hk.
  - intros Hdone Hg. rewrite (Hend Hg), app_nil_r. specialize (Hd Hdone). split; [|done].
    rewrite Hl, Hd. unfold emails. apply take_ge. by rewrite length_fmap.
Qed.

(** ** Runs *)

#[local] Existing Instance ascii_tables.
#[local] Instance any_address : NetMail :=
  {| ParseAddress v := if Contains v "@" then Some v else None; ParseAddressList v := Some [v] |}.

Definition ann : Recipient := mkRecipient "ann@a.example" ∅.
Definition bob : Recipient := mkRecipient "bob@b.example" ∅.
Definition newsletter : Campaign :=
  mkCampaign "c1" "news" "news@elemta.example" "" "Hello" "" "Dear reader" [ann; bob] 60 StateDraft 0 0 0 "".

(** A step followed by a run, with the world between them evaluated. *)
Lemma run_on x y y' z : step x y' -> y = y' -> rtc step y z -> rtc step x z.
Proof. intros H -> Hr. by eapply rtc_l. Qed.

Lemma run_calm x y y' z : step x y' -> y = y' -> (length (w_gos y) <= 1)%nat -> rtc calm_step y z -> rtc calm_step x z.
Proof. intros H -> Hn Hr. by eapply rtc_l. Qed.

Ltac evaluated := match goal with |- ?y = ?t => let t' := eval vm_compute in t in unify y t'; reflexivity end.
Ltac handler tac :=
  lazymatch goal with
  | |- rtc step _ _ => eapply run_on; [tac|evaluated|]
  | _ => eapply run_calm; [tac|evaluated|cbn; lia|]
  end.
(** A step of the goroutine that stands after [l]. *)
Ltac goes l c := handler ltac:(eapply (run_step _ _ l); [reflexivity|eapply c; vm_compute; reflexivity]).

(** Two runs alive at once: the campaign is paused while a copy is being handed over and
    resumed before that is recorded.  The first recipient gets two copies, the second
    none, and the campaign is completed. *)
Example resumed_while_sending :
  exists w, rtc step (fresh_world newsletter) w /\ w_gos w = [] /\ c_State (w_campaign w) = StateCompleted /\
    w_log w = [("ann@a.example", Handed); ("ann@a.example", Handed)] /\ c_Sent (w_campaign w) = 2.
Proof.
  eexists. split.
  { handler ltac:(apply start_mark; by vm_compute).
    handler ltac:(by apply (start_register _ [] [])).
    goes (@nil goroutine) step_next. goes (@nil goroutine) step_sendable. goes (@nil goroutine) step_tick.
    handler ltac:(by apply pause_mark).
    handler ltac:(by apply (stop _ [] [])).
    handler ltac:(apply start_mark; by vm_compute).
    handler ltac:(by apply (start_register _ [] [])).
    goes (@nil goroutine) step_next. goes (@nil goroutine) step_sendable. goes (@nil goroutine) step_tick.
    goes (@nil goroutine) step_handed. goes (@nil goroutine) step_sent.
    goes [mkGo 2 false Top] step_handed. goes [mkGo 2 false Top] step_sent.
    goes [mkGo 2 false Top] step_end. goes [mkGo 2 false Top] step_finish.
    goes (@nil goroutine) step_end. goes (@nil goroutine) step_finish. apply rtc_refl. }
  by vm_compute.
Qed.

(** Paused after the first copy, resumed when that run has returned, the second address
    suppressed. *)
Definition sent_one_skipped_one : world :=
  mkWorld (newsletter <| c_State := StateCompleted |> <| c_Sent := 1 |> <| c_Skipped := 1 |>) None 2 [] []
    [("ann@a.example", Handed); ("bob@b.example", Passed)].

Lemma campaign_each_once_witness :
  let w := sent_one_skipped_one in
  exists recorded unrecorded, w_log w = recorded ++ unrecorded /\
    (w_log w).*1 = take (length (w_log w)) ["ann@a.example"; "bob@b.example"] /\
    c_Sent (w_campaign w) = count_fate Handed recorded /\
    c_Failed (w_campaign w) = count_fate Refused recorded /\
    c_Skipped (w_campaign w) = count_fate Passed recorded /\
    (length unrecorded <= 1)%nat /\
    (c_State (w_campaign w) = StateCompleted -> w_gos w = [] ->
     (w_log w).*1 = ["ann@a.example"; "bob@b.example"] /\ unrecorded = []).
Proof.
  apply (campaign_each_once newsletter sent_one_skipped_one); [done|done|].
  handler ltac:(apply start_mark; by vm_compute).
  handler ltac:(by apply (start_register _ [] [])).
  goes (@nil goroutine) step_next. goes (@nil goroutine) step_sendable. goes (@nil goroutine) step_tick.
  goes (@nil goroutine) step_handed.
  handler ltac:(by apply pause_mark).
  goes (@nil goroutine) step_sent.
  handler ltac:(by apply (stop _ [] [])).
  goes (@nil goroutine) step_end. goes (@nil goroutine) step_finish.
  handler ltac:(apply start_mark; by vm_compute).
  handler ltac:(by apply (start_register _ [] [])).
  goes (@nil goroutine) step_next. goes (@nil goroutine) step_suppressed.
  goes (@nil goroutine) step_end. goes (@nil goroutine) step_finish. apply rtc_refl.
Defined.
